(* ===== verification/_CoqProject ===== *)
-Q . S2P
Prelude.v
I386.v
CString.v
Linked.v
Format.v
Float.v
Directives.v
PageSource.v
Ports.v
Spinlock.v
Pci.v
Ide.v
AtaDrives.v
BochsVga.v
Serial.v
Console.v
Panic.v
Display.v
Keyboard.v
AtKeyboard.v
Kash.v
Acpi.v
Interrupts.v
IrqStubs.v
Sched.v
SchedMachine.v
TaskSwitch.v
InitX86.v
Heap.v
Asprintf.v
KeyboardStart.v
Paging.v
Bootstrap.v
HeapPages.v
MemoryMap.v
MemoryRegion.v
KernelTests.v
Boot.v
Multiboot2.v
Loader.v
Kernel.v
