(* ===== verification/Prelude.v ===== *)
(** IKAROS: a verification development for the kernel and its C library.

    IKAROS is a small kernel for the 32-bit PC.  This library models its C code
    file by file and proves what makes each part correct; paths below are those
    of the repository (kernel/..., libc/...).

    ** The program

    boot.S jumps to [_multiboot2_main] (kernel/arch/i386/kernel/boot/main.c),
    which reads the information of the loader into the memory map, sets up the
    page frame allocator on the last usable region above 1 MB, takes out the
    pages of the kernel image, runs the early and arch initcalls (paging, the heap's
    frames, segments, interrupts, keyboard) and chooses a display.  [kernel_main]
    (kernel/kernel/kernel.c) then reports ACPI and PCI, starts the scheduler with
    the tasks idle and kash, and runs the remaining initcalls (the IDE driver).
    From then on the two tasks and the interrupt handlers share the processor:
    the keyboard handler decodes scan codes into a ring of keys, the timer wakes
    sleepers, kash copies the keys typed to the console.

    ** The files, in order of dependency

    - Prelude.v: integers of a given width as [Z] with casts, [res] (a result or a
      fault), arrays, byte memory, loops with fuel, and their lemmas and tactics.
    - I386.v: the processor: registers, flags, the instructions of the assembly,
      and the rules by which the assembly is executed symbolically.
    - CString.v, Format.v, Float.v, Asprintf.v: libc, i.e. string.h, strings.h and
      atoi; the printf family (libc/stdio/snprintf.c), its conversion of doubles,
      and asprintf, which prints into a block of the heap (Heap.v).
    - Directives.v: formats as lists of characters and directives, the text that
      each prints, and that vsnprintf prints it.
    - Linked.v: linked lists through a store, used by tasks and PCI devices.
    - PageSource.v: the interface between users of page frames and the
      allocator; MemoryRegion.v discharges it, Heap.v and Paging.v use it.
    - MemoryRegion.v, MemoryMap.v: kernel/kernel/memory/memory_region.c and
      memory_map.c.
    - KernelTests.v: the unit tests of the kernel, run on MemoryRegion.v.
    - Heap.v: malloc and free (libc/stdlib/malloc.c, kernel build with checksums).
    - Paging.v: page tables, recursive mapping and the MMIO window
      (kernel/arch/i386/kernel/memory/paging.c and mmio.c, memory_manager.h).
    - Ports.v: sys/io.h over the class [Ports]; everything that talks to a
      device is proved for any instance, for a script of answers, or for a
      model of the device.
    - Spinlock.v: sys/spinlock.h and the interrupt flag (irq.h, scheduler.h) as
      programs of atomic actions, and their interleaving with interrupts.
    - Pci.v, Ide.v, BochsVga.v: kernel/kernel/pci/pci.c with its headers;
      drivers/ide/pci_ide.c; graphics/bochs_vga.c.
    - AtaDrives.v: two channels with four drives behind the ports, and what the
      detection of Ide.v reports of them.
    - Serial.v: debug/serial_debug.c and drivers/debug/pc_serial_debug.c.
    - Console.v, Display.v: console/console.c over the class [ConsoleOps], whose
      instances are fbconsole.c, vga_console.c and null_console.c.
    - Panic.v: printf on that console, panic.c, abort.c and putchar.c.
    - Keyboard.v, AtKeyboard.v: input/keyboard.c and
      drivers/keyboard/at_keyboard.c.
    - KeyboardStart.v: the driver's structure in the heap (init_at_keyboard).
    - Kash.v: the task kash, interleaved with the keyboard interrupt.
    - Acpi.v: acpi/acpi_x86.c and acpi/acpi.c.
    - Interrupts.v: the interrupt controllers, the descriptor table and the
      dispatch (irq/pic.c, irq/irq.c).
    - IrqStubs.v: the entry stubs of irq.c, instruction by instruction.
    - Sched.v, SchedMachine.v: scheduler/scheduler.c, wait.c, task.c and the
      timer; the scheduler as a state machine.
    - TaskSwitch.v: scheduler/task_switch.S.
    - Bootstrap.v: boot/boot.S, up to the call of _init.
    - HeapPages.v: the heap's byte memory implemented by the page tables.
    - InitX86.v: boot/initx86.c, gdt.h, idt.h, tss.h, delay.c.
    - Boot.v: boot/main.c.
    - Multiboot2.v: the structures of boot/multiboot2.h and their bytes, and the
      start of main.c from them.
    - Loader.v: boot.S and main.c together, from the state that the loader leaves.
    - Kernel.v: kernel.c and the tables of initcalls (initcall.c).

    A definition has the name of the C function, macro, type or static variable
    it translates.  The body of a loop is a definition of its own where a
    theorem speaks of it.  Names that C keeps apart by file are kept apart by
    file here too ([Sched.t], [Pci.t], [Heap.t] are the statics of a file).

    ** How state and faults are modelled

    Pointers are addresses ([Z], 0 is NULL) into byte memory where the code
    works on bytes (libc, heap, boot information, ACPI), and into stores of
    records where it works on linked objects (regions, tasks, wait entries, PCI
    nodes).  What C leaves undefined or the processor traps is a value of
    [fault]: an access outside of an array or of mapped memory, a NULL pointer, a
    signed overflow, a general protection exception, a panic (what it prints is in
    Panic.v).  A theorem that an
    operation ends in [Ok] therefore says that none of this happens.

    Loops that recurse on no structure take fuel.  Running out of it is the fault
    [OutOfFuel]; a theorem that gives the result for all fuel above a bound proves
    termination, one that gives [OutOfFuel] for all fuel proves that the loop does
    not end.  The bounds: the number of regions, tasks, PCI nodes or list
    elements for the walks over lists; the length of a string for its scans; 8193
    steps for the search of the ACPI table (8192 paragraphs); 257 for the scans
    of an escape sequence, whose length is one byte; 256 nested buses; the number
    of initcalls; for a status loop, the answers of the device.

    ** The theorems

    - Memory: the allocator returns a free page, each at most once, and stops only
      when none is left; the heap's fresh blocks are aligned, apart and mapped, and
      refused only when the frames run out, freeing merges with the first neighbour
      on the free list and keeps the other blocks; its byte memory is refined by
      accesses through the page tables; mapping a page makes the page walk translate
      it and changes no other page, and [mm_get_physaddr] is equivalent to that walk; the MMIO window maps a device byte by byte; the
      boot reads back what the loader's structures hold and leaves exactly the pages
      of the kernel in use.
    - Tasks: in all reachable states the tasks form a ring with the running one in
      it ([SchedMachine.scheduler_ring_invariant]); yields pick the next running
      task and give everybody a turn; a wake-up wakes exactly the waiters; a lock
      with the interrupt flag off excludes everything else on the processor.
    - Devices: PCI enumeration refines the tree of buses described by
      configuration space; the IDE detection reports the drives on the two channels; the
      8259 pair, the descriptor table and the dispatch bring each interrupt to its
      handler and acknowledge it; the serial port receives the text in order.
    - Text: vsnprintf prints the text of every format of directives, never writes
      beyond its buffer, and its decimals are read back by atoi; %f has its layout over exact numbers; asprintf leaves its text in a new
      block of a well-formed heap; the console refines a simple screen for plain
      text, applies colour sequences, and faults exactly on an escape sequence that is
      too long or has a parameter that is too large;
      a panic shows its message; glyphs stay in their cell; the shell echoes the keys
      typed in every interleaving with interrupts.
    - Assembly: boot.S hands over the tables that paging_earlyinit expects; an
      interrupt is transparent to the code it interrupts; a task that is switched
      back to goes on with every register as it was.
    - The whole: [Loader.loader_starts_kernel] composes the structures of the
      loader, the assembly, its page tables and main.c;
      [Kernel.kernel_main_starts_tasks] composes ACPI, PCI, initcalls and scheduler.

    Many behaviours that are not what the code means to do are proved as well,
    e.g. a size of a free block that is changed by splitting it, a wait queue that
    hangs when the only running task waits, a stub whose iret faults, a palette taken
    for colour masks, a boot that halts or not by what memory holds at 32768, and a key sequence
    that makes the console write outside of its buffer.

    ** Not modelled

    - crti.S and crtn.S, the ends of _init and _fini, which the tool chain fills;
      single instructions in C functions (hlt, invlpg, lidt, ltr, reading CR3) are
      part of the models of those functions.
    - The floating point unit: Float.v is generic in its operations; what holds for
      all of them assumes that a conversion to long truncates, what %f prints is
      proved over exact rationals and evaluated on IEEE doubles.
    - The printing of the memory map and of boot messages: only formatted output.
    - The Multiboot 1 header, headers that only declare, and the block layer (its file is
      commented out).
    - Caches and the TLB: the code invalidates each page it maps.  Other
      processors: the kernel starts none, and the two locks of [malloc] have no
      effect on one processor. *)
From stdpp Require Export base tactics option list numbers fin_maps gmap strings.
From Stdlib Require Export ZArith Lia.

Declare Scope ikaros_scope.
Delimit Scope ikaros_scope with ik.
Open Scope Z_scope.

Create HintDb width.
Create Rewrite HintDb width.
Create HintDb res.
Create Rewrite HintDb res.

(** * Machine integers

    The kernel is compiled for i386: [char] is a signed byte, [int] and [long]
    are 32 bits wide, [uint64_t] is 64 bits wide.  A w-bit integer is a [Z];
    the wrap-around of every operation is written out with these casts. *)

Definition u8 (z : Z) : Z := z mod 256.
Definition u16 (z : Z) : Z := z mod 65536.
Definition u32 (z : Z) : Z := z mod 4294967296.
Definition u64 (z : Z) : Z := z mod 18446744073709551616.

Definition s8 (z : Z) : Z := if z mod 256 <? 128 then z mod 256 else z mod 256 - 256.
Definition s32 (z : Z) : Z :=
  if z mod 4294967296 <? 2147483648 then z mod 4294967296 else z mod 4294967296 - 4294967296.

(** * Faults and the error monad

    A [Fault] is a behaviour C gives no meaning to (an access outside of an
    object, a signed overflow), a stop of the machine, an exception that the
    processor raises, or a loop that did not end within its fuel.  A theorem that
    concludes [... = Ok r] excludes all of them. *)

Inductive fault : Set :=
  | OutOfBounds
  | NullDeref
  | Unmapped
  | SignedOverflow
  | DivByZero
  | Panicked
  | GeneralProtection
  | OutOfFuel.

#[export] Instance fault_eq_dec : EqDecision fault.
Proof. solve_decision. Defined.

Inductive res (A : Type) : Type :=
  | Ok (a : A)
  | Fault (f : fault).
Arguments Ok {A} a.
Arguments Fault {A} f.

#[export] Instance res_ret : MRet res := λ A a, Ok a.
#[export] Instance res_bind : MBind res := λ A B k m,
  match m with Ok a => k a | Fault f => Fault f end.

#[export] Instance res_eq_dec {A} `{EqDecision A} : EqDecision (res A).
Proof. solve_decision. Defined.

Definition is_ok {A} (r : res A) : bool :=
  match r with Ok _ => true | Fault _ => false end.

(** Signed 32-bit arithmetic of C: an overflow is undefined behaviour. *)
Definition int_chk (z : Z) : res Z :=
  if (-2147483648 <=? z) && (z <=? 2147483647) then Ok z else Fault SignedOverflow.

(** * Arrays: C arrays are lists, an access out of range is a fault. *)

Definition aget {A} (l : list A) (i : Z) : res A :=
  if i <? 0 then Fault OutOfBounds
  else match l !! Z.to_nat i with Some x => Ok x | None => Fault OutOfBounds end.

Definition aset {A} (l : list A) (i : Z) (x : A) : res (list A) :=
  if (0 <=? i) && (i <? Z.of_nat (length l))
  then Ok (<[Z.to_nat i := x]> l) else Fault OutOfBounds.

(** * Byte memory: a partial map from addresses to bytes. *)

Abbreviation mem := (gmap Z Z).

Definition load8 (m : mem) (a : Z) : res Z :=
  match m !! a with Some b => Ok b | None => Fault Unmapped end.

Definition store8 (m : mem) (a b : Z) : res mem :=
  match m !! a with Some _ => Ok (<[a := b]> m) | None => Fault Unmapped end.

(** * Little-endian words *)

Fixpoint le_get (bs : list Z) : Z :=
  match bs with [] => 0 | b :: bs => b + 256 * le_get bs end.

Fixpoint le_put (n : nat) (z : Z) : list Z :=
  match n with O => [] | S n => z mod 256 :: le_put n (z / 256) end.

(** [uint32_t] accesses to byte memory. *)
Definition load32 (m : mem) (a : Z) : res Z :=
  b0 ← load8 m a; b1 ← load8 m (a + 1); b2 ← load8 m (a + 2); b3 ← load8 m (a + 3);
  Ok (le_get [b0; b1; b2; b3]).

Definition store32 (m : mem) (a w : Z) : res mem :=
  m ← store8 m a (w mod 256); m ← store8 m (a + 1) (w / 256 mod 256);
  m ← store8 m (a + 2) (w / 65536 mod 256); store8 m (a + 3) (w / 16777216 mod 256).

(** * Loops

    [for_up n i body s] is [for (k = i; k < i + n; k++) body].  [while] runs a
    body that either continues with a new state or leaves the loop; it is
    total by fuel. *)

Fixpoint for_up {S : Type} (n : nat) (i : Z) (body : Z → S → res S) (s : S) : res S :=
  match n with
  | O => Ok s
  | Datatypes.S n => s' ← body i s; for_up n (i + 1) body s'
  end.

Inductive ctl (S A : Type) : Type :=
  | Continue (s : S)
  | Break (a : A).
Arguments Continue {S A} s.
Arguments Break {S A} a.

Fixpoint while {S A : Type} (fuel : nat) (body : S → res (ctl S A)) (s : S) : res A :=
  match fuel with
  | O => Fault OutOfFuel
  | Datatypes.S fuel =>
      c ← body s;
      match c with Continue s' => while fuel body s' | Break a => Ok a end
  end.

(** [z] is a byte. *)
Definition is_byte (z : Z) : Prop := 0 ≤ z < 256.

#[export] Instance is_byte_dec z : Decision (is_byte z).
Proof. unfold is_byte. apply _. Defined.

(** * Tactics *)

(** Linear arithmetic with division and remainder by constants. *)
Ltac mlia := Z.div_mod_to_equations; lia.

(** Turn the boolean comparisons of the code into propositions. *)
Ltac bool_to_prop :=
  repeat match goal with
  | H : (_ && _) = true |- _ => apply andb_true_iff in H as [? ?]
  | H : (_ && _) = false |- _ => apply andb_false_iff in H
  | H : (_ || _) = true |- _ => apply orb_true_iff in H
  | H : (_ || _) = false |- _ => apply orb_false_iff in H as [? ?]
  | H : negb _ = true |- _ => apply negb_true_iff in H
  | H : negb _ = false |- _ => apply negb_false_iff in H
  | H : (_ <? _) = true |- _ => apply Z.ltb_lt in H
  | H : (_ <? _) = false |- _ => apply Z.ltb_ge in H
  | H : (_ <=? _) = true |- _ => apply Z.leb_le in H
  | H : (_ <=? _) = false |- _ => apply Z.leb_gt in H
  | H : (_ =? _) = true |- _ => apply Z.eqb_eq in H
  | H : (_ =? _) = false |- _ => apply Z.eqb_neq in H
  end.

(** Case analysis on the test of an [if] of the goal. *)
Ltac case_test :=
  match goal with
  | |- context [if ?b then _ else _] =>
      lazymatch type of b with bool => destruct b eqn:?; bool_to_prop end
  end.

(** Case analysis on every test of the goal, closing what arithmetic closes. *)
Ltac case_tests := repeat (case_test; try lia).

(** Decide a test of the goal whose value arithmetic gives. *)
Ltac test_true b := replace b with true by (symmetry; first [apply Z.ltb_lt | apply Z.leb_le | apply Z.eqb_eq]; lia).
Ltac test_false b := replace b with false by (symmetry; first [apply Z.ltb_ge | apply Z.leb_gt | apply Z.eqb_neq]; lia).

(** * Lemmas: machine integers *)

Lemma u8_range z : 0 ≤ u8 z < 256.
Proof. unfold u8. mlia. Qed.
Lemma u16_range z : 0 ≤ u16 z < 65536.
Proof. unfold u16. mlia. Qed.
Lemma u32_range z : 0 ≤ u32 z < 4294967296.
Proof. unfold u32. mlia. Qed.
Lemma u64_range z : 0 ≤ u64 z < 18446744073709551616.
Proof. unfold u64. mlia. Qed.
Lemma u8_small z : 0 ≤ z < 256 → u8 z = z.
Proof. intros. unfold u8. apply Z.mod_small. lia. Qed.
Lemma u16_small z : 0 ≤ z < 65536 → u16 z = z.
Proof. intros. unfold u16. apply Z.mod_small. lia. Qed.
Lemma u32_small z : 0 ≤ z < 4294967296 → u32 z = z.
Proof. intros. unfold u32. apply Z.mod_small. lia. Qed.
Lemma u64_small z : 0 ≤ z < 18446744073709551616 → u64 z = z.
Proof. intros. unfold u64. apply Z.mod_small. lia. Qed.
Lemma s8_range z : -128 ≤ s8 z < 128.
Proof. unfold s8. case_test; mlia. Qed.
Lemma s32_range z : -2147483648 ≤ s32 z < 2147483648.
Proof. unfold s32. case_test; mlia. Qed.
Lemma s32_small z : -2147483648 ≤ z < 2147483648 → s32 z = z.
Proof. intros. unfold s32. case_test; mlia. Qed.
Lemma s8_inj x y : is_byte x → is_byte y → s8 x = s8 y → x = y.
Proof. unfold is_byte, s8. intros ??. repeat case_test; intros; mlia. Qed.
Lemma s8_byte_zero x : is_byte x → s8 x = 0 ↔ x = 0.
Proof. unfold is_byte, s8. intros. case_test; mlia. Qed.
Lemma int_chk_ok z : -2147483648 ≤ z ≤ 2147483647 → int_chk z = Ok z.
Proof. intros. unfold int_chk. case_test; [done|]. destruct Heqb; bool_to_prop; lia. Qed.

#[export] Hint Rewrite u8_small u16_small u32_small u64_small using lia : width.
#[export] Hint Resolve u8_range u16_range u32_range u64_range s8_range s32_range : width.

(** * Lemmas: the monad *)

Lemma bind_ok {A B} (m : res A) (k : A → res B) (b : B) :
  (m ≫= k) = Ok b ↔ ∃ a, m = Ok a ∧ k a = Ok b.
Proof. destruct m; cbn; naive_solver. Qed.

Lemma bind_Ok_l {A B} (a : A) (k : A → res B) : (Ok a ≫= k) = k a.
Proof. done. Qed.

#[export] Hint Rewrite @bind_Ok_l : res.

(** Decompose a hypothesis [m ≫= k = Ok b] into its steps. *)
Ltac inv_bind H :=
  let a := fresh "a" in let Ha := fresh "Hstep" in
  apply bind_ok in H as (a & Ha & H).

(** * Lemmas: arrays *)

Lemma aget_Ok {A} (l : list A) i x :
  aget l i = Ok x ↔ 0 ≤ i ∧ l !! Z.to_nat i = Some x.
Proof.
  unfold aget. case_test; [naive_solver lia|].
  destruct (l !! Z.to_nat i); naive_solver.
Qed.

Lemma aget_in {A} (l : list A) i : 0 ≤ i < Z.of_nat (length l) → ∃ x, aget l i = Ok x.
Proof.
  intros Hi. destruct (lookup_lt_is_Some_2 l (Z.to_nat i)) as [x Hx]; [lia|].
  exists x. apply aget_Ok. split; [lia|done].
Qed.

Lemma aget_out {A} (l : list A) i : Z.of_nat (length l) ≤ i → aget l i = Fault OutOfBounds.
Proof.
  intros Hi. unfold aget. case_test; [done|].
  by rewrite (proj2 (lookup_ge_None l (Z.to_nat i))) by lia.
Qed.

Lemma aset_ok {A} (l : list A) i x :
  0 ≤ i < Z.of_nat (length l) → aset l i x = Ok (<[Z.to_nat i := x]> l).
Proof. intros. unfold aset. case_test; [done|]. destruct Heqb; bool_to_prop; lia. Qed.

Lemma aset_Ok {A} (l l' : list A) i x :
  aset l i x = Ok l' ↔ 0 ≤ i < Z.of_nat (length l) ∧ l' = <[Z.to_nat i := x]> l.
Proof.
  unfold aset. case_test; [naive_solver lia|].
  split; [done|]. intros [? _]. destruct Heqb; bool_to_prop; lia.
Qed.

Lemma aset_out {A} (l : list A) i x : Z.of_nat (length l) ≤ i → aset l i x = Fault OutOfBounds.
Proof. intros. unfold aset. case_test; [lia|done]. Qed.

Lemma aget_insert_eq {A} (l : list A) i x :
  0 ≤ i < Z.of_nat (length l) → aget (<[Z.to_nat i := x]> l) i = Ok x.
Proof. intros. apply aget_Ok. split; [lia|]. apply list_lookup_insert_eq. lia. Qed.

Lemma aget_insert_ne {A} (l : list A) i j x :
  0 ≤ i → 0 ≤ j → i ≠ j → aget (<[Z.to_nat i := x]> l) j = aget l j.
Proof.
  intros. unfold aget. rewrite list_lookup_insert_ne; [done|]. lia.
Qed.

Lemma aget_mid {A} (pre : list A) x post i :
  i = Z.of_nat (length pre) → aget (pre ++ x :: post) i = Ok x.
Proof. intros ->. apply aget_Ok. rewrite Nat2Z.id, list_lookup_middle by done. split; [lia|done]. Qed.

(** * Lemmas: byte memory *)

Lemma load8_Ok m a b : load8 m a = Ok b ↔ m !! a = Some b.
Proof. unfold load8. destruct (m !! a); naive_solver. Qed.

Lemma store8_Ok m a b : is_Some (m !! a) → store8 m a b = Ok (<[a := b]> m).
Proof. intros [x Hx]. unfold store8. by rewrite Hx. Qed.

#[export] Hint Resolve store8_Ok : res.

(** * Lemmas: loops *)

Lemma for_up_inv {S} (I : Z → S → Prop) n lo body s :
  (∀ i s, lo ≤ i < lo + Z.of_nat n → I i s → ∃ s', body i s = Ok s' ∧ I (i + 1) s') →
  I lo s → ∃ s', for_up n lo body s = Ok s' ∧ I (lo + Z.of_nat n) s'.
Proof.
  revert lo s. induction n as [|n IH]; intros lo s Hb Hi.
  { exists s. split; [done|]. by replace (lo + Z.of_nat 0) with lo by lia. }
  destruct (Hb lo s) as (s' & Hs' & Hi'); [lia|done|].
  destruct (IH (lo + 1) s') as (s'' & Hs'' & Hi''); [|done|].
  { intros i t Hit. apply Hb. lia. }
  exists s''. cbn. rewrite Hs'. cbn. split; [done|].
  by replace (lo + Z.of_nat (Datatypes.S n)) with (lo + 1 + Z.of_nat n) by lia.
Qed.

(** The rule of total correctness for [while]: an invariant, a measure that
    decreases, and fuel above the measure. *)
Lemma while_total {S A} (I : S → Prop) (Q : A → Prop) (msr : S → nat)
    (body : S → res (ctl S A)) fuel s :
  (∀ s, I s →
    (∃ s', body s = Ok (Continue s') ∧ I s' ∧ (msr s' < msr s)%nat) ∨
    (∃ a, body s = Ok (Break a) ∧ Q a)) →
  I s → (msr s < fuel)%nat → ∃ a, while fuel body s = Ok a ∧ Q a.
Proof.
  intros Hb. revert s. induction fuel as [|fuel IH]; intros s Hi Hf; [lia|].
  destruct (Hb s Hi) as [(s' & Hs' & Hi' & Hlt)|(a & Ha & Hq)]; cbn.
  - rewrite Hs'. cbn. apply IH; [done|lia].
  - rewrite Ha. cbn. eauto.
Qed.

Lemma while_fuel_mono {S A} (body : S → res (ctl S A)) f f' s a :
  while f body s = Ok a → (f ≤ f')%nat → while f' body s = Ok a.
Proof.
  revert f' s. induction f as [|f IH]; intros f' s Hw Hle; [done|].
  destruct f' as [|f']; [lia|]. cbn in *.
  destruct (body s) as [[s'|b]|]; cbn in *; [|done..]. apply IH; [done|lia].
Qed.

(** [n] iterations of a counting loop that do not leave it. *)
Lemma while_steps {A} n k (body : Z → res (ctl Z A)) lo :
  (∀ i, lo ≤ i < lo + Z.of_nat n → body i = Ok (Continue (i + 1))) →
  while (n + k) body lo = while k body (lo + Z.of_nat n).
Proof.
  revert lo. induction n as [|n IH]; intros lo Hb.
  { by rewrite Z.add_0_r. }
  cbn [Nat.add while]. rewrite Hb by lia. cbn. rewrite IH by (intros; apply Hb; lia).
  f_equal. lia.
Qed.

(** A loop whose body keeps an invariant and always continues never ends. *)
Lemma while_diverges {S A} (I : S → Prop) (body : S → res (ctl S A)) fuel s :
  (∀ s, I s → ∃ s', body s = Ok (Continue s') ∧ I s') →
  I s → while fuel body s = Fault OutOfFuel.
Proof.
  intros Hb. revert s. induction fuel as [|fuel IH]; intros s Hi; [done|].
  destruct (Hb s Hi) as (s' & Hs' & Hi'). cbn. rewrite Hs'. cbn. by apply IH.
Qed.

(** A computation that may stop with some faults: [Q] on its results, [R] on
    its faults. *)
Definition post {A} (Q : A → Prop) (R : fault → Prop) (r : res A) : Prop :=
  match r with Ok a => Q a | Fault f => R f end.

Lemma post_bind {A B} (Q : A → Prop) (Q' : B → Prop) (R : fault → Prop) m (k : A → res B) :
  post Q R m → (∀ a, Q a → post Q' R (k a)) → post Q' R (m ≫= k).
Proof. destruct m; cbn; auto. Qed.

Lemma post_mono {A} (Q Q' : A → Prop) (R R' : fault → Prop) (r : res A) :
  post Q R r → (∀ a, Q a → Q' a) → (∀ f, R f → R' f) → post Q' R' r.
Proof. destruct r; cbn; auto. Qed.

Lemma while_post {S A} (I : S → Prop) (Q : A → Prop) (R : fault → Prop) (msr : S → nat)
    (body : S → res (ctl S A)) fuel s :
  (∀ s, I s → post (λ c, match c with Continue s' => I s' ∧ (msr s' < msr s)%nat | Break a => Q a end)
                   R (body s)) →
  I s → (msr s < fuel)%nat → post Q R (while fuel body s).
Proof.
  intros Hb. revert s. induction fuel as [|fuel IH]; intros s Hi Hf; [lia|]. cbn [while].
  eapply post_bind; [by apply Hb|]. intros [s'|a] Hc; [|done].
  destruct Hc as [Hi' Hlt]. apply IH; [done|lia].
Qed.

(** Partial correctness: whatever a loop ends with, its faults aside. *)
Lemma while_partial {S A} (I : S → Prop) (Q : A → Prop) (body : S → res (ctl S A)) fuel s :
  (∀ s, I s → post (λ c, match c with Continue s' => I s' | Break a => Q a end) (λ _, True) (body s)) →
  I s → post Q (λ _, True) (while fuel body s).
Proof.
  intros Hb. revert s. induction fuel as [|fuel IH]; intros s Hi; [done|]. cbn [while].
  eapply post_bind; [by apply Hb|]. intros [s'|a] Hc; [by apply IH|done].
Qed.

(** * Lemmas: bits and little-endian words *)

Lemma testbit_byte_add b r j :
  0 ≤ b < 256 → 0 ≤ j →
  Z.testbit (b + 256 * r) j = if j <? 8 then Z.testbit b j else Z.testbit r (j - 8).
Proof.
  intros Hb Hj. case_test.
  - rewrite <- (Z.mod_pow2_bits_low (b + 256 * r) 8) by lia.
    change (2 ^ 8) with 256. rewrite Z.mul_comm, Z_mod_plus_full, Z.mod_small by lia. done.
  - replace j with (j - 8 + 8) at 1 by lia.
    rewrite <- Z.div_pow2_bits by lia. change (2 ^ 8) with 256.
    rewrite Z.mul_comm, Z.div_add, Z.div_small by lia. done.
Qed.

Lemma length_le_put n z : length (le_put n z) = n.
Proof. revert z. induction n; intros; cbn; auto. Qed.

Lemma le_put_bytes n z : Forall is_byte (le_put n z).
Proof.
  revert z. induction n; intros; cbn; constructor; [|done].
  unfold is_byte. mlia.
Qed.

Lemma le_get_put n z : le_get (le_put n z) = z mod 2 ^ (8 * Z.of_nat n).
Proof.
  revert z. induction n as [|n IH]; intros z; cbn [le_get le_put].
  { by rewrite Z.mod_1_r. }
  rewrite IH. replace (8 * Z.of_nat (S n)) with (8 + 8 * Z.of_nat n) by lia.
  rewrite Z.pow_add_r by lia. change (2 ^ 8) with 256.
  rewrite Z.rem_mul_r; [done|lia|]. apply Z.pow_pos_nonneg; lia.
Qed.

Lemma le_put_get bs : Forall is_byte bs → le_put (length bs) (le_get bs) = bs.
Proof.
  induction 1 as [|b bs Hb Hbs IH]; cbn; [done|]. unfold is_byte in Hb.
  rewrite (Z.mul_comm 256), Z_mod_plus_full, Z.mod_small by lia.
  rewrite Z.div_add, Z.div_small by lia. by f_equal.
Qed.

Lemma le_get_range bs : Forall is_byte bs → 0 ≤ le_get bs < 2 ^ (8 * Z.of_nat (length bs)).
Proof.
  induction 1 as [|b bs Hb Hbs IH]; cbn [le_get length]; [lia|]. unfold is_byte in Hb.
  replace (8 * Z.of_nat (S (length bs))) with (8 + 8 * Z.of_nat (length bs)) by lia.
  rewrite Z.pow_add_r by lia. change (2 ^ 8) with 256. lia.
Qed.

(** A disjunction without common bits is a sum. *)
Lemma lor_low a b k : 0 ≤ k → 0 ≤ b < 2 ^ k → Z.lor (a * 2 ^ k) b = a * 2 ^ k + b.
Proof.
  intros Hk Hb. rewrite <- Z.lxor_lor; [symmetry; apply Z.add_nocarry_lxor|].
  all: apply Z.bits_inj'; intros n Hn; rewrite Z.land_spec, Z.bits_0, <- Z.shiftl_mul_pow2 by done.
  all: destruct (decide (n < k)); [by rewrite Z.shiftl_spec_low|].
  all: rewrite <- (Z.mod_small b (2 ^ k)), Z.mod_pow2_bits_high by lia; apply andb_false_r.
Qed.

(** * Lemmas: 32-bit accesses *)

(** [n] bytes from [p] on are mapped. *)
Definition mapped (m : mem) (p n : Z) : Prop :=
  ∀ i, 0 ≤ i < n → is_Some (m !! (p + i)).

Lemma mapped_sub m p n q k : mapped m p n → p ≤ q → q + k ≤ p + n → mapped m q k.
Proof.
  intros Hm Hq Hk i Hi. specialize (Hm (q - p + i) ltac:(lia)).
  by replace (p + (q - p + i)) with (q + i) in Hm by lia.
Qed.

Lemma mapped_insert m p n a b : mapped m p n → mapped (<[a := b]> m) p n.
Proof.
  intros Hm i Hi. destruct (decide (a = p + i)) as [->|].
  - rewrite lookup_insert_eq. eauto.
  - rewrite lookup_insert_ne by done. by apply Hm.
Qed.

Lemma store32_ok m a w :
  mapped m a 4 →
  store32 m a w = Ok (<[a + 3 := w / 16777216 mod 256]> (<[a + 2 := w / 65536 mod 256]>
                     (<[a + 1 := w / 256 mod 256]> (<[a := w mod 256]> m)))).
Proof.
  intros Hm. unfold store32.
  pose proof (Hm 0 ltac:(lia)) as H0. rewrite Z.add_0_r in H0.
  rewrite store8_Ok by done. cbn [mbind res_bind].
  do 3 (rewrite store8_Ok by
    (match goal with |- is_Some (?m' !! (a + ?k)) =>
       assert (mapped m' a 4) as Hm' by (repeat apply mapped_insert; done); apply (Hm' k); lia end);
    cbn [mbind res_bind]).
  done.
Qed.

(** The effect of a 32-bit store: the word is read back, other bytes and the set
    of mapped bytes do not change. *)
Lemma store32_spec m a w :
  mapped m a 4 →
  ∃ m', store32 m a w = Ok m' ∧
    (∀ x, x < a ∨ a + 4 ≤ x → m' !! x = m !! x) ∧
    (∀ p n, mapped m p n → mapped m' p n) ∧
    (0 ≤ w < 4294967296 → load32 m' a = Ok w).
Proof.
  intros Hm. eexists. split; [by apply store32_ok|]. split_and!.
  - intros x Hx. by rewrite !lookup_insert_ne by lia.
  - intros p n Hp. by repeat apply mapped_insert.
  - intros Hw. unfold load32, load8. cbn [mbind res_bind].
    repeat first [rewrite lookup_insert_eq | rewrite lookup_insert_ne by lia].
    cbn. f_equal. mlia.
Qed.

Lemma store32_first m m' a w :
  mapped m a 4 → store32 m a w = Ok m' → m' !! a = Some (w mod 256).
Proof.
  intros Hm Hs. rewrite store32_ok in Hs by done. injection Hs as <-.
  rewrite !lookup_insert_ne by lia. apply lookup_insert_eq.
Qed.

Lemma load32_frame m m' a :
  (∀ i, 0 ≤ i < 4 → m' !! (a + i) = m !! (a + i)) → load32 m' a = load32 m a.
Proof.
  intros H. unfold load32, load8.
  rewrite <- (Z.add_0_r a) at 1. rewrite (H 0), (H 1), (H 2), (H 3) by lia.
  by rewrite Z.add_0_r.
Qed.

(** * Lemmas: lists *)

(** The first element of a list with a decidable property. *)
Lemma first_such {A} (P : A → Prop) `{∀ x, Decision (P x)} (l : list A) :
  Forall (λ x, ¬ P x) l ∨ ∃ l1 x l2, l = l1 ++ x :: l2 ∧ Forall (λ x, ¬ P x) l1 ∧ P x.
Proof.
  induction l as [|y l IH]; [by left|]. destruct (decide (P y)) as [Hy|Hy].
  - right. by exists [], y, l.
  - destruct IH as [IH|(l1 & x & l2 & -> & H1 & H2)]; [left; by constructor|].
    right. exists (y :: l1), x, l2. split_and!; [done|by constructor|done].
Qed.
