(* ===== verification/I386.v ===== *)
(** The processor, as far as the assembly of the kernel drives it.

    The assembly is in the [asm] statements of kernel/arch/i386/kernel/irq/irq.c and in
    scheduler/task_switch.S and boot/boot.S.  Here are the registers, the
    instructions used there with the effects that the processor's manual gives
    them, and the assertion [stk] on the stack with its rules.

    Memory is byte memory; an access to an unmapped byte is a fault.  Segments are
    flat: a selector is a number that is saved and loaded, but for the code selector of
    [iret], which has to be the one of the kernel.  A called function is a parameter,
    from the state at its first instruction to the one after its [ret]. *)
From S2P Require Import Prelude.

(** * State *)

Record gpr : Type := Gpr { eax : Z; ecx : Z; edx : Z; ebx : Z; esp : Z; ebp : Z; esi : Z; edi : Z }.

Record cpu : Type := Cpu {
  regs : gpr;
  eip : Z;
  cs : Z;
  eflags : Z;
  ds : Z;
  es : Z;
  cr0 : Z;
  cr3 : Z;
  memory : mem;
}.

Inductive reg : Set := EAX | ECX | EDX | EBX | ESP | EBP | ESI | EDI.
Inductive seg : Set := DS | ES.

Definition get (r : reg) (g : gpr) : Z :=
  match r with
  | EAX => eax g | ECX => ecx g | EDX => edx g | EBX => ebx g
  | ESP => esp g | EBP => ebp g | ESI => esi g | EDI => edi g
  end.

Definition set (r : reg) (v : Z) (g : gpr) : gpr :=
  let '(Gpr a c d b sp bp si di) := g in
  match r with
  | EAX => Gpr v c d b sp bp si di | ECX => Gpr a v d b sp bp si di
  | EDX => Gpr a c v b sp bp si di | EBX => Gpr a c d v sp bp si di
  | ESP => Gpr a c d b v bp si di | EBP => Gpr a c d b sp v si di
  | ESI => Gpr a c d b sp bp v di | EDI => Gpr a c d b sp bp si v
  end.

Definition set_regs (c : cpu) (g : gpr) : cpu := Cpu g (eip c) (cs c) (eflags c) (ds c) (es c) (cr0 c) (cr3 c) (memory c).
Definition set_reg (r : reg) (v : Z) (c : cpu) : cpu := set_regs c (set r v (regs c)).
Definition set_eip (c : cpu) (v : Z) : cpu := Cpu (regs c) v (cs c) (eflags c) (ds c) (es c) (cr0 c) (cr3 c) (memory c).
Definition set_eflags (c : cpu) (v : Z) : cpu := Cpu (regs c) (eip c) (cs c) v (ds c) (es c) (cr0 c) (cr3 c) (memory c).
Definition set_seg (sg : seg) (v : Z) (c : cpu) : cpu :=
  match sg with
  | DS => Cpu (regs c) (eip c) (cs c) (eflags c) v (es c) (cr0 c) (cr3 c) (memory c)
  | ES => Cpu (regs c) (eip c) (cs c) (eflags c) (ds c) v (cr0 c) (cr3 c) (memory c)
  end.
Definition set_cr0 (c : cpu) (v : Z) : cpu := Cpu (regs c) (eip c) (cs c) (eflags c) (ds c) (es c) v (cr3 c) (memory c).
Definition set_cr3 (c : cpu) (v : Z) : cpu := Cpu (regs c) (eip c) (cs c) (eflags c) (ds c) (es c) (cr0 c) v (memory c).
Definition set_memory (c : cpu) (m : mem) : cpu := Cpu (regs c) (eip c) (cs c) (eflags c) (ds c) (es c) (cr0 c) (cr3 c) m.

Definition get_seg (sg : seg) (c : cpu) : Z := match sg with DS => ds c | ES => es c end.

(** * The flags *)

Definition CF : Z := 0.
Definition ZF : Z := 6.
Definition SF : Z := 7.
Definition TF : Z := 8.
Definition IF : Z := 9.
Definition DF : Z := 10.
Definition OF : Z := 11.
Definition NT : Z := 14.
Definition RF : Z := 16.

(** What [popf] loads at privilege level 0: every flag but the reserved bits, of
    which bit 1 is set, RF, VM and the virtual interrupt flags. *)
Definition popf_flags (v : Z) : Z := Z.lor (Z.land v 0x247FD5) 2.
(** [iret] to the same level also loads RF. *)
Definition iret_flags (v : Z) : Z := Z.lor (Z.land v 0x257FD5) 2.

Definition parity (r : Z) : bool :=
  negb (xorb (xorb (xorb (Z.testbit r 0) (Z.testbit r 1)) (xorb (Z.testbit r 2) (Z.testbit r 3)))
             (xorb (xorb (Z.testbit r 4) (Z.testbit r 5)) (xorb (Z.testbit r 6) (Z.testbit r 7)))).

Definition put_bit (n : Z) (b : bool) (fl : Z) : Z := if b then Z.setbit fl n else Z.clearbit fl n.

(** The status flags of a result. *)
Definition status (r : Z) (carry overflow adjust : bool) (fl : Z) : Z :=
  put_bit CF carry (put_bit 2 (parity r) (put_bit 4 adjust (put_bit ZF (r =? 0) (put_bit SF (Z.testbit r 31) (put_bit OF overflow fl))))).

Definition add_flags (a b fl : Z) : Z :=
  let r := u32 (a + b) in
  status r (4294967296 <=? a + b) (negb (s32 a + s32 b =? s32 r)) (Z.testbit (Z.lxor (Z.lxor a b) r) 4) fl.

Definition sub_flags (a b fl : Z) : Z :=
  let r := u32 (a - b) in
  status r (a <? b) (negb (s32 a - s32 b =? s32 r)) (Z.testbit (Z.lxor (Z.lxor a b) r) 4) fl.

(** AF is undefined after a logical operation; here it stays. *)
Definition or_flags (r fl : Z) : Z := status r false false (Z.testbit fl 4) fl.

Lemma put_bit_other k n b fl : 0 ≤ k → k ≠ n → Z.testbit (put_bit k b fl) n = Z.testbit fl n.
Proof. intros Hk Hn. destruct b; cbn; [by apply Z.setbit_neq|by apply Z.clearbit_neq]. Qed.

(** Arithmetic leaves the control flags alone. *)
Lemma add_flags_control a b fl n : n ∈ [IF; DF] → Z.testbit (add_flags a b fl) n = Z.testbit fl n.
Proof.
  intros Hn. rewrite !elem_of_cons, elem_of_nil in Hn. unfold add_flags, status, CF, ZF, SF, OF, IF, DF in *.
  rewrite !put_bit_other by lia. done.
Qed.

(** The conditions of the jumps, for [cmp]: signed greater, less, greater or equal. *)
Definition cond_g (fl : Z) : bool := negb (Z.testbit fl ZF) && eqb (Z.testbit fl SF) (Z.testbit fl OF).
Definition cond_l (fl : Z) : bool := xorb (Z.testbit fl SF) (Z.testbit fl OF).
Definition cond_ge (fl : Z) : bool := eqb (Z.testbit fl SF) (Z.testbit fl OF).

(** * Instructions *)

(** Operands: $i, %r, d(%r), and an absolute address. *)
Inductive operand : Set := Imm (i : Z) | Reg (r : reg) | At (d : Z) (r : reg) | Abs (a : Z).

(** In the order of the sources: source, destination. *)
Inductive instr : Set :=
  | Pusha | Popa | Pushf | Popf
  | Push (o : operand) | Pop (r : reg)
  | PushSeg (s : seg) | PopSeg (s : seg)
  | Mov (src dst : operand) | Movw (i : Z) (r : reg) | MovSeg (r : reg) (s : seg)
  | MovCr0 (r : reg) | SetCr0 (r : reg) | MovCr3 (r : reg) | SetCr3 (r : reg)
  | Add (src dst : operand) | Or (src dst : operand) | Cmp (src dst : operand)
  | Xchg (r : reg) (o : operand)
  | RepMovsb | RepMovsl | Cld | Std
  | Leave | Call (r : reg) | Ret | Iret.

Definition read (o : operand) (c : cpu) : res Z :=
  match o with
  | Imm i => Ok (u32 i)
  | Reg r => Ok (get r (regs c))
  | At d r => load32 (memory c) (u32 (get r (regs c) + d))
  | Abs a => load32 (memory c) a
  end.

Definition write (o : operand) (v : Z) (c : cpu) : res cpu :=
  match o with
  | Imm _ => Fault Unmapped
  | Reg r => Ok (set_reg r v c)
  | At d r => m ← store32 (memory c) (u32 (get r (regs c) + d)) v; Ok (set_memory c m)
  | Abs a => m ← store32 (memory c) a v; Ok (set_memory c m)
  end.

Definition push (v : Z) (c : cpu) : res cpu :=
  let sp := u32 (esp (regs c) - 4) in
  m ← store32 (memory c) sp v;
  Ok (set_reg ESP sp (set_memory c m)).

Definition pop (c : cpu) : res (Z * cpu) :=
  v ← load32 (memory c) (esp (regs c));
  Ok (v, set_reg ESP (u32 (esp (regs c) + 4)) c).

Fixpoint push_all (vs : list Z) (c : cpu) : res cpu :=
  match vs with [] => Ok c | v :: vs => c ← push v c; push_all vs c end.

(** [rep movs] of [n] elements of [size] bytes; DF gives the direction. *)
Fixpoint rep_movs (size : Z) (n : nat) (c : cpu) : res cpu :=
  match n with
  | O => Ok c
  | S n =>
      let '(si, di) := (esi (regs c), edi (regs c)) in
      m ← (if size =? 1 then b ← load8 (memory c) si; store8 (memory c) di b
           else w ← load32 (memory c) si; store32 (memory c) di w);
      let d := if Z.testbit (eflags c) DF then - size else size in
      rep_movs size n (set_reg ECX (u32 (ecx (regs c) - 1)) (set_reg ESI (u32 (si + d)) (set_reg EDI (u32 (di + d)) (set_memory c m))))
  end.

(** The code selector of the kernel, the only one that [iret] can load without a
    change of privilege: the descriptor table of initx86.c describes one code
    segment, at index 1, for level 0 ([InitX86.iret_selector]).  Every other
    selector makes [iret] raise a general protection exception. *)
Definition KERNEL_CS : Z := 8.

Section exec.
(** A called function. *)
Variable callee : Z → cpu → res cpu.
(** What [call] pushes. *)
Variable return_address : Z.

Definition exec (i : instr) (c : cpu) : res cpu :=
  let g := regs c in
  match i with
  | Pusha => push_all [eax g; ecx g; edx g; ebx g; esp g; ebp g; esi g; edi g] c
  | Popa =>
      '(di, c) ← pop c; '(si, c) ← pop c; '(bp, c) ← pop c; '(_, c) ← pop c;
      '(b, c) ← pop c; '(d, c) ← pop c; '(cx, c) ← pop c; '(a, c) ← pop c;
      Ok (set_regs c (Gpr a cx d b (esp (regs c)) bp si di))
  | Pushf => push (Z.clearbit (eflags c) RF) c
  | Popf => '(v, c) ← pop c; Ok (set_eflags c (popf_flags v))
  | Push o => v ← read o c; push v c
  | Pop r => '(v, c) ← pop c; Ok (set_reg r v c)
  | PushSeg s => push (get_seg s c) c
  | PopSeg s => '(v, c) ← pop c; Ok (set_seg s (u16 v) c)
  | Mov src dst => v ← read src c; write dst v c
  | Movw i r => Ok (set_reg r (get r g - u16 (get r g) + u16 i) c)
  | MovSeg r s => Ok (set_seg s (u16 (get r g)) c)
  | MovCr0 r => Ok (set_reg r (cr0 c) c)
  | SetCr0 r => Ok (set_cr0 c (get r g))
  | MovCr3 r => Ok (set_reg r (cr3 c) c)
  | SetCr3 r => Ok (set_cr3 c (get r g))
  | Add src dst => b ← read src c; a ← read dst c; c ← write dst (u32 (a + b)) c; Ok (set_eflags c (add_flags a b (eflags c)))
  | Or src dst => b ← read src c; a ← read dst c; c ← write dst (Z.lor a b) c; Ok (set_eflags c (or_flags (Z.lor a b) (eflags c)))
  | Cmp src dst => b ← read src c; a ← read dst c; Ok (set_eflags c (sub_flags a b (eflags c)))
  | Xchg r o => v ← read o c; c' ← write o (get r g) c; Ok (set_reg r v c')
  | RepMovsb => rep_movs 1 (Z.to_nat (ecx g)) c
  | RepMovsl => rep_movs 4 (Z.to_nat (ecx g)) c
  | Cld => Ok (set_eflags c (Z.clearbit (eflags c) DF))
  | Std => Ok (set_eflags c (Z.setbit (eflags c) DF))
  | Leave => '(v, c) ← pop (set_reg ESP (ebp g) c); Ok (set_reg EBP v c)
  | Call r => c ← push return_address c; callee (get r g) c
  | Ret => '(v, c) ← pop c; Ok (set_eip c v)
  | Iret =>
      '(ip, c) ← pop c; '(s, c) ← pop c; '(f, c) ← pop c;
      if u16 s =? KERNEL_CS
      then Ok (Cpu (regs c) ip (u16 s) (iret_flags f) (ds c) (es c) (cr0 c) (cr3 c) (memory c))
      else Fault GeneralProtection
  end.

Fixpoint run (code : list instr) (c : cpu) : res cpu :=
  match code with [] => Ok c | i :: code => c ← exec i c; run code c end.

Lemma run_app code1 code2 c : run (code1 ++ code2) c = (c ← run code1 c; run code2 c).
Proof. revert c. induction code1 as [|i code1 IH]; intros c; [done|]. cbn. destruct (exec i c); [apply IH|done]. Qed.

End exec.

(** * Delivery of an interrupt

    Through an interrupt gate of the table, from and to privilege level 0: flags,
    code segment and instruction pointer are pushed, then the error code of the
    exceptions that have one; tracing, nesting and interrupts are switched off. *)

Definition gate_flags (fl : Z) : Z :=
  Z.clearbit (Z.clearbit (Z.clearbit (Z.clearbit fl TF) NT) RF) IF.

Lemma gate_flags_off fl : Z.testbit (gate_flags fl) IF = false.
Proof. apply Z.clearbit_eq. Qed.

Definition deliver (selector offset : Z) (err : option Z) (c : cpu) : res cpu :=
  c' ← push_all ([eflags c; cs c; eip c] ++ (match err with Some e => [e] | None => [] end)) c;
  Ok (Cpu (regs c') offset selector (gate_flags (eflags c)) (ds c) (es c) (cr0 c) (cr3 c) (memory c')).

(** * The stack

    [stk m0 m lo hi sp ws]: memory [m] differs from [m0] at most between [lo] and
    [hi], all of that is mapped, and the words from [sp] to [hi] are [ws]. *)
Record stk (m0 m : mem) (lo hi sp : Z) (ws : list Z) : Prop := {
  stk_range : 0 ≤ lo ∧ lo ≤ sp ∧ sp + 4 * Z.of_nat (length ws) = hi ∧ hi < 4294967296;
  stk_mapped : mapped m lo (hi - lo);
  stk_word : ∀ i w, ws !! i = Some w → load32 m (sp + 4 * Z.of_nat i) = Ok w;
  stk_frame : ∀ x, x < lo ∨ hi ≤ x → m !! x = m0 !! x;
}.

Definition word (w : Z) : Prop := 0 ≤ w < 4294967296.

Lemma word_clearbit v n : word v → 0 ≤ n → word (Z.clearbit v n).
Proof.
  intros [Hl Hh] Hn. rewrite Z.clearbit_spec'. split; [apply Z.ldiff_nonneg; by left|].
  enough (Z.ldiff v (2 ^ n) ≤ v) by lia.
  assert (H : v = Z.ldiff v (2 ^ n) + Z.land v (2 ^ n)).
  { rewrite Z.add_nocarry_lor; [symmetry; apply Z.lor_ldiff_and|].
    apply Z.bits_inj'. intros k Hk. rewrite !Z.land_spec, Z.ldiff_spec, Z.bits_0. by destruct (Z.testbit v k), (Z.testbit (2 ^ n) k). }
  assert (0 ≤ Z.land v (2 ^ n)) by (apply Z.land_nonneg; by left). lia.
Qed.

Lemma stk_start m lo hi : 0 ≤ lo ≤ hi → hi < 4294967296 → mapped m lo (hi - lo) → stk m m lo hi hi [].
Proof. intros ???. split; [cbn; lia|done|done|done]. Qed.

(** A word in the middle is replaced. *)
Lemma stk_store m0 m lo hi sp ws i w a :
  stk m0 m lo hi sp ws → (i < length ws)%nat → word w → a = sp + 4 * Z.of_nat i →
  ∃ m', store32 m a w = Ok m' ∧ stk m0 m' lo hi sp (<[i := w]> ws) ∧ ∀ p n, mapped m p n → mapped m' p n.
Proof.
  intros [Hr Hm Hw Hf] Hi Hww ->.
  destruct (store32_spec m (sp + 4 * Z.of_nat i) w) as (m' & Hs & Hfr & Hmap & Hl).
  { eapply mapped_sub; [done|lia..]. }
  exists m'. split; [done|]. split; [|done]. split.
  - by rewrite length_insert.
  - by apply Hmap.
  - intros j v Hj. destruct (decide (j = i)) as [->|Hne].
    + rewrite list_lookup_insert_eq in Hj by done. injection Hj as <-. by apply Hl.
    + rewrite list_lookup_insert_ne in Hj by done. rewrite <- (Hw j v Hj). apply load32_frame.
      intros k Hk. apply Hfr. lia.
  - intros x Hx. rewrite Hfr by lia. by apply Hf.
Qed.

Lemma stk_push m0 m lo hi sp ws w :
  stk m0 m lo hi sp ws → lo + 4 ≤ sp → word w →
  ∃ m', store32 m (u32 (sp - 4)) w = Ok m' ∧ stk m0 m' lo hi (sp - 4) (w :: ws).
Proof.
  intros [Hr Hm Hw Hf] Hroom Hww. rewrite u32_small by lia.
  destruct (store32_spec m (sp - 4) w) as (m' & Hs & Hfr & Hmap & Hl).
  { eapply mapped_sub; [done|lia..]. }
  exists m'. split; [done|]. split.
  - cbn [length]. lia.
  - by apply Hmap.
  - intros [|j] v Hj; cbn in Hj.
    + injection Hj as <-. rewrite Z.add_0_r. by apply Hl.
    + rewrite <- (Hw j v Hj). replace (sp - 4 + 4 * Z.of_nat (S j)) with (sp + 4 * Z.of_nat j) by lia.
      apply load32_frame. intros k Hk. apply Hfr. lia.
  - intros x Hx. rewrite Hfr by lia. by apply Hf.
Qed.

Lemma stk_pop m0 m lo hi sp w ws :
  stk m0 m lo hi sp (w :: ws) → load32 m sp = Ok w ∧ stk m0 m lo hi (sp + 4) ws.
Proof.
  intros [Hr Hm Hw Hf]. cbn [length] in Hr. split.
  - rewrite <- (Z.add_0_r sp). by apply (Hw 0%nat).
  - split; [lia|done| |done]. intros i v Hv.
    replace (sp + 4 + 4 * Z.of_nat i) with (sp + 4 * Z.of_nat (S i)) by lia. by apply Hw.
Qed.

Lemma stk_load m0 m lo hi sp ws i w a :
  stk m0 m lo hi sp ws → ws !! i = Some w → a = sp + 4 * Z.of_nat i → load32 m a = Ok w.
Proof. intros Hs Hi ->. by apply Hs. Qed.

(** After a call that took [k] words and left those above alone. *)
Lemma stk_after m0 m m' lo hi sp ws k :
  stk m0 m lo hi sp ws → (k ≤ length ws)%nat → (∀ p n, mapped m p n → mapped m' p n) →
  (∀ x, sp + 4 * Z.of_nat k ≤ x < hi → m' !! x = m !! x) → stk m' m' lo hi (sp + 4 * Z.of_nat k) (drop k ws).
Proof.
  intros [Hr Hm Hw Hf] Hk Hm' Heq. split.
  - rewrite length_drop. lia.
  - by apply Hm'.
  - intros i w Hi. rewrite lookup_drop in Hi. pose proof (lookup_lt_Some _ _ _ Hi). rewrite <- (Hw (k + i)%nat w Hi).
    replace (sp + 4 * Z.of_nat (k + i)) with (sp + 4 * Z.of_nat k + 4 * Z.of_nat i) by lia.
    apply load32_frame. intros d Hd. apply Heq. lia.
  - done.
Qed.

(** * Rules for the instructions on the stack *)

Section rules.
Context (m0 : mem) (lo hi : Z).

Lemma push_ok c ws v :
  stk m0 (memory c) lo hi (esp (regs c)) ws → lo + 4 ≤ esp (regs c) → word v →
  ∃ m', push v c = Ok (set_reg ESP (esp (regs c) - 4) (set_memory c m')) ∧ stk m0 m' lo hi (esp (regs c) - 4) (v :: ws).
Proof.
  intros Hs Hr Hv. destruct (stk_push _ _ _ _ _ _ v Hs) as (m' & Hst & Hs'); [done..|].
  exists m'. split; [|done]. unfold push. rewrite Hst. cbn [mbind res_bind].
  by rewrite u32_small by (destruct (stk_range _ _ _ _ _ _ Hs); lia).
Qed.

Lemma push_all_ok vs c ws :
  stk m0 (memory c) lo hi (esp (regs c)) ws → lo + 4 * Z.of_nat (length vs) ≤ esp (regs c) → Forall word vs →
  ∃ m', push_all vs c = Ok (set_reg ESP (esp (regs c) - 4 * Z.of_nat (length vs)) (set_memory c m')) ∧
    stk m0 m' lo hi (esp (regs c) - 4 * Z.of_nat (length vs)) (rev vs ++ ws).
Proof.
  revert c ws. induction vs as [|v vs IH]; intros c ws Hs Hr Hv.
  - exists (memory c). rewrite Z.sub_0_r. split; [|done]. by destruct c as [[] ? ? ? ? ? ? ? ?].
  - apply Forall_cons in Hv as [Hv Hvs]. cbn [length] in Hr. destruct (push_ok c ws v Hs) as (m1 & Hp & Hs1); [lia|done|].
    cbn [push_all]. rewrite Hp. cbn [mbind res_bind].
    destruct (IH (set_reg ESP (esp (regs c) - 4) (set_memory c m1)) (v :: ws)) as (m2 & Hp2 & Hs2).
    + by destruct c as [[] ? ? ? ? ? ? ? ?].
    + destruct c as [[] ? ? ? ? ? ? ? ?]. cbn in *. lia.
    + done.
    + exists m2. rewrite Hp2. destruct c as [[] ? ? ? ? ? ? ? ?]. cbn in *.
      replace (esp0 - 4 - 4 * Z.of_nat (length vs)) with (esp0 - 4 * Z.of_nat (S (length vs))) in * by lia.
      split; [done|]. by rewrite <- app_assoc.
Qed.

Lemma pop_ok c v ws :
  stk m0 (memory c) lo hi (esp (regs c)) (v :: ws) →
  pop c = Ok (v, set_reg ESP (esp (regs c) + 4) c) ∧ stk m0 (memory c) lo hi (esp (regs c) + 4) ws.
Proof.
  intros Hs. destruct (stk_pop _ _ _ _ _ _ _ Hs) as [Hl Hs']. split; [|done].
  unfold pop. rewrite Hl. cbn [mbind res_bind]. rewrite u32_small; [done|].
  pose proof (stk_range _ _ _ _ _ _ Hs). cbn [length] in *. lia.
Qed.

Lemma pop_cpu a cx d b sp bp si di ip s fl dsg esg c0 c3 m v ws :
  stk m0 m lo hi sp (v :: ws) →
  pop (Cpu (Gpr a cx d b sp bp si di) ip s fl dsg esg c0 c3 m)
  = Ok (v, Cpu (Gpr a cx d b (sp + 4) bp si di) ip s fl dsg esg c0 c3 m) ∧ stk m0 m lo hi (sp + 4) ws.
Proof. intros Hs. by apply (pop_ok (Cpu (Gpr a cx d b sp bp si di) ip s fl dsg esg c0 c3 m)). Qed.

Lemma push_cpu a cx d b sp bp si di ip s fl dsg esg c0 c3 m ws v :
  stk m0 m lo hi sp ws → lo + 4 ≤ sp → word v →
  ∃ m', push v (Cpu (Gpr a cx d b sp bp si di) ip s fl dsg esg c0 c3 m)
        = Ok (Cpu (Gpr a cx d b (sp - 4) bp si di) ip s fl dsg esg c0 c3 m') ∧ stk m0 m' lo hi (sp - 4) (v :: ws).
Proof. intros. by apply (push_ok (Cpu (Gpr a cx d b sp bp si di) ip s fl dsg esg c0 c3 m)). Qed.

Lemma pusha_cpu callee ra a cx d b sp bp si di ip s fl dsg esg c0 c3 m ws :
  stk m0 m lo hi sp ws → lo + 32 ≤ sp → Forall word [a; cx; d; b; sp; bp; si; di] →
  ∃ m', exec callee ra Pusha (Cpu (Gpr a cx d b sp bp si di) ip s fl dsg esg c0 c3 m)
        = Ok (Cpu (Gpr a cx d b (sp - 32) bp si di) ip s fl dsg esg c0 c3 m') ∧
    stk m0 m' lo hi (sp - 32) (di :: si :: bp :: sp :: b :: d :: cx :: a :: ws).
Proof.
  intros Hs Hr Hw. unfold exec. cbn [regs eax ecx edx ebx esp ebp esi edi].
  destruct (push_all_ok [a; cx; d; b; sp; bp; si; di] (Cpu (Gpr a cx d b sp bp si di) ip s fl dsg esg c0 c3 m) ws)
    as (m' & -> & Hs'); [done|cbn; lia|done|].
  exists m'. split; [done|exact Hs'].
Qed.

(** The registers that [popa] loads. *)
Lemma popa_cpu callee ra a' cx' d' b' bp' si' di' a cx d b sp bp si di x ws m ip s fl dsg esg c0 c3 :
  stk m0 m lo hi sp (di :: si :: bp :: x :: b :: d :: cx :: a :: ws) →
  exec callee ra Popa (Cpu (Gpr a' cx' d' b' sp bp' si' di') ip s fl dsg esg c0 c3 m)
  = Ok (Cpu (Gpr a cx d b (sp + 32) bp si di) ip s fl dsg esg c0 c3 m) ∧ stk m0 m lo hi (sp + 32) ws.
Proof.
  intros H. unfold exec.
  do 8 (edestruct pop_cpu as [Hp Hs']; [exact H|]; rewrite Hp; clear Hp H; cbn [mbind res_bind]; rename Hs' into H).
  unfold set_regs. cbn [regs esp eip cs eflags ds es cr0 cr3 memory].
  replace (sp + 32) with (sp + 4 + 4 + 4 + 4 + 4 + 4 + 4 + 4) by lia. done.
Qed.

(** [rep movsl] downwards, one word up: the words [j], [j - 1], ... of the stack. *)
Fixpoint shift_up (k j : nat) (ws : list Z) : list Z :=
  match k with
  | O => ws
  | S k => shift_up k (j - 1) (<[S j := default 0 (ws !! j)]> ws)
  end.

Lemma rep_movsl_up k j ws a d b q bp sp ip s fl dsg esg c0 c3 m :
  stk m0 m lo hi sp ws → Forall word ws → (k ≤ S j)%nat → (S j < length ws)%nat → 4 ≤ sp → Z.testbit fl DF = true →
  ∃ m' cx' si' di', rep_movs 4 k (Cpu (Gpr a (Z.of_nat k) d b q bp (sp + 4 * Z.of_nat j) (sp + 4 * Z.of_nat j + 4)) ip s fl dsg esg c0 c3 m)
    = Ok (Cpu (Gpr a cx' d b q bp si' di') ip s fl dsg esg c0 c3 m') ∧ stk m0 m' lo hi sp (shift_up k j ws).
Proof.
  revert j ws m. induction k as [|k IH]; intros j ws m Hs Hw Hk Hj H4 Hdf; [by eexists _, _, _, _|].
  pose proof (stk_range _ _ _ _ _ _ Hs). cbn [rep_movs shift_up].
  destruct (lookup_lt_is_Some_2 ws j) as [w Hwj]; [lia|].
  cbn [memory regs esi edi eflags ecx Z.eqb Pos.eqb]. rewrite (stk_word _ _ _ _ _ _ Hs j w Hwj). cbn [mbind res_bind].
  destruct (stk_store _ _ _ _ _ _ (S j) w (sp + 4 * Z.of_nat j + 4) Hs) as (m1 & -> & Hs1 & _);
    [lia|by eapply (Forall_lookup_1 word)|lia|]. cbn [mbind res_bind]. rewrite Hdf, Hwj. cbn [default].
  unfold set_reg, set_regs, set_memory. cbn [set regs eip cs eflags ds es cr0 cr3 memory].
  replace (u32 (Z.of_nat (S k) - 1)) with (Z.of_nat k) by (rewrite u32_small by lia; lia).
  assert (Hw' : Forall word (<[S j := w]> ws)) by (apply Forall_insert; [done|by eapply (Forall_lookup_1 word)]).
  destruct j as [|j].
  - assert (k = 0%nat) as -> by lia. by eexists _, _, _, _.
  - rewrite !u32_small by lia. replace (S j - 1)%nat with j by lia.
    replace (sp + 4 * Z.of_nat (S j) + - (4)) with (sp + 4 * Z.of_nat j) by lia.
    replace (sp + 4 * Z.of_nat (S j) + 4 + - (4)) with (sp + 4 * Z.of_nat j + 4) by lia.
    apply IH; rewrite ?length_insert; done || lia.
Qed.

End rules.

Lemma run_cons callee ra i code c : run callee ra (i :: code) c = (c ← exec callee ra i c; run callee ra code c).
Proof. done. Qed.

Lemma run_nil callee ra c : run callee ra [] c = Ok c.
Proof. done. Qed.

(** * C functions

    What the calling convention promises to the assembly: [args] words above the
    return address belong to the called function; it removes the return address,
    keeps EBX, ESI, EDI, EBP, the segments and the control registers, leaves DF
    clear, and does not touch the [frame] bytes above its arguments. *)
Record cdecl (args frame : Z) (c c' : cpu) : Prop := {
  cdecl_esp : esp (regs c') = esp (regs c) + 4;
  cdecl_ebx : ebx (regs c') = ebx (regs c);
  cdecl_esi : esi (regs c') = esi (regs c);
  cdecl_edi : edi (regs c') = edi (regs c);
  cdecl_ebp : ebp (regs c') = ebp (regs c);
  cdecl_seg : ds c' = ds c ∧ es c' = es c;
  cdecl_cr : cr0 c' = cr0 c ∧ cr3 c' = cr3 c;
  cdecl_df : Z.testbit (eflags c') DF = false;
  cdecl_mapped : ∀ p n, mapped (memory c) p n → mapped (memory c') p n;
  cdecl_frame : ∀ x, esp (regs c) + 4 + 4 * args ≤ x < esp (regs c) + 4 + 4 * args + frame →
    memory c' !! x = memory c !! x;
}.

(** The function at [f] returns, wherever its stack is. *)
Definition c_function (callee : Z → cpu → res cpu) (f args frame : Z) : Prop :=
  ∀ c, mapped (memory c) (esp (regs c)) (4 + 4 * args) → Z.testbit (eflags c) DF = false →
    ∃ c', callee f c = Ok c' ∧ cdecl args frame c c'.

(** The registers are numbers of their width, the flags what [iret] can load. *)
Record wf_cpu (c : cpu) : Prop := {
  wf_eax : word (eax (regs c)); wf_ecx : word (ecx (regs c)); wf_edx : word (edx (regs c)); wf_ebx : word (ebx (regs c));
  wf_esp : word (esp (regs c)); wf_ebp : word (ebp (regs c)); wf_esi : word (esi (regs c)); wf_edi : word (edi (regs c));
  wf_eip : word (eip c);
  wf_seg : 0 ≤ cs c < 65536 ∧ 0 ≤ ds c < 65536 ∧ 0 ≤ es c < 65536;
  wf_flags : word (eflags c) ∧ iret_flags (eflags c) = eflags c;
}.

(** * Blocks of words

    Disjoint blocks of memory with known words, as a table of address and words. *)

Definition words_at (m : mem) (p : Z) (ws : list Z) : Prop :=
  mapped m p (4 * Z.of_nat (length ws)) ∧ ∀ i w, ws !! i = Some w → load32 m (p + 4 * Z.of_nat i) = Ok w.

Definition apart (p : Z) (ws : list Z) (q : Z) (vs : list Z) : Prop :=
  p + 4 * Z.of_nat (length ws) ≤ q ∨ q + 4 * Z.of_nat (length vs) ≤ p.

(** [m] holds the blocks, and is [m0] elsewhere. *)
Record blocks (m0 m : mem) (bs : list (Z * list Z)) : Prop := {
  bl_words : ∀ k p ws, bs !! k = Some (p, ws) → words_at m p ws;
  bl_apart : ∀ j k p ws q vs, j ≠ k → bs !! j = Some (p, ws) → bs !! k = Some (q, vs) → apart p ws q vs;
  bl_frame : ∀ x, (∀ k p ws, bs !! k = Some (p, ws) → x < p ∨ p + 4 * Z.of_nat (length ws) ≤ x) → m !! x = m0 !! x;
}.

Lemma words_exist m p n : mapped m p (4 * Z.of_nat n) → ∃ ws, length ws = n ∧ words_at m p ws.
Proof.
  intros Hm. enough (∃ ws, length ws = n ∧ ∀ i w, ws !! i = Some w → load32 m (p + 4 * Z.of_nat i) = Ok w) as (ws & Hl & Hw).
  { exists ws. split; [done|]. split; [by rewrite Hl|done]. }
  induction n as [|n IH]; [by exists []|].
  destruct IH as (ws & Hl & Hw); [eapply mapped_sub; [done|lia..]|].
  assert (∃ w, load32 m (p + 4 * Z.of_nat n) = Ok w) as [w Hwn].
  { unfold load32, load8.
    destruct (Hm (4 * Z.of_nat n)) as [b0 H0]; [lia|]. destruct (Hm (4 * Z.of_nat n + 1)) as [b1 H1]; [lia|].
    destruct (Hm (4 * Z.of_nat n + 2)) as [b2 H2]; [lia|]. destruct (Hm (4 * Z.of_nat n + 3)) as [b3 H3]; [lia|].
    rewrite <- !Z.add_assoc, H0, H1, H2, H3. cbn. eauto. }
  exists (ws ++ [w]). rewrite length_app. split; [cbn; lia|]. intros i v Hi.
  apply lookup_app_Some in Hi as [Hi|[Hle Hi]]; [by apply Hw|].
  apply list_lookup_singleton_Some in Hi as [Hi <-]. by replace i with n by lia.
Qed.

Lemma blocks_load m0 m bs k p ws i w a :
  blocks m0 m bs → bs !! k = Some (p, ws) → ws !! i = Some w → a = p + 4 * Z.of_nat i → load32 m a = Ok w.
Proof. intros Hb Hk Hi ->. by apply (bl_words _ _ _ Hb k p ws Hk). Qed.

Lemma blocks_store m0 m bs k p ws i w a :
  blocks m0 m bs → bs !! k = Some (p, ws) → (i < length ws)%nat → word w → a = p + 4 * Z.of_nat i →
  ∃ m', store32 m a w = Ok m' ∧ blocks m0 m' (<[k := (p, <[i := w]> ws)]> bs).
Proof.
  intros [Hw Ha Hf] Hk Hi Hww ->. destruct (Hw k p ws Hk) as [Hm Hl].
  destruct (store32_spec m (p + 4 * Z.of_nat i) w) as (m' & Hs & Hfr & Hmap & Hv); [eapply mapped_sub; [done|lia..]|].
  pose proof (lookup_lt_Some _ _ _ Hk) as Hkl.
  assert (Hget : ∀ j q vs, <[k := (p, <[i := w]> ws)]> bs !! j = Some (q, vs) →
    (j = k ∧ q = p ∧ vs = <[i := w]> ws) ∨ (j ≠ k ∧ bs !! j = Some (q, vs))).
  { intros j q vs Hj. destruct (decide (j = k)) as [->|Hne].
    - rewrite list_lookup_insert_eq in Hj by done. simplify_eq. by left.
    - rewrite list_lookup_insert_ne in Hj by done. by right. }
  exists m'. split; [done|]. split.
  - intros j q vs Hj. apply Hget in Hj as [(-> & -> & ->)|[Hne Hj]].
    + split; [rewrite length_insert; by apply Hmap|]. intros d v Hd. destruct (decide (d = i)) as [->|Hdi].
      * rewrite list_lookup_insert_eq in Hd by done. injection Hd as <-. by apply Hv.
      * rewrite list_lookup_insert_ne in Hd by done. rewrite <- (Hl d v Hd). apply load32_frame. intros t Ht. apply Hfr. lia.
    + destruct (Hw j q vs Hj) as [Hm' Hl']. split; [by apply Hmap|]. intros d v Hd. rewrite <- (Hl' d v Hd).
      pose proof (lookup_lt_Some _ _ _ Hd). apply load32_frame. intros t Ht. apply Hfr.
      destruct (Ha j k q vs p ws Hne Hj Hk); lia.
  - intros j1 j2 q1 v1 q2 v2 Hne H1 H2. apply Hget in H1 as [(E1 & -> & ->)|[Hn1 H1]]; apply Hget in H2 as [(E2 & -> & ->)|[Hn2 H2]].
    + congruence.
    + unfold apart. rewrite length_insert. apply (Ha k j2); congruence.
    + unfold apart. rewrite length_insert. apply (Ha j1 k); congruence.
    + by apply (Ha j1 j2).
  - intros x Hx. rewrite Hfr; [apply Hf|].
    + intros j q vs Hj. destruct (decide (j = k)) as [->|Hne].
      * simplify_eq. specialize (Hx k p (<[i := w]> ws)). rewrite length_insert in Hx. apply Hx. by rewrite list_lookup_insert_eq.
      * apply (Hx j). by rewrite list_lookup_insert_ne.
    + specialize (Hx k p (<[i := w]> ws)). rewrite length_insert in Hx.
      destruct Hx as [?|?]; [by rewrite list_lookup_insert_eq|lia..].
Qed.

Lemma blocks_start m bs :
  (∀ k p ws, bs !! k = Some (p, ws) → words_at m p ws) →
  (∀ j k p ws q vs, j ≠ k → bs !! j = Some (p, ws) → bs !! k = Some (q, vs) → apart p ws q vs) → blocks m m bs.
Proof. intros. by split. Qed.

Lemma mapped_by m p n : forallb (λ i, bool_decide (is_Some (m !! (p + Z.of_nat i)))) (seq 0 n) = true → mapped m p (Z.of_nat n).
Proof.
  intros Hm i Hi. rewrite forallb_forall in Hm. specialize (Hm (Z.to_nat i)). rewrite bool_decide_eq_true in Hm.
  replace i with (Z.of_nat (Z.to_nat i)) by lia. apply Hm, in_seq. lia.
Qed.

Lemma words_at_by m p ws :
  forallb (λ i, bool_decide (is_Some (m !! (p + Z.of_nat i)))) (seq 0 (4 * length ws)) = true →
  imap (λ i _, load32 m (p + 4 * Z.of_nat i)) ws = map Ok ws → words_at m p ws.
Proof.
  intros Hm Hw. split.
  - replace (4 * Z.of_nat (length ws)) with (Z.of_nat (4 * length ws)) by lia. by apply mapped_by.
  - intros i w Hi. apply (f_equal (.!! i)) in Hw. rewrite list_lookup_imap, list_lookup_fmap, Hi in Hw. by injection Hw.
Qed.

(** Memory for the examples. *)
Fixpoint poke (p : Z) (ws : list Z) (m : mem) : mem :=
  match ws with
  | [] => m
  | w :: ws => poke (p + 4) ws (match store32 m p w with Ok m => m | Fault _ => m end)
  end.

Lemma store8_else m a b m' x : store8 m a b = Ok m' → x ≠ a → m' !! x = m !! x.
Proof. unfold store8. destruct (m !! a); [|done]. intros [= <-] ?. by rewrite lookup_insert_ne. Qed.

Lemma poke_else p ws m x : x < p ∨ p + 4 * Z.of_nat (length ws) ≤ x → poke p ws m !! x = m !! x.
Proof.
  revert p m. induction ws as [|w ws IH]; intros p m Hx; [done|]. cbn [poke length] in *. rewrite IH by lia.
  destruct (store32 m p w) as [m'|] eqn:E; [|done]. unfold store32 in E.
  destruct (store8 m p _) as [m1|] eqn:E1; [|done]. cbn [mbind res_bind] in E.
  destruct (store8 m1 _ _) as [m2|] eqn:E2; [|done]. cbn [mbind res_bind] in E.
  destruct (store8 m2 _ _) as [m3|] eqn:E3; [|done]. cbn [mbind res_bind] in E.
  rewrite (store8_else _ _ _ _ x E), (store8_else _ _ _ _ x E3), (store8_else _ _ _ _ x E2), (store8_else _ _ _ _ x E1) by lia. done.
Qed.

Fixpoint zeros (n : nat) (a : Z) : mem := match n with O => ∅ | S n => <[a := 0]> (zeros n (a + 1)) end.

Lemma zeros_mapped n a : mapped (zeros n a) a (Z.of_nat n).
Proof.
  revert a. induction n as [|n IH]; intros a i Hi; [lia|]. cbn [zeros]. destruct (decide (i = 0)) as [->|].
  - rewrite Z.add_0_r, lookup_insert_eq. eauto.
  - rewrite lookup_insert_ne by lia. replace (a + i) with (a + 1 + (i - 1)) by lia. apply IH. lia.
Qed.

(** Bytes and zeros put over a memory, with their lookups. *)
Fixpoint put_bytes (a : Z) (l : list Z) (m : mem) : mem :=
  match l with [] => m | b :: l => <[a := b]> (put_bytes (a + 1) l m) end.

Definition put_zeros (a n : Z) (m : mem) : mem := put_bytes a (replicate (Z.to_nat n) 0) m.

Lemma put_bytes_in a l m i b : l !! i = Some b → put_bytes a l m !! (a + Z.of_nat i) = Some b.
Proof.
  revert a i. induction l as [|c l IH]; intros a [|i] Hi; try done; cbn [put_bytes].
  - rewrite Z.add_0_r, lookup_insert_eq. exact Hi.
  - rewrite lookup_insert_ne by lia. replace (a + Z.of_nat (S i)) with (a + 1 + Z.of_nat i) by lia. by apply IH.
Qed.

Lemma put_bytes_out a l m x : x < a ∨ a + Z.of_nat (length l) ≤ x → put_bytes a l m !! x = m !! x.
Proof.
  revert a. induction l as [|c l IH]; intros a Hx; [done|]. cbn [put_bytes length] in *.
  rewrite lookup_insert_ne by lia. apply IH. lia.
Qed.

Lemma put_zeros_in a n m x : a ≤ x < a + n → put_zeros a n m !! x = Some 0.
Proof.
  intros Hx. unfold put_zeros. replace x with (a + Z.of_nat (Z.to_nat (x - a))) by lia.
  apply put_bytes_in, lookup_replicate_2. lia.
Qed.

Lemma put_zeros_out a n m x : 0 ≤ n → x < a ∨ a + n ≤ x → put_zeros a n m !! x = m !! x.
Proof. intros Hn Hx. apply put_bytes_out. rewrite length_replicate. lia. Qed.

Lemma load32_bytes m a z :
  (∀ i b, le_put 4 z !! i = Some b → m !! (a + Z.of_nat i) = Some b) → 0 ≤ z < 4294967296 → load32 m a = Ok z.
Proof.
  intros H Hz. pose proof (H 0%nat _ eq_refl) as E0. pose proof (H 1%nat _ eq_refl) as E1.
  pose proof (H 2%nat _ eq_refl) as E2. pose proof (H 3%nat _ eq_refl) as E3. rewrite Z.add_0_r in E0.
  unfold load32, load8. change (Z.of_nat 1) with 1 in E1. change (Z.of_nat 2) with 2 in E2. change (Z.of_nat 3) with 3 in E3.
  rewrite E0, E1, E2, E3. cbn [mbind res_bind]. f_equal. pose proof (le_get_put 4 z) as E. cbn [le_put] in E. rewrite E.
  apply Z.mod_small. exact Hz.
Qed.

Lemma words_at_zeros m p n : (∀ x, p ≤ x < p + 4 * Z.of_nat n → m !! x = Some 0) → words_at m p (replicate n 0).
Proof.
  intros H. split.
  - intros i Hi. rewrite length_replicate in Hi. rewrite H by lia. by eexists.
  - intros i w [-> Hi]%lookup_replicate. apply load32_bytes; [|lia]. intros j b Hj. rewrite H.
    + by destruct j as [|[|[|[|]]]]; cbn in Hj.
    + pose proof (lookup_lt_Some _ _ _ Hj). cbn in *. lia.
Qed.

Lemma words_at_inj m m' p ws vs :
  words_at m p ws → words_at m' p vs → length ws = length vs →
  (∀ x, p ≤ x < p + 4 * Z.of_nat (length ws) → m' !! x = m !! x) → ws = vs.
Proof.
  intros [_ Hw] [_ Hv] Hlen Heq. apply list_eq. intros i. destruct (vs !! i) as [v|] eqn:Hvi.
  - pose proof (lookup_lt_Some _ _ _ Hvi). destruct (lookup_lt_is_Some_2 ws i) as [w Hwi]; [lia|]. rewrite Hwi. f_equal.
    pose proof (Hw i w Hwi) as E1. pose proof (Hv i v Hvi) as E2.
    rewrite (load32_frame m m') in E2 by (intros; apply Heq; lia). rewrite E1 in E2. by injection E2.
  - apply lookup_ge_None. apply lookup_ge_None in Hvi. lia.
Qed.

Lemma blocks_by m bs :
  Forall (λ b, words_at m b.1 b.2) bs → ForallOrdPairs (λ b c, apart b.1 b.2 c.1 c.2) bs → blocks m m bs.
Proof.
  intros Hw Ha. apply blocks_start.
  - intros k p ws Hk. by apply (Forall_lookup_1 _ _ _ _ Hw Hk).
  - enough (∀ j k p ws q vs, (j < k)%nat → bs !! j = Some (p, ws) → bs !! k = Some (q, vs) → apart p ws q vs) as H.
    { intros j k p ws q vs Hne Hj Hk. destruct (Nat.lt_ge_cases j k) as [Hlt|Hge]; [by apply (H j k)|].
      unfold apart. apply or_comm. apply (H k j); [lia|done..]. }
    clear Hw. induction Ha as [|[p0 ws0] bs H0 _ IH]; intros [|j] [|k] p ws q vs Hlt Hj Hk; try done; try lia.
    + cbn in Hj. injection Hj as -> ->. by apply (Forall_lookup_1 _ _ _ _ H0 Hk).
    + apply (IH j k); [lia|done..].
Qed.

Definition peek (m : mem) (p : Z) (n : nat) : list Z :=
  map (λ i, match load32 m (p + 4 * Z.of_nat i) with Ok w => w | Fault _ => 0 end) (seq 0 n).

(** Decide a closed statement. *)
Ltac by_eval := match goal with |- ?P => apply (bool_decide_unpack P); vm_compute; exact I end.

Ltac by_Forall tac := repeat (apply Forall_cons; split; [tac|]); apply Forall_nil; exact I.

Ltac by_blocks :=
  apply blocks_by;
    [ by_Forall ltac:(apply words_at_by; vm_compute; reflexivity)
    | repeat (apply FOP_cons; [by_Forall ltac:(unfold apart; by_eval)|]); apply FOP_nil ].

(** * Symbolic execution *)

Ltac words := unfold word in *; lia.

Ltac reduce :=
  cbv beta iota zeta delta [exec read write get get_seg set set_reg set_regs set_seg set_eflags set_eip set_memory set_cr0 set_cr3
       regs eax ecx edx ebx esp ebp esi edi eip cs eflags ds es cr0 cr3 memory mbind res_bind].

(** One instruction on registers. *)
Ltac reg_step := rewrite run_cons; reduce.

(** The same down to the accesses to memory. *)
Ltac mem_step :=
  rewrite run_cons;
  cbv beta iota zeta delta [exec push_all push pop read write get get_seg set set_reg set_regs set_seg set_eflags set_eip set_memory
       set_cr0 set_cr3 regs eax ecx edx ebx esp ebp esi edi eip cs eflags ds es cr0 cr3 memory mbind res_bind].
Ltac mem_reduce :=
  cbv beta iota zeta delta [mbind res_bind set set_reg set_regs set_seg set_eflags set_eip set_memory
       set_cr0 set_cr3 regs eax ecx edx ebx esp ebp esi edi eip cs eflags ds es cr0 cr3 memory].

(** Sums that stay within the width. *)
Ltac flatten :=
  repeat match goal with |- context [u32 ?x] =>
    lazymatch x with context [u32 _] => fail | _ => rewrite (u32_small x) by words end
  end.

(** The next load or store is word [i] of block [k] in the table of [Hb]. *)
Ltac load_word Hb k i :=
  flatten;
  lazymatch type of Hb with blocks ?m0 _ ?bs =>
  lazymatch eval cbn in (bs !! k) with Some (?p, ?ws) =>
  lazymatch eval cbn in (ws !! i) with Some ?w =>
  match goal with |- context [load32 ?m ?a] =>
    rewrite (blocks_load m0 m bs k p ws i w a Hb eq_refl eq_refl) by lia; mem_reduce
  end end end end.
Ltac store_word Hb k i :=
  flatten;
  lazymatch type of Hb with blocks ?m0 _ ?bs =>
  lazymatch eval cbn in (bs !! k) with Some (?p, ?ws) =>
  match goal with |- context [store32 ?m ?a ?w] =>
    let m' := fresh "m" in let E := fresh in let Hb' := fresh in
    destruct (blocks_store m0 m bs k p ws i w a Hb eq_refl) as (m' & E & Hb'); [cbn; lia|words|lia|];
    rewrite E; clear E Hb; rename Hb' into Hb; cbn [insert list_insert] in Hb; mem_reduce
  end end end.
