(* ===== verification/CString.v ===== *)
(** libc: [string.h], [strings.h] and [atoi].

    Sources: libc/string/*.c, libc/strings/strcasecmp.c, libc/include/strings.h,
    libc/stdlib/atoi.c.

    The [mem*] functions run on the byte memory of the prelude, where buffers
    may overlap.  A [const char*] is a reader: the function that gives the byte
    at an index, so the same definitions serve strings in memory, in arrays and
    in struct fields.  Scanning loops take fuel; the theorems ask for more fuel
    than the string has characters. *)
From S2P Require Import Prelude.

Module Mem.

(** ** memset.c, memcpy.c, memmove.c, memcmp.c *)

Definition memset (m : mem) (bufptr value size : Z) : res mem :=
  for_up (Z.to_nat size) 0 (λ i m, store8 m (bufptr + i) (u8 value)) m.

(** [dst[i] = src[i]]: the body shared by the copying loops. *)
Definition copy_byte (dst src i : Z) (m : mem) : res mem :=
  b ← load8 m (src + i); store8 m (dst + i) b.

Definition memcpy (m : mem) (dstptr srcptr size : Z) : res mem :=
  for_up (Z.to_nat size) 0 (copy_byte dstptr srcptr) m.

(** [for (i = size; i != 0; i--) dst[i-1] = src[i-1]] *)
Fixpoint copy_down (n : nat) (dst src : Z) (m : mem) : res mem :=
  match n with
  | O => Ok m
  | S k => m' ← copy_byte dst src (Z.of_nat k) m; copy_down k dst src m'
  end.

Definition memmove (m : mem) (dstptr srcptr size : Z) : res mem :=
  if dstptr <? srcptr
  then for_up (Z.to_nat size) 0 (copy_byte dstptr srcptr) m
  else copy_down (Z.to_nat size) dstptr srcptr m.

(** The loop of memcmp returns from inside: [inr] is the returned value. *)
Definition memcmp_step (m : mem) (a b i : Z) (r : unit + Z) : res (unit + Z) :=
  match r with
  | inr v => Ok (inr v)
  | inl _ =>
      x ← load8 m (a + i); y ← load8 m (b + i);
      Ok (if x <? y then inr (-1) else if y <? x then inr 1 else inl tt)
  end.

Definition memcmp (m : mem) (aptr bptr size : Z) : res Z :=
  r ← for_up (Z.to_nat size) 0 (memcmp_step m aptr bptr) (inl tt);
  Ok (match r with inr v => v | inl _ => 0 end).

(** ** Reference definitions *)

(** [m'] is [m] with the [n] bytes at [dst] replaced by [f 0], ..., [f (n-1)]. *)
Definition blit (m m' : mem) (dst n : Z) (f : Z → option Z) : Prop :=
  (∀ i, 0 ≤ i < n → m' !! (dst + i) = f i) ∧
  (∀ a, (a < dst ∨ dst + n ≤ a) → m' !! a = m !! a).

Fixpoint bytes_cmp (l0 l1 : list Z) : Z :=
  match l0, l1 with
  | x :: l0, y :: l1 => if x <? y then -1 else if y <? x then 1 else bytes_cmp l0 l1
  | _, _ => 0
  end.

(** The bytes at [p] are [l]. *)
Definition bytes_at (m : mem) (p : Z) (l : list Z) : Prop :=
  ∀ i x, l !! i = Some x → m !! (p + Z.of_nat i) = Some x.

(** ** Lemmas *)

Lemma copy_byte_ok dst src i m v :
  m !! (src + i) = Some v → is_Some (m !! (dst + i)) →
  copy_byte dst src i m = Ok (<[dst + i := v]> m).
Proof.
  intros Hv Hd. unfold copy_byte. rewrite (proj2 (load8_Ok _ _ _) Hv). cbn.
  by apply store8_Ok.
Qed.

(** Going up is right when the destination is not above the source or the
    ranges are disjoint. *)
Lemma copy_up_blit m dst src n :
  0 ≤ n → mapped m src n → mapped m dst n →
  (dst ≤ src ∨ src + n ≤ dst) →
  ∃ m', for_up (Z.to_nat n) 0 (copy_byte dst src) m = Ok m' ∧
        blit m m' dst n (λ i, m !! (src + i)).
Proof.
  intros Hn Hs Hd Hov.
  destruct (for_up_inv (λ k m', blit m m' dst k (λ i, m !! (src + i)))
              (Z.to_nat n) 0 (copy_byte dst src) m) as (m' & Hm' & Hb).
  - intros i m1 Hi [Hin Hout].
    assert (Hm1 : m1 !! (src + i) = m !! (src + i)) by (apply Hout; lia).
    destruct (Hs i) as [v Hv]; [lia|].
    exists (<[dst + i := v]> m1). split.
    + apply copy_byte_ok; [congruence|]. rewrite Hout by lia. apply Hd. lia.
    + split.
      * intros j Hj. destruct (decide (j = i)) as [->|].
        { by rewrite lookup_insert_eq. }
        rewrite lookup_insert_ne by lia. apply Hin. lia.
      * intros a Ha. rewrite lookup_insert_ne by lia. apply Hout. lia.
  - split; intros; [lia|done].
  - exists m'. rewrite Z.add_0_l, Z2Nat.id in Hb by lia. done.
Qed.

(** Going down is right when the destination is not below the source. *)
Lemma copy_down_blit m dst src n :
  mapped m src (Z.of_nat n) → mapped m dst (Z.of_nat n) → src ≤ dst →
  ∀ m1 k, (k ≤ n)%nat →
    (∀ i, Z.of_nat k ≤ i < Z.of_nat n → m1 !! (dst + i) = m !! (src + i)) →
    (∀ a, (a < dst + Z.of_nat k ∨ dst + Z.of_nat n ≤ a) → m1 !! a = m !! a) →
    ∃ m', copy_down k dst src m1 = Ok m' ∧
          blit m m' dst (Z.of_nat n) (λ i, m !! (src + i)).
Proof.
  intros Hs Hd Hle m1 k. revert m1.
  induction k as [|k IH]; intros m1 Hk Hin Hout.
  { exists m1. split; [done|]. split; intros; [apply Hin|apply Hout]; lia. }
  destruct (Hs (Z.of_nat k)) as [v Hv]; [lia|]. cbn [copy_down].
  rewrite (copy_byte_ok dst src (Z.of_nat k) m1 v); cbn.
  - apply IH; [lia| |].
    + intros i Hi. destruct (decide (i = Z.of_nat k)) as [->|].
      { by rewrite lookup_insert_eq. }
      rewrite lookup_insert_ne by lia. apply Hin. lia.
    + intros a Ha. rewrite lookup_insert_ne by lia. apply Hout. lia.
  - rewrite Hout by lia. done.
  - rewrite Hout by lia. apply Hd. lia.
Qed.

(** [memmove] copies the source bytes as they were before the call, whatever
    the overlap of the two buffers, and changes nothing else. *)
Theorem memmove_copies_original m dst src n :
  0 ≤ n → mapped m src n → mapped m dst n →
  ∃ m', memmove m dst src n = Ok m' ∧ blit m m' dst n (λ i, m !! (src + i)).
Proof.
  intros Hn Hs Hd. unfold memmove. case_test.
  - apply copy_up_blit; try done. lia.
  - pose proof (copy_down_blit m dst src (Z.to_nat n)) as Hdown.
    rewrite Z2Nat.id in Hdown by lia. apply Hdown; try done; intros; lia.
Qed.

Definition m3 : mem := <[0:=1]> (<[1:=2]> (<[2:=3]> ∅)).

Lemma m3_mapped p n : 0 ≤ p → 0 ≤ n → p + n ≤ 3 → mapped m3 p n.
Proof.
  intros Hp Hn Hpn i Hi. assert (p + i = 0 ∨ p + i = 1 ∨ p + i = 2) as Hc by lia.
  destruct Hc as [->|[->| ->]]; vm_compute; eauto.
Qed.

Lemma memmove_copies_original_witness :
  mapped m3 0 2 ∧ mapped m3 1 2 ∧
  ∃ m', memmove m3 1 0 2 = Ok m' ∧ blit m3 m' 1 2 (λ i, m3 !! (0 + i)).
Proof.
  split; [apply m3_mapped; lia|]. split; [apply m3_mapped; lia|].
  apply (memmove_copies_original m3 1 0 2); [lia|apply m3_mapped; lia|apply m3_mapped; lia].
Defined.

Lemma memcpy_disjoint m dst src n :
  0 ≤ n → mapped m src n → mapped m dst n → (dst + n ≤ src ∨ src + n ≤ dst) →
  ∃ m', memcpy m dst src n = Ok m' ∧ blit m m' dst n (λ i, m !! (src + i)).
Proof. intros. unfold memcpy. apply copy_up_blit; try done. lia. Qed.

Lemma memset_fills m p v n :
  0 ≤ n → mapped m p n →
  ∃ m', memset m p v n = Ok m' ∧ blit m m' p n (λ _, Some (u8 v)).
Proof.
  intros Hn Hp. unfold memset.
  destruct (for_up_inv (λ k m', blit m m' p k (λ _, Some (u8 v)))
              (Z.to_nat n) 0 (λ i m, store8 m (p + i) (u8 v)) m) as (m' & Hm' & Hb).
  - intros i m1 Hi [Hin Hout]. exists (<[p + i := u8 v]> m1). split.
    + apply store8_Ok. rewrite Hout by lia. apply Hp. lia.
    + split.
      * intros j Hj. destruct (decide (j = i)) as [->|]; [by rewrite lookup_insert_eq|].
        rewrite lookup_insert_ne by lia. apply Hin. lia.
      * intros a Ha. rewrite lookup_insert_ne by lia. apply Hout. lia.
  - split; intros; [lia|done].
  - exists m'. rewrite Z.add_0_l, Z2Nat.id in Hb by lia. done.
Qed.

Lemma bytes_at_tail m p x l : bytes_at m p (x :: l) → bytes_at m (p + 1) l.
Proof.
  intros H i y Hi. specialize (H (S i) y Hi).
  by replace (p + 1 + Z.of_nat i) with (p + Z.of_nat (S i)) by lia.
Qed.

Lemma for_up_returned m a b v n i : for_up n i (memcmp_step m a b) (inr v) = Ok (inr v).
Proof. revert i. induction n; intros; cbn; auto. Qed.

Lemma memcmp_from m a b l0 l1 i :
  length l0 = length l1 → bytes_at m (a + i) l0 → bytes_at m (b + i) l1 →
  ∃ r, for_up (length l0) i (memcmp_step m a b) (inl tt) = Ok r ∧
       match r with inr v => v | inl _ => 0 end = bytes_cmp l0 l1.
Proof.
  revert l1 i. induction l0 as [|x l0 IH]; intros [|y l1] i Hl H0 H1; try done.
  { exists (inl tt). done. }
  cbn [length for_up memcmp_step bytes_cmp].
  pose proof (H0 0%nat x eq_refl) as Hx. pose proof (H1 0%nat y eq_refl) as Hy.
  rewrite Z.add_0_r in Hx, Hy.
  rewrite (proj2 (load8_Ok _ _ _) Hx), (proj2 (load8_Ok _ _ _) Hy). cbn.
  repeat case_test; rewrite ?for_up_returned; eauto.
  apply IH; [by injection Hl| |]; rewrite Z.add_assoc; by eapply bytes_at_tail.
Qed.

(** [memcmp] of two mapped buffers is the lexicographic comparison of their
    bytes as unsigned numbers, -1, 0 or 1. *)
Theorem memcmp_lexicographic m a b l0 l1 :
  length l0 = length l1 → bytes_at m a l0 → bytes_at m b l1 →
  memcmp m a b (Z.of_nat (length l0)) = Ok (bytes_cmp l0 l1).
Proof.
  intros Hl H0 H1. unfold memcmp. rewrite Nat2Z.id.
  destruct (memcmp_from m a b l0 l1 0) as (r & Hr & Hv); rewrite ?Z.add_0_r; try done.
  rewrite Hr. cbn. by rewrite Hv.
Qed.

Lemma memcmp_lexicographic_witness :
  bytes_at m3 0 [1; 2] ∧ bytes_at m3 1 [2; 3] ∧
  memcmp m3 0 1 (Z.of_nat (length [1; 2])) = Ok (bytes_cmp [1; 2] [2; 3]) ∧
  bytes_cmp [1; 2] [2; 3] = -1.
Proof.
  assert (H0 : bytes_at m3 0 [1; 2]) by (intros [|[|[]]] x [= <-]; reflexivity).
  assert (H1 : bytes_at m3 1 [2; 3]) by (intros [|[|[]]] x [= <-]; reflexivity).
  split; [exact H0|]. split; [exact H1|]. split; [|reflexivity].
  apply (memcmp_lexicographic m3 0 1 [1; 2] [2; 3] eq_refl H0 H1).
Defined.

End Mem.

Module Str.

(** ** strlen.c, strcmp.c, strcasecmp.c, strings.h, atoi.c *)

Definition strlen (fuel : nat) (str : Z → res Z) : res Z :=
  while fuel
    (λ len, c ← str len; Ok (if c =? 0 then Break len else Continue (u32 (len + 1)))) 0.

(** A byte read as [char] (signed), promoted to [int] and converted by [tr]: the
    identity, or [_tolower]. *)
Definition conv (tr : Z → Z) (b : Z) : Z := tr (s8 b).
Arguments conv : simpl never.

(** One iteration of the four comparison loops. *)
Definition cmp_iter (tr : Z → Z) (s0 s1 : Z → res Z) (i flag : Z) : res (ctl (Z * Z) Z) :=
  b0 ← s0 i; b1 ← s1 i;
  let c0 := conv tr b0 in
  let c1 := conv tr b1 in
  let flag := if c1 <? c0 then 1 else if c0 <? c1 then -1 else flag in
  Ok (if c0 =? 0 then Break flag else Continue (u32 (i + 1), flag)).

(** [more i] is the bound test of the loop: always true for strcmp and
    strcasecmp, [i < max_len] for the bounded versions. *)
Definition cmp_loop (tr : Z → Z) (more : Z → bool) (fuel : nat) (s0 s1 : Z → res Z) (i flag : Z) : res Z :=
  while fuel
    (λ st, if more st.1 && (st.2 =? 0) then cmp_iter tr s0 s1 st.1 st.2 else Ok (Break st.2))
    (i, flag).

Definition _tolower (c : Z) : Z := if (65 <=? c) && (c <=? 90) then c + 32 else c.

Definition strcmp (fuel : nat) (s0 s1 : Z → res Z) : res Z :=
  cmp_loop id (λ _, true) fuel s0 s1 0 0.
Definition strncmp (fuel : nat) (s0 s1 : Z → res Z) (max_len : Z) : res Z :=
  cmp_loop id (λ i, i <? max_len) fuel s0 s1 0 0.
Definition strcasecmp (fuel : nat) (s0 s1 : Z → res Z) : res Z :=
  cmp_loop _tolower (λ _, true) fuel s0 s1 0 0.
Definition strncasecmp (fuel : nat) (s0 s1 : Z → res Z) (max_len : Z) : res Z :=
  cmp_loop _tolower (λ i, i <? max_len) fuel s0 s1 0 0.

(** [while((x & t) == 0) { t <<= 1; r++; }] *)
Definition ffs (fuel : nat) (x : Z) : res Z :=
  while fuel
    (λ st, Ok (if Z.land x st.1 =? 0 then Continue (u32 (Z.shiftl st.1 1), st.2 + 1)
               else Break st.2)) (1, 1).

(** [res = res*10 + str[i] - '0'], every operation on [int]. *)
Definition atoi_step (r : Z) (c : Z) : res Z :=
  a ← int_chk (r * 10); b ← int_chk (a + s8 c); int_chk (b - 48).

Definition atoi (fuel : nat) (str : Z → res Z) : res Z :=
  c0 ← str 0;
  let '(sign, i) := if c0 =? 45 then (-1, 1) else (1, 0) in
  r ← while fuel
        (λ st, c ← str st.1;
               if c =? 0 then Ok (Break st.2)
               else r ← atoi_step st.2 c; Ok (Continue (st.1 + 1, r))) (i, 0);
  int_chk (sign * r).

(** ** Reference definitions *)

(** The characters of the C string that starts at index [p] are [l]. *)
Definition cstr (rd : Z → res Z) (p : Z) (l : list Z) : Prop :=
  (∀ k x, l !! k = Some x → rd (p + Z.of_nat k) = Ok x ∧ 1 ≤ x < 256) ∧
  rd (p + Z.of_nat (length l)) = Ok 0.

Definition cmp3 (x y : Z) : Z := if y <? x then 1 else if x <? y then -1 else 0.

Fixpoint chars_cmp (l0 l1 : list Z) : Z :=
  match l0, l1 with
  | [], [] => 0
  | [], y :: _ => cmp3 0 y
  | x :: _, [] => cmp3 x 0
  | x :: l0, y :: l1 => if x =? y then chars_cmp l0 l1 else cmp3 x y
  end.

Definition is_digit (c : Z) : Prop := 48 ≤ c ≤ 57.

Definition dec_value (l : list Z) : Z := fold_left (λ a c, a * 10 + (c - 48)) l 0.

(** A literal string as a reader. *)
Definition lit (l : list Z) (i : Z) : res Z := aget (l ++ [0]) i.

(** ** Lemmas *)

Lemma cstr_nil rd p : cstr rd p [] → rd p = Ok 0.
Proof. intros [_ H]. by rewrite Z.add_0_r in H. Qed.

Lemma cstr_cons rd p x l :
  cstr rd p (x :: l) → rd p = Ok x ∧ 1 ≤ x < 256 ∧ cstr rd (p + 1) l.
Proof.
  intros [H1 H2]. destruct (H1 0%nat x eq_refl) as [Hx Hr]. rewrite Z.add_0_r in Hx.
  split; [done|]. split; [done|]. split.
  - intros k y Hk. destruct (H1 (S k) y Hk).
    by replace (p + 1 + Z.of_nat k) with (p + Z.of_nat (S k)) by lia.
  - rewrite <- H2. f_equal. cbn. lia.
Qed.

Lemma cstr_lit l : Forall (λ x, 1 ≤ x < 256) l → cstr (lit l) 0 l.
Proof.
  intros Hl. split.
  - intros k x Hk. rewrite Forall_lookup in Hl. split; [|by eapply Hl].
    apply aget_Ok. rewrite Z.add_0_l, Nat2Z.id. split; [lia|]. by apply lookup_app_l_Some.
  - apply aget_Ok. rewrite Z.add_0_l, Nat2Z.id. split; [lia|].
    rewrite lookup_app_r, Nat.sub_diag by lia. done.
Qed.

Lemma strlen_from fuel rd p l :
  cstr rd p l → 0 ≤ p → p + Z.of_nat (length l) < 4294967296 → (length l < fuel)%nat →
  while fuel (λ len, c ← rd len;
    Ok (if c =? 0 then Break len else Continue (u32 (len + 1)))) p
  = Ok (p + Z.of_nat (length l)).
Proof.
  revert p fuel. induction l as [|x l IH]; intros p fuel Hc Hp Hlen Hf;
    (destruct fuel as [|fuel]; [cbn in Hf; lia|]); cbn [while].
  - rewrite (cstr_nil _ _ Hc). cbn. by rewrite Z.add_0_r.
  - destruct (cstr_cons _ _ _ _ Hc) as (-> & Hx & Hc'). cbn [length] in *. cbn [mbind res_bind].
    test_false (x =? 0). rewrite u32_small by lia.
    rewrite IH; try done; try lia. f_equal. lia.
Qed.

Lemma strlen_ok fuel rd l :
  cstr rd 0 l → Z.of_nat (length l) < 4294967296 → (length l < fuel)%nat →
  strlen fuel rd = Ok (Z.of_nat (length l)).
Proof. intros. unfold strlen. rewrite (strlen_from fuel rd 0 l); try done; lia. Qed.

Section Cmp.
Context (tr : Z → Z) (Htr : ∀ z, tr z = 0 ↔ z = 0).
Context (more : Z → bool) (s0 s1 : Z → res Z).

Lemma f_zero : conv tr 0 = 0.
Proof. unfold conv. by apply Htr. Qed.
Lemma f_nonzero x : 1 ≤ x < 256 → conv tr x ≠ 0.
Proof.
  unfold conv. intros Hx H. rewrite Htr, s8_byte_zero in H; unfold is_byte; lia.
Qed.

Lemma cmp_loop_ok l0 : ∀ l1 n p fuel,
  cstr s0 p l0 → cstr s1 p l1 → 0 ≤ p → p + Z.of_nat (length l0) + 1 < 4294967296 →
  (S (length l0) < fuel)%nat →
  (∀ k, (k < n)%nat → more (p + Z.of_nat k) = true) →
  (length l0 < n)%nat ∨ more (p + Z.of_nat n) = false →
  cmp_loop tr more fuel s0 s1 p 0 = Ok (chars_cmp (map (conv tr) (take n l0)) (map (conv tr) (take n l1))).
Proof.
  unfold cmp_loop.
  induction l0 as [|x l0 IH]; intros l1 [|n] p fuel H0 H1 Hp Hlen Hf Hm Hstop;
    (destruct fuel as [|fuel]; [cbn in Hf; lia|]); cbn [while fst snd].
  1, 3: (destruct Hstop as [Hs|Hs]; [cbn in Hs; lia|]; rewrite Z.add_0_r in Hs;
         rewrite Hs; by rewrite !take_0).
  - pose proof (Hm 0%nat ltac:(lia)) as Hm0. rewrite Z.add_0_r in Hm0. rewrite Hm0. cbn.
    unfold cmp_iter. rewrite (cstr_nil _ _ H0). destruct l1 as [|y l1].
    { rewrite (cstr_nil _ _ H1). cbn.  rewrite f_zero. done. }
    destruct (cstr_cons _ _ _ _ H1) as (-> & Hy & _). cbn.  rewrite f_zero.
    pose proof (f_nonzero y Hy). cbn. unfold cmp3. repeat case_test; done || lia.
  - pose proof (Hm 0%nat ltac:(lia)) as Hm0. rewrite Z.add_0_r in Hm0. rewrite Hm0. cbn [andb Z.eqb].
    destruct (cstr_cons _ _ _ _ H0) as (Hrx & Hx & H0'). unfold cmp_iter. rewrite Hrx.
    pose proof (f_nonzero x Hx) as Hfx. cbn [length] in *.
    destruct fuel as [|fuel]; [lia|].
    destruct l1 as [|y l1].
    + rewrite (cstr_nil _ _ H1). cbn [mbind res_bind].  rewrite f_zero.
      test_false (conv tr x =? 0). cbn [while fst snd take map chars_cmp].
      rewrite u32_small by lia.
      unfold cmp3. destruct (Z.ltb_spec 0 (conv tr x)), (Z.ltb_spec (conv tr x) 0); cbn;
        rewrite ?andb_false_r; done || lia.
    + destruct (cstr_cons _ _ _ _ H1) as (-> & Hy & H1').
      cbn [mbind res_bind]. 
      test_false (conv tr x =? 0). rewrite u32_small by lia. cbn [take map chars_cmp].
      destruct (Z.eqb_spec (conv tr x) (conv tr y)) as [Heq|Hne].
      * rewrite Heq, !Z.ltb_irrefl. apply IH; try done; try lia.
        -- intros k Hk. rewrite <- (Hm (S k)) by lia. f_equal. lia.
        -- destruct Hstop; [left; lia|right].
           by replace (p + 1 + Z.of_nat n) with (p + Z.of_nat (S n)) by lia.
      * cbn [while fst snd].
        unfold cmp3.
        destruct (Z.ltb_spec (conv tr y) (conv tr x)), (Z.ltb_spec (conv tr x) (conv tr y)); cbn;
          rewrite ?andb_false_r; done || lia.
Qed.
End Cmp.

Lemma id_zero z : id z = 0 ↔ z = 0.
Proof. done. Qed.

Lemma tolower_zero z : _tolower z = 0 ↔ z = 0.
Proof. unfold _tolower. case_test; [lia|]. done. Qed.

Lemma cmp3_zero x y : cmp3 x y = 0 ↔ x = y.
Proof. unfold cmp3. repeat case_test; lia. Qed.

Lemma cmp3_antisym x y : cmp3 x y = - cmp3 y x.
Proof. unfold cmp3. repeat case_test; lia. Qed.

Lemma chars_cmp_zero (l0 l1 : list Z) :
  Forall (λ x, x ≠ 0) l0 → Forall (λ x, x ≠ 0) l1 → chars_cmp l0 l1 = 0 ↔ l0 = l1.
Proof.
  intros H0. revert l1. induction H0 as [|x l0 Hx H0 IH]; intros [|y l1] H1; cbn; try done.
  - inv H1. rewrite cmp3_zero. naive_solver.
  - rewrite cmp3_zero. naive_solver.
  - inv H1. case_test; [subst; rewrite IH by done; naive_solver|].
    rewrite cmp3_zero. naive_solver.
Qed.

Lemma chars_cmp_antisym l0 l1 : chars_cmp l0 l1 = - chars_cmp l1 l0.
Proof.
  revert l1. induction l0 as [|x l0 IH]; intros [|y l1]; cbn; try done;
    [apply cmp3_antisym..|].
  rewrite (Z.eqb_sym y x). case_test; [apply IH|apply cmp3_antisym].
Qed.

Lemma s8_map_inj l0 l1 :
  Forall (λ x, 1 ≤ x < 256) l0 → Forall (λ x, 1 ≤ x < 256) l1 →
  map s8 l0 = map s8 l1 → l0 = l1.
Proof.
  intros H0. revert l1. induction H0 as [|x l0 Hx H0 IH]; intros [|y l1] H1 Heq; try done.
  apply Forall_cons in H1 as [Hy H1]. cbn in Heq. injection Heq as Hh Ht.
  f_equal; [|by apply IH].
  apply s8_inj in Hh; unfold is_byte; lia.
Qed.

Lemma cstr_chars rd p l : cstr rd p l → Forall (λ x, 1 ≤ x < 256) l.
Proof. intros [H _]. apply Forall_lookup. intros i x Hi. by destruct (H i x Hi). Qed.

Lemma s8_nonzero l : Forall (λ x, 1 ≤ x < 256) l → Forall (λ x, x ≠ 0) (map s8 l).
Proof.
  intros H. induction H; constructor; [|done]. rewrite s8_byte_zero; unfold is_byte; lia.
Qed.

Lemma strcmp_eq fuel s0 s1 l0 l1 :
  cstr s0 0 l0 → cstr s1 0 l1 → Z.of_nat (length l0) + 1 < 4294967296 →
  (S (length l0) < fuel)%nat →
  strcmp fuel s0 s1 = Ok (chars_cmp (map s8 l0) (map s8 l1)).
Proof.
  intros H0 H1 Hl Hf. unfold strcmp.
  rewrite (cmp_loop_ok id id_zero _ s0 s1 l0 l1 (S (length l0 + length l1)) 0 fuel);
    try done; try lia.
  rewrite !take_ge by lia. done.
Qed.

(** [strcmp] orders two strings as the sequences of their [signed char]s
    (end of string as 0); it returns 0 exactly on equal strings, and swapping
    the arguments flips the sign. *)
Theorem strcmp_correct fuel s0 s1 l0 l1 :
  cstr s0 0 l0 → cstr s1 0 l1 →
  Z.of_nat (length l0) + 1 < 4294967296 → Z.of_nat (length l1) + 1 < 4294967296 →
  (S (length l0) < fuel)%nat → (S (length l1) < fuel)%nat →
  ∃ r, strcmp fuel s0 s1 = Ok r ∧ r = chars_cmp (map s8 l0) (map s8 l1) ∧
       (r = 0 ↔ l0 = l1) ∧ strcmp fuel s1 s0 = Ok (- r).
Proof.
  intros H0 H1 Hl0 Hl1 Hf0 Hf1. eexists. split; [by apply strcmp_eq|].
  split; [done|]. pose proof (cstr_chars _ _ _ H0). pose proof (cstr_chars _ _ _ H1). split.
  - rewrite chars_cmp_zero by (by apply s8_nonzero). split; [by apply s8_map_inj|by intros ->].
  - rewrite (strcmp_eq fuel s1 s0 l1 l0) by done. f_equal. apply chars_cmp_antisym.
Qed.

Lemma strcmp_correct_witness :
  ∃ r, strcmp 5 (lit [97; 98]) (lit [97; 200]) = Ok r ∧
       r = chars_cmp (map s8 [97; 98]) (map s8 [97; 200]) ∧
       (r = 0 ↔ [97; 98] = [97; 200]) ∧ strcmp 5 (lit [97; 200]) (lit [97; 98]) = Ok (- r).
Proof.
  apply (strcmp_correct 5 (lit [97; 98]) (lit [97; 200]) [97; 98] [97; 200]);
    first [apply cstr_lit; repeat constructor; lia | cbn; lia].
Defined.

Lemma strncmp_eq fuel s0 s1 l0 l1 n :
  cstr s0 0 l0 → cstr s1 0 l1 → Z.of_nat (length l0) + 1 < 4294967296 →
  (S (length l0) < fuel)%nat →
  strncmp fuel s0 s1 (Z.of_nat n)
  = Ok (chars_cmp (map s8 (take n l0)) (map s8 (take n l1))).
Proof.
  intros H0 H1 Hl Hf. unfold strncmp.
  apply (cmp_loop_ok id id_zero _ s0 s1 l0 l1 n 0 fuel); try done; try lia.
Qed.

Lemma tolower_nonzero l :
  Forall (λ x, 1 ≤ x < 256) l → Forall (λ x, x ≠ 0) (map (λ x, _tolower (s8 x)) l).
Proof.
  intros H. induction H; constructor; [|done].
  rewrite tolower_zero, s8_byte_zero; unfold is_byte; lia.
Qed.

(** [strncasecmp] compares at most [n] characters of each string, ignoring
    the case of ASCII letters, and returns 0 exactly when the two prefixes are
    the same up to case. *)
Theorem strncasecmp_correct fuel s0 s1 l0 l1 n :
  cstr s0 0 l0 → cstr s1 0 l1 → Z.of_nat (length l0) + 1 < 4294967296 →
  (S (length l0) < fuel)%nat →
  ∃ r, strncasecmp fuel s0 s1 (Z.of_nat n) = Ok r ∧
       (r = 0 ↔ map (λ x, _tolower (s8 x)) (take n l0) = map (λ x, _tolower (s8 x)) (take n l1)).
Proof.
  intros H0 H1 Hl Hf. eexists. split.
  { unfold strncasecmp.
    apply (cmp_loop_ok _tolower tolower_zero _ s0 s1 l0 l1 n 0 fuel); try done; try lia. }
  apply chars_cmp_zero; apply tolower_nonzero, Forall_take; by eapply cstr_chars.
Qed.

Lemma strncasecmp_correct_witness :
  ∃ r, strncasecmp 9 (lit [82; 83; 68; 65]) (lit [114; 115; 100; 66]) (Z.of_nat 3) = Ok r ∧
    (r = 0 ↔ map (λ x, _tolower (s8 x)) (take 3 [82; 83; 68; 65])
             = map (λ x, _tolower (s8 x)) (take 3 [114; 115; 100; 66])).
Proof.
  apply (strncasecmp_correct 9 (lit [82; 83; 68; 65]) (lit [114; 115; 100; 66]));
    first [apply cstr_lit; repeat constructor; lia | cbn; lia].
Defined.

(** ** ffs *)

Lemma land_pow2 x j : 0 ≤ j → Z.land x (2 ^ j) = if Z.testbit x j then 2 ^ j else 0.
Proof.
  intros Hj. apply Z.bits_inj'. intros k Hk. rewrite Z.land_spec, Z.pow2_bits_eqb by done.
  destruct (Z.eqb_spec j k) as [->|].
  - rewrite andb_true_r. destruct (Z.testbit x k); [by rewrite Z.pow2_bits_true|by rewrite Z.bits_0].
  - rewrite andb_false_r. destruct (Z.testbit x j); [by rewrite Z.pow2_bits_false|by rewrite Z.bits_0].
Qed.

Lemma nonzero_low_bit x : 0 < x < 4294967296 → ∃ j, 0 ≤ j < 32 ∧ Z.testbit x j = true.
Proof.
  intros Hx. exists (Z.log2 x). split; [|by apply Z.bit_log2; lia].
  split; [apply Z.log2_nonneg|]. apply Z.log2_lt_pow2; [lia|]. change (2 ^ 32) with 4294967296. lia.
Qed.

(** The position, from 1, of the lowest set bit. *)
Definition lowest_bit (x r : Z) : Prop :=
  1 ≤ r ≤ 32 ∧ Z.testbit x (r - 1) = true ∧ (∀ j, 0 ≤ j < r - 1 → Z.testbit x j = false).

Lemma ffs_ok x fuel :
  0 < x < 4294967296 → (32 < fuel)%nat → ∃ r, ffs fuel x = Ok r ∧ lowest_bit x r.
Proof.
  intros Hx Hf. destruct (nonzero_low_bit x Hx) as (b & Hb & Hbit). unfold ffs.
  apply (while_total (λ st, 1 ≤ st.2 ≤ b + 1 ∧ st.1 = 2 ^ (st.2 - 1) ∧
           ∀ j, 0 ≤ j < st.2 - 1 → Z.testbit x j = false)
           _ (λ st, Z.to_nat (33 - st.2))).
  - intros [t r]. cbn. intros (Hr & -> & Hlow). rewrite land_pow2 by lia.
    destruct (Z.testbit x (r - 1)) eqn:Ht.
    + right. exists r. pose proof (Z.pow_pos_nonneg 2 (r - 1)).
      test_false (2 ^ (r - 1) =? 0). split; [done|]. split_and!; try done; lia.
    + left. exists (2 ^ r, r + 1). cbn.
      assert (r ≠ b + 1) by (intros ->; replace (b + 1 - 1) with b in Ht by lia; congruence).
      assert (2 ^ r ≤ 2 ^ 31) by (apply Z.pow_le_mono_r; lia).
      pose proof (Z.pow_pos_nonneg 2 r).
      rewrite Z.shiftl_mul_pow2 by lia. rewrite <- Z.pow_add_r by lia.
      replace (r - 1 + 1) with r by lia. rewrite u32_small by (change (2 ^ 31) with 2147483648 in *; lia).
      split_and!; try done; try lia.
      * f_equal. lia.
      * intros j Hj. destruct (decide (j = r - 1)) as [->|]; [done|]. apply Hlow. lia.
  - cbn. split_and!; try done; try lia.
  - cbn. lia.
Qed.

(** [ffs] of 0 never returns (the loop has no exit); of any other 32-bit
    value it returns the position, from 1, of the lowest set bit, within 32
    iterations. *)
Theorem ffs_total_or_diverges x fuel :
  0 ≤ x < 4294967296 → (32 < fuel)%nat →
  if x =? 0 then ffs fuel x = Fault OutOfFuel
  else ∃ r, ffs fuel x = Ok r ∧ lowest_bit x r.
Proof.
  intros Hx Hf. case_test; [subst|apply ffs_ok; lia]. unfold ffs.
  apply (while_diverges (λ _, True)); [|done]. intros [t r] _. cbn. eauto.
Qed.

Lemma ffs_total_or_diverges_witness :
  ∃ r, ffs 33 2496 = Ok r ∧ lowest_bit 2496 r.
Proof. apply (ffs_total_or_diverges 2496 33); lia. Defined.

(** ** atoi *)

Lemma dec_value_fold l a :
  fold_left (λ a c, a * 10 + (c - 48)) l a = a * 10 ^ Z.of_nat (length l) + dec_value l.
Proof.
  unfold dec_value. revert a. induction l as [|c l IH]; intros a; cbn [fold_left length].
  { change (10 ^ Z.of_nat 0) with 1. lia. }
  rewrite (IH (a * 10 + (c - 48))), (IH (0 * 10 + (c - 48))).
  rewrite Nat2Z.inj_succ, Z.pow_succ_r by lia. lia.
Qed.

Lemma dec_value_nonneg l : Forall is_digit l → 0 ≤ dec_value l.
Proof.
  induction 1 as [|c l Hc Hl IH]; [done|]. unfold dec_value. cbn [fold_left].
  rewrite dec_value_fold. unfold is_digit in Hc.
  pose proof (Z.pow_pos_nonneg 10 (Z.of_nat (length l))). nia.
Qed.

Lemma atoi_step_ok r c :
  is_digit c → 0 ≤ r → r * 10 + c ≤ 2147483647 → atoi_step r c = Ok (r * 10 + (c - 48)).
Proof.
  unfold is_digit, atoi_step. intros Hc Hr Hmax.
  assert (s8 c = c) as -> by (unfold s8; rewrite Z.mod_small by lia; by test_true (c <? 128)).
  rewrite int_chk_ok by lia. cbn. rewrite int_chk_ok by lia. cbn.
  rewrite int_chk_ok by lia. f_equal; lia.
Qed.

Lemma atoi_loop fuel str p l r :
  cstr str p l → Forall is_digit l → 0 ≤ r →
  fold_left (λ a c, a * 10 + (c - 48)) l r ≤ 2147483599 → (length l < fuel)%nat →
  while fuel
    (λ st, c ← str st.1;
           if c =? 0 then Ok (Break st.2)
           else r ← atoi_step st.2 c; Ok (Continue (st.1 + 1, r))) (p, r)
  = Ok (fold_left (λ a c, a * 10 + (c - 48)) l r).
Proof.
  revert p r fuel. induction l as [|c l IH]; intros p r fuel Hc Hd Hr Hmax Hf;
    (destruct fuel as [|fuel]; [cbn in Hf; lia|]); cbn [while fst snd].
  - by rewrite (cstr_nil _ _ Hc).
  - destruct (cstr_cons _ _ _ _ Hc) as (-> & Hcr & Hc'). cbn [mbind res_bind length fold_left] in *.
    inv Hd. test_false (c =? 0).
    assert (r * 10 + (c - 48) ≤ 2147483599).
    { etrans; [|exact Hmax]. rewrite dec_value_fold. pose proof (dec_value_nonneg l ltac:(done)).
      pose proof (Z.pow_pos_nonneg 10 (Z.of_nat (length l))). unfold is_digit in *. nia. }
    rewrite atoi_step_ok by (unfold is_digit in *; lia). cbn [mbind res_bind].
    apply IH; try done; unfold is_digit in *; lia.
Qed.

Lemma atoi_empty fuel str : cstr str 0 [] → atoi (S fuel) str = Ok 0.
Proof.
  intros Hc. unfold atoi. rewrite (cstr_nil _ _ Hc). cbn [mbind res_bind Z.eqb]. cbn [while fst snd].
  by rewrite (cstr_nil _ _ Hc).
Qed.

(** A numeral above the bound overflows on the way. *)
Lemma atoi_step_overflow r c :
  is_digit c → 0 ≤ r → 2147483599 < r * 10 + (c - 48) → atoi_step r c = Fault SignedOverflow.
Proof.
  unfold is_digit, atoi_step. intros Hc Hr Hmax.
  assert (s8 c = c) as -> by (unfold s8; rewrite Z.mod_small by lia; by test_true (c <? 128)).
  assert (Hover : ∀ z, 2147483647 < z → int_chk z = Fault SignedOverflow).
  { intros z Hz. unfold int_chk. by rewrite (proj2 (Z.leb_gt z 2147483647)), andb_false_r by lia. }
  destruct (decide (r * 10 ≤ 2147483647)); [rewrite int_chk_ok by lia; cbn [mbind res_bind]|]; by rewrite Hover by lia.
Qed.

Lemma atoi_loop_overflow fuel str p l r :
  cstr str p l → Forall is_digit l → 0 ≤ r ≤ 2147483599 →
  2147483599 < fold_left (λ a c, a * 10 + (c - 48)) l r → (length l < fuel)%nat →
  while fuel
    (λ st, c ← str st.1;
           if c =? 0 then Ok (Break st.2)
           else r ← atoi_step st.2 c; Ok (Continue (st.1 + 1, r))) (p, r)
  = Fault SignedOverflow.
Proof.
  revert p r fuel. induction l as [|c l IH]; intros p r fuel Hc Hd Hr Hmax Hf;
    (destruct fuel as [|fuel]; [cbn in Hf; lia|]); cbn [while fst snd]; [cbn in Hmax; lia|].
  destruct (cstr_cons _ _ _ _ Hc) as (-> & Hcr & Hc'). cbn [mbind res_bind length fold_left] in *.
  inv Hd. test_false (c =? 0). destruct (decide (r * 10 + (c - 48) ≤ 2147483599)).
  - rewrite atoi_step_ok by (unfold is_digit in *; lia). cbn [mbind res_bind].
    apply IH; try done; unfold is_digit in *; lia.
  - by rewrite atoi_step_overflow by (done || lia).
Qed.

Lemma atoi_decimal_ok fuel str (neg : bool) ds :
  cstr str 0 ((if neg then [45] else []) ++ ds) → Forall is_digit ds → ds ≠ [] →
  (length ds < fuel)%nat →
  atoi fuel str = if dec_value ds <=? 2147483599 then Ok (if neg then - dec_value ds else dec_value ds) else Fault SignedOverflow.
Proof.
  intros Hc Hd Hne Hf. pose proof (dec_value_nonneg ds Hd).
  assert (Hloop : ∀ p, cstr str p ds → while fuel
    (λ st, c ← str st.1;
           if c =? 0 then Ok (Break st.2)
           else r ← atoi_step st.2 c; Ok (Continue (st.1 + 1, r))) (p, 0)
    = if dec_value ds <=? 2147483599 then Ok (dec_value ds) else Fault SignedOverflow).
  { intros p Hp. destruct (Z.leb_spec (dec_value ds) 2147483599); [by apply (atoi_loop fuel str p ds 0)|by apply (atoi_loop_overflow fuel str p ds 0)]. }
  unfold atoi. destruct neg; cbn [app] in Hc.
  - destruct (cstr_cons _ _ _ _ Hc) as (-> & _ & Hc'). cbn [mbind res_bind Z.eqb Pos.eqb].
    rewrite (Hloop 1) by done. case_test; [|done]. cbn [mbind res_bind]. rewrite int_chk_ok by lia. f_equal; lia.
  - destruct ds as [|d ds]; [done|]. destruct (cstr_cons _ _ _ _ Hc) as (-> & _ & _).
    cbn [mbind res_bind]. assert (is_digit d) by (by inv Hd). unfold is_digit in *.
    test_false (d =? 45). rewrite (Hloop 0) by done. case_test; [|done].
    cbn [mbind res_bind]. rewrite int_chk_ok by lia. f_equal; lia.
Qed.

(** [atoi] of any string that ends within the fuel stops, with a value or with a
    signed overflow. *)
Lemma atoi_total fuel str n :
  (∀ i, 0 ≤ i < n → ∃ b, str i = Ok b) → str n = Ok 0 → 0 ≤ n → (Z.to_nat n < fuel)%nat →
  post (λ _, True) (λ f, f = SignedOverflow) (atoi fuel str).
Proof.
  intros Hstr Hz Hn Hf. unfold atoi.
  assert (Hrd : ∀ i, 0 ≤ i ≤ n → ∃ b, str i = Ok b).
  { intros i Hi. destruct (decide (i = n)) as [->|]; [eauto|]. apply Hstr. lia. }
  destruct (Hrd 0) as [c0 Hc0]; [lia|]. rewrite Hc0. cbn [mbind res_bind].
  destruct (if c0 =? 45 then (-1, 1) else (1, 0)) as [sign i] eqn:Ei.
  assert (0 ≤ i ≤ n) as Hi.
  { destruct (c0 =? 45) eqn:E; simplify_eq; [|lia]. apply Z.eqb_eq in E as ->.
    destruct (decide (n = 0)) as [->|]; [congruence|lia]. }
  assert (Hint : ∀ z, post (λ _, True) (λ f, f = SignedOverflow) (int_chk z))
    by (intros z; unfold int_chk; by destruct (_ && _)).
  eapply post_bind with (Q := λ _, True); [|intros r _; apply Hint].
  eapply (while_post (λ st : Z * Z, 0 ≤ st.1 ≤ n) _ _ (λ st, Z.to_nat (n - st.1)));
    [|done|cbn; lia].
  intros [k r] Hk. cbn [fst snd] in *. destruct (Hrd k Hk) as [c Hc]. rewrite Hc. cbn [mbind res_bind].
  case_test; [done|].
  assert (k ≠ n) by (intros ->; congruence).
  eapply (post_bind (λ _, True)); [|intros r' _; cbn; lia].
  unfold atoi_step. do 2 (eapply (post_bind (λ _, True)); [apply Hint|intros ? _]). apply Hint.
Qed.

(** [atoi] of a decimal numeral, with or without a minus sign, is its value when
    that is at most INT_MAX - 48; above, [res*10 + str[i]] overflows before ['0'] is
    subtracted. *)
Theorem atoi_decimal fuel str (neg : bool) ds :
  cstr str 0 ((if neg then [45] else []) ++ ds) → Forall is_digit ds → ds ≠ [] →
  (length ds < fuel)%nat →
  atoi fuel str = if dec_value ds <=? 2147483599 then Ok (if neg then - dec_value ds else dec_value ds) else Fault SignedOverflow.
Proof. apply atoi_decimal_ok. Qed.

Lemma atoi_decimal_witness : atoi 3 (lit [45; 51; 55]) = Ok (- dec_value [51; 55]).
Proof.
  apply (atoi_decimal 3 (lit [45; 51; 55]) true [51; 55]);
    first [apply cstr_lit; repeat constructor; lia | repeat constructor; unfold is_digit; lia
          | done | cbn; lia].
Defined.

End Str.
