(* ===== verification/Linked.v ===== *)
(** Linked lists whose nodes live in a store: [nx a] is the successor of the node
    at address [a], when there is one. *)
From S2P Require Import Prelude.

(** Following [nx] from each element of [ts] leads to the following one, and
    from the last one to [q]. *)
Fixpoint path (nx : Z → option Z) (ts : list Z) (q : Z) : Prop :=
  match ts with
  | [] => True
  | a :: ts => nx a = Some (hd q ts) ∧ path nx ts q
  end.

Lemma path_app nx l1 l2 q : path nx (l1 ++ l2) q ↔ path nx l1 (hd q l2) ∧ path nx l2 q.
Proof.
  induction l1 as [|a l1 IH]; cbn; [tauto|]. rewrite IH.
  assert (hd q (l1 ++ l2) = hd (hd q l2) l1) as -> by by destruct l1. tauto.
Qed.

Lemma path_frame nx nx' ts q : (∀ a, a ∈ ts → nx' a = nx a) → path nx ts q → path nx' ts q.
Proof.
  induction ts as [|a ts IH]; intros Hf Hp; [done|]. destruct Hp as [Ha Hp]. split.
  - rewrite Hf; [done|]. by left.
  - apply IH; [|done]. intros b Hb. apply Hf. by right.
Qed.

Lemma path_mem nx ts q a : path nx ts q → a ∈ ts → is_Some (nx a).
Proof.
  induction ts as [|b ts IH]; intros Hp Ha; [by apply elem_of_nil in Ha|]. destruct Hp as [Hb Hp].
  apply elem_of_cons in Ha as [->|Ha]; [eauto|by apply IH].
Qed.

(** Redirecting the last node. *)
Lemma path_redirect_last nx nx' ts z q q' :
  NoDup ts → last ts = Some z → (∀ a, a ∈ ts → a ≠ z → nx' a = nx a) → nx' z = Some q' →
  path nx ts q → path nx' ts q'.
Proof.
  intros Hn Hl. revert Hn. apply last_Some in Hl as [l ->]. intros Hn Hf Hz Hp.
  apply path_app in Hp as [Hp _]. apply path_app. cbn [hd path] in *. split; [|done].
  eapply path_frame; [|exact Hp]. intros a Ha. apply Hf; [set_solver|].
  intros ->. apply NoDup_app in Hn as (_ & Hd & _). by apply (Hd z Ha), list_elem_of_singleton.
Qed.

(** Appending a node. *)
Lemma path_snoc nx nx' ts z p :
  NoDup ts → last ts = Some z → (∀ a, a ∈ ts → a ≠ z → nx' a = nx a) → nx' z = Some p → nx' p = Some 0 →
  path nx ts 0 → path nx' (ts ++ [p]) 0.
Proof.
  intros. apply path_app. cbn. split; [|done]. by eapply path_redirect_last.
Qed.

(** A node of a list that has no [0] has a successor address that is one of the
    nodes, or [0]. *)
Lemma path_hd nx ts : path nx ts 0 → 0 ∉ ts → (hd 0 ts = 0 ↔ ts = []).
Proof. destruct ts as [|a ts]; cbn; [done|]. intros _ H0. split; [|done]. intros ->. set_solver. Qed.
