(* ===== verification/Format.v ===== *)
(** Formatted output: [dopr] and the [printf] family.

    Source: libc/stdio/snprintf.c, compiled for i386: LLONG is [long], 32 bits.

    The format is a reader of bytes, [char] is signed.  The variable arguments
    are the 32-bit words of the stack in order; strings and the targets of %n are
    addresses in byte memory.  The output is an array with the number of
    characters printed so far.  [fmtfp], the conversion of %f, works on doubles
    and is a parameter here; Float.v defines it. *)
From S2P Require Import Prelude CString.

Definition DP_S_DEFAULT : Z := 0.
Definition DP_S_FLAGS : Z := 1.
Definition DP_S_MIN : Z := 2.
Definition DP_S_DOT : Z := 3.
Definition DP_S_MAX : Z := 4.
Definition DP_S_MOD : Z := 5.
Definition DP_S_CONV : Z := 6.
Definition DP_S_DONE : Z := 7.

Definition DP_F_MINUS : Z := 1.
Definition DP_F_PLUS : Z := 2.
Definition DP_F_SPACE : Z := 4.
Definition DP_F_NUM : Z := 8.
Definition DP_F_ZERO : Z := 16.
Definition DP_F_UP : Z := 32.
Definition DP_F_UNSIGNED : Z := 64.

Definition DP_C_SHORT : Z := 1.
Definition DP_C_LONG : Z := 2.
Definition DP_C_LDOUBLE : Z := 3.
Definition DP_C_LLONG : Z := 4.

Definition char_to_int (p : Z) : Z := p - 48.
Definition isdigit (c : Z) : bool := u8 (c - 48) <=? 9.

(** [flags & f] as a test. *)
Definition flag (flags f : Z) : bool := negb (Z.land flags f =? 0).

(** ** Output *)

Record out_t : Type := Out { buffer : list Z; currlen : Z }.

Definition dopr_outch (maxlen : Z) (o : out_t) (c : Z) : res out_t :=
  b ← (if currlen o <? maxlen then aset (buffer o) (currlen o) (u8 c) else Ok (buffer o));
  Ok (Out b (u32 (currlen o + 1))).

(** [while (n > 0) { printch(c); --n; }] *)
Definition repeat_outch (maxlen : Z) (o : out_t) (c n : Z) : res out_t :=
  for_up (Z.to_nat n) 0 (λ _ o, dopr_outch maxlen o c) o.

(** ** Integers *)

Definition digits_upper : list Z := [48; 49; 50; 51; 52; 53; 54; 55; 56; 57; 65; 66; 67; 68; 69; 70].
Definition digits_lower : list Z := [48; 49; 50; 51; 52; 53; 54; 55; 56; 57; 97; 98; 99; 100; 101; 102].

(** The [do ... while(uvalue && (place < 20))] loop that fills [convert]. *)
Definition convert_digits (caps : bool) (base uvalue : Z) (convert : list Z) : res (list Z * Z) :=
  while 21
    (λ st, let '(convert, place, uvalue) := st in
       d ← aget (if caps then digits_upper else digits_lower) (uvalue mod base);
       convert ← aset convert place d;
       let place := place + 1 in
       let uvalue := uvalue / base in
       if negb (uvalue =? 0) && (place <? 20) then Ok (Continue (convert, place, uvalue))
       else Ok (Break (convert, place))) (convert, 0, uvalue).

(** [while (place > 0) printch(convert[--place])] *)
Fixpoint print_convert (maxlen : Z) (convert : list Z) (place : nat) (o : out_t) : res out_t :=
  match place with
  | O => Ok o
  | S place =>
      d ← aget convert (Z.of_nat place);
      o ← dopr_outch maxlen o (s8 d);
      print_convert maxlen convert place o
  end.

(** The sign character, 0 for none, and the magnitude. *)
Definition sign_part (flags value : Z) : res (Z * Z) :=
  if negb (flag flags DP_F_UNSIGNED) then
    if value <? 0 then v ← int_chk (- value); Ok (45, u32 v)
    else if flag flags DP_F_PLUS then Ok (43, u32 value)
    else if flag flags DP_F_SPACE then Ok (32, u32 value)
    else Ok (0, u32 value)
  else Ok (0, u32 value).

(** [junk] is the uninitialised array [convert[20]]. *)
Definition fmtint (junk : list Z) (maxlen : Z) (o : out_t) (value base min max flags : Z) : res out_t :=
  let max := if max <? 0 then 0 else max in
  '(signvalue, uvalue) ← sign_part flags value;
  let caps := flag flags DP_F_UP in
  '(convert, place) ← convert_digits caps base uvalue junk;
  let place := if place =? 20 then place - 1 else place in
  convert ← aset convert place 0;
  zpadlen ← int_chk (max - place);
  spadlen ← int_chk (min - (if place <=? max then max else place) - (if signvalue =? 0 then 0 else 1));
  let zpadlen := if zpadlen <? 0 then 0 else zpadlen in
  let spadlen := if spadlen <? 0 then 0 else spadlen in
  let '(zpadlen, spadlen) :=
    if flag flags DP_F_ZERO then (if spadlen <=? zpadlen then zpadlen else spadlen, 0)
    else (zpadlen, spadlen) in
  let spadlen := if flag flags DP_F_MINUS then - spadlen else spadlen in
  o ← repeat_outch maxlen o 32 spadlen;
  o ← (if signvalue =? 0 then Ok o else dopr_outch maxlen o signvalue);
  o ← repeat_outch maxlen o 48 zpadlen;
  o ← print_convert maxlen convert (Z.to_nat place) o;
  repeat_outch maxlen o 32 (- spadlen).

(** ** Strings *)

(** No string in [m] is longer than this. *)
Definition str_fuel (m : mem) : nat := S (size m).

Definition null_text : list Z := [60; 78; 85; 76; 76; 62].

(** [value]: the string at an address, or "<NULL>". *)
Definition str_at (m : mem) (value : Z) (i : Z) : res Z :=
  if value =? 0 then Str.lit null_text i else load8 m (value + i).

Definition str_length (fuel : nat) (rd : Z → res Z) : res Z :=
  while fuel (λ n, c ← rd n; Ok (if negb (c =? 0) then Continue (n + 1) else Break n)) 0.

(** The three loops of [fmtstr], each bounded by [cnt < max]. *)
Definition pad_loop (fuel : nat) (maxlen max dir : Z) (st : out_t * Z * Z) : res (out_t * Z * Z) :=
  while fuel
    (λ st : out_t * Z * Z, let '(o, padlen, cnt) := st in
       if (0 <? dir * padlen) && (cnt <? max)
       then o ← dopr_outch maxlen o 32; Ok (Continue (o, padlen - dir, cnt + 1))
       else Ok (Break st)) st.

Definition text_loop (fuel : nat) (maxlen max : Z) (rd : Z → res Z) (o : out_t) (cnt : Z) : res (out_t * Z) :=
  while fuel
    (λ st : out_t * Z * Z, let '(o, i, cnt) := st in
       c ← rd i;
       if negb (c =? 0) && (cnt <? max)
       then o ← dopr_outch maxlen o (s8 c); Ok (Continue (o, i + 1, cnt + 1))
       else Ok (Break (o, cnt))) (o, 0, cnt).

Definition fmtstr (m : mem) (maxlen : Z) (o : out_t) (value flags min max : Z) : res out_t :=
  let rd := str_at m value in
  strln ← str_length (str_fuel m + 7) rd;
  padlen ← int_chk (min - strln);
  let padlen := if padlen <? 0 then 0 else padlen in
  let padlen := if flag flags DP_F_MINUS then - padlen else padlen in
  let fuel := S (Z.to_nat (Z.abs padlen)) in
  '(o, padlen, cnt) ← pad_loop fuel maxlen max 1 (o, padlen, 0);
  '(o, cnt) ← text_loop (str_fuel m + 7) maxlen max rd o cnt;
  '(o, _, _) ← pad_loop fuel maxlen max (-1) (o, padlen, cnt);
  Ok o.

(** ** The format *)

Record dp_t : Type := Dp {
  dp_pos : Z;
  dp_ch : Z;
  dp_state : Z;
  dp_flags : Z;
  dp_min : Z;
  dp_max : Z;
  dp_cflags : Z;
  dp_args : list Z;
  dp_out : out_t;
  dp_mem : mem;
}.

Section dopr.
(** The format string, the size of the output, the contents of fresh locals, and
    the conversion of doubles (two argument words). *)
Variable format : Z → res Z.
Variable maxlen : Z.
Variable junk : list Z.
Variable fmtfp : out_t → Z → Z → Z → Z → Z → res out_t.

(** [ch = *format++] *)
Definition next_char (d : dp_t) : res dp_t :=
  c ← format (dp_pos d);
  Ok (Dp (dp_pos d + 1) (s8 c) (dp_state d) (dp_flags d) (dp_min d) (dp_max d) (dp_cflags d)
         (dp_args d) (dp_out d) (dp_mem d)).

Definition set_state (d : dp_t) (st : Z) : dp_t :=
  Dp (dp_pos d) (dp_ch d) st (dp_flags d) (dp_min d) (dp_max d) (dp_cflags d) (dp_args d) (dp_out d) (dp_mem d).
Definition or_flags (d : dp_t) (f : Z) : dp_t :=
  Dp (dp_pos d) (dp_ch d) (dp_state d) (Z.lor (dp_flags d) f) (dp_min d) (dp_max d) (dp_cflags d)
     (dp_args d) (dp_out d) (dp_mem d).
Definition set_min (d : dp_t) (v : Z) : dp_t :=
  Dp (dp_pos d) (dp_ch d) (dp_state d) (dp_flags d) v (dp_max d) (dp_cflags d) (dp_args d) (dp_out d) (dp_mem d).
Definition set_max (d : dp_t) (v : Z) : dp_t :=
  Dp (dp_pos d) (dp_ch d) (dp_state d) (dp_flags d) (dp_min d) v (dp_cflags d) (dp_args d) (dp_out d) (dp_mem d).
Definition set_cflags (d : dp_t) (v : Z) : dp_t :=
  Dp (dp_pos d) (dp_ch d) (dp_state d) (dp_flags d) (dp_min d) (dp_max d) v (dp_args d) (dp_out d) (dp_mem d).
Definition set_out (d : dp_t) (o : out_t) : dp_t :=
  Dp (dp_pos d) (dp_ch d) (dp_state d) (dp_flags d) (dp_min d) (dp_max d) (dp_cflags d) (dp_args d) o (dp_mem d).
Definition set_mem (d : dp_t) (m : mem) : dp_t :=
  Dp (dp_pos d) (dp_ch d) (dp_state d) (dp_flags d) (dp_min d) (dp_max d) (dp_cflags d) (dp_args d) (dp_out d) m.

(** [va_arg] of a 32-bit type. *)
Definition va_arg (d : dp_t) : res (Z * dp_t) :=
  match dp_args d with
  | [] => Fault Unmapped
  | w :: args =>
      Ok (w, Dp (dp_pos d) (dp_ch d) (dp_state d) (dp_flags d) (dp_min d) (dp_max d) (dp_cflags d)
                args (dp_out d) (dp_mem d))
  end.

Definition printch (d : dp_t) (c : Z) : res dp_t :=
  o ← dopr_outch maxlen (dp_out d) c; Ok (set_out d o).

Definition dp_default (d : dp_t) : res dp_t :=
  d ← (if dp_ch d =? 37 then Ok (set_state d DP_S_FLAGS) else printch d (dp_ch d));
  next_char d.

Definition dp_flag_char (d : dp_t) : res dp_t :=
  if dp_ch d =? 45 then next_char (or_flags d DP_F_MINUS)
  else if dp_ch d =? 43 then next_char (or_flags d DP_F_PLUS)
  else if dp_ch d =? 32 then next_char (or_flags d DP_F_SPACE)
  else if dp_ch d =? 35 then next_char (or_flags d DP_F_NUM)
  else if dp_ch d =? 48 then next_char (or_flags d DP_F_ZERO)
  else Ok (set_state d DP_S_MIN).

Definition dp_min_char (d : dp_t) : res dp_t :=
  if isdigit (dp_ch d) then
    v ← int_chk (10 * dp_min d); v ← int_chk (v + char_to_int (dp_ch d)); next_char (set_min d v)
  else if dp_ch d =? 42 then
    '(v, d) ← va_arg d; d ← next_char (set_min d (s32 v)); Ok (set_state d DP_S_DOT)
  else Ok (set_state d DP_S_DOT).

Definition dp_dot (d : dp_t) : res dp_t :=
  if dp_ch d =? 46 then next_char (set_state d DP_S_MAX) else Ok (set_state d DP_S_MOD).

Definition dp_max_char (d : dp_t) : res dp_t :=
  if isdigit (dp_ch d) then
    let max := if dp_max d <? 0 then 0 else dp_max d in
    v ← int_chk (10 * max); v ← int_chk (v + char_to_int (dp_ch d)); next_char (set_max d v)
  else if dp_ch d =? 42 then
    '(v, d) ← va_arg d; d ← next_char (set_max d (s32 v)); Ok (set_state d DP_S_MOD)
  else Ok (set_state d DP_S_MOD).

Definition dp_mod (d : dp_t) : res dp_t :=
  d ← (if dp_ch d =? 104 then next_char (set_cflags d DP_C_SHORT)
       else if dp_ch d =? 108 then
         d ← next_char (set_cflags d DP_C_LONG);
         if dp_ch d =? 108 then next_char (set_cflags d DP_C_LLONG) else Ok d
       else if dp_ch d =? 76 then next_char (set_cflags d DP_C_LDOUBLE)
       else Ok d);
  Ok (set_state d DP_S_CONV).

(** %d %i %o %u %x %X: every modifier reads one 32-bit word. *)
Definition conv_int (d : dp_t) (base : Z) : res dp_t :=
  '(w, d) ← va_arg d;
  o ← fmtint junk maxlen (dp_out d) (s32 w) base (dp_min d) (dp_max d) (dp_flags d);
  Ok (set_out d o).

(** A double takes two words. *)
Definition va_double (d : dp_t) : res (Z * Z * dp_t) :=
  '(lo, d) ← va_arg d; '(hi, d) ← va_arg d; Ok (lo, hi, d).

Definition conv_str (d : dp_t) : res dp_t :=
  '(strvalue, d) ← va_arg d;
  max ← (if dp_max d =? -1 then str_length (str_fuel (dp_mem d)) (λ i, load8 (dp_mem d) (strvalue + i))
         else Ok (dp_max d));
  let max := if (0 <? dp_min d) && (0 <=? max) && (max <? dp_min d) then dp_min d else max in
  o ← fmtstr (dp_mem d) maxlen (dp_out d) strvalue (dp_flags d) (dp_min d) max;
  Ok (set_out (set_max d max) o).

(** %n: the number of characters so far is stored through the pointer. *)
Definition conv_n (d : dp_t) : res dp_t :=
  '(num, d) ← va_arg d;
  let v := currlen (dp_out d) in
  m ← (if dp_cflags d =? DP_C_SHORT
       then m ← store8 (dp_mem d) num (v mod 256); store8 m (num + 1) (v / 256 mod 256)
       else store32 (dp_mem d) num v);
  Ok (set_mem d m).

(** The [switch] on the conversion character. *)
Definition dp_convert (d : dp_t) : res dp_t :=
  let c := dp_ch d in
  if (c =? 100) || (c =? 105) then conv_int d 10
  else if c =? 111 then conv_int (or_flags d DP_F_UNSIGNED) 8
  else if c =? 117 then conv_int (or_flags d DP_F_UNSIGNED) 10
  else if c =? 88 then conv_int (or_flags (or_flags d DP_F_UP) DP_F_UNSIGNED) 16
  else if c =? 120 then conv_int (or_flags d DP_F_UNSIGNED) 16
  else if c =? 102 then
    '(lo, hi, d) ← va_double d;
    o ← fmtfp (dp_out d) lo hi (dp_min d) (dp_max d) (dp_flags d); Ok (set_out d o)
  else if (c =? 69) || (c =? 71) then '(_, _, d) ← va_double (or_flags d DP_F_UP); Ok d
  else if (c =? 101) || (c =? 103) then '(_, _, d) ← va_double d; Ok d
  else if c =? 99 then '(w, d) ← va_arg d; printch d (s8 w)
  else if c =? 115 then conv_str d
  else if c =? 112 then conv_int d 16
  else if c =? 110 then conv_n d
  else if c =? 37 then printch d c
  else if c =? 119 then next_char d
  else Ok d.

Definition dp_conv (d : dp_t) : res dp_t :=
  d ← dp_convert d;
  d ← next_char d;
  Ok (Dp (dp_pos d) (dp_ch d) DP_S_DEFAULT 0 0 (-1) 0 (dp_args d) (dp_out d) (dp_mem d)).

(** One turn of the loop. *)
Definition dopr_body (d : dp_t) : res (ctl dp_t dp_t) :=
  if dp_state d =? DP_S_DONE then Ok (Break d)
  else
    let d := if dp_ch d =? 0 then set_state d DP_S_DONE else d in
    d ← (if dp_state d =? DP_S_DEFAULT then dp_default d
         else if dp_state d =? DP_S_FLAGS then dp_flag_char d
         else if dp_state d =? DP_S_MIN then dp_min_char d
         else if dp_state d =? DP_S_DOT then dp_dot d
         else if dp_state d =? DP_S_MAX then dp_max_char d
         else if dp_state d =? DP_S_MOD then dp_mod d
         else if dp_state d =? DP_S_CONV then dp_conv d
         else Ok d);
    Ok (Continue d).

(** The terminator after the loop. *)
Definition terminate (o : out_t) : res out_t :=
  if negb (maxlen =? 0) then
    b ← (if currlen o <? u32 (maxlen - 1) then aset (buffer o) (currlen o) 0
         else aset (buffer o) (maxlen - 1) 0);
    Ok (Out b (currlen o))
  else Ok o.

Definition dopr (fuel : nat) (buf args : list Z) (m : mem) : res (out_t * mem) :=
  d ← next_char (Dp 0 0 DP_S_DEFAULT 0 0 (-1) 0 args (Out buf 0) m);
  d ← while fuel dopr_body d;
  o ← terminate (dp_out d);
  Ok (o, dp_mem d).

End dopr.

(** ** The [printf] family *)

Section printf.
Variable junk : list Z.
Variable fmtfp : Z → out_t → Z → Z → Z → Z → Z → res out_t.

(** The result is the return value, the buffer and memory. *)
Definition vsnprintf (fuel : nat) (str : list Z) (count : Z) (fmt : Z → res Z) (args : list Z) (m : mem)
    : res (Z * list Z * mem) :=
  '(o, m) ← dopr fmt count junk (fmtfp count) fuel str args m;
  Ok (s32 (currlen o), buffer o, m).

Definition snprintf (fuel : nat) (str : list Z) (count : Z) (fmt : Z → res Z) (args : list Z) (m : mem)
    : res (Z * list Z * mem) :=
  vsnprintf fuel str count fmt args m.

Definition sprintf (fuel : nat) (ptr : list Z) (format : Z → res Z) (args : list Z) (m : mem)
    : res (Z * list Z * mem) :=
  vsnprintf fuel ptr 4294967295 format args m.

(** [puts] of a buffer, [console_write] of the string in it. *)
Definition puts {S} (console_write : list Z → S → res S) (fuel : nat) (string : list Z) (s : S)
    : res (Z * S) :=
  len ← Str.strlen fuel (aget string);
  s ← console_write (take (Z.to_nat len) string) s;
  Ok (s32 len, s).

(** [stack] is what the local buffer holds when the function is entered. *)
Definition vprintf {S} (console_write : list Z → S → res S) (fuel : nat) (stack : list Z)
    (fmt : Z → res Z) (args : list Z) (m : mem) (s : S) : res (Z * mem * S) :=
  '(o, m) ← dopr fmt 256 junk (fmtfp 256) fuel stack args m;
  '(_, s) ← puts console_write 257 (buffer o) s;
  Ok (s32 (currlen o), m, s).

Definition printf {S} (console_write : list Z → S → res S) (fuel : nat) (stack : list Z)
    (fmt : Z → res Z) (args : list Z) (m : mem) (s : S) : res (Z * mem * S) :=
  vprintf console_write fuel stack fmt args m s.

End printf.

(** ** What has been printed *)

(** Printing the characters [l], one after the other. *)
Definition emit1 (maxlen : Z) (o : out_t) (c : Z) : out_t :=
  Out (if currlen o <? maxlen then <[Z.to_nat (currlen o) := u8 c]> (buffer o) else buffer o)
      (u32 (currlen o + 1)).

Definition emit (maxlen : Z) (o : out_t) (l : list Z) : out_t := fold_left (emit1 maxlen) l o.

Definition out_ok (maxlen : Z) (o : out_t) : Prop :=
  0 ≤ currlen o ∧ maxlen ≤ Z.of_nat (length (buffer o)).

Lemma outch_ok maxlen o c : out_ok maxlen o → dopr_outch maxlen o c = Ok (emit1 maxlen o c).
Proof.
  intros [H0 Hl]. unfold dopr_outch, emit1. case_test; [|done]. by rewrite aset_ok by lia.
Qed.

Lemma out_ok_emit maxlen o l : out_ok maxlen o → out_ok maxlen (emit maxlen o l).
Proof.
  unfold emit. revert o. induction l as [|c l IH]; intros o Ho; [done|]. apply IH.
  destruct Ho as [H0 Hl]. split; cbn; [apply u32_range|]. case_match; [by rewrite length_insert|done].
Qed.

(** The output stays well-formed. *)
Ltac out_oks := repeat first [assumption | apply out_ok_emit].

Lemma emit_app maxlen o l k : emit maxlen o (l ++ k) = emit maxlen (emit maxlen o l) k.
Proof. unfold emit. by rewrite fold_left_app. Qed.

Lemma repeat_ok maxlen o c n :
  out_ok maxlen o → repeat_outch maxlen o c n = Ok (emit maxlen o (replicate (Z.to_nat n) c)).
Proof.
  intros Ho. unfold repeat_outch. generalize 0 as i. generalize (Z.to_nat n) as k.
  intros k. revert o Ho. induction k as [|k IH]; intros o Ho i; [done|]. cbn [for_up replicate].
  rewrite outch_ok by done. cbn [mbind res_bind]. rewrite IH; [done|]. apply (out_ok_emit maxlen o [c] Ho).
Qed.

(** ** Digits *)

(** The digits of [u], least significant first. *)
Fixpoint lsd (n : nat) (base u : Z) : list Z :=
  match n with
  | O => []
  | S n => u mod base :: (if u / base =? 0 then [] else lsd n base (u / base))
  end.

Definition glyph (caps : bool) (d : Z) : Z :=
  default 0 ((if caps then digits_upper else digits_lower) !! Z.to_nat d).

Lemma lsd_bounds n base u : 0 < base → Forall (λ d, 0 ≤ d < base) (lsd n base u).
Proof.
  intros Hb. revert u. induction n as [|n IH]; intros u; cbn; [done|].
  constructor; [by apply Z.mod_pos_bound|]. case_match; [done|apply IH].
Qed.

Lemma lsd_length n base u k :
  2 ≤ base → 0 ≤ u < base ^ Z.of_nat k → (1 ≤ k)%nat → (length (lsd n base u) ≤ k)%nat.
Proof.
  intros Hb. revert u k. induction n as [|n IH]; intros u k Hu Hk; cbn [lsd length]; [lia|].
  case_test; cbn [length]; [lia|]. destruct k as [|[|k]]; [lia| |].
  - change (Z.of_nat 1) with 1 in Hu. rewrite Z.pow_1_r in Hu. rewrite Z.div_small in *; lia.
  - specialize (IH (u / base) (S k)). enough (length (lsd n base (u / base)) ≤ S k)%nat by lia.
    apply IH; [|lia]. split; [apply Z.div_pos; lia|]. apply Z.div_lt_upper_bound; [lia|].
    rewrite <- Z.pow_succ_r by lia. replace (Z.succ (Z.of_nat (S k))) with (Z.of_nat (S (S k))) by lia. lia.
Qed.

(** The value of a digit list. *)
Lemma lsd_value n base u :
  2 ≤ base → 0 ≤ u < base ^ Z.of_nat n → (0 < n)%nat →
  foldr (λ d a, d + base * a) 0 (lsd n base u) = u.
Proof.
  intros Hb. revert u. induction n as [|n IH]; intros u Hu Hn; [lia|]. cbn [lsd foldr].
  pose proof (Z.div_mod u base ltac:(lia)) as Hdm. case_test; cbn [foldr]; [lia|].
  assert (Hu' : 0 ≤ u / base < base ^ Z.of_nat n).
  { split; [apply Z.div_pos; lia|]. apply Z.div_lt_upper_bound; [lia|].
    rewrite <- Z.pow_succ_r by lia. replace (Z.succ (Z.of_nat n)) with (Z.of_nat (S n)) by lia. lia. }
  destruct n as [|n].
  { change (base ^ Z.of_nat 0) with 1 in Hu'. lia. }
  rewrite IH by (done || lia). lia.
Qed.

Lemma glyph_ok (caps : bool) d :
  0 ≤ d < 16 → aget (if caps then digits_upper else digits_lower) d = Ok (glyph caps d) ∧
    48 ≤ glyph caps d < 128.
Proof.
  intros Hd. unfold glyph.
  destruct (lookup_lt_is_Some_2 (if caps then digits_upper else digits_lower) (Z.to_nat d)) as [x Hx];
    [destruct caps; cbn; lia|].
  rewrite Hx. cbn. split; [apply aget_Ok; split; [lia|done]|].
  assert (Hall : Forall (λ x, 48 ≤ x < 128) (if caps then digits_upper else digits_lower)).
  { destruct caps; repeat (constructor; [lia|]); constructor. }
  rewrite Forall_lookup in Hall. eauto.
Qed.

(** The conversion loop from place [p] on writes the digits of [u]. *)
Lemma convert_loop fuel (caps : bool) base u convert p :
  2 ≤ base ≤ 16 → 0 ≤ u → (length (lsd fuel base u) < fuel)%nat →
  length convert = 20%nat → Z.of_nat (p + length (lsd fuel base u)) < 20 →
  ∃ convert', while fuel
    (λ st : list Z * Z * Z, let '(convert, place, uvalue) := st in
       d ← aget (if caps then digits_upper else digits_lower) (uvalue mod base);
       convert ← aset convert place d;
       let place := place + 1 in
       let uvalue := uvalue / base in
       if negb (uvalue =? 0) && (place <? 20) then Ok (Continue (convert, place, uvalue))
       else Ok (Break (convert, place))) (convert, Z.of_nat p, u)
    = Ok (convert', Z.of_nat (p + length (lsd fuel base u))) ∧
    length convert' = 20%nat ∧
    (∀ i, (i < p)%nat → convert' !! i = convert !! i) ∧
    (∀ i d, lsd fuel base u !! i = Some d → convert' !! (p + i)%nat = Some (glyph caps d)).
Proof.
  intros Hb. revert u convert p. induction fuel as [|fuel IH]; intros u convert p Hu Hf Hl Hp; [cbn in Hf; lia|].
  cbn [while]. pose proof (Z.mod_pos_bound u base ltac:(lia)) as Hm.
  destruct (glyph_ok caps (u mod base)) as [-> _]; [lia|]. cbn [mbind res_bind].
  cbn [lsd length] in Hp, Hf |- *.
  rewrite aset_ok by lia. cbn [mbind res_bind]. cbv zeta. rewrite Nat2Z.id.
  destruct (u / base =? 0) eqn:E; cbn [negb andb length] in *.
  - exists (<[p := glyph caps (u mod base)]> convert). cbn [mbind res_bind].
    split; [do 2 f_equal; lia|]. rewrite length_insert. split; [done|]. split.
    + intros i Hi. by rewrite list_lookup_insert_ne by lia.
    + intros [|i] d; cbn; [|done]. intros [= <-]. rewrite Nat.add_0_r. apply list_lookup_insert_eq. lia.
  - rewrite (proj2 (Z.ltb_lt (Z.of_nat p + 1) 20)) by lia. cbn [mbind res_bind].
    replace (Z.of_nat p + 1) with (Z.of_nat (S p)) by lia.
    destruct (IH (u / base) (<[p := glyph caps (u mod base)]> convert) (S p)) as (c' & Hw & Hl' & H1 & H2).
    + apply Z.div_pos; lia.
    + lia.
    + by rewrite length_insert.
    + lia.
    + exists c'. rewrite Hw. split; [do 2 f_equal; lia|]. split; [done|]. split.
      * intros i Hi. rewrite H1 by lia. by rewrite list_lookup_insert_ne by lia.
      * intros [|i] d; cbn [lookup list_lookup].
        -- intros [= <-]. rewrite Nat.add_0_r, H1 by lia. apply list_lookup_insert_eq. lia.
        -- intros Hd. replace (p + S i)%nat with (S p + i)%nat by lia. by apply H2.
Qed.

(** The text of an integer conversion: padding, sign, zeros, digits, padding. *)
Definition int_text (value base min max flags : Z) : list Z :=
  let unsigned := flag flags DP_F_UNSIGNED in
  let sign := if unsigned then [] else if value <? 0 then [45]
              else if flag flags DP_F_PLUS then [43] else if flag flags DP_F_SPACE then [32] else [] in
  let u := if unsigned then u32 value else Z.abs value in
  let ds := map (glyph (flag flags DP_F_UP)) (rev (lsd 21 base u)) in
  let max := Z.max 0 max in
  let n := Z.of_nat (length ds) in
  let zeros := Z.max 0 (max - n) in
  let spaces := Z.max 0 (min - Z.max max n - Z.of_nat (length sign)) in
  let '(zeros, spaces) := if flag flags DP_F_ZERO then (Z.max zeros spaces, 0) else (zeros, spaces) in
  let pad := replicate (Z.to_nat spaces) 32 in
  (if flag flags DP_F_MINUS then [] else pad) ++ sign ++ replicate (Z.to_nat zeros) 48 ++ ds
  ++ (if flag flags DP_F_MINUS then pad else []).

Lemma convert_ok caps base u junk :
  8 ≤ base ≤ 16 → 0 ≤ u < 4294967296 → length junk = 20%nat →
  ∃ convert, convert_digits caps base u junk = Ok (convert, Z.of_nat (length (lsd 21 base u))) ∧
    length convert = 20%nat ∧ (length (lsd 21 base u) ≤ 11)%nat ∧
    (∀ i d, lsd 21 base u !! i = Some d → convert !! i = Some (glyph caps d)).
Proof.
  intros Hb Hu Hj.
  assert (Hlen : (length (lsd 21 base u) ≤ 11)%nat).
  { apply lsd_length; [lia| |lia]. split; [lia|]. eapply Z.lt_le_trans; [apply Hu|].
    transitivity (8 ^ 11); [lia|]. apply Z.pow_le_mono_l. lia. }
  unfold convert_digits.
  destruct (convert_loop 21 caps base u junk 0) as (c & Hw & Hl & _ & Hd); [lia|lia|lia|done|lia|].
  exists c. split; [exact Hw|]. split; [done|]. split; [done|]. exact Hd.
Qed.

Lemma print_convert_ok maxlen convert ds caps o :
  out_ok maxlen o → Forall (λ d, 0 ≤ d < 16) ds →
  (∀ i d, ds !! i = Some d → convert !! i = Some (glyph caps d)) →
  print_convert maxlen convert (length ds) o = Ok (emit maxlen o (map (glyph caps) (rev ds))).
Proof.
  revert o. induction ds as [|d ds IH] using rev_ind; intros o Ho Hb Hc; [done|].
  rewrite length_app, Nat.add_1_r. cbn [print_convert].
  apply Forall_app in Hb as [Hb [Hd _]%Forall_cons].
  assert (aget convert (Z.of_nat (length ds)) = Ok (glyph caps d)) as ->.
  { apply aget_Ok. split; [lia|]. rewrite Nat2Z.id. apply Hc. by apply list_lookup_middle. }
  cbn [mbind res_bind]. destruct (glyph_ok caps d Hd) as [_ Hg].
  assert (s8 (glyph caps d) = glyph caps d) as ->.
  { unfold s8. rewrite Z.mod_small by lia. by rewrite (proj2 (Z.ltb_lt _ _)) by lia. }
  rewrite outch_ok by done. cbn [mbind res_bind]. rewrite IH; [| |done|].
  - rewrite rev_app_distr. cbn [rev app map]. done.
  - apply (out_ok_emit maxlen o [_] Ho).
  - intros i d' Hi. apply Hc. by apply lookup_app_l_Some.
Qed.

Lemma sign_part_ok flags value :
  -2147483648 ≤ value < 2147483648 →
  sign_part flags value = Fault SignedOverflow ∧ flag flags DP_F_UNSIGNED = false ∧ value = -2147483648 ∨
  ∃ sv, sign_part flags value
    = Ok (sv, if flag flags DP_F_UNSIGNED then u32 value else Z.abs value) ∧
    (if flag flags DP_F_UNSIGNED then [] else if value <? 0 then [45]
     else if flag flags DP_F_PLUS then [43] else if flag flags DP_F_SPACE then [32] else [])
    = (if sv =? 0 then [] else [sv]).
Proof.
  intros Hv. unfold sign_part. destruct (flag flags DP_F_UNSIGNED); cbn [negb]; [right; by eexists|].
  destruct (value <? 0) eqn:E; bool_to_prop.
  - destruct (decide (value = -2147483648)) as [->|]; [by left|]. right. rewrite int_chk_ok by lia.
    cbn [mbind res_bind]. exists 45. rewrite u32_small by lia. split; [do 2 f_equal; lia|done].
  - right. rewrite u32_small by lia. replace (Z.abs value) with value by lia.
    destruct (flag flags DP_F_PLUS); [by eexists|]. destruct (flag flags DP_F_SPACE); by eexists.
Qed.

(** The part of [fmtint] after the paddings are known. *)
Lemma fmtint_tail maxlen o cv ds caps z max n e sv sgn flags :
  out_ok maxlen o → Forall (λ d, 0 ≤ d < 16) ds → n = Z.of_nat (length ds) →
  (∀ i d, ds !! i = Some d → <[Z.to_nat n := 0]> cv !! i = Some (glyph caps d)) →
  z = max - n → sgn = (if sv =? 0 then [] else [sv]) →
  (let zpadlen := if z <? 0 then 0 else z in
   let spadlen := if e <? 0 then 0 else e in
   let '(zpadlen, spadlen) :=
     if flag flags DP_F_ZERO then (if spadlen <=? zpadlen then zpadlen else spadlen, 0)
     else (zpadlen, spadlen) in
   let spadlen := if flag flags DP_F_MINUS then - spadlen else spadlen in
   o ← repeat_outch maxlen o 32 spadlen;
   o ← (if sv =? 0 then Ok o else dopr_outch maxlen o sv);
   o ← repeat_outch maxlen o 48 zpadlen;
   o ← print_convert maxlen (<[Z.to_nat n := 0]> cv) (Z.to_nat n) o;
   repeat_outch maxlen o 32 (- spadlen))
  = Ok (emit maxlen o
      (let zeros := Z.max 0 (max - n) in
       let spaces := Z.max 0 e in
       let '(zeros, spaces) := if flag flags DP_F_ZERO then (Z.max zeros spaces, 0) else (zeros, spaces) in
       let pad := replicate (Z.to_nat spaces) 32 in
       (if flag flags DP_F_MINUS then [] else pad) ++ sgn ++ replicate (Z.to_nat zeros) 48
       ++ map (glyph caps) (rev ds) ++ (if flag flags DP_F_MINUS then pad else []))).
Proof.
  intros Ho Hds -> Hc -> ->. cbv zeta. rewrite Nat2Z.id in *.
  assert ((if max - Z.of_nat (length ds) <? 0 then 0 else max - Z.of_nat (length ds))
          = Z.max 0 (max - Z.of_nat (length ds))) as -> by (case_test; lia).
  assert ((if e <? 0 then 0 else e) = Z.max 0 e) as -> by (case_test; lia).
  set (z0 := Z.max 0 (max - Z.of_nat (length ds))). set (s0 := Z.max 0 e).
  assert ((if s0 <=? z0 then z0 else s0) = Z.max z0 s0) as -> by (case_test; lia).
  assert (Hs0 : 0 ≤ s0) by apply Z.le_max_l.
  destruct (if flag flags DP_F_ZERO then (Z.max z0 s0, 0) else (z0, s0)) as [z s] eqn:Ezs.
  assert (Hs : 0 ≤ s) by (destruct (flag flags DP_F_ZERO); injection Ezs as _ <-; lia). clear Ezs.
  rewrite !emit_app.
  assert (Hsign : ∀ o, out_ok maxlen o → (if sv =? 0 then Ok o else dopr_outch maxlen o sv)
            = Ok (emit maxlen o (if sv =? 0 then [] else [sv]))).
  { intros o' Ho'. destruct (sv =? 0); [done|]. by rewrite outch_ok. }
  destruct (flag flags DP_F_MINUS).
  - replace (Z.to_nat (- s)) with 0%nat by lia.
    rewrite repeat_ok by done. replace (Z.to_nat (- s)) with 0%nat by lia. cbn [replicate mbind res_bind].
    rewrite Hsign by done. cbn [mbind res_bind].
    rewrite repeat_ok by out_oks. cbn [mbind res_bind].
    rewrite (print_convert_ok maxlen _ ds caps) by (done || out_oks).
    cbn [mbind res_bind]. rewrite repeat_ok by out_oks.
    by replace (Z.to_nat (- - s)) with (Z.to_nat s) by lia.
  - rewrite repeat_ok by done. cbn [mbind res_bind].
    rewrite Hsign by out_oks. cbn [mbind res_bind].
    rewrite repeat_ok by out_oks. cbn [mbind res_bind].
    rewrite (print_convert_ok maxlen _ ds caps) by (done || out_oks).
    cbn [mbind res_bind]. rewrite repeat_ok by out_oks.
    by replace (Z.to_nat (- s)) with 0%nat by lia.
Qed.

Lemma fmtint_ok junk maxlen o value base min max flags :
  out_ok maxlen o → length junk = 20%nat → -2147483648 ≤ value < 2147483648 → 8 ≤ base ≤ 16 →
  max < 2147483648 → min < 2147483648 →
  fmtint junk maxlen o value base min max flags = Ok (emit maxlen o (int_text value base min max flags)) ∨
  fmtint junk maxlen o value base min max flags = Fault SignedOverflow ∧
    (min < Z.max 11 max - 2147483647 ∨ flag flags DP_F_UNSIGNED = false ∧ value = -2147483648).
Proof.
  intros Ho Hj Hv Hb Hmax Hmin. unfold fmtint, int_text.
  destruct (sign_part_ok flags value Hv) as [(-> & Hu & Hval)|(sv & -> & ->)]; [by auto|].
  cbn [mbind res_bind]. set (u := if flag flags DP_F_UNSIGNED then u32 value else Z.abs value).
  assert (Hu : 0 ≤ u < 4294967296) by (unfold u; case_match; [apply u32_range|lia]).
  destruct (convert_ok (flag flags DP_F_UP) base u junk) as (cv & -> & Hl & Hn & Hd); [done..|].
  cbn [mbind res_bind]. rewrite length_map, length_rev.
  set (n := Z.of_nat (length (lsd 21 base u))) in *.
  assert (Hn' : 0 ≤ n ≤ 11) by lia. rewrite (proj2 (Z.eqb_neq n 20)) by lia.
  rewrite aset_ok by lia. cbn [mbind res_bind].
  assert ((if max <? 0 then 0 else max) = Z.max 0 max) as -> by (case_test; lia).
  assert ((if n <=? Z.max 0 max then Z.max 0 max else n) = Z.max (Z.max 0 max) n) as -> by (case_test; lia).
  assert ((if sv =? 0 then 0 else 1) = Z.of_nat (length (if sv =? 0 then [] else [sv]))) as ->
    by (by destruct (sv =? 0)).
  set (sgn := if sv =? 0 then [] else [sv]).
  assert (Hsl : 0 ≤ Z.of_nat (length sgn) ≤ 1) by (unfold sgn; case_match; cbn; lia).
  rewrite (int_chk_ok (Z.max 0 max - n)) by lia. cbn [mbind res_bind].
  set (e := min - Z.max (Z.max 0 max) n - Z.of_nat (length sgn)).
  destruct (decide (-2147483648 ≤ e)) as [He|He].
  2:{ right. unfold int_chk. rewrite (proj2 (Z.leb_gt (-2147483648) e)) by lia. cbn. split; [done|].
      left. unfold e in He. lia. }
  rewrite int_chk_ok by (unfold e in *; lia). cbn [mbind res_bind]. left.
  apply (fmtint_tail maxlen o cv (lsd 21 base u) (flag flags DP_F_UP) (Z.max 0 max - n) (Z.max 0 max) n e sv sgn flags);
    try done.
  - by apply (Forall_impl (λ d, 0 ≤ d < base)); [apply lsd_bounds; lia|intros; lia].
  - intros i d Hi. rewrite list_lookup_insert_ne; [by apply Hd|].
    apply lookup_lt_Some in Hi. unfold n. lia.
Qed.

(** ** Strings in memory *)

Lemma mapped_size (m : mem) p n : mapped m p n → n ≤ Z.of_nat (size m).
Proof.
  intros Hm. destruct (decide (0 ≤ n)) as [Hn|]; [|lia].
  assert (Hsub : (list_to_set (seqZ p n) : gset Z) ⊆ dom m).
  { intros x Hx. apply elem_of_list_to_set, elem_of_seqZ in Hx. apply elem_of_dom.
    replace x with (p + (x - p)) by lia. apply Hm. lia. }
  apply subseteq_size in Hsub. rewrite size_list_to_set, size_dom, length_seqZ in Hsub by apply NoDup_seqZ. lia.
Qed.

(** A string of length [n]. *)
Definition ends_at (rd : Z → res Z) (n : Z) : Prop :=
  0 ≤ n ∧ rd n = Ok 0 ∧ ∀ i, 0 ≤ i < n → ∃ c, rd i = Ok c.

(** The faults that a call may have: a bad pointer or a missing argument, or an
    overflow of [int] while a width is read or a number negated. *)
Definition fault_ok (f : fault) : Prop := f = Unmapped ∨ f = SignedOverflow.

Lemma str_length_mem m p k :
  post (λ n, ends_at (λ i, load8 m (p + i)) n ∧ n ≤ Z.of_nat (size m)) (λ f, f = Unmapped)
       (str_length (str_fuel m + k) (λ i, load8 m (p + i))).
Proof.
  unfold str_length.
  apply (while_post (λ n, 0 ≤ n ∧ mapped m p n) _ _ (λ n, Z.to_nat (Z.of_nat (size m) - n))).
  - intros n [Hn Hm]. destruct (load8 m (p + n)) as [c|f] eqn:E; cbn [mbind res_bind].
    + assert (Hm' : mapped m p (n + 1)).
      { intros i Hi. destruct (decide (i = n)) as [->|]; [|apply Hm; lia].
        apply load8_Ok in E. eauto. }
      pose proof (mapped_size m p (n + 1) Hm').
      case_test; cbn; [split; [split; [lia|done]|lia]|]. subst c.
      split; [|lia]. split; [done|]. split; [done|]. intros i Hi. destruct (Hm i Hi) as [x Hx].
      exists x. by apply load8_Ok.
    + unfold load8 in E. by destruct (m !! (p + n)); simplify_eq.
  - split; [lia|]. intros i Hi. lia.
  - unfold str_fuel. lia.
Qed.

Lemma str_length_at m value :
  post (λ n, ends_at (str_at m value) n ∧ (Z.to_nat n < str_fuel m + 7)%nat) (λ f, f = Unmapped)
       (str_length (str_fuel m + 7) (str_at m value)).
Proof.
  unfold str_at. destruct (value =? 0).
  - rewrite Nat.add_comm. cbn. split; [|lia]. split; [lia|]. split; [done|].
    intros i Hi. unfold Str.lit. apply aget_in. cbn. lia.
  - eapply post_mono; [apply str_length_mem| |done]. intros n [He Hn]. split; [exact He|].
    unfold str_fuel. lia.
Qed.

Lemma cstr_mapped (m : mem) p str : Str.cstr (load8 m) p str → mapped m p (Z.of_nat (length str) + 1).
Proof.
  intros [Hs He] i Hi. destruct (decide (i = Z.of_nat (length str))) as [->|].
  - apply load8_Ok in He. eauto.
  - destruct (lookup_lt_is_Some_2 str (Z.to_nat i)) as [x Hx]; [lia|]. destruct (Hs _ _ Hx) as [H _].
    apply load8_Ok in H. rewrite Z2Nat.id in H by lia. eauto.
Qed.

(** The length of a string in memory. *)
Lemma str_length_cstr m p str k :
  Str.cstr (load8 m) p str → str_length (str_fuel m + k) (λ i, load8 m (p + i)) = Ok (Z.of_nat (length str)).
Proof.
  intros Hs. pose proof (mapped_size _ _ _ (cstr_mapped _ _ _ Hs)) as Hl. destruct Hs as [Hs He]. unfold str_length.
  replace (str_fuel m + k)%nat with (length str + S (str_fuel m + k - length str - 1))%nat by (unfold str_fuel; lia).
  rewrite while_steps.
  - rewrite Z.add_0_l. cbn [while]. rewrite He. done.
  - intros i Hi. destruct (lookup_lt_is_Some_2 str (Z.to_nat i)) as [x Hx]; [lia|]. destruct (Hs _ _ Hx) as [H Hx0].
    rewrite Z2Nat.id in H by lia. rewrite H. cbn [mbind res_bind]. by test_false (x =? 0).
Qed.

Section strings.
Variable maxlen : Z.

(** The characters of a string from [i] on. *)
Lemma text_loop_string fuel m p str rest o i :
  out_ok maxlen o → Str.cstr (load8 m) p str → p ≠ 0 → rest = drop i str → (i ≤ length str)%nat → (length rest < fuel)%nat →
  while fuel
    (λ st : out_t * Z * Z, let '(o, i, cnt) := st in
       c ← str_at m p i;
       if negb (c =? 0) && (cnt <? Z.of_nat (length str))
       then o ← dopr_outch maxlen o (s8 c); Ok (Continue (o, i + 1, cnt + 1))
       else Ok (Break (o, cnt))) (o, Z.of_nat i, Z.of_nat i)
  = Ok (emit maxlen o (map s8 rest), Z.of_nat (length str)).
Proof.
  intros Ho [Hs He] Hp.
  assert (Hat : ∀ x, str_at m p x = load8 m (p + x)) by (intros x; unfold str_at; by test_false (p =? 0)).
  revert o i fuel Ho. induction rest as [|c rest IH]; intros o i [|fuel] Ho Hr Hi Hf;
    try (cbn in Hf; lia); cbn [while]; rewrite Hat.
  - assert (length (drop i str) = 0%nat) by (by rewrite <- Hr). rewrite length_drop in *.
    replace (Z.of_nat i) with (Z.of_nat (length str)) by lia. rewrite He. done.
  - assert (Hc : str !! i = Some c) by (rewrite <- (Nat.add_0_r i), <- lookup_drop, <- Hr; done).
    destruct (Hs _ _ Hc) as [-> Hc0]. cbn [mbind res_bind]. test_false (c =? 0).
    pose proof (lookup_lt_Some _ _ _ Hc). rewrite (proj2 (Z.ltb_lt (Z.of_nat i) _)) by lia. cbn [negb andb].
    rewrite outch_ok by done. cbn [mbind res_bind].
    replace (Z.of_nat i + 1) with (Z.of_nat (S i)) by lia.
    rewrite IH; [done|by apply (out_ok_emit maxlen o [_])| |lia|cbn in Hf; lia].
    by rewrite <- Nat.add_1_r, <- drop_drop, <- Hr.
Qed.

Lemma pad_none fuel max dir o cnt : pad_loop (S fuel) maxlen max dir (o, 0, cnt) = Ok (o, 0, cnt).
Proof. unfold pad_loop. cbn [while]. by rewrite Z.mul_0_r. Qed.

(** A string without width and precision. *)
Lemma fmtstr_text m p str o :
  out_ok maxlen o → Str.cstr (load8 m) p str → p ≠ 0 → Z.of_nat (length str) < 2147483648 →
  fmtstr m maxlen o p 0 0 (Z.of_nat (length str)) = Ok (emit maxlen o (map s8 str)).
Proof.
  intros Ho Hs Hp Hl. pose proof (mapped_size _ _ _ (cstr_mapped _ _ _ Hs)) as Hm. unfold fmtstr.
  assert (str_length (str_fuel m + 7) (str_at m p) = Ok (Z.of_nat (length str))) as ->.
  { rewrite <- (str_length_cstr m p str 7 Hs). unfold str_at. by test_false (p =? 0). }
  cbn [mbind res_bind]. rewrite int_chk_ok by lia. cbn [mbind res_bind]. change (flag 0 DP_F_MINUS) with false. cbv iota zeta.
  replace (if 0 - Z.of_nat (length str) <? 0 then 0 else 0 - Z.of_nat (length str)) with 0 by (case_test; lia).
  rewrite !pad_none. cbn [mbind res_bind].
  pose proof (text_loop_string (str_fuel m + 7) m p str str o 0 Ho Hs Hp eq_refl ltac:(lia) ltac:(unfold str_fuel; lia)) as Ht.
  change (Z.of_nat 0) with 0 in Ht. unfold text_loop. rewrite Ht. cbn [mbind res_bind]. rewrite pad_none.
  cbn [mbind res_bind]. done.
Qed.

Definition prints (o o' : out_t) : Prop := ∃ l, o' = emit maxlen o l.

Lemma prints_refl o : prints o o.
Proof. by exists []. Qed.

Lemma prints_trans o1 o2 o3 : prints o1 o2 → prints o2 o3 → prints o1 o3.
Proof. intros [l ->] [k ->]. exists (l ++ k). by rewrite emit_app. Qed.

Lemma prints_ok o o' : out_ok maxlen o → prints o o' → out_ok maxlen o'.
Proof. intros Ho [l ->]. by apply out_ok_emit. Qed.

Lemma outch_prints o c : out_ok maxlen o → ∃ o', dopr_outch maxlen o c = Ok o' ∧ prints o o'.
Proof. intros Ho. rewrite outch_ok by done. eexists. split; [done|]. by exists [c]. Qed.

Lemma pad_loop_ok fuel max dir o padlen cnt :
  out_ok maxlen o → dir = 1 ∨ dir = -1 → (Z.to_nat (Z.abs padlen) < fuel)%nat →
  ∃ o' p c, pad_loop fuel maxlen max dir (o, padlen, cnt) = Ok (o', p, c) ∧ prints o o' ∧
    Z.abs p ≤ Z.abs padlen.
Proof.
  intros Ho Hdir Hf. unfold pad_loop.
  edestruct (while_total (λ st : out_t * Z * Z, prints o st.1.1 ∧ Z.abs st.1.2 ≤ Z.abs padlen)
    (λ st : out_t * Z * Z, prints o st.1.1 ∧ Z.abs st.1.2 ≤ Z.abs padlen)
    (λ st, Z.to_nat (Z.abs st.1.2))) as ([[o' p] c] & Hw & [Hr Hp]); [| | |by exists o', p, c].
  - intros [[o' p] c] [He Hp]. cbn [fst snd] in *.
    destruct ((0 <? dir * p) && (c <? max)) eqn:E; [left|right; eauto].
    apply andb_true_iff in E as [E%Z.ltb_lt _].
    destruct (outch_prints o' 32) as (o2 & -> & He2); [by eapply prints_ok|]. cbn [mbind res_bind].
    eexists. split; [done|]. cbn [fst snd]. split; [split; [by eapply prints_trans|]|];
      destruct Hdir as [-> | ->]; lia.
  - split; [apply prints_refl|cbn; lia].
  - cbn. done.
Qed.

Lemma text_loop_ok fuel max rd n o cnt :
  out_ok maxlen o → ends_at rd n → (Z.to_nat n < fuel)%nat →
  ∃ o' c, text_loop fuel maxlen max rd o cnt = Ok (o', c) ∧ prints o o'.
Proof.
  intros Ho (Hn & Hend & Hrd) Hf. unfold text_loop.
  edestruct (while_total (λ st : out_t * Z * Z, prints o st.1.1 ∧ 0 ≤ st.1.2 ≤ n)
    (λ r : out_t * Z, prints o r.1) (λ st, Z.to_nat (n - st.1.2))) as ([o' c] & Hw & Hr); [| | |by exists o', c].
  - intros [[o' i] c] [He Hi]. cbn [fst snd] in *.
    destruct (decide (i = n)) as [->|Hne].
    + rewrite Hend. cbn. right. eauto.
    + destruct (Hrd i) as [x ->]; [lia|]. cbn [mbind res_bind].
      destruct (negb (x =? 0) && (c <? max)); [left|right; eauto].
      destruct (outch_prints o' (s8 x)) as (o2 & -> & He2); [by eapply prints_ok|]. cbn [mbind res_bind].
      eexists. split; [done|]. cbn. split; [split; [by eapply prints_trans|lia]|lia].
  - cbn. split; [apply prints_refl|lia].
  - cbn. lia.
Qed.

Lemma int_chk_post z (R : fault → Prop) : R SignedOverflow → post (λ v, v = z ∧ v ≤ 2147483647) R (int_chk z).
Proof. intros HR. unfold int_chk. case_test; cbn; [split; [done|lia]|done]. Qed.

Lemma fmtstr_ok m o value flags min max :
  out_ok maxlen o → post (prints o) fault_ok (fmtstr m maxlen o value flags min max).
Proof.
  intros Ho. unfold fmtstr. eapply post_bind.
  { eapply post_mono; [apply str_length_at|intros n Hn; exact Hn|]. intros f ->. by left. }
  intros n [Hend Hn]. eapply post_bind; [apply int_chk_post; by right|]. intros pl [-> _]. cbv zeta.
  set (p0 := if flag flags DP_F_MINUS then _ else _).
  destruct (pad_loop_ok (S (Z.to_nat (Z.abs p0))) max 1 o p0 0) as (o1 & p1 & c1 & -> & He1 & Hp1);
    [done|by left|lia|]. cbn [mbind res_bind].
  destruct (text_loop_ok (str_fuel m + 7) max (str_at m value) n o1 c1) as (o2 & c2 & -> & He2);
    [by eapply prints_ok|done|done|]. cbn [mbind res_bind].
  destruct (pad_loop_ok (S (Z.to_nat (Z.abs p0))) max (-1) o2 p1 c2) as (o3 & p3 & c3 & -> & He3 & _);
    [by eapply prints_ok, prints_trans|by right|lia|]. cbn.
  eauto using prints_trans.
Qed.

End strings.

(** ** The format loop *)

Section loop.
Variables (fmt junk : list Z) (maxlen : Z).
Variable fmtfp : out_t → Z → Z → Z → Z → Z → res out_t.
Variable o0 : out_t.
Context (Hfmt : Forall (λ x, 1 ≤ x < 256) fmt) (Hlast : last fmt ≠ Some 119) (Hjunk : length junk = 20%nat)
  (Hmaxlen : 0 ≤ maxlen < 4294967296) (Hout : out_ok maxlen o0)
  (Hfp : ∀ o lo hi min max flags, out_ok maxlen o →
           post (prints maxlen o) fault_ok (fmtfp o lo hi min max flags)).

Abbreviation format := (Str.lit fmt).
Abbreviation len := (Z.of_nat (length fmt)).

(** The loop invariant: [ch] is the character before [dp_pos]. *)
Record dgood (d : dp_t) : Prop := {
  dg_pos : 0 ≤ dp_pos d ≤ len + 1;
  dg_end : dp_pos d = len + 1 → dp_ch d = 0;
  dg_w : dp_ch d = 119 → dp_pos d < len;
  dg_state : 0 ≤ dp_state d ≤ 7;
  dg_min : dp_min d < 2147483648;
  dg_max : dp_max d < 2147483648;
  dg_out : prints maxlen o0 (dp_out d);
}.

(** Every turn reads a character or moves to a later state. *)
Definition progress (d d' : dp_t) : Prop :=
  dp_pos d < dp_pos d' ∨ (dp_pos d = dp_pos d' ∧ dp_state d < dp_state d').

Lemma s8_of_fmt x : 1 ≤ x < 256 → s8 x ≠ 0 ∧ (s8 x = 119 → x = 119).
Proof. intros Hx. unfold s8. case_test; split; mlia. Qed.

(** Reading on, as long as the terminator has not been read. *)
Lemma next_char_post d (P : dp_t → Prop) R :
  0 ≤ dp_pos d ≤ len →
  (∀ c, (dp_pos d = len → c = 0) → (c = 119 → dp_pos d + 1 < len) →
     P (Dp (dp_pos d + 1) c (dp_state d) (dp_flags d) (dp_min d) (dp_max d) (dp_cflags d)
           (dp_args d) (dp_out d) (dp_mem d))) →
  post P R (next_char format d).
Proof.
  intros Hp HP. unfold next_char, Str.lit.
  destruct (decide (dp_pos d = len)) as [He|He].
  - rewrite aget_mid by done. cbn. apply HP; [done|]. done.
  - destruct (lookup_lt_is_Some_2 fmt (Z.to_nat (dp_pos d))) as [x Hx]; [lia|].
    assert (aget (fmt ++ [0]) (dp_pos d) = Ok x) as ->.
    { apply aget_Ok. split; [lia|]. by apply lookup_app_l_Some. }
    cbn. rewrite Forall_lookup in Hfmt. destruct (s8_of_fmt x (Hfmt _ _ Hx)) as [Hx0 Hx1].
    apply HP; [lia|]. intros ->%Hx1.
    destruct (decide (dp_pos d + 1 = len)) as [Hl|]; [|lia]. destruct Hlast.
    rewrite last_lookup. rewrite <- Hx. f_equal. lia.
Qed.

Lemma pos_before d : dgood d → dp_ch d ≠ 0 → 0 ≤ dp_pos d ≤ len.
Proof.
  intros [Hp He _ _ _ _ _] Hc. destruct (decide (dp_pos d = len + 1)); [by rewrite He in Hc|lia].
Qed.

(** What a step has to show. *)
Definition step_ok (d : dp_t) (r : res dp_t) : Prop :=
  post (λ d', dgood d' ∧ progress d d') fault_ok r.

Ltac states := unfold DP_S_DEFAULT, DP_S_FLAGS, DP_S_MIN, DP_S_DOT, DP_S_MAX, DP_S_MOD, DP_S_CONV, DP_S_DONE in *.

Ltac rebuild := states; split; [split; cbn in *; try done; try lia; eauto using prints_trans|unfold progress; cbn; lia].

Lemma out_of d : dgood d → out_ok maxlen (dp_out d).
Proof. intros Hd. eapply prints_ok; [done|apply Hd]. Qed.

Lemma printch_post d c (P : dp_t → Prop) R :
  out_ok maxlen (dp_out d) → (∀ o, prints maxlen (dp_out d) o → P (set_out d o)) →
  post P R (printch maxlen d c).
Proof.
  intros Ho HP. unfold printch. destruct (outch_prints maxlen (dp_out d) c Ho) as (o' & -> & He). by apply HP.
Qed.

Lemma default_ok d : dgood d → dp_ch d ≠ 0 → dp_state d = 0 → step_ok d (dp_default format maxlen d).
Proof.
  intros Hd Hc Hs. pose proof (pos_before d Hd Hc) as Hp. destruct Hd as [H1 H2 H3 H4 H5 H6 H7].
  unfold step_ok, dp_default. case_test.
  - cbn [mbind res_bind]. apply next_char_post; [done|]. intros c He Hw. rebuild.
  - eapply (post_bind (λ d', ∃ o, d' = set_out d o ∧ prints maxlen (dp_out d) o)).
    + apply printch_post; [by eapply prints_ok|eauto].
    + intros d' (o & -> & He). apply next_char_post; [done|]. intros c Hce Hcw. rebuild.
Qed.

Lemma flag_char_ok d : dgood d → dp_ch d ≠ 0 → dp_state d = 1 → step_ok d (dp_flag_char format d).
Proof.
  intros Hd Hc Hs. pose proof (pos_before d Hd Hc) as Hp. destruct Hd as [H1 H2 H3 H4 H5 H6 H7].
  unfold step_ok, dp_flag_char.
  repeat (case_test; [apply next_char_post; [done|]; intros c He Hw; rebuild|]). cbn. rebuild.
Qed.

(** [d] with other arguments. *)
Definition set_args (d : dp_t) (args : list Z) : dp_t :=
  Dp (dp_pos d) (dp_ch d) (dp_state d) (dp_flags d) (dp_min d) (dp_max d) (dp_cflags d) args (dp_out d) (dp_mem d).

Lemma va_arg_bind {B} d (k : Z * dp_t → res B) (P : B → Prop) :
  (∀ w args, post P fault_ok (k (w, set_args d args))) → post P fault_ok (va_arg d ≫= k).
Proof. intros HP. unfold va_arg. destruct (dp_args d); cbn; [by left|apply HP]. Qed.

Lemma va_double_bind {B} d (k : Z * Z * dp_t → res B) (P : B → Prop) :
  (∀ lo hi args, post P fault_ok (k (lo, hi, set_args d args))) → post P fault_ok (va_double d ≫= k).
Proof.
  intros HP. unfold va_double, va_arg.
  destruct (dp_args d) as [|lo [|hi args]]; cbn; [by left|by left|apply (HP lo hi args)].
Qed.

Lemma s32_max z : s32 z < 2147483648.
Proof. pose proof (s32_range z). lia. Qed.

Lemma min_char_ok d : dgood d → dp_ch d ≠ 0 → dp_state d = 2 → step_ok d (dp_min_char format d).
Proof.
  intros Hd Hc Hs. pose proof (pos_before d Hd Hc) as Hp. destruct Hd as [H1 H2 H3 H4 H5 H6 H7].
  unfold step_ok, dp_min_char. case_match.
  { eapply post_bind; [apply int_chk_post; by right|]. intros v [-> Hv].
    eapply post_bind; [apply int_chk_post; by right|]. intros v [-> Hv'].
    apply next_char_post; [done|]. intros c He Hw. rebuild. }
  case_test; [|cbn; rebuild].
  apply va_arg_bind. intros w args. pose proof (s32_max w).
  eapply (post_bind (λ d', dgood d' ∧ dp_pos d < dp_pos d')).
  - apply next_char_post; [done|]. intros c He Hw. split; [split; cbn in *; try done; lia|cbn in *; lia].
  - intros d' [Hd' Hpos]. cbn. split; [|left; cbn; lia]. destruct Hd'. states; split; cbn; try done; lia.
Qed.

Lemma dot_ok d : dgood d → dp_ch d ≠ 0 → dp_state d = 3 → step_ok d (dp_dot format d).
Proof.
  intros Hd Hc Hs. pose proof (pos_before d Hd Hc) as Hp. destruct Hd as [H1 H2 H3 H4 H5 H6 H7].
  unfold step_ok, dp_dot. case_test; [|cbn; rebuild].
  apply next_char_post; [done|]. intros c He Hw. rebuild.
Qed.

Lemma max_char_ok d : dgood d → dp_ch d ≠ 0 → dp_state d = 4 → step_ok d (dp_max_char format d).
Proof.
  intros Hd Hc Hs. pose proof (pos_before d Hd Hc) as Hp. destruct Hd as [H1 H2 H3 H4 H5 H6 H7].
  unfold step_ok, dp_max_char. case_match.
  { eapply post_bind; [apply int_chk_post; by right|]. intros v [-> Hv].
    eapply post_bind; [apply int_chk_post; by right|]. intros v [-> Hv'].
    apply next_char_post; [done|]. intros c He Hw. rebuild. }
  case_test; [|cbn; rebuild].
  apply va_arg_bind. intros w args. pose proof (s32_max w).
  eapply (post_bind (λ d', dgood d' ∧ dp_pos d < dp_pos d')).
  - apply next_char_post; [done|]. intros c He Hw. split; [split; cbn in *; try done; lia|cbn in *; lia].
  - intros d' [Hd' Hpos]. cbn. split; [|left; cbn; lia]. destruct Hd'. states; split; cbn; try done; lia.
Qed.

Lemma mod_ok d : dgood d → dp_ch d ≠ 0 → dp_state d = 5 → step_ok d (dp_mod format d).
Proof.
  intros Hd Hc Hs. pose proof (pos_before d Hd Hc) as Hp. pose proof Hd as [H1 H2 H3 H4 H5 H6 H7].
  unfold step_ok, dp_mod.
  assert (Hnext : ∀ f (P : dp_t → Prop), (∀ d', dgood d' → dp_pos d < dp_pos d' → P d') →
            post P fault_ok (next_char format (set_cflags d f))).
  { intros f P HP. apply next_char_post; [done|]. intros c He Hw. apply HP; [split; cbn in *; try done; lia|cbn in *; lia]. }
  eapply (post_bind (λ d', dgood d' ∧ dp_pos d ≤ dp_pos d')).
  - case_test; [apply Hnext; intros; split; [done|lia]|].
    case_test.
    { eapply (post_bind (λ d', dgood d' ∧ dp_pos d < dp_pos d')); [by apply Hnext|].
      intros d1 [Hd1 Hp1]. case_test; [|cbn; split; [done|lia]].
      apply next_char_post; [cbn; apply pos_before; [done|lia]|]. intros c He Hw.
      destruct Hd1. split; [split; cbn in *; try done; lia|cbn in *; lia]. }
    case_test; [apply Hnext; intros; split; [done|lia]|]. cbn. split; [done|lia].
  - intros d' [Hd' Hpos]. cbn. states. split; [destruct Hd'; split; cbn; try done; lia|].
    unfold progress. cbn. lia.
Qed.

(** The conversions leave the position in the format alone. *)
Definition same_place (d d' : dp_t) : Prop :=
  dp_pos d' = dp_pos d ∧ dp_ch d' = dp_ch d ∧ prints maxlen (dp_out d) (dp_out d').

Lemma conv_int_ok d base :
  8 ≤ base ≤ 16 → out_ok maxlen (dp_out d) → dp_min d < 2147483648 → dp_max d < 2147483648 →
  post (same_place d) fault_ok (conv_int maxlen junk d base).
Proof.
  intros Hb Ho Hmin Hmax. unfold conv_int. apply va_arg_bind. intros w args. cbn.
  destruct (fmtint_ok junk maxlen (dp_out d) (s32 w) base (dp_min d) (dp_max d) (dp_flags d))
    as [-> | [-> _]]; try done; [apply s32_range|cbn; split_and!; try done; by eexists|by right].
Qed.

Lemma store8_post m a b : post (λ _, True) fault_ok (store8 m a b).
Proof. unfold store8. destruct (m !! a); [done|by left]. Qed.

Lemma conv_n_ok d : post (same_place d) fault_ok (conv_n d).
Proof.
  unfold conv_n. apply va_arg_bind. intros w args. cbv zeta.
  eapply (post_bind (λ _, True)); [|intros m _; cbn; split_and!; try done; apply prints_refl].
  case_match; unfold store32; repeat (eapply (post_bind (λ _, True)); [apply store8_post|intros ? _]);
    apply store8_post.
Qed.

Lemma conv_str_ok d : out_ok maxlen (dp_out d) → post (same_place d) fault_ok (conv_str maxlen d).
Proof.
  intros Ho. unfold conv_str. apply va_arg_bind. intros w args. cbn [dp_max dp_mem set_args dp_min dp_out].
  eapply (post_bind (λ _, True)).
  - case_match; [|done]. eapply post_mono; [rewrite <- (Nat.add_0_r (str_fuel _)); apply str_length_mem|done|].
    intros f ->. by left.
  - intros max _. cbv zeta. eapply post_bind; [by apply fmtstr_ok|]. intros o He. cbn. by split_and!.
Qed.

Lemma convert_same d :
  dgood d → dp_ch d ≠ 119 → post (same_place d) fault_ok (dp_convert format maxlen junk fmtfp d).
Proof.
  intros Hd Hc. pose proof (out_of d Hd) as Ho. pose proof (dg_min _ Hd). pose proof (dg_max _ Hd).
  assert (Hself : same_place d d) by (split_and!; try done; apply prints_refl).
  unfold dp_convert. cbv zeta.
  case_match; [by apply conv_int_ok|].
  do 4 (case_match; [eapply post_mono; [by apply conv_int_ok|intros d' Hd'; exact Hd'|done]|]).
  case_match.
  { apply va_double_bind. intros lo hi args.
    eapply post_bind; [by apply Hfp|]. intros o He. by split_and!. }
  do 2 (case_match; [apply va_double_bind; intros lo hi args; exact Hself|]).
  case_match; [apply va_arg_bind; intros w args; apply printch_post; [done|]; intros o He; by split_and!|].
  case_match; [by apply conv_str_ok|]. case_match; [by apply conv_int_ok|].
  case_match; [apply conv_n_ok|].
  case_match; [apply printch_post; [done|]; intros o He; by split_and!|].
  case_test; [|done]. by destruct Hc.
Qed.

(** %w skips a character, which is not the terminator. *)
Lemma convert_step d :
  dgood d → dp_ch d ≠ 0 →
  post (λ d', dp_pos d ≤ dp_pos d' ≤ len ∧ prints maxlen (dp_out d) (dp_out d')) fault_ok
       (dp_convert format maxlen junk fmtfp d).
Proof.
  intros Hd Hc. pose proof (pos_before d Hd Hc) as Hp.
  destruct (decide (dp_ch d = 119)) as [Hw|Hw].
  - pose proof (dg_w _ Hd Hw). unfold dp_convert. rewrite Hw. cbn [Z.eqb Pos.eqb orb].
    apply next_char_post; [done|]. intros c _ _. cbn. split; [lia|apply prints_refl].
  - eapply post_mono; [by apply convert_same| |done]. intros d' (-> & _ & He). split; [lia|done].
Qed.

Lemma conv_ok d : dgood d → dp_ch d ≠ 0 → dp_state d = 6 → step_ok d (dp_conv format maxlen junk fmtfp d).
Proof.
  intros Hd Hc Hs. pose proof (pos_before d Hd Hc) as Hp. unfold step_ok, dp_conv.
  eapply post_bind; [by apply convert_step|]. intros d1 (Hp1 & He1).
  eapply (post_bind (λ d', 0 ≤ dp_pos d' ≤ len + 1 ∧ (dp_pos d' = len + 1 → dp_ch d' = 0) ∧
     (dp_ch d' = 119 → dp_pos d' < len) ∧ dp_pos d < dp_pos d' ∧ dp_out d' = dp_out d1)).
  - apply next_char_post; [lia|]. intros c He Hw. cbn. split_and!; try done; lia.
  - intros d2 (G1 & G2 & G3 & G4 & G5). cbn. split; [|left; cbn; lia].
    split; cbn; try done; try lia. rewrite G5. eapply prints_trans; [by apply Hd|done].
Qed.

Definition msr (d : dp_t) : nat := Z.to_nat (8 * (len + 1 - dp_pos d) + (7 - dp_state d)).

Lemma progress_msr d d' : dgood d → dgood d' → progress d d' → (msr d' < msr d)%nat.
Proof.
  intros [P1 _ _ S1 _ _ _] [P2 _ _ S2 _ _ _] Hp. unfold msr, progress in *. lia.
Qed.

Lemma body_ok d :
  dgood d →
  post (λ c, match c with Continue d' => dgood d' ∧ (msr d' < msr d)%nat | Break d' => dgood d' end)
       fault_ok (dopr_body format maxlen junk fmtfp d).
Proof.
  intros Hd. unfold dopr_body. case_test; [done|].
  assert (Hstep : step_ok d (let d := if dp_ch d =? 0 then set_state d DP_S_DONE else d in
     if dp_state d =? DP_S_DEFAULT then dp_default format maxlen d
     else if dp_state d =? DP_S_FLAGS then dp_flag_char format d
     else if dp_state d =? DP_S_MIN then dp_min_char format d
     else if dp_state d =? DP_S_DOT then dp_dot format d
     else if dp_state d =? DP_S_MAX then dp_max_char format d
     else if dp_state d =? DP_S_MOD then dp_mod format d
     else if dp_state d =? DP_S_CONV then dp_conv format maxlen junk fmtfp d
     else Ok d)).
  { destruct (dp_ch d =? 0) eqn:Ec; cbv zeta.
    - cbn. states. pose proof (dg_state _ Hd). split; [|right; cbn; lia].
      destruct Hd. split; cbn; try done; lia.
    - apply Z.eqb_neq in Ec. pose proof (dg_state _ Hd).
      case_test; [by apply default_ok|]. case_test; [by apply flag_char_ok|].
      case_test; [by apply min_char_ok|]. case_test; [by apply dot_ok|].
      case_test; [by apply max_char_ok|]. case_test; [by apply mod_ok|].
      case_test; [by apply conv_ok|]. exfalso.
      states. lia. }
  unfold step_ok in Hstep. cbv zeta in *. eapply post_bind; [exact Hstep|].
  intros d' [Hd' Hpr]. cbn. split; [done|]. by apply progress_msr.
Qed.

Lemma dopr_post fuel buf args m :
  o0 = Out buf 0 → (Z.to_nat (8 * (len + 2)) < fuel)%nat →
  post (λ r, ∃ o, prints maxlen o0 o ∧ terminate maxlen o = Ok r.1) fault_ok
       (dopr format maxlen junk fmtfp fuel buf args m).
Proof.
  intros Ho0 Hf. unfold dopr.
  eapply (post_bind dgood).
  { apply next_char_post; [cbn; lia|]. intros c He Hw. cbn in *.
    split; cbn; try done; try lia. rewrite Ho0. apply prints_refl. }
  intros d Hd. eapply (post_bind dgood).
  { apply (while_post dgood _ _ msr); [apply body_ok|done|].
    unfold msr. destruct Hd. lia. }
  intros d' Hd'. pose proof (out_of d' Hd') as [Hc Hl]. pose proof (dg_out _ Hd').
  eapply (post_bind (λ r, terminate maxlen (dp_out d') = Ok r)); [|intros o Ho; cbn; eauto].
  unfold terminate. case_test; [|done].
  rewrite (u32_small (maxlen - 1)) by lia.
  case_test; (rewrite aset_ok; [done|lia]).
Qed.

End loop.


(** ** Results *)

(** The buffer after printing [l]: what fits, and the terminator. *)
Definition printed (maxlen : Z) (buf l : list Z) : list Z :=
  let k := Nat.min (length l) (Z.to_nat (maxlen - 1)) in
  map u8 (take k l) ++ 0 :: drop (S k) buf.

Lemma emit_buffer maxlen buf l :
  0 ≤ maxlen ≤ Z.of_nat (length buf) → Z.of_nat (length l) < 4294967296 →
  emit maxlen (Out buf 0) l
  = Out (map u8 (take (Z.to_nat maxlen) l) ++ drop (Nat.min (length l) (Z.to_nat maxlen)) buf) (Z.of_nat (length l)).
Proof.
  intros Hm. induction l as [|c l IH] using rev_ind; intros Hl.
  { cbn. by rewrite take_nil. }
  rewrite length_app in *. cbn [length] in *. rewrite emit_app, IH by lia.
  unfold emit, emit1. cbn [fold_left currlen buffer]. rewrite u32_small by lia. f_equal; [|lia].
  case_test.
  - rewrite !take_ge by (rewrite ?length_app; cbn; lia). rewrite map_app, Nat2Z.id.
    rewrite !Nat.min_l by lia. rewrite insert_app_r_alt by (rewrite length_map; lia).
    rewrite length_map, Nat.sub_diag.
    destruct (lookup_lt_is_Some_2 buf (length l)) as [x Hx]; [lia|].
    rewrite (drop_S buf x (length l)) by done. cbn. rewrite <- app_assoc. cbn. do 3 f_equal. lia.
  - rewrite take_app_le by lia. rewrite !Nat.min_r by lia. done.
Qed.

Lemma terminate_emit maxlen buf l :
  1 ≤ maxlen ≤ Z.of_nat (length buf) → maxlen < 4294967296 → Z.of_nat (length l) < 4294967296 →
  terminate maxlen (emit maxlen (Out buf 0) l) = Ok (Out (printed maxlen buf l) (Z.of_nat (length l))).
Proof.
  intros Hm Hm' Hl. rewrite emit_buffer by lia. unfold terminate. cbn [currlen buffer].
  test_false (maxlen =? 0). cbn [negb]. rewrite u32_small by lia. unfold printed.
  set (b := map u8 (take (Z.to_nat maxlen) l) ++ _).
  assert (Hb : length b = length buf).
  { unfold b. rewrite length_app, length_map, length_take, length_drop. lia. }
  set (k := Nat.min (length l) (Z.to_nat (maxlen - 1))).
  assert ((if Z.of_nat (length l) <? maxlen - 1 then aset b (Z.of_nat (length l)) 0 else aset b (maxlen - 1) 0)
          = Ok (<[k := 0]> b)) as ->.
  { case_test; rewrite aset_ok by lia; do 2 f_equal; lia. }
  cbn [mbind res_bind]. do 2 f_equal. unfold b.
  assert (Hk : (k < length buf)%nat) by lia.
  destruct (lookup_lt_is_Some_2 buf k) as [x Hx]; [lia|].
  destruct (decide (Z.of_nat (length l) ≤ maxlen - 1)) as [Hle|Hgt].
  - rewrite !take_ge by lia. rewrite Nat.min_l by lia. replace k with (length l) in * by lia.
    rewrite insert_app_r_alt by (rewrite length_map; lia). rewrite length_map, Nat.sub_diag.
    by rewrite (drop_S buf x (length l)) by done.
  - rewrite Nat.min_r by lia. replace (Z.to_nat maxlen) with (S k) by lia.
    destruct (lookup_lt_is_Some_2 l k) as [y Hy]; [lia|].
    rewrite (take_S_r l k y) by done. rewrite map_app, <- app_assoc. cbn [map app].
    rewrite insert_app_r_alt by (rewrite length_map, length_take; lia).
    rewrite length_map, length_take. by replace (k - (k `min` length l))%nat with 0%nat by lia.
Qed.

Lemma length_emit maxlen o l : length (buffer (emit maxlen o l)) = length (buffer o).
Proof.
  unfold emit. revert o. induction l as [|c l IH]; intros o; [done|]. cbn [fold_left]. rewrite IH. cbn.
  case_match; [apply length_insert|done].
Qed.

Lemma emit_currlen maxlen o l :
  0 ≤ currlen o < 4294967296 → 0 ≤ currlen (emit maxlen o l) < 4294967296.
Proof.
  unfold emit. revert o. induction l as [|c l IH]; intros o Ho; [done|]. apply IH. apply u32_range.
Qed.

(** Nothing is written from [maxlen] on. *)
Lemma emit_tail maxlen o l :
  0 ≤ currlen o →
  drop (Z.to_nat maxlen) (buffer (emit maxlen o l)) = drop (Z.to_nat maxlen) (buffer o).
Proof.
  unfold emit. revert o. induction l as [|c l IH]; intros o Ho; [done|]. cbn [fold_left].
  rewrite IH by apply u32_range. cbn. case_test; [|done]. by rewrite drop_insert_lt by lia.
Qed.

Lemma u32_s32 z : u32 (s32 z) = u32 z.
Proof. unfold s32, u32. case_test; mlia. Qed.

(** ** Plain text and %d *)

Section run.
Variables (maxlen : Z) (junk : list Z) (fmtfp : out_t → Z → Z → Z → Z → Z → res out_t) (fmt : list Z).
Context (Hjunk : length junk = 20%nat).

(** Between conversions: [pre] has been read and the first byte of [rest] is next. *)
Definition between (pre rest args : list Z) (o : out_t) (m : mem) : dp_t :=
  Dp (Z.of_nat (length pre) + 1) (s8 (default 0 (head rest))) DP_S_DEFAULT 0 0 (-1) 0 args o m.

Lemma lit_at pre rest : Str.lit (pre ++ rest) (Z.of_nat (length pre)) = Ok (default 0 (head rest)).
Proof.
  unfold Str.lit. destruct rest as [|c rest]; cbn.
  - rewrite app_nil_r. by apply aget_mid.
  - rewrite <- app_assoc. by apply aget_mid.
Qed.

Lemma next_between p rest c st fl mn mx cf args o m :
  fmt = p ++ rest →
  next_char (Str.lit fmt) (Dp (Z.of_nat (length p)) c st fl mn mx cf args o m)
  = Ok (Dp (Z.of_nat (length p) + 1) (s8 (default 0 (head rest))) st fl mn mx cf args o m).
Proof. intros ->. unfold next_char. cbn [dp_pos]. by rewrite lit_at. Qed.

Lemma next_after p c0 rest c st fl mn mx cf args o m :
  fmt = p ++ c0 :: rest →
  next_char (Str.lit fmt) (Dp (Z.of_nat (length p) + 1) c st fl mn mx cf args o m)
  = Ok (Dp (Z.of_nat (length (p ++ [c0])) + 1) (s8 (default 0 (head rest))) st fl mn mx cf args o m).
Proof.
  intros Hf. rewrite <- (next_between (p ++ [c0]) rest c); [|by rewrite <- app_assoc].
  repeat f_equal. rewrite length_app. cbn. lia.
Qed.

Abbreviation body := (dopr_body (Str.lit fmt) maxlen junk fmtfp).

(** A run of characters that are not % is copied. *)
Lemma run_text txt : ∀ pre rest args o m k,
  fmt = pre ++ txt ++ rest → Forall (λ x, 1 ≤ x < 256 ∧ x ≠ 37) txt → out_ok maxlen o →
  while (length txt + k) body (between pre (txt ++ rest) args o m)
  = while k body (between (pre ++ txt) rest args (emit maxlen o (map s8 txt)) m).
Proof.
  induction txt as [|c txt IH]; intros pre rest args o m k Hf Ht Ho.
  { by rewrite app_nil_r. }
  apply Forall_cons in Ht as [[Hc Hp] Ht]. cbn [length Nat.add while].
  assert (body (between pre ((c :: txt) ++ rest) args o m)
          = Ok (Continue (between (pre ++ [c]) (txt ++ rest) args (emit maxlen o [s8 c]) m))) as ->.
  { unfold dopr_body, between. cbn.
    assert (s8 c ≠ 0 ∧ s8 c ≠ 37) as [H0 H1] by (unfold s8; case_test; split; mlia).
    test_false (s8 c =? 0). cbn. unfold dp_default. cbn [dp_ch]. test_false (s8 c =? 37).
    unfold printch. cbn [dp_out]. rewrite outch_ok by done. cbn [mbind res_bind]. unfold set_out. cbn.
    rewrite (next_after pre c (txt ++ rest)) by done. done. }
  cbn [mbind res_bind]. rewrite IH; [|by rewrite <- app_assoc|done|by apply (out_ok_emit maxlen o [_])].
  by rewrite <- app_assoc.
Qed.

(** The decimal text of [v]. *)
Definition dec_text (v : Z) : list Z :=
  (if v <? 0 then [45] else []) ++ map (glyph false) (rev (lsd 21 10 (Z.abs v))).

Lemma int_text_plain v : int_text v 10 0 (-1) 0 = dec_text v.
Proof.
  unfold int_text, dec_text.
  replace (flag 0 DP_F_UNSIGNED) with false by done. replace (flag 0 DP_F_PLUS) with false by done.
  replace (flag 0 DP_F_SPACE) with false by done. replace (flag 0 DP_F_ZERO) with false by done.
  replace (flag 0 DP_F_MINUS) with false by done. replace (flag 0 DP_F_UP) with false by done.
  cbv zeta iota beta. rewrite length_map, length_rev.
  set (n := Z.of_nat (length _)). replace (Z.max 0 (-1)) with 0 by lia.
  replace (Z.max 0 (0 - n)) with 0 by lia.
  destruct (v <? 0); cbn [length]; rewrite Z.max_l by lia; cbn [Z.to_nat replicate app]; by rewrite app_nil_r.
Qed.

#[local] Arguments next_char : simpl never.
#[local] Arguments fmtint : simpl never.

Lemma turn k d d' : body d = Ok (Continue d') → while (S k) body d = while k body d'.
Proof. intros Hb. cbn [while]. by rewrite Hb. Qed.

(** The state with nothing parsed but the position in a conversion. *)
Abbreviation at_state := (λ p c st args o m, Dp p c st 0 0 (-1) 0 args o m).

(** A conversion %d prints its argument. *)
Lemma run_d pre rest v args o m k :
  fmt = pre ++ 37 :: 100 :: rest → -2147483648 < v < 2147483648 → out_ok maxlen o →
  while (6 + k) body (between pre (37 :: 100 :: rest) (u32 v :: args) o m)
  = while k body (between (pre ++ [37; 100]) rest args (emit maxlen o (dec_text v)) m).
Proof.
  intros Hf Hv Ho.
  assert (Hs : s32 (u32 v) = v) by (unfold s32, u32; case_test; mlia).
  set (p := Z.of_nat (length (pre ++ [37])) + 1). change (6 + k)%nat with (S (S (S (S (S (S k)))))).
  change (between pre (37 :: 100 :: rest) (u32 v :: args) o m)
    with (at_state (Z.of_nat (length pre) + 1) 37 0 (u32 v :: args) o m).
  rewrite (turn _ _ (at_state p 100 1 (u32 v :: args) o m)).
  2:{ unfold dopr_body. cbn. unfold set_state. cbn. by rewrite (next_after pre 37 (100 :: rest)). }
  rewrite (turn _ _ (at_state p 100 2 (u32 v :: args) o m)) by done.
  rewrite (turn _ _ (at_state p 100 3 (u32 v :: args) o m)) by done.
  rewrite (turn _ _ (at_state p 100 5 (u32 v :: args) o m)) by done.
  rewrite (turn _ _ (at_state p 100 6 (u32 v :: args) o m)) by done.
  apply turn. unfold dopr_body. cbn. rewrite Hs.
  destruct (fmtint_ok junk maxlen o v 10 0 (-1) 0) as [-> | [_ [?|[_ ?]]]]; try done; try lia.
  cbn. unfold set_out, p. cbn. rewrite (next_after (pre ++ [37]) 100 rest) by (by rewrite <- app_assoc). cbn.
  rewrite int_text_plain. unfold between. cbn. by rewrite <- app_assoc.
Qed.

Lemma conv_str_text p c st a str args o m :
  Str.cstr (load8 m) a str → a ≠ 0 → Z.of_nat (length str) < 2147483648 → out_ok maxlen o →
  conv_str maxlen (at_state p c st (a :: args) o m)
  = Ok (Dp p c st 0 0 (Z.of_nat (length str)) 0 args (emit maxlen o (map s8 str)) m).
Proof.
  intros Hs Ha Hl Ho. pose proof (str_length_cstr m a str 0 Hs) as Hn. rewrite Nat.add_0_r in Hn.
  unfold conv_str, va_arg.
  cbn [dp_args dp_max dp_mem dp_min dp_out dp_flags mbind res_bind Z.eqb Pos.eqb Z.opp Z.ltb Z.compare andb].
  rewrite Hn. cbn [mbind res_bind]. by rewrite fmtstr_text.
Qed.

#[local] Arguments conv_str : simpl never.

(** A conversion %s prints the string at its argument. *)
Lemma run_s pre rest a str args o m k :
  fmt = pre ++ 37 :: 115 :: rest → Str.cstr (load8 m) a str → a ≠ 0 → Z.of_nat (length str) < 2147483648 →
  out_ok maxlen o →
  while (6 + k) body (between pre (37 :: 115 :: rest) (a :: args) o m)
  = while k body (between (pre ++ [37; 115]) rest args (emit maxlen o (map s8 str)) m).
Proof.
  intros Hf Hs Ha Hl Ho.
  set (p := Z.of_nat (length (pre ++ [37])) + 1). change (6 + k)%nat with (S (S (S (S (S (S k)))))).
  change (between pre (37 :: 115 :: rest) (a :: args) o m)
    with (at_state (Z.of_nat (length pre) + 1) 37 0 (a :: args) o m).
  rewrite (turn _ _ (at_state p 115 1 (a :: args) o m)).
  2:{ unfold dopr_body. cbn. unfold set_state. cbn. by rewrite (next_after pre 37 (115 :: rest)). }
  rewrite (turn _ _ (at_state p 115 2 (a :: args) o m)) by done.
  rewrite (turn _ _ (at_state p 115 3 (a :: args) o m)) by done.
  rewrite (turn _ _ (at_state p 115 5 (a :: args) o m)) by done.
  rewrite (turn _ _ (at_state p 115 6 (a :: args) o m)) by done.
  apply turn. unfold dopr_body. cbn. rewrite (conv_str_text p 115 6 a str args o m) by done.
  cbn. unfold p. rewrite (next_after (pre ++ [37]) 115 rest) by (by rewrite <- app_assoc). cbn.
  unfold between. cbn. by rewrite <- app_assoc.
Qed.

(** The end of the format. *)
Lemma run_end args o m k :
  while (2 + k) body (between fmt [] args o m)
  = Ok (Dp (Z.of_nat (length fmt) + 1) 0 DP_S_DONE 0 0 (-1) 0 args o m).
Proof. done. Qed.

(** A format with one conversion that takes [n] turns and prints [text]. *)
Lemma dopr_conv n pre conv txt args args' text fuel buf m :
  fmt = pre ++ conv ++ txt →
  Forall (λ x, 1 ≤ x < 256 ∧ x ≠ 37) pre → Forall (λ x, 1 ≤ x < 256 ∧ x ≠ 37) txt →
  (∀ k o, out_ok maxlen o → while (n + k) body (between pre (conv ++ txt) args o m)
                            = while k body (between (pre ++ conv) txt args' (emit maxlen o text) m)) →
  maxlen ≤ Z.of_nat (length buf) → (length pre + n + length txt + 2 < fuel)%nat →
  dopr (Str.lit fmt) maxlen junk fmtfp fuel buf args m
  = (o ← terminate maxlen (emit maxlen (Out buf 0) (map s8 pre ++ text ++ map s8 txt)); Ok (o, m)).
Proof.
  intros Hfmt Hp Ht Hconv Hc Hf. unfold dopr.
  rewrite (next_between [] fmt) by done. cbn [mbind res_bind].
  change (Dp _ _ _ _ _ _ _ _ _ _) with (between [] fmt args (Out buf 0) m).
  assert (Ho : out_ok maxlen (Out buf 0)) by (split; cbn; lia).
  replace fuel with (length pre + (n + (length txt + (2 + (fuel - (length pre + n + length txt + 2))))))%nat by lia.
  rewrite Hfmt at 2. rewrite (run_text pre [] (conv ++ txt)) by done. cbn [app].
  rewrite Hconv by out_oks.
  replace (between (pre ++ conv) txt) with (between (pre ++ conv) (txt ++ [])) by (by rewrite app_nil_r).
  rewrite (run_text txt (pre ++ conv) []) by
    first [done | by out_oks | by rewrite app_nil_r, <- app_assoc].
  rewrite <- app_assoc, <- Hfmt. rewrite run_end. cbn [mbind res_bind dp_out dp_mem].
  by rewrite <- !emit_app, <- ?app_assoc.
Qed.

End run.

(** ** The family *)

(** The conversion of doubles only prints. *)
Definition only_prints (fmtfp : Z → out_t → Z → Z → Z → Z → Z → res out_t) (count : Z) : Prop :=
  ∀ o lo hi min max flags, out_ok count o → post (prints count o) fault_ok (fmtfp count o lo hi min max flags).

Section family.
Variables (junk : list Z) (fmtfp : Z → out_t → Z → Z → Z → Z → Z → res out_t).
Context (Hjunk : length junk = 20%nat).

(** The terminator is right after the text, or the last byte. *)
Lemma vsnprintf_post fuel str count fmt args m :
  Forall (λ x, 1 ≤ x < 256) fmt → last fmt ≠ Some 119 → only_prints fmtfp count →
  1 ≤ count ≤ Z.of_nat (length str) → count < 4294967296 → (8 * (length fmt + 2) < fuel)%nat →
  post (λ r, let '(ret, b, _) := r in length b = length str ∧
             b !! Z.to_nat (Z.min (u32 ret) (count - 1)) = Some 0 ∧
             drop (Z.to_nat count) b = drop (Z.to_nat count) str)
       fault_ok (vsnprintf junk fmtfp fuel str count (Str.lit fmt) args m).
Proof.
  intros Hf Hl Hfp Hc Hc' Hfuel. unfold vsnprintf.
  eapply post_bind; [eapply (dopr_post fmt junk count (fmtfp count) (Out str 0)); try done; [lia|split; cbn; lia|lia]|].
  intros [o' m'] (o & [l ->] & Ht). cbn [fst] in Ht. cbn [post].
  pose proof (length_emit count (Out str 0) l) as Hlen. cbn [buffer] in Hlen.
  assert (Hcl : 0 ≤ currlen (emit count (Out str 0) l) < 4294967296) by (by apply emit_currlen).
  unfold terminate in Ht. revert Ht. test_false (count =? 0). cbn [negb].
  rewrite (u32_small (count - 1)) by lia. set (c := currlen (emit count (Out str 0) l)) in *.
  assert ((if c <? count - 1 then aset (buffer (emit count (Out str 0) l)) c 0
           else aset (buffer (emit count (Out str 0) l)) (count - 1) 0)
          = Ok (<[Z.to_nat (Z.min c (count - 1)) := 0]> (buffer (emit count (Out str 0) l)))) as ->.
  { case_test; rewrite aset_ok by lia; do 2 f_equal; lia. }
  intros [= <-]. cbn [currlen buffer]. rewrite length_insert, u32_s32, (u32_small c) by lia. split_and!.
  - done.
  - apply list_lookup_insert_eq. lia.
  - rewrite drop_insert_lt by lia. apply emit_tail. done.
Qed.

(** The run over text with one %d in it, whatever the size of the buffer. *)
Lemma vsnprintf_run fuel str count pre txt v args m :
  Forall (λ x, 1 ≤ x < 256 ∧ x ≠ 37) pre → Forall (λ x, 1 ≤ x < 256 ∧ x ≠ 37) txt →
  -2147483648 < v < 2147483648 → count ≤ Z.of_nat (length str) → (length pre + length txt + 8 < fuel)%nat →
  vsnprintf junk fmtfp fuel str count (Str.lit (pre ++ 37 :: 100 :: txt)) (u32 v :: args) m
  = (o ← terminate count (emit count (Out str 0) (map s8 pre ++ dec_text v ++ map s8 txt));
     Ok (s32 (currlen o), buffer o, m)).
Proof.
  intros Hp Ht Hv Hc Hf. unfold vsnprintf.
  rewrite (dopr_conv _ _ _ _ Hjunk 6 pre [37; 100] txt _ args (dec_text v)) by
    first [done | lia | by (intros; apply run_d)].
  by destruct (terminate _ _).
Qed.

Lemma text_length pre txt v :
  -2147483648 < v < 2147483648 → Z.of_nat (length pre + length txt) < 1073741824 →
  Z.of_nat (length (map s8 pre ++ dec_text v ++ map s8 txt)) < 2147483648.
Proof.
  intros Hv Hlen. rewrite !length_app, !length_map. unfold dec_text. rewrite length_app, length_map, length_rev.
  pose proof (lsd_length 21 10 (Z.abs v) 11). assert (10 ^ Z.of_nat 11 = 100000000000) by done.
  case_match; cbn [length]; lia.
Qed.

Lemma vsnprintf_text fuel str count pre txt v args m :
  Forall (λ x, 1 ≤ x < 256 ∧ x ≠ 37) pre → Forall (λ x, 1 ≤ x < 256 ∧ x ≠ 37) txt →
  -2147483648 < v < 2147483648 → 1 ≤ count ≤ Z.of_nat (length str) → count < 4294967296 →
  Z.of_nat (length pre + length txt) < 1073741824 → (length pre + length txt + 8 < fuel)%nat →
  vsnprintf junk fmtfp fuel str count (Str.lit (pre ++ 37 :: 100 :: txt)) (u32 v :: args) m
  = Ok (Z.of_nat (length (map s8 pre ++ dec_text v ++ map s8 txt)),
        printed count str (map s8 pre ++ dec_text v ++ map s8 txt), m).
Proof.
  intros Hp Ht Hv Hc Hc' Hlen Hf. pose proof (text_length pre txt v Hv Hlen).
  rewrite vsnprintf_run by (done || lia).
  rewrite terminate_emit by lia. cbn [mbind res_bind currlen buffer]. by rewrite s32_small by lia.
Qed.

(** With no buffer: the length. *)
Lemma vsnprintf_measure fuel pre txt v args m :
  Forall (λ x, 1 ≤ x < 256 ∧ x ≠ 37) pre → Forall (λ x, 1 ≤ x < 256 ∧ x ≠ 37) txt →
  -2147483648 < v < 2147483648 →
  Z.of_nat (length pre + length txt) < 1073741824 → (length pre + length txt + 8 < fuel)%nat →
  vsnprintf junk fmtfp fuel [] 0 (Str.lit (pre ++ 37 :: 100 :: txt)) (u32 v :: args) m
  = Ok (Z.of_nat (length (map s8 pre ++ dec_text v ++ map s8 txt)), [], m).
Proof.
  intros Hp Ht Hv Hlen Hf. pose proof (text_length pre txt v Hv Hlen).
  rewrite vsnprintf_run by (done || (cbn; lia)).
  rewrite emit_buffer by (cbn [length]; lia). unfold terminate. cbn [currlen buffer Z.eqb negb mbind res_bind].
  rewrite s32_small by lia. by rewrite drop_nil.
Qed.

End family.

(** ** The decimal text read back *)

Lemma glyph_digit d : 0 ≤ d < 10 → glyph false d = 48 + d.
Proof.
  intros Hd. assert (d = 0 ∨ d = 1 ∨ d = 2 ∨ d = 3 ∨ d = 4 ∨ d = 5 ∨ d = 6 ∨ d = 7 ∨ d = 8 ∨ d = 9) as Hc by lia.
  by repeat (destruct Hc as [->|Hc]; [done|]); subst.
Qed.

Lemma dec_digits n u :
  Forall Str.is_digit (map (glyph false) (rev (lsd n 10 u))) ∧
  Str.dec_value (map (glyph false) (rev (lsd n 10 u))) = foldr (λ d a, d + 10 * a) 0 (lsd n 10 u).
Proof.
  pose proof (lsd_bounds n 10 u ltac:(lia)) as Hb. induction Hb as [|d ds Hd Hds IH]; [done|].
  destruct IH as [IH1 IH2]. cbn [rev foldr]. rewrite map_app. cbn [map]. rewrite glyph_digit by done. split.
  - apply Forall_app. split; [done|]. repeat constructor; lia.
  - unfold Str.dec_value in *. rewrite fold_left_app. cbn [fold_left]. rewrite IH2. lia.
Qed.

Lemma dec_text_value v :
  -2147483648 ≤ v < 2147483648 →
  let ds := map (glyph false) (rev (lsd 21 10 (Z.abs v))) in
  dec_text v = (if v <? 0 then [45] else []) ++ ds ∧ Forall Str.is_digit ds ∧ ds ≠ [] ∧
  Str.dec_value ds = Z.abs v ∧ (length ds ≤ 10)%nat.
Proof.
  intros Hv ds. destruct (dec_digits 21 (Z.abs v)) as [H1 H2].
  assert (10 ^ Z.of_nat 21 = 1000000000000000000000) as E21 by done.
  assert (10 ^ Z.of_nat 10 = 10000000000) as E10 by done. split; [exact eq_refl|]. split; [exact H1|]. split_and!.
  - unfold ds. cbn [lsd rev]. rewrite map_app. intros Hn%app_eq_nil. by destruct Hn.
  - unfold ds. rewrite H2. apply lsd_value; rewrite ?E21; lia.
  - unfold ds. rewrite length_map, length_rev. apply lsd_length; rewrite ?E10; lia.
Qed.

Lemma dec_text_chars v : -2147483648 ≤ v < 2147483648 → Forall (λ x, 1 ≤ x < 256) (dec_text v) ∧ (length (dec_text v) ≤ 11)%nat.
Proof.
  intros Hv. destruct (dec_text_value v Hv) as (-> & Hd & _ & _ & Hl). split.
  - apply Forall_app. split; [case_match; repeat constructor; lia|].
    eapply Forall_impl; [exact Hd|]. unfold Str.is_digit. intros x Hx. lia.
  - rewrite length_app. case_match; cbn [length]; lia.
Qed.

(** The string in a buffer that was printed to and had room. *)
Lemma cstr_printed count str l :
  Forall (λ x, 1 ≤ x < 256) l → Z.of_nat (length l) < count →
  Str.cstr (aget (printed count str l)) 0 l.
Proof.
  intros Hl Hc. unfold printed. rewrite Nat.min_l, take_ge by lia. split.
  - intros k x Hk. rewrite Forall_lookup in Hl. specialize (Hl _ _ Hk) as Hx. split; [|done].
    apply aget_Ok. split; [lia|]. rewrite Z.add_0_l, Nat2Z.id. apply lookup_app_l_Some.
    rewrite list_lookup_fmap, Hk. cbn. by rewrite u8_small by lia.
  - rewrite Z.add_0_l. apply aget_mid. by rewrite length_map.
Qed.

Lemma snprintf_atoi_ok junk fmtfp str count v args m :
  length junk = 20%nat → -2147483648 < v < 2147483648 → 12 ≤ count ≤ Z.of_nat (length str) → count < 4294967296 →
  ∃ ret b, snprintf junk fmtfp 9 str count (Str.lit [37; 100]) (u32 v :: args) m = Ok (ret, b, m) ∧
    Str.strlen 13 (aget b) = Ok ret ∧
    Str.atoi 12 (aget b) = if Z.abs v <=? 2147483599 then Ok v else Fault SignedOverflow.
Proof.
  intros Hj Hv Hc Hc'. destruct (dec_text_value v ltac:(lia)) as (Et & Hd & Hne & Hval & Hlen).
  destruct (dec_text_chars v ltac:(lia)) as [Hch Hl].
  pose proof (vsnprintf_text junk fmtfp Hj 9 str count [] [] v args m) as Hp. cbn [app length map] in Hp.
  rewrite app_nil_r in Hp. unfold snprintf. rewrite Hp by first [apply List.Forall_nil | lia]. clear Hp.
  pose proof (cstr_printed count str (dec_text v) Hch ltac:(lia)) as Hcs.
  eexists _, _. split; [done|]. split.
  - apply Str.strlen_ok; [done|lia..].
  - set (rd := aget (printed count str (dec_text v))) in *. rewrite Et in Hcs. destruct (v <? 0) eqn:E; bool_to_prop.
    + rewrite (Str.atoi_decimal_ok 12 _ true _ Hcs), Hval by (done || lia). by replace (- Z.abs v) with v by lia.
    + rewrite (Str.atoi_decimal_ok 12 _ false _ Hcs), Hval by (done || lia). by replace (Z.abs v) with v at 2 by lia.
Qed.

(** ** Properties *)

(** Text without % around one %d is printed as it is, the argument in decimal
    with its sign; the result is the length of the whole text, and what does not fit
    into [count - 1] bytes is cut off. *)
Theorem vsnprintf_decimal junk fmtfp fuel str count pre txt v args m :
  length junk = 20%nat →
  Forall (λ x, 1 ≤ x < 256 ∧ x ≠ 37) pre → Forall (λ x, 1 ≤ x < 256 ∧ x ≠ 37) txt →
  -2147483648 < v < 2147483648 → 1 ≤ count ≤ Z.of_nat (length str) → count < 4294967296 →
  Z.of_nat (length pre + length txt) < 1073741824 → (length pre + length txt + 8 < fuel)%nat →
  vsnprintf junk fmtfp fuel str count (Str.lit (pre ++ 37 :: 100 :: txt)) (u32 v :: args) m
  = Ok (Z.of_nat (length (map s8 pre ++ dec_text v ++ map s8 txt)),
        printed count str (map s8 pre ++ dec_text v ++ map s8 txt), m).
Proof. intros. by apply vsnprintf_text. Qed.

Lemma vsnprintf_decimal_witness :
  vsnprintf (replicate 20 0) (λ _ o _ _ _ _ _, Ok o) 11 [7; 7; 7; 7; 7; 7] 5 (Str.lit [97; 37; 100; 98]) [u32 (-42)] ∅
  = Ok (5, [97; 45; 52; 50; 0; 7], ∅).
Proof.
  apply (vsnprintf_decimal (replicate 20 0) (λ _ o _ _ _ _ _, Ok o) 11 [7; 7; 7; 7; 7; 7] 5 [97] [98] (-42) [] ∅);
    first [done | repeat constructor; lia | cbn; lia].
Defined.

(** C20: atoi reads back the number that snprintf printed with %d, for every int
    of magnitude up to INT_MAX - 48; the text of any other int but INT_MIN is
    printed too, but makes atoi overflow: it adds the character before it subtracts
    ['0']. *)
Theorem snprintf_atoi junk fmtfp str count v args m :
  length junk = 20%nat → -2147483648 < v < 2147483648 → 12 ≤ count ≤ Z.of_nat (length str) → count < 4294967296 →
  ∃ ret b, snprintf junk fmtfp 9 str count (Str.lit [37; 100]) (u32 v :: args) m = Ok (ret, b, m) ∧
    Str.strlen 13 (aget b) = Ok ret ∧
    Str.atoi 12 (aget b) = if Z.abs v <=? 2147483599 then Ok v else Fault SignedOverflow.
Proof. apply snprintf_atoi_ok. Qed.

Lemma snprintf_atoi_witness :
  (∃ ret b, snprintf (replicate 20 0) (λ _ o _ _ _ _ _, Ok o) 9 (replicate 12 0) 12 (Str.lit [37; 100]) [u32 (-1234567890)] ∅
    = Ok (ret, b, ∅) ∧ Str.strlen 13 (aget b) = Ok ret ∧ Str.atoi 12 (aget b) = Ok (-1234567890)) ∧
  ∃ ret b, snprintf (replicate 20 0) (λ _ o _ _ _ _ _, Ok o) 9 (replicate 12 0) 12 (Str.lit [37; 100]) [u32 2147483600] ∅
    = Ok (ret, b, ∅) ∧ Str.strlen 13 (aget b) = Ok ret ∧ Str.atoi 12 (aget b) = Fault SignedOverflow.
Proof.
  split.
  - apply (snprintf_atoi (replicate 20 0) (λ _ o _ _ _ _ _, Ok o) (replicate 12 0) 12 (-1234567890) [] ∅);
      first [done | lia | cbn; lia].
  - apply (snprintf_atoi (replicate 20 0) (λ _ o _ _ _ _ _, Ok o) (replicate 12 0) 12 2147483600 [] ∅);
      first [done | lia | cbn; lia].
Defined.

(** An integer conversion prints spaces, the sign, zeros up to the precision,
    the digits in the base and trailing spaces as the flags ask for; the only way
    to fail is an overflow of [int], for a very negative width or for INT_MIN. *)
Theorem fmtint_layout junk maxlen o value base min max flags :
  out_ok maxlen o → length junk = 20%nat → -2147483648 ≤ value < 2147483648 → 8 ≤ base ≤ 16 →
  max < 2147483648 → min < 2147483648 →
  fmtint junk maxlen o value base min max flags = Ok (emit maxlen o (int_text value base min max flags)) ∨
  fmtint junk maxlen o value base min max flags = Fault SignedOverflow ∧
    (min < Z.max 11 max - 2147483647 ∨ flag flags DP_F_UNSIGNED = false ∧ value = -2147483648).
Proof. apply fmtint_ok. Qed.

Lemma fmtint_layout_witness :
  let o := Out (replicate 12 0) 0 in
  fmtint (replicate 20 0) 12 o (-255) 16 8 4 DP_F_MINUS
  = Ok (emit 12 o [45; 48; 48; 102; 102; 32; 32; 32]) ∨
  fmtint (replicate 20 0) 12 o (-255) 16 8 4 DP_F_MINUS = Fault SignedOverflow ∧
    (8 < Z.max 11 4 - 2147483647 ∨ flag DP_F_MINUS DP_F_UNSIGNED = false ∧ -255 = -2147483648).
Proof.
  apply (fmtint_layout (replicate 20 0) 12 (Out (replicate 12 0) 0) (-255) 16 8 4 DP_F_MINUS);
    first [done | lia | split; cbn; lia].
Defined.
