(* ===== verification/Float.v ===== *)
(** The conversion of floating point numbers, %f.

    Source: libc/stdio/snprintf.c, [fmtfp] and its helpers; on i386 LDOUBLE is
    [double].

    What the floating point unit computes is the hardware's business: the class
    [Doubles] has one operation per use in the code.  A conversion to an integer
    type that cannot hold the value is undefined in C, and a fault here.  The one
    law that the general theorems need is [Truncates], a conversion that fits is at
    most one away; with it [my_modf] neither loops nor recurses.  Two instances:
    [rationals], exact arithmetic, for which the law holds and the text that %f
    prints is proved; and [binary64], the arithmetic of IEEE 754 from the Standard
    Library, on which the examples at the end are evaluated. *)
From Stdlib Require Import QArith Qabs Qround Lqa SpecFloat.
From S2P Require Import Prelude CString Format.
Open Scope Z_scope.

Class Doubles (D : Type) := {
  (* the two words of an argument, an integer, the literal n/d *)
  of_bits : Z → Z → D;
  of_long : Z → D;
  lit : Z → Z → D;
  dadd : D → D → D;
  dsub : D → D → D;
  dmul : D → D → D;
  dneg : D → D;
  dle : D → D → bool;
  dlt : D → D → bool;
  nonzero : D → bool;
  (* towards zero, when the result fits into 32 bits *)
  to_long : D → option Z;
}.

Section fmtfp.
Context {D : Type} `{Doubles D}.

Definition cast_long (x : D) : res Z := match to_long x with Some l => Ok l | None => Fault SignedOverflow end.

Definition abs_val (value : D) : D := if dlt value (of_long 0) then dneg value else value.

Fixpoint pow10 (exp : nat) (result : D) : D :=
  match exp with O => result | S exp => pow10 exp (dmul result (of_long 10)) end.
Definition POW10 (exp : Z) : D := pow10 (Z.to_nat exp) (of_long 1).

Definition ROUND (value : D) : res Z :=
  intpart ← cast_long value;
  let value := dsub value (of_long intpart) in
  if dle (lit 1 2) value then int_chk (intpart + 1) else Ok intpart.

(** The loop of [my_modf]: [i], [l], [x] and [f] at its end. *)
Definition modf_body (st : Z * Z * D * D) : res (ctl (Z * Z * D * D) (Z * Z * D * D)) :=
  let '(i, l, x, f) := st in
  if i <? 100 then
    l ← cast_long x;
    if dle (of_long l) (dadd x (of_long 1)) && dle (dsub x (of_long 1)) (of_long l) then Ok (Break (i, l, x, f))
    else Ok (Continue (i + 1, l, dmul x (lit 1 10), dmul f (of_long 10)))
  else Ok (Break (i, l, x, f)).

(** The result and [*iptr]; [depth] is that of the recursion. *)
Fixpoint my_modf (depth : nat) (x0 : D) : res (D * D) :=
  match depth with
  | O => Fault OutOfFuel
  | S depth =>
      '(i, l, x, f) ← while 101 modf_body (0, 0, x0, of_long 1);
      if i =? 100 then Ok (of_long 0, of_long 0)
      else if negb (i =? 0) then
        '(ret, i2) ← my_modf depth (dsub x0 (dmul (of_long l) f));
        Ok (ret, dadd (dmul (of_long l) f) i2)
      else Ok (dsub x (of_long l), of_long l)
  end.

(** A character of the literal, its terminator included. *)
Definition digit_at (index : Z) : res Z :=
  if (0 <=? index) && (index <=? 16) then aget (digits_lower ++ [0]) index else Fault Unmapped.

(** One turn of the two [do ... while] loops on [intpart] and [fracpart]. *)
Definition place_body (st : list Z * Z * D) : res (ctl (list Z * Z * D) (list Z * Z)) :=
  let '(convert, place, v) := st in
  let temp := v in
  '(_, v) ← my_modf 2 (dmul v (lit 1 10));
  let temp := dmul temp (lit 1 10) in
  index ← cast_long (dmul (dadd (dsub temp v) (lit 1 20)) (of_long 10));
  c ← digit_at index;
  convert ← aset convert place c;
  let place := place + 1 in
  if nonzero v && (place <? 311) then Ok (Continue (convert, place, v)) else Ok (Break (convert, place)).

(** The loop and the adjustment of the place behind it. *)
Definition convert_double (junk : list Z) (v : D) : res (list Z * Z) :=
  '(convert, place) ← while 312 place_body (junk, 0, v);
  Ok (convert, if place =? 311 then place - 1 else place).

(** [while (place > 0) printch(convert[--place])] *)
Definition print_back (maxlen : Z) (convert : list Z) (place : Z) (o : out_t) : res out_t :=
  for_up (Z.to_nat place) 0 (λ i o, c ← aget convert (place - 1 - i); dopr_outch maxlen o c) o.

Variable junk : list Z.

Definition fmtfp (maxlen : Z) (o : out_t) (lo hi min max flags : Z) : res out_t :=
  let fvalue := of_bits lo hi in
  let max := if max <? 0 then 6 else max in
  let ufvalue := abs_val fvalue in
  let signvalue :=
    if dlt fvalue (of_long 0) then 45 else if flag flags DP_F_PLUS then 43 else if flag flags DP_F_SPACE then 32 else 0 in
  let max := if 16 <? max then 16 else max in
  '(_, intpart) ← my_modf 2 ufvalue;
  r ← ROUND (dmul (POW10 max) (dsub ufvalue intpart));
  let fracpart := of_long r in
  let carry := dle (POW10 max) fracpart in
  let intpart := if carry then dadd intpart (of_long 1) else intpart in
  let fracpart := if carry then dsub fracpart (POW10 max) else fracpart in
  '(iconvert, iplace) ← convert_double junk intpart;
  iconvert ← aset iconvert iplace 0;
  '(fconvert, fplace) ← (if nonzero fracpart then convert_double junk fracpart else Ok (junk, 0));
  fconvert ← aset fconvert fplace 0;
  (* the partial differences lie between the result and [min] *)
  padlen ← int_chk (min - iplace - max - 1 - (if negb (signvalue =? 0) then 1 else 0));
  let zpadlen := if max - fplace <? 0 then 0 else max - fplace in
  let padlen := if padlen <? 0 then 0 else padlen in
  let padlen := if flag flags DP_F_MINUS then - padlen else padlen in
  '(o, padlen, signvalue) ←
    (if flag flags DP_F_ZERO && (0 <? padlen) then
       '(o, padlen) ← (if negb (signvalue =? 0) then o ← dopr_outch maxlen o (s8 signvalue); Ok (o, padlen - 1) else Ok (o, padlen));
       o ← repeat_outch maxlen o 48 padlen; Ok (o, 0, 0)
     else Ok (o, padlen, signvalue));
  o ← repeat_outch maxlen o 32 padlen;
  let padlen := if 0 <? padlen then 0 else padlen in
  o ← (if negb (signvalue =? 0) then dopr_outch maxlen o (s8 signvalue) else Ok o);
  o ← print_back maxlen iconvert iplace o;
  o ← (if 0 <? max then o ← dopr_outch maxlen o 46; print_back maxlen fconvert fplace o else Ok o);
  o ← repeat_outch maxlen o 48 zpadlen;
  repeat_outch maxlen o 32 (- padlen).

End fmtfp.

(** ** Termination and the frame *)

(** The conversion truncates: what fits into a long is at most one away, in the
    order of the doubles.  This is the exit test of [my_modf]. *)
Class Truncates (D : Type) `{Doubles D} : Prop :=
  to_long_near : ∀ (x : D) l, to_long x = Some l →
    dle (of_long l) (dadd x (of_long 1)) && dle (dsub x (of_long 1)) (of_long l) = true.

Section bounded.
Context {D : Type} `{Truncates D}.
Implicit Types (x v : D).

Lemma cast_long_post x : post (λ l, to_long x = Some l) fault_ok (cast_long x).
Proof. unfold cast_long. destruct (to_long x); cbn; [done|by right]. Qed.

(** The integer part of a double that fits is found at once, so the scaling loop
    and the recursion of [my_modf] are never entered. *)
Lemma modf_first x f :
  while 101 modf_body (0, 0, x, f) =
  match to_long x with Some l => Ok (0, l, x, f) | None => Fault SignedOverflow end.
Proof.
  cbn [while modf_body Z.ltb Z.compare]. unfold cast_long. destruct (to_long x) as [l|] eqn:E; [|done].
  cbn [mbind res_bind]. by rewrite (to_long_near x l E).
Qed.

Lemma my_modf_eq depth x :
  my_modf (S depth) x =
  match to_long x with Some l => Ok (dsub x (of_long l), of_long l) | None => Fault SignedOverflow end.
Proof. cbn [my_modf]. rewrite modf_first. by destruct (to_long x). Qed.

Lemma my_modf_post x : post (λ _, True) fault_ok (my_modf 2 x).
Proof. rewrite my_modf_eq. destruct (to_long x); cbn; [done|by right]. Qed.

Lemma ROUND_post x : post (λ _, True) fault_ok (ROUND x).
Proof.
  unfold ROUND. eapply post_bind; [apply cast_long_post|]. intros l _. cbv zeta. case_match; [|done].
  eapply (post_mono _ _ fault_ok); [apply int_chk_post; by right|done|done].
Qed.

Lemma digit_at_post i : post (λ _, True) fault_ok (digit_at i).
Proof.
  unfold digit_at. case_match eqn:E; [|by left]. apply andb_true_iff in E as [?%Z.leb_le ?%Z.leb_le].
  destruct (aget_in (digits_lower ++ [0]) i) as [c ->]; [cbn; lia|done].
Qed.

Lemma convert_double_post junk v :
  length junk = 311%nat →
  post (λ r, length r.1 = 311%nat ∧ 0 ≤ r.2 < 311) fault_ok (convert_double junk v).
Proof.
  intros Hj. unfold convert_double. eapply (post_bind (λ r, length r.1 = 311%nat ∧ 0 ≤ r.2 ≤ 311)).
  2:{ intros [c p] [Hc Hp]. cbn in *. case_test; split; cbn; lia. }
  apply (while_post (λ s : list Z * Z * D, length s.1.1 = 311%nat ∧ 0 ≤ s.1.2 < 311) _ _
           (λ s : list Z * Z * D, Z.to_nat (311 - s.1.2))); [|done|cbn; lia].
  intros [[c p] x] [Hc Hp]. cbn [fst snd] in *. unfold place_body.
  eapply post_bind; [apply my_modf_post|]. intros [_ x'] _. cbv zeta.
  eapply post_bind; [apply cast_long_post|]. intros i _.
  eapply post_bind; [apply digit_at_post|]. intros d _.
  rewrite aset_ok by lia. cbn [mbind res_bind]. cbv zeta.
  destruct (nonzero x' && (p + 1 <? 311)) eqn:E; cbn; rewrite length_insert; [|lia].
  apply andb_true_iff in E as [_ ?%Z.ltb_lt]. lia.
Qed.

Lemma print_back_prints maxlen convert place o :
  out_ok maxlen o → 0 ≤ place ≤ Z.of_nat (length convert) →
  ∃ o', print_back maxlen convert place o = Ok o' ∧ prints maxlen o o'.
Proof.
  intros Ho Hp. unfold print_back.
  destruct (for_up_inv (λ _ o', prints maxlen o o') (Z.to_nat place) 0
    (λ i o, c ← aget convert (place - 1 - i); dopr_outch maxlen o c) o) as (o' & Hr & Hi); [|apply prints_refl|eauto].
  intros i o1 Hi Ho1. destruct (aget_in convert (place - 1 - i)) as [c ->]; [lia|]. cbn [mbind res_bind].
  destruct (outch_prints maxlen o1 c) as (o2 & -> & H2); [by eapply prints_ok|]. eauto using prints_trans.
Qed.

Lemma repeat_prints maxlen o c n :
  out_ok maxlen o → ∃ o', repeat_outch maxlen o c n = Ok o' ∧ prints maxlen o o'.
Proof. intros Ho. rewrite repeat_ok by done. eexists. split; [done|]. by eexists. Qed.

(** A step that prints, before steps that do. *)
Lemma prints_bind {B} maxlen o (m : res out_t) (k : out_t → res B) (P : B → Prop) :
  out_ok maxlen o → (∃ o', m = Ok o' ∧ prints maxlen o o') →
  (∀ o', out_ok maxlen o' → prints maxlen o o' → post P fault_ok (k o')) → post P fault_ok (m ≫= k).
Proof. intros Ho (o' & -> & Hp) Hk. apply Hk; [by eapply prints_ok|done]. Qed.

(** The sign and the zeros in front. *)
Lemma zeros_prints maxlen o flags padlen sign :
  out_ok maxlen o →
  post (λ r : out_t * Z * Z, prints maxlen o r.1.1) fault_ok
    (if flag flags DP_F_ZERO && (0 <? padlen) then
       '(o, padlen) ← (if negb (sign =? 0) then o ← dopr_outch maxlen o (s8 sign); Ok (o, padlen - 1) else Ok (o, padlen));
       o ← repeat_outch maxlen o 48 padlen; Ok (o, 0, 0)
     else Ok (o, padlen, sign)).
Proof.
  intros Ho. destruct (_ && _); [|apply prints_refl].
  eapply (post_bind (λ r : out_t * Z, out_ok maxlen r.1 ∧ prints maxlen o r.1)).
  - case_match; [|split; [done|apply prints_refl]].
    apply (prints_bind maxlen o); [done|by apply outch_prints|]. intros o1 Hr1 Hp. done.
  - intros [o1 p1] [Hr1 Hp1]. cbn [fst snd] in *. apply (prints_bind maxlen o1); [done|by apply repeat_prints|].
    intros o2 _ Hp2. cbn. by eapply prints_trans.
Qed.

Lemma fmtfp_prints junk maxlen o lo hi min max flags :
  length junk = 311%nat → out_ok maxlen o → post (prints maxlen o) fault_ok (fmtfp junk maxlen o lo hi min max flags).
Proof.
  intros Hj Ho. unfold fmtfp. cbv zeta.
  set (max' := if 16 <? (if max <? 0 then 6 else max) then 16 else _). clearbody max'.
  eapply post_bind; [apply my_modf_post|]. intros [_ ip] _.
  eapply post_bind; [apply ROUND_post|]. intros r _.
  set (v1 := if dle _ _ then dadd ip _ else ip). clearbody v1.
  set (v2 := if dle _ _ then dsub _ _ else _). clearbody v2.
  eapply post_bind; [by apply convert_double_post|]. intros [ic n1] [Hic Hn1]. cbn [fst snd] in *.
  rewrite aset_ok by lia. cbn [mbind res_bind].
  eapply (post_bind (λ r, length r.1 = 311%nat ∧ 0 ≤ r.2 < 311)).
  { case_match; [by apply convert_double_post|split; [done|cbn; lia]]. }
  intros [fc n2] [Hfc Hn2]. cbn [fst snd] in *. rewrite aset_ok by lia. cbn [mbind res_bind].
  eapply post_bind; [apply int_chk_post; by right|]. intros pad _.
  eapply post_bind; [by apply zeros_prints|]. intros [[o1 p1] sg] Hr1. cbn [fst snd] in Hr1.
  assert (Ho1 : out_ok maxlen o1) by (by eapply prints_ok).
  apply (prints_bind maxlen o1); [done|by apply repeat_prints|]. intros o2 Ho2 H2.
  apply (prints_bind maxlen o2); [done|case_match; [by apply outch_prints|eauto using prints_refl]|]. intros o3 Ho3 H3.
  apply (prints_bind maxlen o3); [done|apply print_back_prints; [done|rewrite length_insert; lia]|]. intros o4 Ho4 H4.
  eapply (post_bind (λ o5, out_ok maxlen o5 ∧ prints maxlen o4 o5)).
  { case_match; [|split; [done|apply prints_refl]].
    apply (prints_bind maxlen o4); [done|by apply outch_prints|]. intros o5 Ho5 H5.
    destruct (print_back_prints maxlen (<[Z.to_nat n2:=0]> fc) n2 o5) as (o6 & -> & H6);
      [done|rewrite length_insert; lia|]. split; [by eapply prints_ok|by eapply prints_trans]. }
  intros o5 [Ho5 H5].
  apply (prints_bind maxlen o5); [done|by apply repeat_prints|]. intros o6 Ho6 H6.
  match goal with |- context [repeat_outch maxlen o6 32 ?n] => destruct (repeat_prints maxlen o6 32 n Ho6) as (o7 & -> & H7) end.
  cbn. eauto 10 using prints_trans.
Qed.

End bounded.

(** ** Exact arithmetic *)

(** The number of a finite IEEE double; there is none for an infinity or a NaN. *)
Definition bits_value (lo hi : Z) : Q :=
  let e := Z.land (Z.shiftr hi 20) 2047 in
  let m := 4294967296 * Z.land hi 1048575 + lo in
  let '(m, e) := if e =? 0 then (m, -1074) else (m + 4503599627370496, e - 1075) in
  let m := if Z.testbit hi 31 then - m else m in
  if 0 <=? e then inject_Z (m * 2 ^ e) else Qmake m (Z.to_pos (2 ^ (- e))).

Definition long_of (l : Z) : option Z := if (-2147483648 <=? l) && (l <=? 2147483647) then Some l else None.

#[export] Instance rationals : Doubles Q := {
  of_bits := bits_value;
  of_long := inject_Z;
  lit n d := Qmake n (Z.to_pos d);
  dadd := Qplus;
  dsub := Qminus;
  dmul := Qmult;
  dneg := Qopp;
  dle := Qle_bool;
  dlt x y := negb (Qle_bool y x);
  nonzero x := negb (Qeq_bool x 0);
  to_long x := long_of (Z.quot (Qnum x) (QDen x));
}.

#[export] Instance rationals_truncate : Truncates Q.
Proof.
  intros [n d] l. cbn. unfold long_of. case_match; [|done]. intros [= <-].
  pose proof (Z.quot_rem' n (Zpos d)). pose proof (Z.rem_bound_abs n (Zpos d) ltac:(lia)).
  apply andb_true_iff. unfold Qle_bool. cbn. rewrite !Z.leb_le. nia.
Qed.

Section exact.
Local Open Scope Q_scope.
Implicit Types (x v : Q).

Lemma Qfloor_is x n : inject_Z n <= x -> x < inject_Z n + 1 -> Qfloor x = n.
Proof.
  intros H1 H2. pose proof (Qfloor_le x). pose proof (Qlt_floor x) as Hlt. rewrite inject_Z_plus in Hlt. change (inject_Z 1) with 1 in Hlt.
  assert (n < Qfloor x + 1)%Z by (rewrite Zlt_Qlt, inject_Z_plus; change (inject_Z 1) with 1; lra).
  assert (Qfloor x < n + 1)%Z by (rewrite Zlt_Qlt, inject_Z_plus; change (inject_Z 1) with 1; lra). lia.
Qed.

Lemma to_long_floor x : 0 <= x -> x < 2147483648 -> to_long x = Some (Qfloor x).
Proof.
  destruct x as [n d]. intros H1 H2. unfold Qle, Qlt in *. cbn in *. unfold long_of.
  rewrite Z.quot_div_nonneg by lia.
  assert (0 ≤ n / Z.pos d < 2147483648)%Z as [? ?].
  { split; [apply Z.div_pos; lia|apply Z.div_lt_upper_bound; lia]. }
  rewrite (proj2 (Z.leb_le _ _)), (proj2 (Z.leb_le _ _)) by lia. done.
Qed.

Lemma cast_floor x : 0 <= x -> x < 2147483648 -> cast_long x = Ok (Qfloor x).
Proof. intros. unfold cast_long. by rewrite to_long_floor. Qed.

Lemma modf_floor x : 0 <= x -> x < 2147483648 -> my_modf 2 x = Ok (x - inject_Z (Qfloor x), inject_Z (Qfloor x)).
Proof. intros. by rewrite my_modf_eq, to_long_floor. Qed.

Lemma nonzero_inject n : nonzero (inject_Z n) = negb (n =? 0)%Z.
Proof. cbn. unfold Qeq_bool. cbn. by rewrite Z.mul_1_r. Qed.

(** One place: the last decimal digit of [u], and [u / 10] is left. *)
Lemma place_step convert p v u :
  v == inject_Z u -> (0 ≤ u < 2147483648)%Z -> (0 ≤ p < 310)%Z -> length convert = 311%nat ->
  place_body (convert, p, v) =
  let convert := <[Z.to_nat p := glyph false (u mod 10)]> convert in
  if (u / 10 =? 0)%Z then Ok (Break (convert, p + 1)%Z) else Ok (Continue (convert, p + 1, inject_Z (u / 10))%Z).
Proof.
  intros Hv Hu Hp Hl. pose proof (Z.div_mod u 10 ltac:(lia)) as Hdm. pose proof (Z.mod_pos_bound u 10 ltac:(lia)) as Hm.
  assert (Hq : inject_Z u == 10 * inject_Z (u / 10) + inject_Z (u mod 10)).
  { rewrite Hdm at 1. by rewrite inject_Z_plus, inject_Z_mult. }
  assert (Hm0 : 0 <= inject_Z (u mod 10)) by (change 0 with (inject_Z 0); rewrite <- Zle_Qle; lia).
  assert (Hm9 : inject_Z (u mod 10) <= 9) by (change 9 with (inject_Z 9); rewrite <- Zle_Qle; lia).
  assert (Hu0 : 0 <= inject_Z u) by (change 0 with (inject_Z 0); rewrite <- Zle_Qle; lia).
  assert (Hu1 : inject_Z u < 2147483648) by (change 2147483648 with (inject_Z 2147483648); rewrite <- Zlt_Qlt; lia).
  assert (Hf : Qfloor (v * (1 # 10)) = (u / 10)%Z) by (apply Qfloor_is; lra).
  unfold place_body. change (dmul v (lit 1 10)) with (v * (1 # 10)).
  rewrite modf_floor, Hf by lra. cbn [mbind res_bind]. cbv zeta.
  set (x := dmul _ (of_long 10)).
  assert (Hx : x == inject_Z (u mod 10) + (1 # 2)).
  { unfold x. cbn. change (inject_Z 10) with 10. lra. }
  rewrite cast_floor by lra. rewrite (Qfloor_is x (u mod 10)) by lra.
  cbn [mbind res_bind]. unfold digit_at.
  rewrite (proj2 (Z.leb_le _ _)), (proj2 (Z.leb_le _ _)) by lia. cbn [andb].
  assert (aget (digits_lower ++ [0%Z]) (u mod 10) = Ok (glyph false (u mod 10))) as ->.
  { destruct (glyph_ok false (u mod 10)) as [Hg _]; [lia|]. apply aget_Ok in Hg as [? Hg]. apply aget_Ok.
    split; [lia|]. by apply lookup_app_l_Some. }
  cbn [mbind res_bind]. rewrite aset_ok by lia. cbn [mbind res_bind]. rewrite nonzero_inject. cbv zeta.
  rewrite (proj2 (Z.ltb_lt (p + 1) 311)) by lia. by destruct (u / 10 =? 0)%Z.
Qed.

(** The loop writes the digits of [u] from place [p] on. *)
Lemma places_loop fuel u v convert p :
  v == inject_Z u -> (0 ≤ u < 2147483648)%Z -> (length (lsd fuel 10 u) < fuel)%nat ->
  length convert = 311%nat -> (Z.of_nat (p + length (lsd fuel 10 u)) < 311)%Z ->
  ∃ convert', while fuel place_body (convert, Z.of_nat p, v)
    = Ok (convert', Z.of_nat (p + length (lsd fuel 10 u))) ∧
    length convert' = 311%nat ∧
    (∀ i, (i < p)%nat -> convert' !! i = convert !! i) ∧
    (∀ i d, lsd fuel 10 u !! i = Some d -> convert' !! (p + i)%nat = Some (glyph false d)).
Proof.
  revert u v convert p. induction fuel as [|fuel IH]; intros u v convert p Hv Hu Hf Hl Hp; [cbn in Hf; lia|].
  cbn [while]. cbn [lsd length] in Hp, Hf |- *. rewrite (place_step _ _ v u) by (done || lia).
  cbv zeta. rewrite Nat2Z.id.
  destruct (u / 10 =? 0)%Z eqn:E; cbn [length mbind res_bind] in *.
  - eexists. split; [do 2 f_equal; lia|]. rewrite length_insert. split; [done|]. split.
    + intros i Hi. by rewrite list_lookup_insert_ne by lia.
    + intros [|i] d; cbn; [|done]. intros [= <-]. rewrite Nat.add_0_r. apply list_lookup_insert_eq. lia.
  - replace (Z.of_nat p + 1)%Z with (Z.of_nat (S p)) by lia.
    destruct (IH (u / 10)%Z (inject_Z (u / 10)) (<[p := glyph false (u mod 10)]> convert) (S p))
      as (c' & Hw & Hl' & H1 & H2); [done| |lia|by rewrite length_insert|lia|].
    { split; [apply Z.div_pos; lia|]. apply Z.div_lt_upper_bound; lia. }
    exists c'. rewrite Hw. split; [do 2 f_equal; lia|]. split; [done|]. split.
    + intros i Hi. rewrite H1 by lia. by rewrite list_lookup_insert_ne by lia.
    + intros [|i] d; cbn [lookup list_lookup].
      * intros [= <-]. rewrite Nat.add_0_r, H1 by lia. apply list_lookup_insert_eq. lia.
      * intros Hd. replace (p + S i)%nat with (S p + i)%nat by lia. by apply H2.
Qed.

End exact.

(** ** The text of %f *)

Definition dec (n : Z) : list Z := map (glyph false) (rev (lsd 11 10 n)).

(** The precision in effect. *)
Definition precision (max : Z) : Z := if max <? 0 then 6 else if 16 <? max then 16 else max.

(** |x| * 10^max, rounded half up. *)
Definition scaled (x : Q) (max : Z) : Z := Qfloor (Qabs x * inject_Z (10 ^ max) + (1 # 2)).

(** Padding, sign, integer part, point, fraction, zeros, padding.  The zeros follow
    the digits of the fraction, as the code has it. *)
Definition fp_text (x : Q) (min max flags : Z) : list Z :=
  let max := precision max in
  let n := scaled x max in
  let sign := if dlt x (of_long 0) then [45] else if flag flags DP_F_PLUS then [43] else if flag flags DP_F_SPACE then [32] else [] in
  let ids := dec (n / 10 ^ max) in
  let fds := if n mod 10 ^ max =? 0 then [] else dec (n mod 10 ^ max) in
  let pad := Z.max 0 (min - Z.of_nat (length ids) - max - 1 - Z.of_nat (length sign)) in
  let left := flag flags DP_F_MINUS in
  (if left then sign
   else if flag flags DP_F_ZERO && (0 <? pad)
   then sign ++ replicate (Z.to_nat (pad - Z.of_nat (length sign))) 48
   else replicate (Z.to_nat pad) 32 ++ sign)
  ++ ids ++ (if 0 <? max then 46 :: fds else []) ++ replicate (Z.to_nat (max - Z.of_nat (length fds))) 48
  ++ (if left then replicate (Z.to_nat pad) 32 else []).

Section text.
Local Open Scope Q_scope.

Lemma print_back_ok maxlen convert ds o :
  out_ok maxlen o → (∀ i d, ds !! i = Some d → convert !! i = Some (glyph false d)) →
  print_back maxlen convert (Z.of_nat (length ds)) o = Ok (emit maxlen o (map (glyph false) (rev ds))).
Proof.
  intros Ho Hc. unfold print_back. rewrite Nat2Z.id. set (txt := map _ _).
  assert (Htxt : length txt = length ds) by (unfold txt; by rewrite length_map, length_rev).
  destruct (for_up_inv (λ i o', o' = emit maxlen o (take (Z.to_nat i) txt)) (length ds) 0
    (λ i o, c ← aget convert (Z.of_nat (length ds) - 1 - i); dopr_outch maxlen o c) o) as (o' & -> & ->).
  - intros i o1 Hi ->.
    destruct (lookup_lt_is_Some_2 ds (length ds - S (Z.to_nat i))) as [d Hd]; [lia|].
    assert (Hg : txt !! Z.to_nat i = Some (glyph false d)).
    { unfold txt. rewrite rev_alt. fold (reverse ds).
      apply list_lookup_fmap_Some. exists d. split; [done|]. by rewrite reverse_lookup by lia. }
    assert (aget convert (Z.of_nat (length ds) - 1 - i) = Ok (glyph false d)) as ->.
    { apply aget_Ok. split; [lia|]. rewrite <- (Hc _ _ Hd). f_equal. lia. }
    cbn [mbind res_bind]. rewrite outch_ok by out_oks. eexists. split; [done|].
    replace (Z.to_nat (i + 1)) with (S (Z.to_nat i)) by lia. rewrite (take_S_r _ _ _ Hg), emit_app. done.
  - done.
  - rewrite Z.add_0_l, Nat2Z.id, <- Htxt, firstn_all. done.
Qed.

Lemma dec_length n : (0 ≤ n < 2147483648)%Z → (length (lsd 11 10 n) ≤ 10)%nat.
Proof. intros. apply lsd_length; [lia|cbn; lia|lia]. Qed.

Lemma lsd_fuel f n : (0 ≤ n < 2147483648)%Z → (11 ≤ f)%nat → lsd f 10 n = lsd 11 10 n.
Proof.
  assert (∀ k f n, (0 ≤ n < 10 ^ Z.of_nat k)%Z → (1 ≤ k)%nat → (k ≤ f)%nat → lsd f 10 n = lsd k 10 n) as Hl.
  { clear. induction k as [|k IH]; [lia|]. intros [|f] n Hn _ Hf; [lia|]. cbn [lsd]. f_equal.
    case_test; [done|]. destruct k as [|k].
    - change (10 ^ Z.of_nat 1)%Z with 10%Z in Hn. rewrite Z.div_small in *; lia.
    - apply IH; [|lia|lia]. split; [apply Z.div_pos; lia|]. apply Z.div_lt_upper_bound; [lia|].
      rewrite <- Z.pow_succ_r, <- Nat2Z.inj_succ by lia. apply Hn. }
  intros Hn Hf. apply (Hl 11%nat); [cbn; lia|lia|done].
Qed.

(** The digits of an integer that fits, and where they are. *)
Lemma convert_exact junk v u :
  v == inject_Z u → (0 ≤ u < 2147483648)%Z → length junk = 311%nat →
  ∃ c, convert_double junk v = Ok (c, Z.of_nat (length (lsd 11 10 u))) ∧ length c = 311%nat ∧
    ∀ i d, lsd 11 10 u !! i = Some d → c !! i = Some (glyph false d).
Proof.
  intros Hv Hu Hj. pose proof (dec_length u Hu). pose proof (lsd_fuel 312 u Hu ltac:(lia)) as Hl.
  destruct (places_loop 312 u v junk 0) as (c & Hw & Hc & _ & Hd); rewrite ?Hl; try done; try lia.
  rewrite Hl in *. change (Z.of_nat 0) with 0%Z in Hw. unfold convert_double. rewrite Hw.
  cbn [mbind res_bind]. exists c. rewrite (proj2 (Z.eqb_neq _ _)) by lia. done.
Qed.

Lemma pow10_inject k a : pow10 k (inject_Z a) = inject_Z (a * 10 ^ Z.of_nat k).
Proof.
  revert a. induction k as [|k IH]; intros a; cbn [pow10]; [by rewrite Z.mul_1_r|].
  change (dmul (inject_Z a) (of_long 10)) with (inject_Z (a * 10)). rewrite IH, Nat2Z.inj_succ, Z.pow_succ_r by lia.
  f_equal. lia.
Qed.

Lemma POW10_inject m : (0 ≤ m)%Z → POW10 m = inject_Z (10 ^ m).
Proof.
  intros Hm. unfold POW10. change (of_long 1) with (inject_Z 1). rewrite pow10_inject, Z2Nat.id by done.
  by rewrite Z.mul_1_l.
Qed.

Lemma dle_spec (x y : Q) : BoolSpec (x <= y) (y < x) (dle x y).
Proof.
  cbn. destruct (Qle_bool x y) eqn:E; constructor; [by apply Qle_bool_iff|].
  apply Qnot_le_lt. intros H%Qle_bool_iff. congruence.
Qed.

Lemma ROUND_exact (x : Q) : 0 <= x → x < 2147483647 → ROUND x = Ok (Qfloor (x + (1 # 2))).
Proof.
  intros H0 H1. unfold ROUND. rewrite cast_floor by lra. cbn [mbind res_bind]. cbv zeta.
  pose proof (Qfloor_le x) as Hle. pose proof (Qlt_floor x) as Hlt. rewrite inject_Z_plus in Hlt.
  change (inject_Z 1) with 1 in Hlt. change (dsub x (of_long (Qfloor x))) with (x - inject_Z (Qfloor x)).
  change (lit 1 2) with (1 # 2).
  assert (0 ≤ Qfloor x < 2147483647)%Z.
  { split; [change 0%Z with (Qfloor 0); by apply Qfloor_resp_le|]. rewrite Zlt_Qlt. change (inject_Z 2147483647) with 2147483647. lra. }
  destruct (dle_spec (1 # 2) (x - inject_Z (Qfloor x))) as [Hd|Hd].
  - rewrite int_chk_ok by lia. f_equal. symmetry. apply Qfloor_is; rewrite inject_Z_plus; change (inject_Z 1) with 1; lra.
  - f_equal. symmetry. apply Qfloor_is; lra.
Qed.

Lemma abs_val_exact (x : Q) : abs_val x == Qabs x.
Proof.
  unfold abs_val. change (dlt x (of_long 0)) with (negb (dle (of_long 0) x)). change (of_long 0) with 0.
  destruct (dle_spec 0 x); cbn [negb]; [by rewrite Qabs_pos|]. rewrite Qabs_neg by lra. done.
Qed.

Lemma Qfloor_add n (x : Q) : Qfloor (inject_Z n + x) = (n + Qfloor x)%Z.
Proof.
  pose proof (Qfloor_le x) as Hle. pose proof (Qlt_floor x) as Hlt. rewrite inject_Z_plus in Hlt.
  change (inject_Z 1) with 1 in Hlt. apply Qfloor_is; rewrite inject_Z_plus; lra.
Qed.

(** The two parts before the conversion are those of the scaled number. *)
Lemma parts_exact (x : Q) m :
  Qabs x < 2147483647 → (0 ≤ m ≤ 9)%Z →
  ∃ fr ip r, my_modf 2 (abs_val x) = Ok (fr, inject_Z ip) ∧
    ROUND (dmul (POW10 m) (dsub (abs_val x) (inject_Z ip))) = Ok r ∧
    (if dle (POW10 m) (of_long r) then dadd (inject_Z ip) (of_long 1) else inject_Z ip)
      == inject_Z (scaled x m / 10 ^ m) ∧
    (if dle (POW10 m) (of_long r) then dsub (of_long r) (POW10 m) else of_long r)
      == inject_Z (scaled x m mod 10 ^ m) ∧
    (0 ≤ scaled x m / 10 ^ m < 2147483648)%Z.
Proof.
  intros Hx Hm. pose proof (abs_val_exact x) as Ha. pose proof (Qabs_nonneg x) as H0.
  set (a := abs_val x) in *. clearbody a. rewrite POW10_inject by lia.
  assert (HP : (1 ≤ 10 ^ m ≤ 1000000000)%Z).
  { split; [pose proof (Z.pow_pos_nonneg 10 m); lia|]. change 1000000000%Z with (10 ^ 9)%Z. apply Z.pow_le_mono_r; lia. }
  set (P := (10 ^ m)%Z) in *.
  assert (HPq : 1 <= inject_Z P <= 1000000000).
  { change 1 with (inject_Z 1). change 1000000000 with (inject_Z 1000000000). rewrite <- !Zle_Qle. lia. }
  pose proof (Qfloor_le a) as Hle. pose proof (Qlt_floor a) as Hlt. rewrite inject_Z_plus in Hlt.
  change (inject_Z 1) with 1 in Hlt.
  set (f := inject_Z P * (a - inject_Z (Qfloor a))).
  assert (Hf : 0 <= f /\ f < inject_Z P) by (unfold f; nra).
  set (r := Qfloor (f + (1 # 2))).
  assert (Hr : (0 ≤ r ≤ P)%Z).
  { unfold r. split; [change 0%Z with (Qfloor 0); apply Qfloor_resp_le; lra|].
    rewrite Zle_Qle. pose proof (Qfloor_le (f + (1 # 2))).
    destruct (decide (Qfloor (f + (1 # 2)) ≤ P)%Z) as [?|?]; [by rewrite <- Zle_Qle|].
    assert (inject_Z (P + 1) <= inject_Z (Qfloor (f + (1 # 2)))) by (rewrite <- Zle_Qle; lia).
    rewrite inject_Z_plus in *. change (inject_Z 1) with 1 in *. lra. }
  assert (Hip : (0 ≤ Qfloor a < 2147483647)%Z).
  { split; [change 0%Z with (Qfloor 0); apply Qfloor_resp_le; lra|].
    rewrite Zlt_Qlt. change (inject_Z 2147483647) with 2147483647. lra. }
  assert (Hn : scaled x m = (P * Qfloor a + r)%Z).
  { unfold scaled, r. fold P. rewrite <- Qfloor_add, inject_Z_mult. apply Qfloor_comp. unfold f. rewrite <- Ha. ring. }
  exists (a - inject_Z (Qfloor a)), (Qfloor a), r.
  split; [apply modf_floor; lra|]. change (dmul (inject_Z P) (dsub a (inject_Z (Qfloor a)))) with f.
  split; [apply ROUND_exact; lra|]. rewrite Hn.
  destruct (dle_spec (inject_Z P) (of_long r)) as [Hd|Hd]; change (of_long r) with (inject_Z r) in Hd.
  - rewrite <- Zle_Qle in Hd. assert (r = P) as -> by lia.
    replace (P * Qfloor a + P)%Z with ((Qfloor a + 1) * P)%Z by lia. rewrite Z.div_mul, Z.mod_mul by lia.
    split; [change (of_long 1) with (inject_Z 1); cbn [dadd rationals]; by rewrite inject_Z_plus|]. split; [|lia]. change (of_long P) with (inject_Z P); cbn [dsub rationals]. change (inject_Z 0) with 0. lra.
  - rewrite <- Zlt_Qlt in Hd. rewrite Z.mul_comm, Z.div_add_l, Z.div_small, Z.add_0_r by lia.
    rewrite Z.add_comm, Z.mod_add, Z.mod_small by lia. split; [done|]. split; [done|lia].
Qed.

Lemma nonzero_exact (v : Q) u : v == inject_Z u → nonzero v = negb (u =? 0)%Z.
Proof. intros Hv. rewrite <- nonzero_inject. cbn. by rewrite Hv. Qed.

(** The sign and the padding in front of the digits. *)
Lemma front_exact {B} maxlen o flags pad sv (k : out_t → Z → res B) :
  out_ok maxlen o → (0 ≤ pad)%Z → sv = 0%Z ∨ (1 ≤ sv < 128)%Z →
  let padlen := if flag flags DP_F_MINUS then (- pad)%Z else pad in
  let sign := if (sv =? 0)%Z then [] else [sv] in
  ('(o, padlen, sv) ←
    (if flag flags DP_F_ZERO && (0 <? padlen)%Z then
       '(o, padlen) ← (if negb (sv =? 0)%Z then o ← dopr_outch maxlen o (s8 sv); Ok (o, padlen - 1)%Z else Ok (o, padlen));
       o ← repeat_outch maxlen o 48 padlen; Ok (o, 0, 0)%Z
     else Ok (o, padlen, sv));
   o ← repeat_outch maxlen o 32 padlen;
   o ← (if negb (sv =? 0)%Z then dopr_outch maxlen o (s8 sv) else Ok o);
   k o padlen) =
  k (emit maxlen o
      (if flag flags DP_F_MINUS then sign
       else if flag flags DP_F_ZERO && (0 <? pad)%Z
       then sign ++ replicate (Z.to_nat (pad - Z.of_nat (length sign))) 48%Z
       else replicate (Z.to_nat pad) 32%Z ++ sign))
    (if flag flags DP_F_MINUS then - pad else if flag flags DP_F_ZERO && (0 <? pad) then 0 else pad)%Z.
Proof.
  intros Ho Hpad Hsv. cbv zeta.
  assert (Hs8 : sv ≠ 0%Z → s8 sv = sv).
  { intros Hne. unfold s8. rewrite Z.mod_small by lia. by rewrite (proj2 (Z.ltb_lt _ _)) by lia. }
  assert (Hsign : ∀ o, out_ok maxlen o → (if negb (sv =? 0)%Z then dopr_outch maxlen o (s8 sv) else Ok o)
            = Ok (emit maxlen o (if (sv =? 0)%Z then [] else [sv]))).
  { intros o' Ho'. destruct (Z.eqb_spec sv 0); [done|]. cbn [negb]. by rewrite outch_ok, Hs8. }
  destruct (flag flags DP_F_MINUS).
  - rewrite (proj2 (Z.ltb_ge 0 (- pad))), andb_false_r by lia. cbn [mbind res_bind].
    rewrite repeat_ok by done. replace (Z.to_nat (- pad)) with 0%nat by lia. cbn [mbind res_bind replicate].
    by rewrite Hsign.
  - destruct (flag flags DP_F_ZERO && (0 <? pad)%Z) eqn:E.
    + destruct (Z.eqb_spec sv 0) as [->|Hne]; cbn [negb mbind res_bind].
      * rewrite repeat_ok by done. cbn [mbind res_bind].
        rewrite repeat_ok by out_oks. cbn. by rewrite Z.sub_0_r.
      * rewrite outch_ok, Hs8 by done. cbn [mbind res_bind]. change (emit1 maxlen o sv) with (emit maxlen o [sv]).
        rewrite repeat_ok by out_oks. cbn [mbind res_bind]. rewrite repeat_ok by out_oks. cbn [mbind res_bind Z.to_nat replicate].
        cbn [length]. by rewrite emit_app.
    + cbn [mbind res_bind]. rewrite repeat_ok by done. cbn [mbind res_bind]. rewrite Hsign by out_oks.
      by rewrite emit_app.
Qed.

Lemma fraction_exact junk v u :
  v == inject_Z u → (0 ≤ u < 2147483648)%Z → length junk = 311%nat →
  ∃ fc fs, (if nonzero v then convert_double junk v else Ok (junk, 0%Z)) = Ok (fc, Z.of_nat (length fs)) ∧
    length fc = 311%nat ∧ (length fs ≤ 10)%nat ∧ (∀ i d, fs !! i = Some d → fc !! i = Some (glyph false d)) ∧
    (if (u =? 0)%Z then [] else dec u) = map (glyph false) (rev fs).
Proof.
  intros Hv Hu Hj. rewrite (nonzero_exact _ _ Hv). destruct (u =? 0)%Z; cbn [negb].
  - exists junk, []. split_and!; try done. cbn; lia.
  - destruct (convert_exact junk v u Hv Hu Hj) as (fc & -> & Hc & Hd).
    eexists fc, _. split; [done|]. pose proof (dec_length _ Hu). done.
Qed.

(** The digits below the terminator, backwards. *)
Lemma digits_exact maxlen c ds o :
  out_ok maxlen o → (length ds < length c)%nat → (∀ i d, ds !! i = Some d → c !! i = Some (glyph false d)) →
  print_back maxlen (<[Z.to_nat (Z.of_nat (length ds)) := 0%Z]> c) (Z.of_nat (length ds)) o
  = Ok (emit maxlen o (map (glyph false) (rev ds))).
Proof.
  intros Ho Hl Hc. apply print_back_ok; [done|]. intros i d Hi. pose proof (lookup_lt_Some _ _ _ Hi).
  rewrite list_lookup_insert_ne by lia. by apply Hc.
Qed.

Lemma point_exact maxlen m c ds o :
  out_ok maxlen o → (length ds < length c)%nat → (∀ i d, ds !! i = Some d → c !! i = Some (glyph false d)) →
  (if (0 <? m)%Z
   then o ← dopr_outch maxlen o 46;
        print_back maxlen (<[Z.to_nat (Z.of_nat (length ds)) := 0%Z]> c) (Z.of_nat (length ds)) o
   else Ok o)
  = Ok (emit maxlen o (if (0 <? m)%Z then 46%Z :: map (glyph false) (rev ds) else [])).
Proof.
  intros Ho Hl Hc. destruct (0 <? m)%Z; [|done]. rewrite outch_ok by done. cbn [mbind res_bind].
  change (emit1 maxlen o 46) with (emit maxlen o [46%Z]).
  rewrite digits_exact by (done || out_oks). by rewrite <- emit_app.
Qed.

Lemma fmtfp_exact junk maxlen o lo hi min max flags :
  out_ok maxlen o → length junk = 311%nat → Qabs (bits_value lo hi) < 2147483647 → (precision max ≤ 9)%Z →
  (-2147483600 ≤ min ≤ 2147483647)%Z →
  fmtfp junk maxlen o lo hi min max flags = Ok (emit maxlen o (fp_text (bits_value lo hi) min max flags)).
Proof.
  intros Ho Hj Hx Hm Hmin. unfold fmtfp, fp_text. cbv zeta.
  change (of_bits lo hi) with (bits_value lo hi). set (x := bits_value lo hi) in *.
  assert ((if (16 <? (if (max <? 0)%Z then 6 else max))%Z then 16 else if (max <? 0)%Z then 6 else max)%Z = precision max) as ->.
  { unfold precision. destruct (max <? 0)%Z; done. }
  assert (Hm0 : (0 ≤ precision max)%Z) by (unfold precision; case_test; [lia|case_test; lia]).
  set (m := precision max) in *.
  destruct (parts_exact x m Hx) as (fr & ip & r & -> & H2 & H3 & H4 & H5); [lia|].
  cbn [mbind res_bind]. rewrite H2. cbn [mbind res_bind].
  set (n := scaled x m) in *.
  set (v1 := if dle _ _ then dadd _ _ else _) in *. set (v2 := if dle _ _ then dsub _ _ else _) in *.
  assert (Hf : (0 ≤ n mod 10 ^ m < 2147483648)%Z).
  { pose proof (Z.pow_pos_nonneg 10 m ltac:(lia) ltac:(lia)).
    pose proof (Z.mod_pos_bound n (10 ^ m) ltac:(lia)).
    assert (10 ^ m ≤ 10 ^ 9)%Z by (apply Z.pow_le_mono_r; lia). change (10 ^ 9)%Z with 1000000000%Z in *. lia. }
  destruct (convert_exact junk v1 (n / 10 ^ m) H3 H5 Hj) as (ic & -> & Hic & Hid).
  pose proof (dec_length _ H5) as Hil. cbn [mbind res_bind]. rewrite aset_ok by lia. cbn [mbind res_bind].
  destruct (fraction_exact junk v2 _ H4 Hf Hj) as (fc & fs & -> & Hfc & Hfl & Hfd & ->).
  cbn [mbind res_bind]. rewrite aset_ok by lia. cbn [mbind res_bind].
  set (sv := if dlt _ _ then 45%Z else _).
  assert (Hsv : sv = 0%Z ∨ (1 ≤ sv < 128)%Z) by (unfold sv; repeat case_match; lia).
  assert ((if dlt x (of_long 0) then [45%Z] else if flag flags DP_F_PLUS then [43%Z] else if flag flags DP_F_SPACE then [32%Z] else [])
          = if (sv =? 0)%Z then [] else [sv]) as -> by (unfold sv; repeat case_match; done).
  assert ((if negb (sv =? 0)%Z then 1%Z else 0%Z) = Z.of_nat (length (if (sv =? 0)%Z then [] else [sv]))) as ->
    by (by destruct (sv =? 0)%Z).
  assert (Hsl : (length (if (sv =? 0)%Z then [] else [sv]) ≤ 1)%nat) by (destruct (sv =? 0)%Z; cbn; lia).
  rewrite int_chk_ok by lia. cbn [mbind res_bind]. unfold dec. rewrite !length_map, !length_rev.
  set (e := (min - _ - m - 1 - _)%Z).
  assert ((if (e <? 0)%Z then 0 else e)%Z = Z.max 0 e) as -> by (case_test; lia).
  set (z := (m - Z.of_nat (length fs))%Z).
  rewrite (front_exact maxlen o flags (Z.max 0 e) sv) by (done || lia). cbv beta. set (fm := if flag flags DP_F_MINUS then (if (sv =? 0)%Z then [] else [sv]) else _).
  rewrite (digits_exact _ _ (lsd 11 10 (n / 10 ^ m))) by (done || out_oks || lia).
  cbn [mbind res_bind].
  rewrite point_exact by (done || out_oks || lia). cbn [mbind res_bind]. rewrite repeat_ok by out_oks. cbn [mbind res_bind].
  rewrite repeat_ok by out_oks. rewrite !emit_app.
  replace (Z.to_nat (if z <? 0 then 0 else z)%Z) with (Z.to_nat z) by (case_test; lia).
  destruct (flag flags DP_F_MINUS).
  - rewrite (proj2 (Z.ltb_ge 0 (- Z.max 0 e))) by lia. by rewrite Z.opp_involutive.
  - destruct (_ && _); [done|]. destruct (Z.ltb_spec 0 (Z.max 0 e)); [done|]. by replace (Z.max 0 e) with 0%Z by lia.
Qed.

End text.

(** ** The doubles of IEEE 754 *)

Definition binary64_of (m e : Z) : spec_float := binary_normalize 53 1024 m e false.

Definition bits_float (lo hi : Z) : spec_float :=
  let e := Z.land (Z.shiftr hi 20) 2047 in
  let m := 4294967296 * Z.land hi 1048575 + lo in
  let s := Z.testbit hi 31 in
  if e =? 2047 then (if m =? 0 then S754_infinity s else S754_nan)
  else if (e =? 0) && (m =? 0) then S754_zero s
  else if e =? 0 then S754_finite s (Z.to_pos m) (-1074)
  else S754_finite s (Z.to_pos (m + 4503599627370496)) (e - 1075).

Definition float_long (x : spec_float) : option Z :=
  match x with
  | S754_zero _ => Some 0
  | S754_finite s m e =>
      if 32 <=? e then None
      else let a := if 0 <=? e then Z.shiftl (Zpos m) e else Z.shiftr (Zpos m) (- e) in long_of (if s then - a else a)
  | _ => None
  end.

#[export] Instance binary64 : Doubles spec_float := {
  of_bits := bits_float;
  of_long l := binary64_of l 0;
  lit n d := SFdiv 53 1024 (binary64_of n 0) (binary64_of d 0);
  dadd := SFadd 53 1024;
  dsub := SFsub 53 1024;
  dmul := SFmul 53 1024;
  dneg := SFopp;
  dle := SFleb;
  dlt := SFltb;
  nonzero x := negb (SFeqb x (binary64_of 0 0));
  to_long := float_long;
}.

(** What printf("%w.pf", x) prints, [flags] as given. *)
Definition float_text {D} `{Doubles D} (lo hi min max flags : Z) : res (list Z) :=
  o ← fmtfp (replicate 311 0) 40 (Out (replicate 40 0) 0) lo hi min max flags;
  Ok (take (Z.to_nat (currlen o)) (buffer o)).

(** ** Theorems *)

(** The frame, for any format at all, whatever the doubles are as long as a conversion
    to long truncates: [vsnprintf] ends, and unless it stops at a bad pointer or digit
    index or at a number that does not fit, it writes only the first [count] bytes and
    terminates the text.  What is printed is the subject of Directives.v. *)
Theorem vsnprintf_float_bounded {D} `{Truncates D} junk fjunk fuel str count fmt args m :
  length junk = 20%nat → length fjunk = 311%nat → Forall (λ x, 1 ≤ x < 256) fmt → last fmt ≠ Some 119 →
  1 ≤ count ≤ Z.of_nat (length str) → count < 4294967296 → (8 * (length fmt + 2) < fuel)%nat →
  post (λ r, let '(ret, b, _) := r in length b = length str ∧
             b !! Z.to_nat (Z.min (u32 ret) (count - 1)) = Some 0 ∧
             drop (Z.to_nat count) b = drop (Z.to_nat count) str)
       (λ f, f = Unmapped ∨ f = SignedOverflow) (vsnprintf junk (fmtfp fjunk) fuel str count (Str.lit fmt) args m).
Proof.
  intros Hj Hfj Hf Hl Hc Hc' Hfuel. apply vsnprintf_post; try done.
  intros o lo hi mn mx fl Ho. by apply fmtfp_prints.
Qed.

Lemma vsnprintf_float_bounded_witness :
  post (λ r, let '(ret, b, _) := r in length b = 4%nat ∧ b !! Z.to_nat (Z.min (u32 ret) 2) = Some 0 ∧ drop 3 b = [7])
       (λ f, f = Unmapped ∨ f = SignedOverflow)
       (vsnprintf (replicate 20 0) (fmtfp (D:=Q) (replicate 311 0)) 41 [7; 7; 7; 7] 3 (Str.lit [97; 37; 102]) [0; 1072693248] ∅).
Proof.
  apply (vsnprintf_float_bounded (D:=Q) (replicate 20 0) (replicate 311 0) 41 [7; 7; 7; 7] 3 [97; 37; 102] [0; 1072693248] ∅);
    [done|done|repeat constructor; lia|done|cbn; lia|lia|cbn; lia].
Defined.

(** C32: over exact arithmetic, %f prints any number below 2^31 - 1 in magnitude with
    up to nine places as its text [fp_text]: the number times 10^max, rounded half
    up, split into the digits of the integer part and those of the fraction; width,
    sign and flags as the code lays them out, the zeros of the precision after the
    digits of the fraction. *)
Theorem fmtfp_layout junk maxlen o lo hi min max flags :
  out_ok maxlen o → length junk = 311%nat → (Qabs (bits_value lo hi) < inject_Z 2147483647)%Q → precision max ≤ 9 →
  -2147483600 ≤ min ≤ 2147483647 →
  fmtfp (D:=Q) junk maxlen o lo hi min max flags = Ok (emit maxlen o (fp_text (bits_value lo hi) min max flags)).
Proof. intros. by apply fmtfp_exact. Qed.

Lemma fmtfp_layout_witness :
  fmtfp (D:=Q) (replicate 311 0) 8 (Out (replicate 8 0) 0) 0 3221487616 8 2 0
  = Ok (emit 8 (Out (replicate 8 0) 0) [32; 32; 32; 45; 50; 46; 53; 48]).
Proof.
  rewrite (fmtfp_layout (replicate 311 0) 8 (Out (replicate 8 0) 0) 0 3221487616 8 2 0);
    [by vm_compute|split; cbn; lia|done|by vm_compute|by vm_compute|lia].
Defined.

(** With IEEE doubles, printf("%f", 1.0625) prints 1.625000: the zeros that
    stand before the digits of the fraction are printed behind them. *)
Theorem fraction_zeros_misplaced :
  float_text (D:=spec_float) 0 1072758784 0 (-1) 0 = Ok [49; 46; 54; 50; 53; 48; 48; 48].
Proof. by vm_compute. Qed.

(** printf("%08.1f", -1.5) prints seven characters: the sign is taken from the
    width twice. *)
Theorem zero_padding_short :
  float_text (D:=spec_float) 0 3220701184 8 1 DP_F_ZERO = Ok [45; 48; 48; 48; 49; 46; 53].
Proof. by vm_compute. Qed.

(** With ten places the scaled fraction of 0.5 does not fit into the long of [ROUND]. *)
Theorem ten_places_overflow :
  float_text (D:=spec_float) 0 1071644672 0 10 0 = Fault SignedOverflow.
Proof. by vm_compute. Qed.
