(* ===== verification/Directives.v ===== *)
(** What a format prints.

    Source: libc/stdio/snprintf.c, [dopr], [fmtstr] and [vsnprintf], whose
    definitions are in Format.v, with the [fmtfp] of Float.v over exact arithmetic.

    A format is a list of items: a character, or a directive with its flags, width,
    precision, size and conversion; [render] writes it as the string that the program
    has.  [writes] says which text the items have for which arguments and memory: one
    rule for each conversion, nothing about the states of the parser, the buffer or
    the places of the digits.  The theorem is that [vsnprintf] of the rendered format
    prints that text: [dopr] is followed state by state, with [runs] for a number of
    turns of its loop.

    A rule has the conditions under which the code has a result: the argument is
    there, a string is terminated, and what is computed in an [int] fits.  There is no
    rule for %w and unknown letters, which print nothing. *)
From Stdlib Require Import QArith Qabs Lqa.
From S2P Require Import Prelude CString Format Float.
Open Scope Z_scope.

(** ** Formats *)

(** A width or a precision: digits, perhaps none, or an argument. *)
Inductive amount : Type := Digits (ds : list Z) | Star.

Inductive modifier : Type := NoSize | h_size | l_size | ll_size | L_size.

Inductive conversion : Type :=
  | c_d | c_i | c_o | c_u | c_X | c_x | c_f | c_E | c_G | c_e | c_g | c_c | c_s | c_p | c_n | c_percent.

Record directive : Type := Directive {
  d_flags : list Z;
  d_width : amount;
  d_precision : option amount;
  d_modifier : modifier;
  d_conversion : conversion;
}.

Inductive item : Type := Plain (c : Z) | Convert (d : directive).

Definition amount_chars (a : amount) : list Z := match a with Digits ds => ds | Star => [42] end.

Definition precision_chars (p : option amount) : list Z :=
  match p with None => [] | Some a => 46 :: amount_chars a end.

Definition modifier_chars (md : modifier) : list Z :=
  match md with NoSize => [] | h_size => [104] | l_size => [108] | ll_size => [108; 108] | L_size => [76] end.

Definition conversion_char (c : conversion) : Z :=
  match c with
  | c_d => 100 | c_i => 105 | c_o => 111 | c_u => 117 | c_X => 88 | c_x => 120 | c_f => 102 | c_E => 69
  | c_G => 71 | c_e => 101 | c_g => 103 | c_c => 99 | c_s => 115 | c_p => 112 | c_n => 110 | c_percent => 37
  end.

Definition render (i : item) : list Z :=
  match i with
  | Plain c => [c]
  | Convert d => 37 :: d_flags d ++ amount_chars (d_width d) ++ precision_chars (d_precision d)
                 ++ modifier_chars (d_modifier d) ++ [conversion_char (d_conversion d)]
  end.

Definition format_of (items : list item) : list Z := concat (map render items).

Definition is_flag (c : Z) : Prop := c = 45 ∨ c = 43 ∨ c = 32 ∨ c = 35 ∨ c = 48.

Definition amount_ok (a : amount) : Prop :=
  match a with Digits ds => Forall Str.is_digit ds ∧ Str.dec_value ds ≤ 2147483647 | Star => True end.

(** A character other than %; a width does not begin with 0, which is a flag. *)
Definition item_ok (i : item) : Prop :=
  match i with
  | Plain c => 1 ≤ c < 256 ∧ c ≠ 37
  | Convert d => Forall is_flag (d_flags d) ∧ amount_ok (d_width d) ∧ head (amount_chars (d_width d)) ≠ Some 48 ∧
                 (∀ a, d_precision d = Some a → amount_ok a)
  end.

(** ** What they print *)

Definition flag_bit (c : Z) : Z :=
  if c =? 45 then DP_F_MINUS else if c =? 43 then DP_F_PLUS else if c =? 32 then DP_F_SPACE
  else if c =? 35 then DP_F_NUM else DP_F_ZERO.

Definition flags_value (fs : list Z) : Z := fold_left (λ a c, Z.lor a (flag_bit c)) fs 0.

(** The value and the arguments left; without digits it is [none]. *)
Definition amount_value (none : Z) (a : amount) (args : list Z) : option (Z * list Z) :=
  match a with
  | Digits [] => Some (none, args)
  | Digits ds => Some (Str.dec_value ds, args)
  | Star => match args with [] => None | w :: args => Some (s32 w, args) end
  end.

Definition precision_value (p : option amount) (args : list Z) : option (Z * list Z) :=
  match p with None => Some (-1, args) | Some a => amount_value (-1) a args end.

(** Base and additional flags of the integer conversions; an address is signed. *)
Definition int_conversion (c : conversion) : option (Z * Z) :=
  match c with
  | c_d | c_i => Some (10, 0)
  | c_o => Some (8, DP_F_UNSIGNED)
  | c_u => Some (10, DP_F_UNSIGNED)
  | c_x => Some (16, DP_F_UNSIGNED)
  | c_X => Some (16, Z.lor DP_F_UP DP_F_UNSIGNED)
  | c_p => Some (16, 0)
  | _ => None
  end.

(** A string, padded to the width and cut: at the precision, or at the width where
    that is larger. *)
Definition str_text (str : list Z) (min max flags : Z) : list Z :=
  let max := if max =? -1 then Z.of_nat (length str) else max in
  let max := if (0 <? min) && (0 <=? max) && (max <? min) then min else max in
  let pad := replicate (Z.to_nat (min - Z.of_nat (length str))) 32 in
  take (Z.to_nat max) (if flag flags DP_F_MINUS then map s8 str ++ pad else pad ++ map s8 str).

(** The number of characters so far, as %n stores it. *)
Definition counted (md : modifier) (m : mem) (a n : Z) (m' : mem) : Prop :=
  match md with
  | h_size => ∃ m1, store8 m a (n mod 256) = Ok m1 ∧ store8 m1 (a + 1) (n / 256 mod 256) = Ok m'
  | _ => store32 m a n = Ok m'
  end.

(** A conversion after [n] characters, with its flags, width and precision: the
    arguments and the memory before; the text, the arguments and the memory after. *)
Inductive converts (n flags min max : Z) (md : modifier) :
    conversion → list Z → mem → list Z → list Z → mem → Prop :=
  | converts_int c base bits w args m :
      int_conversion c = Some (base, bits) → (bits = 0 → s32 w ≠ -2147483648) → Z.max 11 max - 2147483647 ≤ min →
      converts n flags min max md c (w :: args) m (int_text (s32 w) base min max (Z.lor flags bits)) args m
  | converts_float lo hi args m :
      (Qabs (bits_value lo hi) < inject_Z 2147483647)%Q → precision max ≤ 9 → -2147483600 ≤ min →
      converts n flags min max md c_f (lo :: hi :: args) m (fp_text (bits_value lo hi) min max flags) args m
  | converts_exponent c lo hi args m :
      c = c_e ∨ c = c_E ∨ c = c_g ∨ c = c_G →
      converts n flags min max md c (lo :: hi :: args) m [] args m
  | converts_char w args m : converts n flags min max md c_c (w :: args) m [s8 w] args m
  | converts_string a str args m :
      Str.cstr (load8 m) a str → a ≠ 0 → Z.of_nat (length str) < 2147483648 →
      -2147483648 ≤ min - Z.of_nat (length str) →
      converts n flags min max md c_s (a :: args) m (str_text str min max flags) args m
  | converts_null args m :
      max ≠ -1 → -2147483642 ≤ min →
      converts n flags min max md c_s (0 :: args) m (str_text null_text min max flags) args m
  | converts_count a args m m' :
      counted md m a n m' → converts n flags min max md c_n (a :: args) m [] args m'
  | converts_percent args m : converts n flags min max md c_percent args m [37] args m.

(** The items after [n] characters, with the arguments and the memory: the text and
    the memory after. *)
Inductive writes : Z → list item → list Z → mem → list Z → mem → Prop :=
  | writes_end n args m : writes n [] args m [] m
  | writes_plain n c items args m text m' :
      writes (n + 1) items args m text m' → writes n (Plain c :: items) args m (s8 c :: text) m'
  | writes_convert n d items args min args1 max args2 m t args3 m1 text m' :
      amount_value 0 (d_width d) args = Some (min, args1) →
      precision_value (d_precision d) args1 = Some (max, args2) →
      converts n (flags_value (d_flags d)) min max (d_modifier d) (d_conversion d) args2 m t args3 m1 →
      writes (n + Z.of_nat (length t)) items args3 m1 text m' →
      writes n (Convert d :: items) args m (t ++ text) m'.

(** ** The loops of [fmtstr] *)

Section strings.
Variable maxlen : Z.

Lemma str_length_is (fuel : nat) rd str :
  Str.cstr rd 0 str → (length str < fuel)%nat → str_length fuel rd = Ok (Z.of_nat (length str)).
Proof.
  intros [Hs He] Hf. unfold str_length. replace fuel with (length str + S (fuel - length str - 1))%nat by lia.
  rewrite while_steps.
  - cbn [while]. by rewrite He.
  - intros i Hi. destruct (lookup_lt_is_Some_2 str (Z.to_nat i)) as [x Hx]; [lia|]. destruct (Hs _ _ Hx) as [H Hx0].
    rewrite Z2Nat.id in H by lia. rewrite ?Z.add_0_l in *. rewrite H. cbn [mbind res_bind]. by test_false (x =? 0).
Qed.

(** The padding on either side; [p] counts towards 0. *)
Lemma pad_loop_text fuel max dir (p : nat) o cnt :
  dir = 1 ∨ dir = -1 → out_ok maxlen o → (p < fuel)%nat →
  let k := Nat.min p (Z.to_nat (max - cnt)) in
  pad_loop fuel maxlen max dir (o, dir * Z.of_nat p, cnt)
  = Ok (emit maxlen o (replicate k 32), dir * Z.of_nat (p - k), cnt + Z.of_nat k).
Proof.
  intros Hdir. unfold pad_loop. revert p o cnt. induction fuel as [|fuel IH]; intros p o cnt Ho Hf; [lia|].
  cbn zeta. cbn [while]. replace (0 <? dir * (dir * Z.of_nat p)) with (0 <? Z.of_nat p) by (destruct Hdir as [-> | ->]; f_equal; lia).
  destruct ((0 <? Z.of_nat p) && (cnt <? max)) eqn:E.
  - apply andb_true_iff in E as [E1%Z.ltb_lt E2%Z.ltb_lt]. rewrite outch_ok by done. cbn [mbind res_bind].
    replace (dir * Z.of_nat p - dir) with (dir * Z.of_nat (p - 1)) by (destruct Hdir as [-> | ->]; lia).
    rewrite (IH (p - 1)%nat (emit1 maxlen o 32) (cnt + 1)) by (lia || apply (out_ok_emit maxlen o [32] Ho)).
    replace (Nat.min p (Z.to_nat (max - cnt))) with (S (Nat.min (p - 1) (Z.to_nat (max - (cnt + 1))))) by lia.
    set (k := Nat.min (p - 1) _). replace (p - S k)%nat with (p - 1 - k)%nat by lia. do 2 f_equal. lia.
  - apply andb_false_iff in E. rewrite !Z.ltb_ge in E. replace (Nat.min p (Z.to_nat (max - cnt))) with 0%nat by lia.
    cbn. by rewrite Nat.sub_0_r, Z.add_0_r.
Qed.

Lemma text_loop_text fuel max rd str o cnt :
  Str.cstr rd 0 str → out_ok maxlen o → (length str < fuel)%nat →
  let t := take (Z.to_nat (max - cnt)) str in
  text_loop fuel maxlen max rd o cnt = Ok (emit maxlen o (map s8 t), cnt + Z.of_nat (length t)).
Proof.
  intros Hs Ho Hf. unfold text_loop. cbn zeta.
  enough (Hgen : ∀ rest i o cnt, out_ok maxlen o → rest = drop i str → (i ≤ length str)%nat → (length rest < fuel)%nat →
    while fuel (λ st : out_t * Z * Z, let '(o, i, cnt) := st in
       c ← rd i;
       if negb (c =? 0) && (cnt <? max) then o ← dopr_outch maxlen o (s8 c); Ok (Continue (o, i + 1, cnt + 1))
       else Ok (Break (o, cnt))) (o, Z.of_nat i, cnt)
    = Ok (emit maxlen o (map s8 (take (Z.to_nat (max - cnt)) rest)), cnt + Z.of_nat (length (take (Z.to_nat (max - cnt)) rest)))).
  { apply (Hgen str 0%nat o cnt Ho); [done|lia|lia]. }
  clear o cnt Ho Hf. destruct Hs as [Hs He]. induction fuel as [|fuel IH]; intros rest i o cnt Ho Hr Hi Hf; [lia|]. cbn [while].
  destruct rest as [|c rest].
  - assert (length (drop i str) = 0%nat) as Hl by (by rewrite <- Hr). rewrite length_drop in Hl.
    replace (Z.of_nat i) with (0 + Z.of_nat (length str)) by lia. rewrite He, take_nil. cbn. by rewrite Z.add_0_r.
  - assert (Hc : str !! i = Some c) by (rewrite <- (Nat.add_0_r i), <- lookup_drop, <- Hr; done).
    destruct (Hs _ _ Hc) as [Hrd Hc0]. rewrite Z.add_0_l in Hrd. rewrite Hrd. cbn [mbind res_bind]. test_false (c =? 0).
    pose proof (lookup_lt_Some _ _ _ Hc). cbn [negb andb]. case_test.
    + rewrite outch_ok by done. cbn [mbind res_bind]. replace (Z.of_nat i + 1) with (Z.of_nat (S i)) by lia.
      rewrite (IH rest (S i)); [|by apply (out_ok_emit maxlen o [_])| |lia|cbn in Hf; lia].
      * replace (Z.to_nat (max - cnt)) with (S (Z.to_nat (max - (cnt + 1)))) by lia. cbn [take map length].
        do 2 f_equal. lia.
      * by rewrite <- Nat.add_1_r, <- drop_drop, <- Hr.
    + replace (Z.to_nat (max - cnt)) with 0%nat by lia. cbn. by rewrite Z.add_0_r.
Qed.

(** [fmtstr] pads to [min] and stops at [max]. *)
Lemma fmtstr_pads m value str o flags min max :
  Str.cstr (str_at m value) 0 str → (length str < str_fuel m + 7)%nat → out_ok maxlen o →
  -2147483648 ≤ min - Z.of_nat (length str) → min < 2147483648 →
  let pad := replicate (Z.to_nat (min - Z.of_nat (length str))) 32 in
  fmtstr m maxlen o value flags min max
  = Ok (emit maxlen o (take (Z.to_nat max) (if flag flags DP_F_MINUS then map s8 str ++ pad else pad ++ map s8 str))).
Proof.
  intros Hs Hl Ho Hmin Hmin' pad. unfold fmtstr. rewrite (str_length_is _ _ _ Hs Hl). cbn [mbind res_bind].
  rewrite int_chk_ok by lia. cbn [mbind res_bind]. cbv zeta.
  set (p := Z.to_nat (min - Z.of_nat (length str))) in *.
  replace (if min - Z.of_nat (length str) <? 0 then 0 else min - Z.of_nat (length str)) with (Z.of_nat p) by (case_test; lia).
  destruct (flag flags DP_F_MINUS).
  - set (f := S _). assert (Hf : (p < f)%nat) by (unfold f; lia).
    assert (pad_loop f maxlen max 1 (o, - Z.of_nat p, 0) = Ok (o, - Z.of_nat p, 0)) as ->.
    { unfold pad_loop, f. cbn [while]. by rewrite (proj2 (Z.ltb_ge 0 (1 * - Z.of_nat p))) by lia. }
    cbn [mbind res_bind]. rewrite (text_loop_text _ max _ str o 0 Hs Ho Hl). cbn [mbind res_bind].
    rewrite Z.sub_0_r, Z.add_0_l. replace (- Z.of_nat p) with (-1 * Z.of_nat p) by lia.
    rewrite pad_loop_text by (lia || out_oks). cbn [mbind res_bind]. rewrite <- emit_app, take_app, length_map, <- fmap_take.
    unfold pad. rewrite take_replicate. do 3 f_equal. rewrite length_take. f_equal. lia.
  - set (f := S _). assert (Hf : (p < f)%nat) by (unfold f; lia).
    rewrite <- (Z.mul_1_l (Z.of_nat p)). rewrite pad_loop_text by (lia || done). cbn [mbind res_bind].
    rewrite (text_loop_text _ max _ str _ _ Hs) by (lia || out_oks). cbn [mbind res_bind].
    unfold pad_loop, f. cbn [while]. rewrite (proj2 (Z.ltb_ge 0 (-1 * _))) by lia. cbn [andb mbind res_bind].
    rewrite <- emit_app, take_app, <- fmap_take. unfold pad. rewrite take_replicate, length_replicate. do 3 f_equal; [|f_equal].
    + f_equal. lia.
    + f_equal. lia.
Qed.

(** The string of a pointer that is not NULL, and the one of NULL. *)
Lemma string_at m a str :
  Str.cstr (load8 m) a str → a ≠ 0 → Str.cstr (str_at m a) 0 str ∧ (length str < str_fuel m)%nat.
Proof.
  intros Hs Ha. pose proof (mapped_size _ _ _ (cstr_mapped _ _ _ Hs)) as Hm.
  split; [|unfold str_fuel; lia]. destruct Hs as [H1 H2]. split.
  - intros k x Hx. unfold str_at. test_false (a =? 0). rewrite Z.add_0_l. by apply H1.
  - unfold str_at. test_false (a =? 0). by rewrite Z.add_0_l.
Qed.

Lemma null_at m : Str.cstr (str_at m 0) 0 null_text.
Proof.
  split; [|done]. intros k x Hx. unfold str_at. cbn [Z.eqb]. unfold Str.lit. split.
  - apply aget_Ok. split; [lia|]. rewrite Z.add_0_l, Nat2Z.id. by apply lookup_app_l_Some.
  - assert (Forall (λ x, 1 ≤ x < 256) null_text) as H by (repeat constructor; lia).
    rewrite Forall_lookup in H. eauto.
Qed.

End strings.

(** ** The states of [dopr] *)

Section states.
Variables (maxlen : Z) (junk fjunk fmt : list Z).
Context (Hjunk : length junk = 20%nat) (Hfjunk : length fjunk = 311%nat) (Hmax : 0 ≤ maxlen < 4294967296).

Abbreviation body := (dopr_body (Str.lit fmt) maxlen junk (fmtfp (D:=Q) fjunk maxlen)).

(** [pre] has been read; the first byte of [rest] is in [ch]. *)
Definition reading (pre rest : list Z) (st fl mn mx cf : Z) (args : list Z) (o : out_t) (m : mem) : dp_t :=
  Dp (Z.of_nat (length pre) + 1) (s8 (default 0 (head rest))) st fl mn mx cf args o m.

(** At most [b] turns of the loop lead from one state to the other. *)
Definition runs (b : nat) (d d' : dp_t) : Prop :=
  ∃ n, (n ≤ b)%nat ∧ ∀ k, while (n + k) body d = while k body d'.

Lemma runs_refl d : runs 0 d d.
Proof. by exists 0%nat. Qed.

Lemma runs_one d d' : body d = Ok (Continue d') → runs 1 d d'.
Proof. intros Hb. exists 1%nat. split; [done|]. intros k. cbn [Nat.add while]. by rewrite Hb. Qed.

Lemma runs_trans b1 b2 b d1 d2 d3 : runs b1 d1 d2 → runs b2 d2 d3 → (b1 + b2 ≤ b)%nat → runs b d1 d3.
Proof.
  intros (n1 & Hn1 & H1) (n2 & Hn2 & H2) Hb. exists (n1 + n2)%nat. split; [lia|].
  intros k. by rewrite <- Nat.add_assoc, H1, H2.
Qed.

Lemma runs_weaken b b' d d' : runs b d d' → (b ≤ b')%nat → runs b' d d'.
Proof. intros (n & Hn & H) Hb. exists n. split; [lia|done]. Qed.

(** Reading on. *)
Lemma advance pre c rest ch st fl mn mx cf args o m :
  fmt = pre ++ c :: rest →
  next_char (Str.lit fmt) (Dp (Z.of_nat (length pre) + 1) ch st fl mn mx cf args o m)
  = Ok (reading (pre ++ [c]) rest st fl mn mx cf args o m).
Proof. by apply next_after with (junk := junk). Qed.

Lemma s8_ascii c : 0 ≤ c < 128 → s8 c = c.
Proof. intros Hc. unfold s8. case_test; mlia. Qed.

#[local] Arguments next_char : simpl never.
#[local] Arguments fmtint : simpl never.
#[local] Arguments fmtfp : simpl never.
#[local] Arguments fmtstr : simpl never.
#[local] Arguments str_length : simpl never.

(** A turn that reads the character [c]: what is left is the step of the state. *)
Ltac read c :=
  apply runs_one; unfold dopr_body, reading; cbn; rewrite ?(s8_ascii c) by lia;
  try test_false (c =? 0); cbn; unfold dp_flag_char, dp_min_char, dp_dot, dp_max_char; cbn.

Lemma run_percent pre rest args o m :
  fmt = pre ++ 37 :: rest →
  runs 1 (reading pre (37 :: rest) 0 0 0 (-1) 0 args o m) (reading (pre ++ [37]) rest 1 0 0 (-1) 0 args o m).
Proof. intros Hf. read 37. unfold set_state. cbn. by rewrite (advance pre 37 rest). Qed.

Lemma run_plain pre c rest args o m :
  fmt = pre ++ c :: rest → 1 ≤ c < 256 → c ≠ 37 → out_ok maxlen o →
  runs 1 (reading pre (c :: rest) 0 0 0 (-1) 0 args o m)
         (reading (pre ++ [c]) rest 0 0 0 (-1) 0 args (emit maxlen o [s8 c]) m).
Proof.
  intros Hf Hc Hp Ho. apply runs_one. unfold dopr_body, reading. cbn.
  assert (s8 c ≠ 0 ∧ s8 c ≠ 37) as [H0 H1] by (unfold s8; case_test; split; mlia).
  test_false (s8 c =? 0). cbn. unfold dp_default. cbn [dp_ch]. test_false (s8 c =? 37).
  unfold printch. cbn [dp_out]. rewrite outch_ok by done. cbn [mbind res_bind]. unfold set_out. cbn.
  by rewrite (advance pre c rest).
Qed.

Lemma run_flags fs : ∀ pre rest fl args o m,
  fmt = pre ++ fs ++ rest → Forall is_flag fs →
  runs (length fs) (reading pre (fs ++ rest) 1 fl 0 (-1) 0 args o m)
    (reading (pre ++ fs) rest 1 (fold_left (λ a c, Z.lor a (flag_bit c)) fs fl) 0 (-1) 0 args o m).
Proof.
  induction fs as [|c fs IH]; intros pre rest fl args o m Hf Hfs; [rewrite app_nil_r; apply runs_refl|].
  apply Forall_cons in Hfs as [Hc Hfs]. rewrite (app_assoc pre [c] fs : pre ++ c :: fs = _).
  eapply (runs_trans 1); [|apply IH; [by rewrite <- app_assoc|done]|done].
  assert (Hread : ∀ ch st fl, next_char (Str.lit fmt) (Dp (Z.of_nat (length pre) + 1) ch st fl 0 (-1) 0 args o m)
                  = Ok (reading (pre ++ [c]) (fs ++ rest) st fl 0 (-1) 0 args o m)) by (intros; by apply advance).
  destruct Hc as [-> |[-> |[-> |[-> | ->]]]]; [read 45|read 43|read 32|read 35|read 48];
    unfold or_flags; cbn; by rewrite Hread.
Qed.

(** A character that belongs to a later state changes the state only. *)
Lemma flags_over pre c rest fl args o m :
  1 ≤ c < 128 → ¬ is_flag c →
  runs 1 (reading pre (c :: rest) 1 fl 0 (-1) 0 args o m) (reading pre (c :: rest) 2 fl 0 (-1) 0 args o m).
Proof.
  intros Hc Hf. read c. unfold is_flag in Hf.
  test_false (c =? 45). test_false (c =? 43). test_false (c =? 32). test_false (c =? 35). test_false (c =? 48).
  done.
Qed.

Lemma isdigit_spec c : 0 ≤ c < 128 → isdigit c = bool_decide (Str.is_digit c).
Proof.
  intros Hc. unfold isdigit, Str.is_digit, u8. case_bool_decide; [apply Z.leb_le|apply Z.leb_gt]; mlia.
Qed.

Lemma width_over pre c rest fl mn args o m :
  1 ≤ c < 128 → ¬ Str.is_digit c → c ≠ 42 →
  runs 1 (reading pre (c :: rest) 2 fl mn (-1) 0 args o m) (reading pre (c :: rest) 3 fl mn (-1) 0 args o m).
Proof.
  intros Hc Hf Hs. read c. rewrite isdigit_spec, bool_decide_false by (done || lia). test_false (c =? 42).
  done.
Qed.

Lemma precision_over pre c rest fl mn mx args o m :
  1 ≤ c < 128 → ¬ Str.is_digit c → c ≠ 42 →
  runs 1 (reading pre (c :: rest) 4 fl mn mx 0 args o m) (reading pre (c :: rest) 5 fl mn mx 0 args o m).
Proof.
  intros Hc Hf Hs. read c. rewrite isdigit_spec, bool_decide_false by (done || lia). test_false (c =? 42).
  done.
Qed.

Lemma no_precision pre c rest fl mn args o m :
  1 ≤ c < 128 → c ≠ 46 →
  runs 1 (reading pre (c :: rest) 3 fl mn (-1) 0 args o m) (reading pre (c :: rest) 5 fl mn (-1) 0 args o m).
Proof.
  intros Hc Hs. read c. test_false (c =? 46). done.
Qed.

Lemma run_dot pre rest fl mn args o m :
  fmt = pre ++ 46 :: rest →
  runs 1 (reading pre (46 :: rest) 3 fl mn (-1) 0 args o m) (reading (pre ++ [46]) rest 4 fl mn (-1) 0 args o m).
Proof. intros Hf. read 46. unfold set_state. cbn. by rewrite (advance pre 46 rest). Qed.

(** The value of digits, from the value before them. *)
Abbreviation from := (fold_left (λ a c, a * 10 + (c - 48))).

Lemma from_le ds a : Forall Str.is_digit ds → 0 ≤ a → a ≤ from ds a.
Proof.
  intros Hds. revert a. induction Hds as [|c ds Hc Hds IH]; intros a Ha; cbn; [lia|].
  unfold Str.is_digit in Hc. specialize (IH (a * 10 + (c - 48))). lia.
Qed.

Lemma width_digits ds : ∀ pre rest fl mn args o m,
  fmt = pre ++ ds ++ rest → Forall Str.is_digit ds → 0 ≤ mn → from ds mn ≤ 2147483647 →
  runs (length ds) (reading pre (ds ++ rest) 2 fl mn (-1) 0 args o m)
    (reading (pre ++ ds) rest 2 fl (from ds mn) (-1) 0 args o m).
Proof.
  induction ds as [|c ds IH]; intros pre rest fl mn args o m Hf Hds Hmn Hv; [rewrite app_nil_r; apply runs_refl|].
  apply Forall_cons in Hds as [Hc Hds]. rewrite (app_assoc pre [c] ds : pre ++ c :: ds = _). cbn [fold_left] in Hv |- *.
  pose proof (from_le ds (mn * 10 + (c - 48)) Hds) as Hle. unfold Str.is_digit in Hc.
  eapply (runs_trans 1); [|apply IH; [by rewrite <- app_assoc|done|lia|done]|done].
  read c. rewrite isdigit_spec, bool_decide_true by (done || lia). rewrite int_chk_ok by lia. cbn.
  unfold char_to_int. rewrite int_chk_ok by lia. cbn. unfold set_min. cbn. rewrite (advance pre c (ds ++ rest)) by done.
  by replace (10 * mn + (c - 48)) with (mn * 10 + (c - 48)) by lia.
Qed.

Lemma precision_digits ds : ∀ pre rest fl mn mx args o m,
  fmt = pre ++ ds ++ rest → Forall Str.is_digit ds → 0 ≤ mx → from ds mx ≤ 2147483647 →
  runs (length ds) (reading pre (ds ++ rest) 4 fl mn mx 0 args o m)
    (reading (pre ++ ds) rest 4 fl mn (from ds mx) 0 args o m).
Proof.
  induction ds as [|c ds IH]; intros pre rest fl mn mx args o m Hf Hds Hmx Hv; [rewrite app_nil_r; apply runs_refl|].
  apply Forall_cons in Hds as [Hc Hds]. rewrite (app_assoc pre [c] ds : pre ++ c :: ds = _). cbn [fold_left] in Hv |- *.
  pose proof (from_le ds (mx * 10 + (c - 48)) Hds) as Hle. unfold Str.is_digit in Hc.
  eapply (runs_trans 1); [|apply IH; [by rewrite <- app_assoc|done|lia|done]|done].
  read c. rewrite isdigit_spec, bool_decide_true by (done || lia). test_false (mx <? 0). rewrite int_chk_ok by lia. cbn.
  unfold char_to_int. rewrite int_chk_ok by lia. cbn. unfold set_max. cbn. rewrite (advance pre c (ds ++ rest)) by done.
  by replace (10 * mx + (c - 48)) with (mx * 10 + (c - 48)) by lia.
Qed.

Lemma amount_bound none a args v args' :
  amount_ok a → none < 2147483648 → amount_value none a args = Some (v, args') → v < 2147483648.
Proof.
  intros Ha Hn Hv. destruct a as [[|c ds]|]; cbn in Ha, Hv.
  - by simplify_eq.
  - simplify_eq. lia.
  - destruct args; simplify_eq. apply s32_range.
Qed.

(** What follows a width or a precision. *)
Definition ends_amount (rest : list Z) : Prop :=
  ∃ c r, rest = c :: r ∧ 1 ≤ c < 128 ∧ ¬ is_flag c ∧ ¬ Str.is_digit c ∧ c ≠ 42.

Lemma run_width a pre rest fl args mn args1 o m :
  fmt = pre ++ amount_chars a ++ rest → ends_amount rest → amount_ok a → amount_value 0 a args = Some (mn, args1) →
  runs (length (amount_chars a) + 1) (reading pre (amount_chars a ++ rest) 2 fl 0 (-1) 0 args o m)
    (reading (pre ++ amount_chars a) rest 3 fl mn (-1) 0 args1 o m).
Proof.
  intros Hf (c & r & -> & Hc & _ & Hd & Hs) Ha Hv. destruct a as [ds|]; cbn [amount_chars amount_ok] in *.
  - destruct Ha as [Hds Hle].
    eapply runs_trans; [apply (width_digits ds pre (c :: r)); [done..|exact Hle]| |done].
    assert (args1 = args ∧ mn = from ds 0) as [-> ->] by (destruct ds; cbn in Hv; by simplify_eq). by apply width_over.
  - destruct args as [|w args]; cbn in Hv; simplify_eq. cbn [app] in *. eapply runs_weaken; [|apply Nat.le_succ_diag_r].
    read 42. change (isdigit 42) with false. cbn. unfold set_min. cbn. by rewrite (advance pre 42 (c :: r)).
Qed.

Lemma run_precision p pre rest fl mn args mx args1 o m :
  fmt = pre ++ precision_chars p ++ rest → ends_amount rest → head rest ≠ Some 46 →
  (∀ a, p = Some a → amount_ok a) → precision_value p args = Some (mx, args1) →
  runs (length (precision_chars p) + 1) (reading pre (precision_chars p ++ rest) 3 fl mn (-1) 0 args o m)
    (reading (pre ++ precision_chars p) rest 5 fl mn mx 0 args1 o m).
Proof.
  intros Hf (c & r & -> & Hc & _ & Hd & Hs) Hdot Ha Hv. destruct p as [a|]; cbn [precision_chars precision_value] in *.
  2:{ simplify_eq. rewrite app_nil_r. apply no_precision; [done|]. by intros ->. }
  specialize (Ha a eq_refl). cbn [app length] in *.
  eapply (runs_trans 1 (length (amount_chars a) + 1)); [by apply run_dot| |lia].
  rewrite (app_assoc pre [46] (amount_chars a) : pre ++ 46 :: amount_chars a = _).
  assert (Hf' : fmt = (pre ++ [46]) ++ amount_chars a ++ c :: r) by (by rewrite <- app_assoc).
  destruct a as [[|d ds]|]; cbn [amount_chars amount_ok amount_value] in *.
  - simplify_eq. rewrite app_nil_r. by apply precision_over.
  - destruct Ha as [Hds Hle]. simplify_eq. pose proof Hds as [Hd1 Hds1]%Forall_cons. unfold Str.dec_value in Hle. cbn in Hle.
    unfold Str.is_digit in Hd1. pose proof (from_le ds (d - 48) Hds1 ltac:(lia)).
    rewrite (app_assoc (pre ++ [46]) [d] ds : (pre ++ [46]) ++ d :: ds = _).
    eapply (runs_trans 1); [|eapply runs_trans; [apply (precision_digits ds ((pre ++ [46]) ++ [d]) (c :: r) fl mn (d - 48))| |reflexivity]|].
    + read d. rewrite isdigit_spec, bool_decide_true by (done || lia). cbn. unfold char_to_int. rewrite !int_chk_ok by lia. cbn.
      rewrite int_chk_ok by lia. cbn. unfold set_max. cbn. by rewrite (advance (pre ++ [46]) d (ds ++ c :: r)).
    + by rewrite <- app_assoc.
    + done.
    + lia.
    + exact Hle.
    + by apply precision_over.
    + cbn. lia.
  - destruct args as [|w args]; simplify_eq. cbn [app] in *. eapply runs_weaken; [|apply Nat.le_succ_diag_r].
    read 42. change (isdigit 42) with false. cbn. unfold set_max. cbn. by rewrite (advance (pre ++ [46]) 42 (c :: r)).
Qed.

Definition modifier_value (md : modifier) : Z :=
  match md with
  | NoSize => 0 | h_size => DP_C_SHORT | l_size => DP_C_LONG | ll_size => DP_C_LLONG | L_size => DP_C_LDOUBLE
  end.

Lemma run_modifier md pre c rest fl mn mx args o m :
  fmt = pre ++ modifier_chars md ++ c :: rest → 1 ≤ c < 128 → c ≠ 104 → c ≠ 108 → c ≠ 76 →
  runs 1 (reading pre (modifier_chars md ++ c :: rest) 5 fl mn mx 0 args o m)
    (reading (pre ++ modifier_chars md) (c :: rest) 6 fl mn mx (modifier_value md) args o m).
Proof.
  intros Hf Hc Hh Hl HL. destruct md; cbn [modifier_chars app modifier_value] in *.
  - rewrite app_nil_r. read c. unfold dp_mod. cbn. test_false (c =? 104). test_false (c =? 108). test_false (c =? 76). done.
  - read 104. unfold dp_mod, set_cflags. cbn. by rewrite (advance pre 104 (c :: rest)).
  - read 108. unfold dp_mod, set_cflags. cbn. rewrite (advance pre 108 (c :: rest)) by done. cbn.
    rewrite (s8_ascii c) by lia. test_false (c =? 108). cbn. unfold set_state, reading. cbn. by rewrite (s8_ascii c) by lia.
  - read 108. unfold dp_mod, set_cflags. cbn. rewrite (advance pre 108 (108 :: c :: rest)) by done. cbn.
    change (s8 108) with 108. cbn. rewrite (advance (pre ++ [108]) 108 (c :: rest)) by (by rewrite <- app_assoc).
    cbn. unfold set_state, reading. cbn. by rewrite <- app_assoc.
  - read 76. unfold dp_mod, set_cflags. cbn. by rewrite (advance pre 76 (c :: rest)).
Qed.

(** ** The conversions *)

Abbreviation at_conv := (λ p c fl mn mx cf args o m, Dp p c 6 fl mn mx cf args o m).

(** The conversion leaves the place in the format; it prints [t]. *)
Definition converted (d : dp_t) (args : list Z) (t : list Z) (m : mem) (r : res dp_t) : Prop :=
  ∃ fl mx, r = Ok (Dp (dp_pos d) (dp_ch d) (dp_state d) fl (dp_min d) mx (dp_cflags d) args
                      (emit maxlen (dp_out d) t) m).

Lemma conv_int_text d base w args :
  8 ≤ base ≤ 16 → out_ok maxlen (dp_out d) → dp_min d < 2147483648 → dp_max d < 2147483648 → dp_args d = w :: args →
  (flag (dp_flags d) DP_F_UNSIGNED = false → s32 w ≠ -2147483648) → Z.max 11 (dp_max d) - 2147483647 ≤ dp_min d →
  conv_int maxlen junk d base
  = Ok (Dp (dp_pos d) (dp_ch d) (dp_state d) (dp_flags d) (dp_min d) (dp_max d) (dp_cflags d) args
           (emit maxlen (dp_out d) (int_text (s32 w) base (dp_min d) (dp_max d) (dp_flags d))) (dp_mem d)).
Proof.
  intros Hb Ho Hmn Hmx Ha Hw Hfit. unfold conv_int, va_arg. rewrite Ha. cbn.
  destruct (fmtint_ok junk maxlen (dp_out d) (s32 w) base (dp_min d) (dp_max d) (dp_flags d))
    as [-> | [_ [?|[? ?]]]]; try done; [apply s32_range|lia|by destruct Hw].
Qed.

Lemma flag_unsigned fl : flag (Z.lor fl DP_F_UNSIGNED) DP_F_UNSIGNED = true.
Proof.
  unfold flag. apply negb_true_iff, Z.eqb_neq. intros H. apply (f_equal (λ z, Z.testbit z 6)) in H.
  by rewrite Z.land_spec, Z.lor_spec, orb_true_r in H.
Qed.

Lemma convert_int c base bits p fl mn mx cf w args o m :
  out_ok maxlen o → mn < 2147483648 → mx < 2147483648 →
  int_conversion c = Some (base, bits) → (bits = 0 → s32 w ≠ -2147483648) → Z.max 11 mx - 2147483647 ≤ mn →
  let d := at_conv p (conversion_char c) fl mn mx cf (w :: args) o m in
  converted d args (int_text (s32 w) base mn mx (Z.lor fl bits)) m (dp_convert (Str.lit fmt) maxlen junk (fmtfp (D:=Q) fjunk maxlen) d).
Proof.
  intros Ho Hmn Hmx Hc Hw Hfit d. exists (Z.lor fl bits), mx.
  assert (dp_convert (Str.lit fmt) maxlen junk (fmtfp (D:=Q) fjunk maxlen) d
          = conv_int maxlen junk (at_conv p (conversion_char c) (Z.lor fl bits) mn mx cf (w :: args) o m) base) as ->.
  { destruct c; try done; injection Hc as <- <-; rewrite ?Z.lor_0_r, ?Z.lor_assoc; done. }
  rewrite (conv_int_text _ base w args); try done.
  - destruct c; try done; injection Hc as <- <-; lia.
  - cbn. destruct c; try done; injection Hc as <- <-; rewrite ?Z.lor_assoc, ?flag_unsigned; intros; by try apply Hw.
Qed.

(** %s, for NULL too. *)
Lemma convert_string p fl mn mx cf a str args o m :
  out_ok maxlen o → mn < 2147483648 → mx < 2147483648 →
  Str.cstr (str_at m a) 0 str → (length str < str_fuel m + 7)%nat → -2147483648 ≤ mn - Z.of_nat (length str) →
  (mx = -1 → str_length (str_fuel m) (λ i, load8 m (a + i)) = Ok (Z.of_nat (length str))) →
  let d := at_conv p 115 fl mn mx cf (a :: args) o m in
  converted d args (str_text str mn mx fl) m (conv_str maxlen d).
Proof.
  intros Ho Hmn Hmx Hs Hl Hmin Hlen d. unfold conv_str, d. cbn.
  assert ((if mx =? -1 then str_length (str_fuel m) (λ i, load8 m (a + i)) else Ok mx)
          = Ok (if mx =? -1 then Z.of_nat (length str) else mx)) as ->.
  { destruct (Z.eqb_spec mx (-1)) as [E|]; [by apply Hlen|done]. }
  cbn. rewrite (fmtstr_pads maxlen m a str) by done. cbn. unfold set_max, set_out. cbn. by eexists _, _.
Qed.

Lemma conversion_text_ok n p c fl mn mx md args o m t args' m' :
  converts n fl mn mx md c args m t args' m' → currlen o = n → out_ok maxlen o → mn < 2147483648 → mx < 2147483648 →
  let d := at_conv p (conversion_char c) fl mn mx (modifier_value md) args o m in
  converted d args' t m' (dp_convert (Str.lit fmt) maxlen junk (fmtfp (D:=Q) fjunk maxlen) d).
Proof.
  intros Hc Hn Ho Hmn Hmx. destruct Hc; intros d; unfold d, dp_convert; cbn [dp_ch].
  - by eapply convert_int.
  - cbn. rewrite fmtfp_exact by (done || lia). by eexists _, _.
  - destruct H as [-> |[-> |[-> | ->]]]; by eexists _, _.
  - cbn. unfold printch. cbn. rewrite outch_ok by done. by eexists _, _.
  - destruct (string_at m a str H H0) as [Hs Hl]. apply convert_string; try done; [lia|].
    intros _. pose proof (str_length_cstr m a str 0 H) as Hk. by rewrite Nat.add_0_r in Hk.
  - apply convert_string; try done; [apply null_at|cbn; lia|cbn; lia].
  - cbn. unfold conv_n. cbn. destruct md; cbn in H |- *; rewrite ?Hn;
      [| destruct H as (m1 & -> & Hm); cbn; rewrite Hm | | |]; rewrite ?H; by eexists _, _.
  - cbn. unfold printch. cbn. rewrite outch_ok by done. by eexists _, _.
Qed.

Lemma run_conversion n pre c rest fl mn mx md args o m t args' m' :
  fmt = pre ++ conversion_char c :: rest → converts n fl mn mx md c args m t args' m' → currlen o = n →
  out_ok maxlen o → mn < 2147483648 → mx < 2147483648 →
  runs 1 (reading pre (conversion_char c :: rest) 6 fl mn mx (modifier_value md) args o m)
    (reading (pre ++ [conversion_char c]) rest 0 0 0 (-1) 0 args' (emit maxlen o t) m').
Proof.
  intros Hf Hc Hn Ho Hmn Hmx.
  destruct (conversion_text_ok n (Z.of_nat (length pre) + 1) c fl mn mx md args o m t args' m' Hc Hn Ho Hmn Hmx) as (fl' & mx' & Hd).
  assert (Hch : 1 ≤ conversion_char c < 128) by (destruct c; cbn; lia).
  apply runs_one. unfold dopr_body, reading. cbn -[dp_conv s8]. rewrite (s8_ascii (conversion_char c)) by lia.
  test_false (conversion_char c =? 0). cbn -[dp_conv s8]. unfold dp_conv. rewrite Hd. cbn -[s8].
  by rewrite (advance pre (conversion_char c) rest).
Qed.

(** ** Directives and formats *)

Lemma ends_conversion c rest : ends_amount (conversion_char c :: rest) ∧ conversion_char c ≠ 46.
Proof.
  split; [|by destruct c]. exists (conversion_char c), rest. unfold is_flag, Str.is_digit.
  split; [done|]. destruct c; cbn; lia.
Qed.

Lemma ends_modifier md rest : ends_amount rest → head rest ≠ Some 46 →
  ends_amount (modifier_chars md ++ rest) ∧ head (modifier_chars md ++ rest) ≠ Some 46.
Proof.
  intros He Hh. destruct md; [done|..]; (split; [|done]); eexists _, _;
    (split; [reflexivity|]); unfold is_flag, Str.is_digit; lia.
Qed.

Lemma ends_precision p rest : ends_amount rest → ends_amount (precision_chars p ++ rest).
Proof.
  intros He. destruct p; [|done]. eexists _, _. split; [reflexivity|]. unfold is_flag, Str.is_digit. lia.
Qed.

(** The character after the flags. *)
Lemma after_flags a rest : amount_ok a → head (amount_chars a) ≠ Some 48 → ends_amount rest →
  ∃ c r, amount_chars a ++ rest = c :: r ∧ 1 ≤ c < 128 ∧ ¬ is_flag c.
Proof.
  intros Ha Hh (c & r & -> & Hc & Hf & _). destruct a as [[|d ds]|]; cbn in *.
  - by eexists _, _.
  - destruct Ha as [[Hd _]%Forall_cons _]. eexists _, _. split; [done|]. unfold Str.is_digit, is_flag in *.
    assert (d ≠ 48) by congruence. lia.
  - eexists _, _. split; [done|]. unfold is_flag. lia.
Qed.

Lemma run_directive n d pre rest args mn args1 mx args2 m t args3 m1 o :
  fmt = pre ++ render (Convert d) ++ rest → item_ok (Convert d) →
  amount_value 0 (d_width d) args = Some (mn, args1) → precision_value (d_precision d) args1 = Some (mx, args2) →
  converts n (flags_value (d_flags d)) mn mx (d_modifier d) (d_conversion d) args2 m t args3 m1 →
  currlen o = n → out_ok maxlen o →
  runs (8 * length (render (Convert d))) (reading pre (render (Convert d) ++ rest) 0 0 0 (-1) 0 args o m)
    (reading (pre ++ render (Convert d)) rest 0 0 0 (-1) 0 args3 (emit maxlen o t) m1).
Proof.
  intros Hf (Hfl & Hw & Hw0 & Hp) Hmn Hmx Hc Hn Ho. cbn [render] in *.
  set (F := d_flags d) in *. set (W := amount_chars (d_width d)) in *. set (P := precision_chars (d_precision d)) in *.
  set (M := modifier_chars (d_modifier d)) in *. set (c := conversion_char (d_conversion d)) in *.
  assert (Hbmn : mn < 2147483648) by (eapply (amount_bound 0); [exact Hw|lia|exact Hmn]).
  assert (Hbmx : mx < 2147483648).
  { destruct (d_precision d) as [a|]; cbn in Hmx; [|by simplify_eq]. eapply (amount_bound (-1)); [by apply Hp|lia|exact Hmx]. }
  destruct (ends_conversion (d_conversion d) rest) as [E1 E1'].
  destruct (ends_modifier (d_modifier d) _ E1) as [E2 E2']; [cbn; congruence|].
  pose proof (ends_precision (d_precision d) _ E2) as E3. fold c M P in E1, E2, E2', E3.
  destruct (after_flags _ _ Hw Hw0 E3) as (x & r & Hx & Hxr & Hxf). fold W in Hx.
  assert (Htail : (37 :: F ++ W ++ P ++ M ++ [c]) ++ rest = 37 :: F ++ W ++ P ++ M ++ c :: rest).
  { cbn [app]. by rewrite <- !app_assoc. }
  rewrite Htail in Hf |- *. eapply runs_weaken.
  - eapply (runs_trans 1); [by apply run_percent| |reflexivity].
    eapply runs_trans; [apply (run_flags F); [by rewrite <- app_assoc|done]| |reflexivity].
    rewrite Hx. eapply (runs_trans 1); [by apply flags_over| |reflexivity]. rewrite <- Hx.
    eapply runs_trans; [apply run_width; [by rewrite <- !app_assoc|done..]| |reflexivity].
    eapply runs_trans; [apply run_precision; [by rewrite <- !app_assoc|done..]| |reflexivity].
    eapply (runs_trans 1); [apply run_modifier; [by rewrite <- !app_assoc|destruct (d_conversion d); done..]| |reflexivity].
    replace (pre ++ 37 :: F ++ W ++ P ++ M ++ [c]) with ((((((pre ++ [37]) ++ F) ++ W) ++ P) ++ M) ++ [c])
      by (by rewrite <- !app_assoc).
    eapply run_conversion; [by rewrite <- !app_assoc|done..].
  - cbn [length]. rewrite !length_app. cbn [length]. unfold W, P. lia.
Qed.

Lemma emit_count o l :
  0 ≤ currlen o → currlen o + Z.of_nat (length l) < 4294967296 →
  currlen (emit maxlen o l) = currlen o + Z.of_nat (length l).
Proof.
  unfold emit. revert o. induction l as [|c l IH]; intros o H0 Hl; cbn [fold_left length] in *; [lia|].
  assert (currlen (emit1 maxlen o c) = currlen o + 1) as E by (cbn; by rewrite u32_small by lia).
  rewrite IH, E; lia.
Qed.

Lemma run_items n items args m text m' : writes n items args m text m' →
  ∀ pre o, fmt = pre ++ format_of items → Forall item_ok items → currlen o = n → out_ok maxlen o →
    n + Z.of_nat (length text) < 4294967296 →
  ∃ args', runs (8 * length (format_of items)) (reading pre (format_of items) 0 0 0 (-1) 0 args o m)
             (reading fmt [] 0 0 0 (-1) 0 args' (emit maxlen o text) m').
Proof.
  induction 1 as [n args m|n c items args m text m' _ IH|n d items args mn args1 mx args2 m t args3 m1 text m' Hmn Hmx Hc _ IH];
    intros pre o Hf Hok Hn Ho Hlen; unfold format_of in *; cbn [map concat] in *.
  - rewrite app_nil_r in Hf. subst pre. exists args. apply runs_refl.
  - apply Forall_cons in Hok as [[Hc Hp] Hok]. cbn [render length app] in *.
    destruct (IH (pre ++ [c]) (emit maxlen o [s8 c])) as [args' Hr].
    + by rewrite <- app_assoc.
    + done.
    + cbn. rewrite u32_small; destruct Ho; lia.
    + out_oks.
    + lia.
    + exists args'. eapply (runs_trans 1); [by apply run_plain|rewrite <- emit_app in Hr; exact Hr|lia].
  - apply Forall_cons in Hok as [Hd Hok]. rewrite length_app in Hlen.
    destruct (IH (pre ++ render (Convert d)) (emit maxlen o t)) as [args' Hr].
    + by rewrite <- app_assoc.
    + done.
    + rewrite emit_count; destruct Ho; lia.
    + out_oks.
    + lia.
    + exists args'. rewrite length_app. rewrite emit_app.
      eapply runs_trans; [by eapply run_directive|exact Hr|lia].
Qed.

Lemma dopr_writes fuel buf items args m text m' :
  fmt = format_of items → Forall item_ok items → writes 0 items args m text m' →
  maxlen ≤ Z.of_nat (length buf) → Z.of_nat (length text) < 4294967296 → (8 * length fmt + 2 < fuel)%nat →
  dopr (Str.lit fmt) maxlen junk (fmtfp (D:=Q) fjunk maxlen) fuel buf args m
  = (o ← terminate maxlen (emit maxlen (Out buf 0) text); Ok (o, m')).
Proof.
  intros Hf Hok Hw Hb Hl Hfuel. unfold dopr.
  assert (next_char (Str.lit fmt) (Dp 0 0 DP_S_DEFAULT 0 0 (-1) 0 args (Out buf 0) m)
          = Ok (reading [] fmt 0 0 0 (-1) 0 args (Out buf 0) m)) as ->.
  { unfold next_char. cbn [dp_pos]. by rewrite (lit_at [] fmt : Str.lit fmt 0 = _). }
  cbn [mbind res_bind].
  assert (Ho : out_ok maxlen (Out buf 0)) by (split; cbn; lia).
  destruct (run_items 0 items args m text m' Hw [] (Out buf 0) Hf Hok eq_refl Ho Hl) as (args' & n & Hn & Hr).
  rewrite <- Hf in *. replace fuel with (n + (2 + (fuel - n - 2)))%nat by lia. by rewrite Hr.
Qed.

End states.

(** ** Properties *)

(** C15: for every format of characters and directives, [vsnprintf] prints the text
    that its items write: flags, widths and precisions in digits or from the
    arguments, sizes, and the conversions d i o u x X p c s f n and %; those of
    e E g G, which take their argument and print nothing.  It returns the length of
    the whole text, stores what fits into [count - 1] bytes and the terminator, and
    leaves the rest of the buffer and, but for %n, the memory as they are.  It does
    so whenever [writes] has a text: arguments for all directives, strings that are
    terminated, no overflow of [int]; %f over exact arithmetic. *)
Theorem vsnprintf_writes junk fjunk fuel str count items args m text m' :
  length junk = 20%nat → length fjunk = 311%nat → Forall item_ok items → writes 0 items args m text m' →
  1 ≤ count ≤ Z.of_nat (length str) → count < 4294967296 → Z.of_nat (length text) < 2147483648 →
  (8 * length (format_of items) + 2 < fuel)%nat →
  vsnprintf junk (fmtfp (D:=Q) fjunk) fuel str count (Str.lit (format_of items)) args m
  = Ok (Z.of_nat (length text), printed count str text, m').
Proof.
  intros Hj Hfj Hok Hw Hc Hc' Hl Hf. unfold vsnprintf.
  rewrite (dopr_writes count junk fjunk _ Hj Hfj ltac:(lia) fuel str items args m text m') by (done || lia).
  rewrite terminate_emit by lia. cbn. by rewrite s32_small by lia.
Qed.

(** x%+*d%-4s%.1f%n with 4, 7, "hi", -2.5 and an address, into ten bytes. *)
Lemma vsnprintf_writes_witness :
  let m n := list_to_map [(100, 104); (101, 105); (102, 0); (200, n); (201, 0); (202, 0); (203, 0)] : mem in
  vsnprintf (replicate 20 0) (fmtfp (D:=Q) (replicate 311 0)) 200 (replicate 12 7) 10
    (Str.lit [120; 37; 43; 42; 100; 37; 45; 52; 115; 37; 46; 49; 102; 37; 110])
    [4; 7; 100; 0; 3221487616; 200] (m 0)
  = Ok (13, [120; 32; 32; 43; 55; 104; 105; 32; 32; 0; 7; 7], m 13).
Proof.
  intros m.
  apply (vsnprintf_writes (replicate 20 0) (replicate 311 0) 200 (replicate 12 7) 10
    [Plain 120;
     Convert (Directive [43] Star None NoSize c_d);
     Convert (Directive [45] (Digits [52]) None NoSize c_s);
     Convert (Directive [] (Digits []) (Some (Digits [49])) NoSize c_f);
     Convert (Directive [] (Digits []) None NoSize c_n)]
    [4; 7; 100; 0; 3221487616; 200] (m 0) (120 :: [32; 32; 43; 55] ++ [104; 105; 32; 32] ++ [45; 50; 46; 53] ++ [] ++ []) (m 13)).
  - done.
  - done.
  - repeat (constructor; [cbn; unfold is_flag, Str.is_digit, Str.dec_value; repeat split;
      try (intros ? [= <-]); cbn; repeat constructor; cbn; try lia; try congruence|]); constructor.
  - constructor. eapply writes_convert; [done|done| |].
    { change [32; 32; 43; 55] with (int_text 7 10 4 (-1) (Z.lor 2 0)). by apply (converts_int 1 2 4 (-1) NoSize c_d 10 0 7). }
    eapply writes_convert; [done|done| |].
    { change [104; 105; 32; 32] with (str_text [104; 105] 4 (-1) 1). apply converts_string; [|done|done|done].
      split; [|done]. intros [|[|k]] x; cbn; intros [= <-]; done. }
    eapply writes_convert; [done|done| |].
    { replace [45; 50; 46; 53] with (fp_text (bits_value 0 3221487616) 0 1 0) by (by vm_compute).
      apply converts_float; [by vm_compute|done|done]. }
    eapply writes_convert; [done|done| |constructor].
    apply converts_count. by vm_compute.
  - done.
  - done.
  - done.
  - cbn. lia.
Defined.
