(* ===== verification/PageSource.v ===== *)
(** The interface between the users of page frames (the heap, the page tables)
    and the frame allocator.

    A page source allocates one frame at a time; as long as its invariant holds
    it either fails without changing its state or hands out a frame that was not
    in use.  [MemoryRegion.region_source] is the implementation. *)
From S2P Require Import Prelude.

Class PageSource (A : Type) := {
  ps_alloc : A → res (Z * option Z * A);
  ps_inv : A → Prop;
  ps_used : A → Z → Prop;
  ps_alloc_spec : ∀ a, ps_inv a →
    ∃ code pout a', ps_alloc a = Ok (code, pout, a') ∧ ps_inv a' ∧
      match pout with
      | None => code ≠ 0 ∧ a' = a
      | Some p => code = 0 ∧ ¬ ps_used a p ∧ ∀ q, ps_used a' q ↔ ps_used a q ∨ q = p
      end;
}.

(** The source can supply [n] frames. *)
Fixpoint supply {A} `{PageSource A} (n : nat) (a : A) : Prop :=
  match n with
  | O => True
  | S n => ∃ p a', ps_alloc a = Ok (0, Some p, a') ∧ supply n a'
  end.

Lemma supply_S {A} `{PageSource A} n (a : A) : supply (S n) a → supply n a.
Proof. revert a. induction n as [|n IH]; intros a (p & a' & Ha & Hs); [done|]. exists p, a'. split; [done|by apply IH]. Qed.

Lemma supply_le {A} `{PageSource A} n k (a : A) : (k ≤ n)%nat → supply n a → supply k a.
Proof. induction 1 as [|n Hn IH]; [done|]. intros Hs. by apply IH, supply_S. Qed.

(** A source of [n] consecutive frames, for examples. *)
Definition counter_alloc (a : Z * nat) : res (Z * option Z * (Z * nat)) :=
  match a.2 with
  | O => Ok (-1, None, a)
  | S n => Ok (0, Some a.1, (a.1 + 1, n))
  end.

#[export, refine] Instance counter_source : PageSource (Z * nat) := {|
  ps_alloc := counter_alloc;
  ps_inv := λ _, True;
  ps_used := λ a p, p < a.1;
|}.
Proof.
  intros [k [|n]] _; do 3 eexists; (split; [reflexivity|]); cbn.
  - done.
  - split; [done|]. split; [done|]. split; [lia|]. intros q. lia.
Defined.

(** A pool of at most 300 frames, 4 to 303, for examples that need memory behind
    the frames; every other frame is in use. *)
Definition pool_alloc (n : nat) : res (Z * option Z * nat) :=
  match n with
  | O => Ok (-1, None, n)
  | S n => Ok (0, Some (4 + Z.of_nat n), n)
  end.

#[export, refine] Instance pool_source : PageSource nat := {|
  ps_alloc := pool_alloc;
  ps_inv := λ n, (n ≤ 300)%nat;
  ps_used := λ n p, p < 4 ∨ 4 + Z.of_nat n ≤ p;
|}.
Proof.
  intros [|n] Hn; do 3 eexists; (split; [reflexivity|]); cbn -[Z.of_nat].
  - done.
  - split; [lia|]. split; [done|]. split; [lia|]. intros q. lia.
Defined.

Definition pool_ram (p : Z) : Prop := 4 ≤ p < 304.

Lemma pool_ram_ok (a : nat) code p a' : ps_inv a → ps_alloc a = Ok (code, Some p, a') → pool_ram p.
Proof. unfold pool_ram. destruct a as [|n]; [done|]. cbn -[Z.of_nat]. intros Hn [= _ <- _]. lia. Qed.

Lemma pool_supply k (n : nat) : (k ≤ n)%nat → supply k n.
Proof.
  revert n. induction k as [|k IH]; intros [|n] Hn; try done; [lia|]. exists (4 + Z.of_nat n), n.
  split; [done|]. apply IH. lia.
Qed.
