(* ===== verification/Ports.v ===== *)
(** Port input and output.

    Source: libc/arch/i386/include/sys/io.h.

    What the instructions do is the hardware's business: the class [Ports] has
    one operation per instruction, on a state [P] of the devices.  The "paused"
    variants, which also write the accumulator to port 0x80, and the string
    instructions are defined from them.  [port_log] is an instance that records
    the writes and answers reads from a script. *)
From S2P Require Import Prelude.

Class Ports (P : Type) := {
  outb : Z → Z → P → P;
  outw : Z → Z → P → P;
  outl : Z → Z → P → P;
  inb : Z → P → Z * P;
  inw : Z → P → Z * P;
  inl : Z → P → Z * P;
}.

Section ports.
Context {P : Type} `{Ports P}.

Definition outb_p (port val : Z) (s : P) : P := outb 128 (u8 val) (outb port val s).
Definition outw_p (port val : Z) (s : P) : P := outb 128 (u8 val) (outw port val s).
Definition outl_p (port val : Z) (s : P) : P := outb 128 (u8 val) (outl port val s).

Definition inb_p (port : Z) (s : P) : Z * P :=
  let '(ret, s) := inb port s in (ret, outb 128 (u8 ret) s).
Definition inw_p (port : Z) (s : P) : Z * P :=
  let '(ret, s) := inw port s in (ret, outb 128 (u8 ret) s).
Definition inl_p (port : Z) (s : P) : Z * P :=
  let '(ret, s) := inl port s in (ret, outb 128 (u8 ret) s).

(** [rep ins]: the values read, in order. *)
Fixpoint rep_in (f : P → Z * P) (len : nat) (s : P) : list Z * P :=
  match len with
  | O => ([], s)
  | S len => let '(v, s) := f s in let '(vs, s) := rep_in f len s in (v :: vs, s)
  end.

Definition insb (port len : Z) (s : P) : list Z * P := rep_in (inb port) (Z.to_nat len) s.
Definition insw (port len : Z) (s : P) : list Z * P := rep_in (inw port) (Z.to_nat len) s.
Definition insl (port len : Z) (s : P) : list Z * P := rep_in (inl port) (Z.to_nat len) s.

(** [rep outs] of the first values of a buffer. *)
Definition outsb (port : Z) (vs : list Z) (s : P) : P := fold_left (λ s v, outb port v s) vs s.
Definition outsw (port : Z) (vs : list Z) (s : P) : P := fold_left (λ s v, outw port v s) vs s.
Definition outsl (port : Z) (vs : list Z) (s : P) : P := fold_left (λ s v, outl port v s) vs s.

Definition io_wait (s : P) : P := outb 128 0 s.

Lemma length_rep_in f n (s : P) : length (rep_in f n s).1 = n.
Proof.
  revert s. induction n as [|n IH]; intros s; [done|]. cbn [rep_in].
  destruct (f s) as [v s']. specialize (IH s'). destruct (rep_in f n s') as [vs s''].
  cbn in *. by rewrite IH.
Qed.

End ports.

(** A log of the writes, and the answers of the devices still to come. *)
Record port_script : Type := Script { writes : list (Z * Z); answers : list Z }.

Definition script_out (port val : Z) (s : port_script) : port_script :=
  Script (writes s ++ [(port, val)]) (answers s).
Definition script_in (port : Z) (s : port_script) : Z * port_script :=
  (default 0 (head (answers s)), Script (writes s) (tail (answers s))).

#[export] Instance port_log : Ports port_script := {|
  outb := script_out; outw := script_out; outl := script_out;
  inb := script_in; inw := script_in; inl := script_in;
|}.
