(* ===== verification/Spinlock.v ===== *)
(** Spin locks and interrupts.

    Source: libc/arch/i386/include/sys/spinlock.h,
    kernel/arch/i386/include/kernel/irq/irq.h and the two inline functions of
    kernel/include/kernel/scheduler/scheduler.h.

    There is one processor: what interleaves is a task and the interrupt handlers
    that break in on it while the interrupt flag is set.  The functions are
    programs ([prog]) of atomic actions on the processor, put together the way the
    code does; [step] runs the program of the running context one action at a time,
    on a stack of interrupted contexts, which all take the same lock.  The theorem
    is what the other files rely on when they treat an operation under such a lock
    as one step. *)
From S2P Require Import Prelude.

Definition SPINLOCK_UNLOCKED : Z := 0.

(** The interrupt flag of EFLAGS and the lock. *)
Record cpu : Type := Cpu { intr : bool; lock : Z }.

(** ** Programs

    [Act f k] does [f] at once; its result decides how to go on, and without one the
    action is done again: a loop.  [Inside] is what the caller does between
    acquiring and releasing the lock. *)
Inductive prog (A : Type) : Type :=
  | Done (a : A)
  | Act (f : cpu → cpu * option bool) (k : bool → prog A)
  | Inside (k : prog A).
Arguments Done {A} a.
Arguments Act {A} f k.
Arguments Inside {A} k.

Fixpoint prog_bind {A B} (k : A → prog B) (p : prog A) : prog B :=
  match p with
  | Done a => k a
  | Act f k' => Act f (λ b, prog_bind k (k' b))
  | Inside p => Inside (prog_bind k p)
  end.

#[export] Instance prog_mret : MRet prog := λ A, Done.
#[export] Instance prog_mbind : MBind prog := λ A B, prog_bind.

Definition atomic (f : cpu → cpu) : prog unit := Act (λ c, (f c, Some true)) (λ _, Done tt).

(** ** irq.h *)

Definition irq_enable : prog unit := atomic (λ c, Cpu true (lock c)).
Definition irq_disable : prog unit := atomic (λ c, Cpu false (lock c)).
Definition irq_save_local : prog bool := Act (λ c, (c, Some (intr c))) Done.
Definition irq_load_local (flags : bool) : prog unit := atomic (λ c, Cpu flags (lock c)).

(** ** spinlock.h *)

(** One [__sync_bool_compare_and_swap(p, 0, 1)]; the loop repeats it when it fails. *)
Definition compare_and_swap (c : cpu) : cpu * option bool :=
  if lock c =? 0 then (Cpu (intr c) 1, Some true) else (c, None).

Definition spinlock_acquire : prog unit := Act compare_and_swap (λ _, Done tt).

Definition spinlock_release : prog unit := atomic (λ c, Cpu (intr c) 0).

(** ** scheduler.h *)

(** The result is what the code stores through [flags]. *)
Definition spinlock_acquire_irqsave : prog bool :=
  flags ← irq_save_local;
  _ ← irq_disable;
  _ ← spinlock_acquire;
  mret flags.

Definition spinlock_release_irqload (flags : bool) : prog unit :=
  _ ← spinlock_release;
  irq_load_local flags.

(** ** Interleaving *)

(** An operation under the lock. *)
Definition operation : prog unit :=
  flags ← spinlock_acquire_irqsave;
  _ ← Inside (Done tt);
  spinlock_release_irqload flags.

(** One action of the running context. *)
Definition turn (c : cpu) (p : prog unit) : option (cpu * prog unit) :=
  match p with
  | Done _ => None
  | Act f k => let '(c', r) := f c in Some (c', match r with Some b => k b | None => p end)
  | Inside k => Some (c, k)
  end.

(** A context alone, for [n] actions: the processor and the result at its end. *)
Fixpoint alone {A} (n : nat) (c : cpu) (p : prog A) : option (cpu * A) :=
  match p, n with
  | Done a, _ => Some (c, a)
  | _, O => None
  | Act f k, S n => let '(c', r) := f c in alone n c' (match r with Some b => k b | None => p end)
  | Inside k, S n => alone n c k
  end.

(** The processor, the running context and those it interrupted. *)
Record machine : Type := Machine { cpu_of : cpu; running : prog unit; interrupted : list (prog unit) }.

Inductive step : machine → machine → Prop :=
  | step_turn c p c' p' st : turn c p = Some (c', p') → step (Machine c p st) (Machine c' p' st)
  (* the task goes on to its next operation, a handler returns with iret *)
  | step_again c : step (Machine c (Done tt) []) (Machine c operation [])
  | step_iret c p st : step (Machine c (Done tt) (p :: st)) (Machine (Cpu true (lock c)) p st)
  (* an interrupt gate clears the flag *)
  | step_interrupt c p st : intr c = true → step (Machine c p st) (Machine (Cpu false (lock c)) operation (p :: st)).

Definition boot : machine := Machine (Cpu true SPINLOCK_UNLOCKED) operation [].

(** Where a context is in its operation. *)
Inductive stage : Type :=
  | Start
  | Saved (flags : bool)
  | Spinning (flags : bool)
  | Critical (flags : bool)
  | Leaving (flags : bool)
  | Released (flags : bool)
  | Finished.

(** What is left of the operation there. *)
Definition rest (g : stage) : prog unit :=
  match g with
  | Start => operation
  | Saved flags => _ ← irq_disable; _ ← spinlock_acquire; _ ← Inside (Done tt); spinlock_release_irqload flags
  | Spinning flags => _ ← spinlock_acquire; _ ← Inside (Done tt); spinlock_release_irqload flags
  | Critical flags => Inside (spinlock_release_irqload flags)
  | Leaving flags => spinlock_release_irqload flags
  | Released flags => irq_load_local flags
  | Finished => Done tt
  end.

Definition holding (g : stage) : bool := match g with Critical _ | Leaving _ => true | _ => false end.
Definition outside (g : stage) : bool := match g with Start | Saved true | Finished => true | _ => false end.

(** The contexts are outside of the lock but for the running one; the flag is off
    from [irq_disable] to [irq_load_local] and in handlers. *)
Record lock_inv (s : machine) (g : stage) (gs : list stage) : Prop := {
  li_running : running s = rest g;
  li_interrupted : interrupted s = map rest gs;
  li_outside : Forall (λ g, outside g = true) gs;
  li_lock : lock (cpu_of s) = if holding g then 1 else 0;
  li_flag : intr (cpu_of s) = match g with
                              | Start | Saved _ | Finished => bool_decide (gs = [])
                              | _ => false
                              end;
  li_flags : match g with
             | Saved f | Spinning f | Critical f | Leaving f | Released f => f = bool_decide (gs = [])
             | _ => True
             end;
  li_depth : (length gs ≤ 1)%nat;
}.

Lemma boot_lock_inv : lock_inv boot Start [].
Proof. by split; cbn; try lia. Qed.

(** One action: the next stage. *)
Lemma turn_lock_inv s g gs c' p' :
  lock_inv s g gs → turn (cpu_of s) (running s) = Some (c', p') → ∃ g', lock_inv (Machine c' p' (interrupted s)) g' gs.
Proof.
  intros [Hr Hi Ho Hl Hf Hg Hd] Ht. rewrite Hr in Ht. destruct s as [[i l] p st]. cbn in *.
  destruct g as [|f|f|f|f|f|]; cbn in Ht; try done.
  - injection Ht as <- <-. exists (Saved i). by split.
  - injection Ht as <- <-. exists (Spinning f). by split.
  - unfold compare_and_swap in Ht. rewrite Hl in Ht. injection Ht as <- <-. exists (Critical f). by split.
  - injection Ht as <- <-. exists (Leaving f). by split.
  - injection Ht as <- <-. exists (Released f). by split.
  - injection Ht as <- <-. exists Finished. by split.
Qed.

Lemma step_lock_inv s s' g gs : lock_inv s g gs → step s s' → ∃ g' gs', lock_inv s' g' gs'.
Proof.
  intros Hi Hs. destruct Hs as [c p c' p' st Ht|c|c p st|c p st Hon].
  - destruct (turn_lock_inv _ _ _ _ _ Hi Ht) as [g' Hg']. by exists g', gs.
  - destruct Hi as [Hr Hst Ho Hl Hf Hg Hd]. cbn in *. destruct gs; [|done]. exists Start, [].
    destruct g; done.
  - destruct Hi as [Hr Hst Ho Hl Hf Hg Hd]. cbn in *. destruct gs as [|h [|]]; [done| |cbn in Hd; lia].
    injection Hst as -> ->. apply Forall_cons in Ho as [Hh _]. exists h, [].
    destruct g; try done. destruct h as [|[]|[]|[]|[]|[]|]; try done; split; cbn; try done; lia.
  - destruct Hi as [Hr Hst Ho Hl Hf Hg Hd]. cbn in *. rewrite Hon in Hf.
    destruct g as [|f|f|f|f|f|]; try congruence; symmetry in Hf; apply bool_decide_eq_true in Hf as ->;
      [exists Start, [Start]|exists Start, [Saved f]|exists Start, [Finished]];
      (split; cbn; [done|by rewrite Hr, Hst|constructor; [|done]; cbn in Hg; try done; by subst f|done|done|done|lia]).
Qed.

Lemma reachable_lock_inv s : rtc step boot s → ∃ g gs, lock_inv s g gs.
Proof.
  intros Hr. assert (Hgen : ∀ a b, rtc step a b → (∃ g gs, lock_inv a g gs) → ∃ g gs, lock_inv b g gs).
  { clear. intros a b Hr. induction Hr as [|a b c Hab _ IH]; [done|]. intros (g & gs & Ha). by apply IH, (step_lock_inv a b g gs). }
  apply (Hgen boot); [done|]. exists Start, []. exact boot_lock_inv.
Qed.

(** ** Property *)

Definition inside (p : prog unit) : bool := match p with Inside _ => true | _ => false end.

(** C31: A task and the handlers that interrupt it, each taking one lock with
    [spinlock_acquire_irqsave] and releasing it with [spinlock_release_irqload], at
    any point between two actions of these functions: a context inside of its
    critical section is the running one and cannot be interrupted, and no
    interrupted context is inside; no compare-and-swap ever fails, so that nobody
    spins or deadlocks; from the start of an operation on, the context alone gets
    the lock with interrupts off, and ends with the lock free and the interrupt
    flag as it was. *)
Theorem irqsave_excludes s :
  rtc step boot s →
  Forall (λ p, inside p = false) (interrupted s) ∧
  (inside (running s) = true → intr (cpu_of s) = false ∧ lock (cpu_of s) = 1 ∧
     ∀ s', step s s' → length (interrupted s') = length (interrupted s)) ∧
  (∀ f k, running s = Act f k → is_Some (f (cpu_of s)).2) ∧
  (running s = operation →
     alone 3 (cpu_of s) spinlock_acquire_irqsave = Some (Cpu false 1, intr (cpu_of s)) ∧
     alone 6 (cpu_of s) operation = Some (cpu_of s, tt)) ∧
  ∃ s', step s s'.
Proof.
  intros Hr. destruct (reachable_lock_inv s Hr) as (g & gs & [Hp Hi Ho Hl Hf _ _]).
  destruct s as [[i l] p st]. cbn in *. split; [|split; [|split; [|split]]].
  - rewrite Hi. apply Forall_fmap. eapply Forall_impl; [exact Ho|]. by intros [|[]| | | | |].
  - intros Hin. rewrite Hp in Hin. destruct g; try done. cbn in Hl, Hf. split; [done|]. split; [done|].
    intros s' Hs. inversion Hs; subst; cbn; done.
  - intros f k Ha. rewrite Hp in Ha.
    destruct g; try discriminate Ha; injection Ha as <- _; cbn; try by eexists. unfold compare_and_swap. rewrite Hl. by eexists.
  - intros Hop. rewrite Hop in Hp. assert (l = 0) as ->.
    { rewrite Hl. destruct g as [| | | |f| |]; try done. injection Hp as Hf' _.
      by apply (f_equal (λ h, lock (h (Cpu true 1)).1)) in Hf'. }
    by destruct i.
  - destruct p as [[]|f k|k].
    + destruct st; eexists; [apply step_again|apply step_iret].
    + destruct (f (Cpu i l)) as [c' r] eqn:E. eexists. apply step_turn. cbn. by rewrite E.
    + eexists. by apply step_turn.
Qed.

(** The task is interrupted between saving and clearing the flag; the handler is
    in its critical section. *)
Lemma irqsave_excludes_witness :
  let s := Machine (Cpu false 1) (rest (Critical false)) [rest (Saved true)] in
  rtc step boot s ∧ Forall (λ p, inside p = false) (interrupted s) ∧ intr (cpu_of s) = false ∧
  ∀ s', step s s' → length (interrupted s') = 1%nat.
Proof.
  intros s. assert (Hr : rtc step boot s).
  { eapply rtc_l; [by apply step_turn|]. eapply rtc_l; [by apply step_interrupt|].
    do 3 (eapply rtc_l; [by apply step_turn|]). apply rtc_refl. }
  split; [exact Hr|]. destruct (irqsave_excludes s Hr) as (H1 & H2 & _). split; [exact H1|].
  destruct (H2 eq_refl) as (H3 & _ & H4). split; [exact H3|exact H4].
Defined.
