(* ===== verification/Pci.v ===== *)
(** The PCI bus: configuration space, class names and enumeration.

    Source: kernel/kernel/pci/pci.c, kernel/include/kernel/pci/pci.h and
    kernel/arch/i386/include/kernel/pci/pci_config.h.

    Devices and functions are nodes in stores, linked by address.  The addresses
    that malloc returns are a sequence [alloc], counted in the state.  The
    recursion of pci_scan_bus through bridges is bounded by [fuel], the depth of
    the kernel stack. *)
From S2P Require Import Prelude Linked Ports.
Open Scope string_scope.
Open Scope Z_scope.

(** ** pci_config.h *)

Definition PCI_CONFIG_ADDRESS : Z := 0xCF8.
Definition PCI_CONFIG_DATA : Z := 0xCFC.

(** The expression all three accesses write to the address port. *)
Definition config_address (bus slot func offset : Z) : Z :=
  Z.lor (Z.lor (Z.lor (Z.lor (u32 (Z.shiftl bus 16)) (u32 (Z.shiftl slot 11))) (u32 (Z.shiftl func 8)))
               (Z.land offset 0xFC)) 0x80000000.

Section config.
Context {P : Type} `{Ports P}.

Definition pci_config_readw (bus slot func offset : Z) (s : P) : Z * P :=
  let address := config_address bus slot func offset in
  let s := outl_p PCI_CONFIG_ADDRESS address s in
  let '(v, s) := inl_p PCI_CONFIG_DATA s in
  (u16 (Z.land (Z.shiftr v (Z.land offset 2 * 8)) 0xFFFF), s).

Definition pci_config_readl (bus slot func offset : Z) (s : P) : Z * P :=
  let address := config_address bus slot func offset in
  let s := outl_p PCI_CONFIG_ADDRESS address s in
  inl_p PCI_CONFIG_DATA s.

Definition pci_config_writel (bus slot func offset data : Z) (s : P) : P :=
  let address := config_address bus slot func offset in
  let s := outl_p PCI_CONFIG_ADDRESS address s in
  outl_p PCI_CONFIG_DATA data s.

(** ** pci.h *)

Definition pci_get_class_code (bus slot function : Z) (s : P) : Z * P :=
  pci_config_readl bus slot function 0x08 s.

Definition pci_get_header_type (bus slot function : Z) (s : P) : Z * P :=
  let '(v, s) := pci_config_readw bus slot function 0x0E s in (Z.land v 0xFF, s).

Definition pci_get_secondary_bus_number (bus slot function : Z) (s : P) : Z * P :=
  let '(v, s) := pci_config_readl bus slot function 0x18 s in
  (u8 (Z.shiftr (Z.land v 0xFF00) 8), s).

Definition pci_get_device_id (bus slot function : Z) (s : P) : Z * P :=
  let '(vendor, s) := pci_config_readw bus slot function 0 s in
  if negb (vendor =? 0xFFFF) then
    let '(device, s) := pci_config_readw bus slot function 2 s in
    (Z.lor (u32 (Z.shiftl vendor 16)) device, s)
  else (0xFFFFFFFF, s).

Definition pci_get_bar0 (bus slot func : Z) (s : P) : Z * P := pci_config_readl bus slot func 0x10 s.
Definition pci_get_bar1 (bus slot func : Z) (s : P) : Z * P := pci_config_readl bus slot func 0x14 s.
Definition pci_get_bar2 (bus slot func : Z) (s : P) : Z * P := pci_config_readl bus slot func 0x18 s.
Definition pci_get_bar3 (bus slot func : Z) (s : P) : Z * P := pci_config_readl bus slot func 0x1C s.
Definition pci_get_bar4 (bus slot func : Z) (s : P) : Z * P := pci_config_readl bus slot func 0x20 s.
Definition pci_get_bar5 (bus slot func : Z) (s : P) : Z * P := pci_config_readl bus slot func 0x24 s.
Definition pci_set_bar0 (bus slot func value : Z) (s : P) : P := pci_config_writel bus slot func 0x10 value s.
Definition pci_set_bar1 (bus slot func value : Z) (s : P) : P := pci_config_writel bus slot func 0x14 value s.
Definition pci_set_bar2 (bus slot func value : Z) (s : P) : P := pci_config_writel bus slot func 0x18 value s.
Definition pci_set_bar3 (bus slot func value : Z) (s : P) : P := pci_config_writel bus slot func 0x1C value s.
Definition pci_set_bar4 (bus slot func value : Z) (s : P) : P := pci_config_writel bus slot func 0x20 value s.
Definition pci_set_bar5 (bus slot func value : Z) (s : P) : P := pci_config_writel bus slot func 0x24 value s.

End config.

(** ** Addresses *)

Lemma config_address_sum bus slot func offset :
  0 ≤ bus < 256 → 0 ≤ slot < 32 → 0 ≤ func < 8 → 0 ≤ offset < 256 → offset mod 4 = 0 →
  config_address bus slot func offset = 0x80000000 + 65536 * bus + 2048 * slot + 256 * func + offset.
Proof.
  intros Hb Hs Hf Ho Hm. unfold config_address. rewrite !Z.shiftl_mul_pow2 by lia.
  change (2 ^ 16) with 65536. change (2 ^ 11) with 2048. change (2 ^ 8) with 256. rewrite !u32_small by lia.
  assert (Z.land offset 252 = offset) as ->.
  { change 252 with (Z.ldiff (Z.ones 8) 3). rewrite Z.ldiff_land, Z.land_assoc, Z.land_ones by lia.
    change (2 ^ 8) with 256. rewrite Z.mod_small by lia. rewrite <- Z.ldiff_land. change 3 with (Z.ones 2).
    rewrite Z.ldiff_ones_r, Z.shiftr_div_pow2, Z.shiftl_mul_pow2 by lia. change (2 ^ 2) with 4. mlia. }
  change (bus * 65536) with (bus * 2 ^ 16). rewrite lor_low by lia. change (2 ^ 16) with 65536.
  replace (bus * 65536 + slot * 2048) with ((bus * 32 + slot) * 2 ^ 11) by lia. rewrite lor_low by lia.
  replace ((bus * 32 + slot) * 2 ^ 11 + func * 256) with (((bus * 32 + slot) * 8 + func) * 2 ^ 8) by lia.
  rewrite lor_low by lia. rewrite Z.lor_comm. change 0x80000000 with (1 * 2 ^ 31) at 1. rewrite lor_low by lia. lia.
Qed.

(** ** Class names *)

Definition mass_storage_name (subclass : Z) : string :=
  match subclass with
  | 0x00 => "SCSI Bus Controller"
  | 0x01 => "IDE Controller"
  | 0x02 => "Floppy Disk Controller"
  | 0x03 => "IPI Bus Controller"
  | 0x04 => "RAID Controller"
  | 0x05 => "ATA Controller"
  | 0x06 => "SATA Controller"
  | 0x07 => "Serial Attached SCSI"
  | _ => "Mass Storage Controller"
  end.

Definition network_name (subclass : Z) : string :=
  match subclass with
  | 0x00 => "Ethernet Controller"
  | 0x01 => "Token Ring Controller"
  | 0x02 => "FDDI Controller"
  | 0x03 => "ATM Controller"
  | 0x04 => "ISDN Controller"
  | 0x05 => "WorldFip Controller"
  | 0x06 => "PICMG 2.14 Multi Computing"
  | _ => "Network Controller"
  end.

Definition display_name (subclass progif : Z) : string :=
  match subclass with
  | 0x00 => if progif =? 0x01 then "8512-Compatible Controller" else "VGA-Compatible Controller"
  | 0x01 => "XGA Controller"
  | 0x02 => "3D Controller"
  | _ => "Display Controller"
  end.

Definition multimedia_name (subclass : Z) : string :=
  match subclass with
  | 0x00 => "Video Device"
  | 0x01 => "Audio Device"
  | 0x02 => "Computer Telephony Device"
  | _ => "Multimedia Controller"
  end.

Definition memory_name (subclass : Z) : string :=
  match subclass with
  | 0x00 => "RAM Controller"
  | 0x01 => "Flash Controller"
  | _ => "Memory Controller"
  end.

Definition bridge_name (subclass : Z) : string :=
  match subclass with
  | 0x00 => "Host Bridge"
  | 0x01 => "ISA Bridge"
  | 0x02 => "EISA Bridge"
  | 0x03 => "MCA Bridge"
  | 0x04 => "PCI-to-PCI Bridge"
  | 0x05 => "PCMCIA Bridge"
  | 0x06 => "NuBus Bridge"
  | 0x07 => "CardBus Bridge"
  | 0x08 => "RACEway Bridge"
  | 0x09 => "PCI-to-PCI Bridge"
  | 0x0A => "InfiniBrand-to-PCI Host Bridge"
  | _ => "Bridge Device"
  end.

Definition communication_name (subclass progif : Z) : string :=
  match subclass with
  | 0x00 =>
      match progif with
      | 0x00 => "Generic XT-Compatible Serial Controller"
      | 0x01 => "16450-Compatible Serial Controller"
      | 0x02 => "16550-Compatible Serial Controller"
      | 0x03 => "16650-Compatible Serial Controller"
      | 0x04 => "16750-Compatible Serial Controller"
      | 0x05 => "16850-Compatible Serial Controller"
      | 0x06 => "16950-Compatible Serial Controller"
      | _ => "Serial Controller"
      end
  | 0x01 =>
      match progif with
      | 0x00 => "Parallel Port"
      | 0x01 => "Bi-Directional Parallel Port"
      | 0x02 => "ECP 1.X Compliant Parallel Port"
      | 0x03 => "IEEE 1284 Controller"
      | 0x04 => "IEEE 1284 Target Device"
      | _ => "Parallel Port"
      end
  | 0x02 => "Multiport Serial Controller"
  | 0x03 =>
      match progif with
      | 0x00 => "Generic Modem"
      | 0x01 => "Hayes Compatible Modem (16450-Compatible Interface)"
      | 0x02 => "Hayes Compatible Modem (16550-Compatible Interface)"
      | 0x03 => "Hayes Compatible Modem (16650-Compatible Interface)"
      | 0x04 => "Hayes Compatible Modem (16750-Compatible Interface)"
      | _ => "Modem"
      end
  | 0x04 => "IEEE 488.1/2 (GPIB) Controller"
  | 0x05 => "Smart Card"
  | _ => "Simple Communication Controller"
  end.

(** Both switches are on [progif]. *)
Definition system_peripheral_name (progif : Z) : string :=
  match progif with
  | 0x00 =>
      match progif with
      | 0x00 => "Generic 8259 PIC"
      | 0x01 => "ISA PIC"
      | 0x02 => "EISA PIC"
      | 0x10 => "I/O APIC Interrupt Controller"
      | 0x20 => "I/O(x) APIC Interrupt Controller"
      | _ => "Interrupt Controller"
      end
  | 0x01 =>
      match progif with
      | 0x00 => "Generic 8254 DMA Controller"
      | 0x01 => "ISA DMA Controller"
      | 0x02 => "EISA DMA Controller"
      | _ => "DMA Controller"
      end
  | 0x02 =>
      match progif with
      | 0x00 => "Generic 8254 System Timer"
      | 0x01 => "ISA System Timer"
      | 0x02 => "EISA System Timer"
      | _ => "System Timer"
      end
  | 0x03 =>
      match progif with
      | 0x00 => "Generic RTC Controller"
      | 0x01 => "ISA RTC Controller"
      | _ => "RTC Controller"
      end
  | 0x04 => "Generic PCI Hot-Plug Controller"
  | _ => "Base System Peripheral"
  end.

Definition input_name (subclass progif : Z) : string :=
  match subclass with
  | 0x00 => "Keyboard Controller"
  | 0x01 => "Digitizer"
  | 0x02 => "Mouse Controller"
  | 0x03 => "Scanner Controller"
  | 0x04 =>
      match progif with
      | 0x00 => "Gameport Controller (Generic)"
      | 0x10 => "Gameport Controller (Legacy)"
      | _ => "Gameport Controller"
      end
  | _ => "Input Controller"
  end.

Definition serial_bus_name (subclass progif : Z) : string :=
  match subclass with
  | 0x00 => "IEEE 1394 Controller"
  | 0x01 => "ACCESS bus"
  | 0x02 => "SSA"
  | 0x03 =>
      match progif with
      | 0x00 => "USB Controller (UHCI)"
      | 0x10 => "USB Controller (OHCI)"
      | 0x20 => "USB Controller (EHCI)"
      | 0x30 => "USB Controller (XHCI)"
      | 0x80 => "Unspecified USB Controller"
      | 0xFE => "USB"
      | _ => "USB Controller"
      end
  | 0x04 => "Fibre Channel"
  | 0x05 => "SMBus"
  | 0x06 => "InfiniBand"
  | 0x07 =>
      match progif with
      | 0x00 => "IPMI SMIC Interface"
      | 0x01 => "IPMI Kybd Controller Style Interface"
      | 0x02 => "IPMI Block Transfer Interface"
      | _ => "SERCOS Interface Standard (IEC 61491)"
      end
  | 0x08 => "SERCOS Interface Standard (IEC 61491)"
  | 0x09 => "CANbus"
  | _ => "Serial Bus Controller"
  end.

(** The case falls through into the one for serial bus controllers. *)
Definition processor_name (subclass progif : Z) : string :=
  match subclass with
  | 0x00 => "386 Processor"
  | 0x01 => "486 Processor"
  | 0x02 => "Pentium Processor"
  | 0x10 => "Alpha Processor"
  | 0x20 => "PowerPC Processor"
  | 0x30 => "MIPS Processor"
  | 0x40 => "Co-Processor"
  | _ => serial_bus_name subclass progif
  end.

Definition wireless_name (subclass : Z) : string :=
  match subclass with
  | 0x00 => "iRDA Compatible Controller"
  | 0x01 => "Consumer IR Controller"
  | 0x10 => "RF Controller"
  | 0x11 => "Bluetooth Controller"
  | 0x12 => "Broadband Controller"
  | 0x20 => "Ethernet Controller (802.11a)"
  | 0x21 => "Ethernet Controller (802.11b)"
  | _ => "Wireless Controller"
  end.

Definition intelligent_io_name (subclass progif : Z) : string :=
  if subclass =? 0 then
    if progif =? 0 then "Message FIFO" else "I20 Architecture"
  else "Intelligent I/O".

Definition satellite_name (subclass : Z) : string :=
  match subclass with
  | 0x01 => "TV Controller"
  | 0x02 => "Audio Controller"
  | 0x03 => "Voice Controller"
  | 0x04 => "Data Controller"
  | _ => "Satellite Communication Controller"
  end.

Definition crypto_name (subclass : Z) : string :=
  match subclass with
  | 0x00 => "Network and Computing Encrpytion/Decryption"
  | 0x01 => "Entertainment Encryption/Decryption"
  | _ => "Encrpytion/Decryption"
  end.

Definition data_acq_name (subclass : Z) : string :=
  match subclass with
  | 0x00 => "DPIO Modules"
  | 0x01 => "Performance Counters"
  | 0x10 => "Communications Syncrhonization Plus Time and Frequency Test/Measurment"
  | 0x20 => "Management Card"
  | _ => "Data Acquisition and Signal Processing Controller"
  end.

Definition pci_get_class_name (class_code subclass progif : Z) : string :=
  match class_code with
  | 0x00 => "Unknown"
  | 0x01 => mass_storage_name subclass
  | 0x02 => network_name subclass
  | 0x03 => display_name subclass progif
  | 0x04 => multimedia_name subclass
  | 0x05 => memory_name subclass
  | 0x06 => bridge_name subclass
  | 0x07 => communication_name subclass progif
  | 0x08 => system_peripheral_name progif
  | 0x09 => input_name subclass progif
  | 0x0A => match subclass with 0x00 => "Generic Docking Station" | _ => "Docking Station" end
  | 0x0B => processor_name subclass progif
  | 0x0C => serial_bus_name subclass progif
  | 0x0D => wireless_name subclass
  | 0x0E => intelligent_io_name subclass progif
  | 0x0F => satellite_name subclass
  | 0x10 => crypto_name subclass
  | 0x11 => data_acq_name subclass
  | _ => "Undefined"
  end.

Close Scope string_scope.

(** ** Devices and functions *)

Record pci_function_t : Type := Func {
  fn_prev : Z; fn_next : Z; fn_device : Z; fn_number : Z;
  fn_vendor_id : Z; fn_device_id : Z; fn_class_code : Z; fn_subclass : Z; fn_progif : Z;
}.

Record pci_device_t : Type := Dev {
  dev_prev : Z; dev_next : Z; dev_bus : Z; dev_number : Z;
  dev_vendor_id : Z; dev_device_id : Z; dev_functions : Z;
}.

Definition fn_set_next (v : Z) (f : pci_function_t) : pci_function_t :=
  Func (fn_prev f) v (fn_device f) (fn_number f) (fn_vendor_id f) (fn_device_id f)
       (fn_class_code f) (fn_subclass f) (fn_progif f).
Definition fn_set_prev (v : Z) (f : pci_function_t) : pci_function_t :=
  Func v (fn_next f) (fn_device f) (fn_number f) (fn_vendor_id f) (fn_device_id f)
       (fn_class_code f) (fn_subclass f) (fn_progif f).
Definition dev_set_next (v : Z) (d : pci_device_t) : pci_device_t :=
  Dev (dev_prev d) v (dev_bus d) (dev_number d) (dev_vendor_id d) (dev_device_id d) (dev_functions d).
Definition dev_set_prev (v : Z) (d : pci_device_t) : pci_device_t :=
  Dev v (dev_next d) (dev_bus d) (dev_number d) (dev_vendor_id d) (dev_device_id d) (dev_functions d).
Definition dev_set_functions (v : Z) (d : pci_device_t) : pci_device_t :=
  Dev (dev_prev d) (dev_next d) (dev_bus d) (dev_number d) (dev_vendor_id d) (dev_device_id d) v.

Record t (P : Type) : Type := Pci {
  pci_device_count : Z;
  pci_devices : Z;
  dev_store : gmap Z pci_device_t;
  func_store : gmap Z pci_function_t;
  allocs : nat;
  hw : P;
}.
Arguments Pci {P}.
Arguments pci_device_count {P}.
Arguments pci_devices {P}.
Arguments dev_store {P}.
Arguments func_store {P}.
Arguments allocs {P}.
Arguments hw {P}.

Section scan.
Context {P : Type} `{Ports P}.
(** The address that the n-th call of malloc returns (0: no memory), and the
    contents of fresh memory. *)
Variable alloc : nat → Z.
Variable junk : Z.

Definition set_hw (s : t P) (p : P) : t P :=
  Pci (pci_device_count s) (pci_devices s) (dev_store s) (func_store s) (allocs s) p.
Definition set_devs (s : t P) (m : gmap Z pci_device_t) : t P :=
  Pci (pci_device_count s) (pci_devices s) m (func_store s) (allocs s) (hw s).
Definition set_funcs (s : t P) (m : gmap Z pci_function_t) : t P :=
  Pci (pci_device_count s) (pci_devices s) (dev_store s) m (allocs s) (hw s).
Definition set_first (s : t P) (p : Z) : t P :=
  Pci (pci_device_count s) p (dev_store s) (func_store s) (allocs s) (hw s).

(** A read of configuration space. *)
Definition config (f : P → Z * P) (s : t P) : Z * t P :=
  let '(v, p) := f (hw s) in (v, set_hw s p).

Definition malloc_node (s : t P) : Z * t P :=
  (alloc (allocs s), Pci (pci_device_count s) (pci_devices s) (dev_store s) (func_store s) (S (allocs s)) (hw s)).

Definition deref {A} (m : gmap Z A) (p : Z) : res A :=
  if p =? 0 then Fault NullDeref else match m !! p with Some x => Ok x | None => Fault Unmapped end.

Definition update {A} (m : gmap Z A) (p : Z) (f : A → A) : res (gmap Z A) :=
  x ← deref m p; Ok (<[p := f x]> m).

(** The first stores into fresh memory. *)
Definition init_node {A} (m : gmap Z A) (p : Z) (x : A) : res (gmap Z A) :=
  if p =? 0 then Fault NullDeref else Ok (<[p := x]> m).

(** [prev = NULL; while(curr != NULL) { prev = curr; curr = curr->next; }] *)
Definition last_node {A} (m : gmap Z A) (next : A → Z) (curr : Z) : res Z :=
  while (S (S (size m)))
    (λ pc : Z * Z, let '(prev, curr) := pc in
       if curr =? 0 then Ok (Break prev)
       else x ← deref m curr; Ok (Continue (curr, next x))) (0, curr).

Definition append_function (s : t P) (dev func : Z) : res (t P) :=
  d ← deref (dev_store s) dev;
  prev ← last_node (func_store s) fn_next (dev_functions d);
  if negb (prev =? 0) then
    m ← update (func_store s) prev (fn_set_next func);
    m ← update m func (fn_set_prev prev);
    Ok (set_funcs s m)
  else
    m ← update (dev_store s) dev (dev_set_functions func);
    Ok (set_devs s m).

Definition append_device (s : t P) (dev : Z) : res (t P) :=
  prev ← last_node (dev_store s) dev_next (pci_devices s);
  if negb (prev =? 0) then
    m ← update (dev_store s) prev (dev_set_next dev);
    m ← update m dev (dev_set_prev prev);
    Ok (set_devs s m)
  else Ok (set_first s dev).

Definition pci_scan_device_function (pci_scan_bus : Z → t P → res (t P)) (dev function : Z) (s : t P)
    : res (t P) :=
  d ← deref (dev_store s) dev;
  let '(devid, s) := config (pci_get_device_id (dev_bus d) (dev_number d) function) s in
  let device_id := Z.land devid 0xFFFF in
  let vendor_id := Z.shiftr (Z.land devid 0xFFFF0000) 16 in
  let '(tmp, s) := config (pci_get_class_code (dev_bus d) (dev_number d) function) s in
  let progif := Z.land tmp 0xFF in
  let subclass := Z.shiftr (Z.land tmp 0xFF0000) 16 in
  let class_code := Z.shiftr (Z.land tmp 0xFF000000) 24 in
  if (class_code =? 0x06) && (subclass =? 0x04) then
    let '(secondary_bus, s) := config (pci_get_secondary_bus_number (dev_bus d) (dev_number d) function) s in
    pci_scan_bus secondary_bus s
  else
    let '(func, s) := malloc_node s in
    m ← init_node (func_store s) func
          (Func junk 0 dev function (u16 vendor_id) (u16 device_id) class_code subclass progif);
    append_function (set_funcs s m) dev func.

Definition pci_scan_device (pci_scan_bus : Z → t P → res (t P)) (bus device : Z) (s : t P) : res (t P) :=
  let '(devid, s) := config (pci_get_device_id bus device 0) s in
  let device_id := Z.land devid 0xFFFF in
  let vendor_id := Z.shiftr (Z.land devid 0xFFFF0000) 16 in
  if devid =? 0xFFFFFFFF then Ok s
  else
    let '(dev, s) := malloc_node s in
    m ← init_node (dev_store s) dev (Dev 0 0 bus device (u16 vendor_id) (u16 device_id) 0);
    s ← pci_scan_device_function pci_scan_bus dev 0 (set_devs s m);
    let '(header_type, s) := config (pci_get_header_type bus device 0) s in
    s ← (if negb (Z.land header_type 0x80 =? 0) then
           for_up 7 1 (λ function s,
             let '(devid, s) := config (pci_get_device_id bus device function) s in
             if negb (devid =? 0xFFFFFFFF) then pci_scan_device_function pci_scan_bus dev function s
             else Ok s) s
         else Ok s);
    s ← append_device s dev;
    Ok (Pci (u32 (pci_device_count s + 1)) (pci_devices s) (dev_store s) (func_store s) (allocs s) (hw s)).

Fixpoint pci_scan_bus (depth : nat) (bus : Z) (s : t P) : res (t P) :=
  match depth with
  | O => Fault OutOfFuel
  | S depth => for_up 32 0 (λ device, pci_scan_device (pci_scan_bus depth) bus device) s
  end.

Definition pci_scan (depth : nat) (s : t P) : res (t P) :=
  let '(header_type, s) := config (pci_get_header_type 0 0 0) s in
  if Z.land header_type 0x80 =? 0 then pci_scan_bus depth 0 s
  else
    while 9
      (λ fs : Z * t P, let '(function, s) := fs in
         if function <? 8 then
           let '(devid, s) := config (pci_get_device_id 0 0 0) s in
           if devid =? 0xFFFFFFFF then Ok (Break s)
           else s ← pci_scan_bus depth function s; Ok (Continue (function + 1, s))
         else Ok (Break s)) (0, s).

Definition pci_enumerate_devices (s : t P) (current : Z) : res Z :=
  if current =? 0 then Ok (pci_devices s)
  else d ← deref (dev_store s) current; Ok (dev_next d).

Definition pci_enumerate_functions (s : t P) (device current : Z) : res Z :=
  if current =? 0 then d ← deref (dev_store s) device; Ok (dev_functions d)
  else
    f ← deref (func_store s) current;
    if negb (fn_device f =? device) then Ok 0 else Ok (fn_next f).

(** One line of the report of pci_init: the arguments of its printf. *)
Definition line : Type := Z * Z * Z * string.

Definition function_line (i : Z) (f : pci_function_t) : line :=
  (i, fn_vendor_id f, fn_device_id f, pci_get_class_name (fn_class_code f) (fn_subclass f) (fn_progif f)).

Definition report_functions (s : t P) (func i : Z) : res (list line * Z) :=
  while (S (size (func_store s)))
    (λ st : Z * list line * Z, let '(func, out, i) := st in
       if func =? 0 then Ok (Break (out, i))
       else f ← deref (func_store s) func; Ok (Continue (fn_next f, out ++ [function_line i f], i + 1)))
    (func, [], i).

Definition report_devices (s : t P) : res (list line) :=
  while (S (size (dev_store s)))
    (λ st : Z * list line * Z, let '(dev, out, i) := st in
       if dev =? 0 then Ok (Break out)
       else
         d ← deref (dev_store s) dev;
         '(l, i) ← report_functions s (dev_functions d) i;
         Ok (Continue (dev_next d, out ++ l, i)))
    (pci_devices s, [], 0).

Definition pci_init (depth : nat) (s : t P) : res (list line * t P) :=
  s ← pci_scan depth (set_first s 0);
  out ← report_devices s;
  Ok (out, s).

End scan.

(** ** The content of configuration space *)

Section spec.
(** The double word behind each configuration address. *)
Variable cfg : Z → Z.

Definition word (bus slot func offset : Z) : Z := cfg (config_address bus slot func offset).

Definition half (bus slot func offset : Z) : Z :=
  u16 (Z.land (Z.shiftr (word bus slot func offset) (Z.land offset 2 * 8)) 0xFFFF).

(** Vendor and device number of a function, or all ones. *)
Definition id_of (bus slot func : Z) : Z :=
  if half bus slot func 0 =? 0xFFFF then 0xFFFFFFFF
  else Z.lor (u32 (Z.shiftl (half bus slot func 0) 16)) (half bus slot func 2).

Definition multi (bus slot : Z) : bool := negb (Z.land (Z.land (half bus slot 0 0x0E) 0xFF) 0x80 =? 0).
Definition class_of (bus slot func : Z) : Z := Z.shiftr (Z.land (word bus slot func 0x08) 0xFF000000) 24.
Definition subclass_of (bus slot func : Z) : Z := Z.shiftr (Z.land (word bus slot func 0x08) 0xFF0000) 16.
Definition revision_of (bus slot func : Z) : Z := Z.land (word bus slot func 0x08) 0xFF.
Definition is_bridge (bus slot func : Z) : bool :=
  (class_of bus slot func =? 0x06) && (subclass_of bus slot func =? 0x04).
Definition secondary_of (bus slot func : Z) : Z := u8 (Z.shiftr (Z.land (word bus slot func 0x18) 0xFF00) 8).

(** What is to be found: the functions of a device and the devices of a bus. *)
Record fn_info : Type := FnInfo {
  i_function : Z; i_vendor : Z; i_device : Z; i_class : Z; i_subclass : Z; i_progif : Z;
}.
Record dev_info : Type := DevInfo {
  i_bus : Z; i_number : Z; i_dev_vendor : Z; i_dev_device : Z; i_functions : list fn_info;
}.

Definition id_vendor (id : Z) : Z := u16 (Z.shiftr (Z.land id 0xFFFF0000) 16).
Definition id_device (id : Z) : Z := u16 (Z.land id 0xFFFF).

Definition fn_spec (bus slot func : Z) : fn_info :=
  FnInfo func (id_vendor (id_of bus slot func)) (id_device (id_of bus slot func))
         (class_of bus slot func) (subclass_of bus slot func) (revision_of bus slot func).

Definition present (bus slot func : Z) : bool := negb (id_of bus slot func =? 0xFFFFFFFF).

(** The functions of a device that are looked at. *)
Definition functions_of (bus slot : Z) : list Z :=
  0 :: (if multi bus slot then filter (λ f, present bus slot f = true) [1; 2; 3; 4; 5; 6; 7] else []).

(** A bridge contributes the devices behind it, any other function itself. *)
Definition function_spec (bus_spec : Z → option (list dev_info)) (bus slot func : Z)
    : option (list dev_info * list fn_info) :=
  if is_bridge bus slot func then l ← bus_spec (secondary_of bus slot func); Some (l, [])
  else Some ([], [fn_spec bus slot func]).

Definition device_spec (bus_spec : Z → option (list dev_info)) (bus slot : Z) : option (list dev_info) :=
  if present bus slot 0 then
    l ← mapM (function_spec bus_spec bus slot) (functions_of bus slot);
    Some (concat (map fst l) ++
          [DevInfo bus slot (id_vendor (id_of bus slot 0)) (id_device (id_of bus slot 0)) (concat (map snd l))])
  else Some [].

(** The devices of a bus, those behind a bridge before the device that has the
    bridge; [None] when bridges nest deeper than [depth]. *)
Fixpoint bus_spec (depth : nat) (bus : Z) : option (list dev_info) :=
  match depth with
  | O => None
  | S depth => l ← mapM (device_spec (bus_spec depth) bus) (seqZ 0 32); Some (concat l)
  end.

(** All devices: from bus 0, or from the buses 0 to 7 when function 0 of the host
    bridge is one of several. *)
Definition machine_spec (depth : nat) : option (list dev_info) :=
  if multi 0 0 then
    if present 0 0 0 then l ← mapM (bus_spec depth) (seqZ 0 8); Some (concat l) else Some []
  else bus_spec depth 0.

(** What a found device must have: the functions that are looked at, without the
    bridges. *)
Definition device_complete (x : dev_info) : Prop :=
  present (i_bus x) (i_number x) 0 = true ∧
  i_functions x = map (fn_spec (i_bus x) (i_number x))
                      (filter (λ f, is_bridge (i_bus x) (i_number x) f = false) (functions_of (i_bus x) (i_number x))).

Definition line_of (i : nat) (f : fn_info) : line :=
  (Z.of_nat i, i_vendor f, i_device f, pci_get_class_name (i_class f) (i_subclass f) (i_progif f)).

(** The report of pci_init. *)
Definition report_spec (l : list dev_info) : list line := imap line_of (concat (map i_functions l)).

End spec.

(** ** The lists in the stores *)

Section host.
Context {P : Type} `{Ports P}.
Variables (cfg : Z → Z) (alloc : nat → Z) (junk : Z).
(** Configuration mechanism 1: a read of the data port gives the double word of
    the address written before, also after the pause; malloc returns different
    nodes, and never runs out of memory. *)
Context (Hhost : ∀ a b p, (inl PCI_CONFIG_DATA (outb 128 b (outl PCI_CONFIG_ADDRESS a p))).1 = cfg a)
  (Hinj : ∀ i j, alloc i = alloc j → i = j) (Hnz : ∀ i, alloc i ≠ 0).

Lemma config_ok (f : P → Z * P) v (s : t P) : (∀ p, (f p).1 = v) → ∃ p, config f s = (v, set_hw s p).
Proof. intros Hf. unfold config. specialize (Hf (hw s)). destruct (f (hw s)) as [w p]. cbn in Hf. subst w. by exists p. Qed.

Lemma readl_ok bus slot func offset p : (pci_config_readl bus slot func offset p).1 = word cfg bus slot func offset.
Proof.
  unfold pci_config_readl, inl_p, outl_p, word. cbv zeta.
  rewrite <- (Hhost (config_address bus slot func offset) (u8 (config_address bus slot func offset)) p).
  by destruct (inl _ _).
Qed.

Lemma readw_ok bus slot func offset p : (pci_config_readw bus slot func offset p).1 = half cfg bus slot func offset.
Proof.
  unfold half. rewrite <- (readl_ok bus slot func offset p).
  unfold pci_config_readw, pci_config_readl. cbv zeta. by destruct (inl_p _ _).
Qed.

Lemma get_id_ok bus slot func p : (pci_get_device_id bus slot func p).1 = id_of cfg bus slot func.
Proof.
  unfold pci_get_device_id, id_of. pose proof (readw_ok bus slot func 0 p) as H0.
  destruct (pci_config_readw bus slot func 0 p) as [v p1]. cbn in H0. subst v.
  destruct (half cfg bus slot func 0 =? 65535); [done|]. cbn [negb].
  pose proof (readw_ok bus slot func 2 p1) as H2. destruct (pci_config_readw bus slot func 2 p1) as [v p2].
  cbn in *. by subst v.
Qed.

Lemma get_header_ok bus slot p : (pci_get_header_type bus slot 0 p).1 = Z.land (half cfg bus slot 0 0x0E) 0xFF.
Proof.
  unfold pci_get_header_type. pose proof (readw_ok bus slot 0 0x0E p) as H0.
  destruct (pci_config_readw bus slot 0 0x0E p) as [v p1]. cbn in *. by subst v.
Qed.

Lemma get_secondary_ok bus slot func p : (pci_get_secondary_bus_number bus slot func p).1 = secondary_of cfg bus slot func.
Proof.
  unfold pci_get_secondary_bus_number, secondary_of. pose proof (readl_ok bus slot func 0x18 p) as H0.
  destruct (pci_config_readl bus slot func 0x18 p) as [v p1]. cbn in *. by subst v.
Qed.

(** The address came from one of the first [n] calls of malloc. *)
Definition old (n : nat) (p : Z) : Prop := ∃ k, (k < n)%nat ∧ p = alloc k.

Lemma old_mono n m p : (n ≤ m)%nat → old n p → old m p.
Proof. intros Hn (k & Hk & ->). exists k. split; [lia|done]. Qed.
Lemma old_fresh n m : (n ≤ m)%nat → ¬ old n (alloc m).
Proof. intros Hn (k & Hk & He). apply Hinj in He. lia. Qed.
Lemma old_last n : old (S n) (alloc n).
Proof. exists n. split; [lia|done]. Qed.
Lemma old_nonzero n p : old n p → p ≠ 0.
Proof. intros (k & _ & ->). apply Hnz. Qed.

Definition nx {A} (next : A → Z) (m : gmap Z A) (a : Z) : option Z := next <$> m !! a.

Lemma path_size {A} (m : gmap Z A) next ps q : path (nx next m) ps q → NoDup ps → (length ps ≤ size m)%nat.
Proof.
  intros Hp Hn. rewrite <- size_dom, <- (size_list_to_set (C := gset Z)) by done. apply subseteq_size.
  intros a Ha%elem_of_list_to_set. apply elem_of_dom.
  destruct (path_mem _ _ _ _ Hp Ha) as [n Hx]. unfold nx in Hx. destruct (m !! a); [eauto|done].
Qed.

Lemma last_node_ok {A} (m : gmap Z A) next ps :
  path (nx next m) ps 0 → NoDup ps → 0 ∉ ps → last_node m next (hd 0 ps) = Ok (default 0 (last ps)).
Proof.
  intros Hp Hn H0. unfold last_node.
  pose proof (path_size m next ps 0 Hp Hn) as Hlen.
  enough (∀ fuel prev, (length ps < fuel)%nat →
    while fuel (λ pc : Z * Z, let '(prev, curr) := pc in
       if curr =? 0 then Ok (Break prev)
       else x ← deref m curr; Ok (Continue (curr, next x))) (prev, hd 0 ps) = Ok (default prev (last ps))) as He
    by (apply He; lia).
  clear Hlen Hn. induction ps as [|a ps IH]; intros fuel prev Hf; (destruct fuel as [|fuel]; [cbn in Hf; lia|]).
  { done. }
  destruct Hp as [Ha Hp]. apply not_elem_of_cons in H0 as [Ha0 H0]. cbn [hd while].
  rewrite (proj2 (Z.eqb_neq a 0)) by done. unfold nx in Ha.
  destruct (m !! a) as [x|] eqn:Ex; [|done]. cbn in Ha. injection Ha as Ha.
  unfold deref. rewrite (proj2 (Z.eqb_neq a 0)), Ex by done. cbn [mbind res_bind]. rewrite Ha.
  rewrite IH by (done || (cbn in Hf; lia)). f_equal. destruct ps as [|b ps]; [done|].
  rewrite last_cons_cons. by destruct (last_is_Some (b :: ps)) as [_ [y ->]].
Qed.

Definition fn_view (f : pci_function_t) : fn_info :=
  FnInfo (fn_number f) (fn_vendor_id f) (fn_device_id f) (fn_class_code f) (fn_subclass f) (fn_progif f).

(** The functions [l] hang at the nodes [ps], behind the pointer [first]. *)
Record fn_list (fs : gmap Z pci_function_t) (dev first : Z) (ps : list Z) (l : list fn_info) : Prop := {
  fl_path : path (nx fn_next fs) ps 0;
  fl_first : first = hd 0 ps;
  fl_nodup : NoDup ps;
  fl_null : 0 ∉ ps;
  fl_view : Forall2 (λ p i, ∃ f, fs !! p = Some f ∧ fn_device f = dev ∧ fn_view f = i) ps l;
}.

Lemma fn_list_frame fs fs' dev first ps l :
  (∀ p, p ∈ ps → fs' !! p = fs !! p) → fn_list fs dev first ps l → fn_list fs' dev first ps l.
Proof.
  intros Hf [H1 H2 H3 H4 H5]. split; try done.
  - eapply path_frame; [|done]. intros a Ha. unfold nx. by rewrite Hf.
  - clear H1 H2 H3 H4. induction H5 as [|p i ps l (f & Hp & Hd) H5 IH]; constructor.
    + exists f. rewrite Hf by (by left). done.
    + apply IH. intros q Hq. apply Hf. by right.
Qed.

(** A node appended to the functions of a device. *)
Lemma fn_list_snoc fs dev first ps l q f z :
  fn_list fs dev first ps l → last ps = Some z → q ∉ ps → q ≠ 0 →
  fn_next f = 0 → fn_device f = dev →
  ∃ m, (m ← update (<[q := f]> fs) z (fn_set_next q); update m q (fn_set_prev z)) = Ok m ∧
    (∀ p, p ∉ ps → p ≠ q → m !! p = fs !! p) ∧
    fn_list m dev first (ps ++ [q]) (l ++ [fn_view f]).
Proof.
  intros [H1 H2 H3 H4 H5] Hz Hq Hq0 Hf Hd.
  assert (Hzin : z ∈ ps) by (by apply last_Some_elem_of).
  assert (Hz0 : z ≠ 0) by (by intros ->). assert (Hqz : q ≠ z) by (by intros ->).
  destruct (path_mem _ _ _ _ H1 Hzin) as [nz Hnx]. unfold nx in Hnx.
  destruct (fs !! z) as [fz|] eqn:Ez; [|done]. clear Hnx nz.
  unfold update, deref. rewrite (proj2 (Z.eqb_neq z 0)), lookup_insert_ne, Ez by done. cbn [mbind res_bind].
  rewrite (proj2 (Z.eqb_neq q 0)), lookup_insert_ne, lookup_insert_eq by done. cbn [mbind res_bind].
  set (m := <[q := fn_set_prev z f]> (<[z := fn_set_next q fz]> (<[q := f]> fs))). exists m.
  assert (Hmq : m !! q = Some (fn_set_prev z f)) by apply lookup_insert_eq.
  assert (Hmz : m !! z = Some (fn_set_next q fz)).
  { unfold m. by rewrite lookup_insert_ne, lookup_insert_eq by done. }
  assert (Hm : ∀ p, p ≠ z → p ≠ q → m !! p = fs !! p).
  { intros p Hp Hp'. unfold m. by rewrite !lookup_insert_ne by done. }
  split; [done|]. split; [intros p Hp Hp'; apply Hm; [by intros ->|done]|]. split.
  - eapply (path_snoc (nx fn_next fs)); [done|done| | | |done]; unfold nx.
    + intros a Ha Haz. rewrite Hm; [done|done|by intros ->].
    + by rewrite Hmz.
    + rewrite Hmq. cbn. by rewrite Hf.
  - rewrite H2. by destruct ps.
  - apply NoDup_app. split; [done|]. split; [|apply NoDup_singleton]. set_solver.
  - set_solver.
  - apply Forall2_app.
    + apply Forall2_same_length_lookup in H5 as [Hlen H5].
      apply Forall2_same_length_lookup. split; [done|]. intros i p y Hp Hy.
      destruct (H5 i p y Hp Hy) as (g & Hg & Hdev & Hv). apply list_elem_of_lookup_2 in Hp.
      destruct (decide (p = z)) as [->|Hpz].
      * exists (fn_set_next q fz). rewrite Ez in Hg. injection Hg as <-. done.
      * exists g. split; [|done]. rewrite Hm; [done|done|by intros ->].
    + constructor; [|done]. by exists (fn_set_prev z f).
Qed.

(** A device of the list: its node, what it is, the nodes of its functions. *)
Record found : Type := Found { at_ : Z; info : dev_info; fn_at : list Z }.

Definition dev_is (r : pci_device_t) (i : dev_info) : Prop :=
  dev_bus r = i_bus i ∧ dev_number r = i_number i ∧ dev_vendor_id r = i_dev_vendor i ∧
  dev_device_id r = i_dev_device i.

Definition dev_ok (ds : gmap Z pci_device_t) (fs : gmap Z pci_function_t) (x : found) : Prop :=
  ∃ r, ds !! at_ x = Some r ∧ dev_is r (info x) ∧
       fn_list fs (at_ x) (dev_functions r) (fn_at x) (i_functions (info x)).

(** The devices [L] are in the list of the state. *)
Record listed (s : t P) (L : list found) : Prop := {
  li_path : path (nx dev_next (dev_store s)) (map at_ L) 0;
  li_first : pci_devices s = hd 0 (map at_ L);
  li_nodup : NoDup (map at_ L);
  li_dev : Forall (dev_ok (dev_store s) (func_store s)) L;
  li_old : Forall (old (allocs s)) (map at_ L);
  li_fns : Forall (λ x, Forall (old (allocs s)) (fn_at x)) L;
}.

(** From [s] with the devices [L] to [s'] with [L ++ new]; the nodes that existed
    after [n] calls of malloc are unchanged, but for the links of listed devices. *)
Record grown (n : nat) (s : t P) (L : list found) (s' : t P) (new : list found) : Prop := {
  gr_base : (n ≤ allocs s)%nat;
  gr_allocs : (allocs s ≤ allocs s')%nat;
  gr_listed : listed s' (L ++ new);
  gr_funcs : ∀ p, old n p → func_store s' !! p = func_store s !! p;
  gr_devs : ∀ p, old n p → p ∉ map at_ L → dev_store s' !! p = dev_store s !! p;
  gr_new : Forall (λ x, ¬ old n (at_ x) ∧ Forall (λ p, ¬ old n p) (fn_at x)) new;
}.

Lemma grown_refl n s L : (n ≤ allocs s)%nat → listed s L → grown n s L s [].
Proof. intros Hn Hl. split; try done. by rewrite app_nil_r. Qed.

Lemma grown_weaken n m s L s' new : (n ≤ m)%nat → grown m s L s' new → grown n s L s' new.
Proof.
  intros Hn [H1 H2 H3 H4 H5 H6]. split; try done; [lia| | |].
  - intros p Hp. apply H4. by eapply old_mono.
  - intros p Hp. apply H5. by eapply old_mono.
  - eapply Forall_impl; [exact H6|]. intros x [Hx Hy]. split; [intros Hq; apply Hx; by eapply old_mono|].
    eapply Forall_impl; [exact Hy|]. cbn. intros p Hp Hq. apply Hp. by eapply old_mono.
Qed.

Lemma grown_trans n s L s1 n1 s2 n2 :
  grown n s L s1 n1 → grown n s1 (L ++ n1) s2 n2 → grown n s L s2 (n1 ++ n2).
Proof.
  intros [A1 A2 A3 A4 A5 A6] [B1 B2 B3 B4 B5 B6]. split; [done|lia| | | |].
  - by rewrite app_assoc.
  - intros p Hp. by rewrite B4, A4.
  - intros p Hp HL. rewrite B5, A5; [done|done|done|done|].
    rewrite map_app. apply not_elem_of_app. split; [done|]. intros Hin.
    apply list_elem_of_fmap in Hin as (x & -> & Hx). rewrite Forall_forall in A6. by destruct (A6 x Hx).
  - by apply Forall_app.
Qed.

(** Changes elsewhere keep the list. *)
Lemma listed_frame s s' L :
  listed s L → (allocs s ≤ allocs s')%nat → pci_devices s' = pci_devices s →
  (∀ x, x ∈ L → dev_store s' !! at_ x = dev_store s !! at_ x) →
  (∀ x p, x ∈ L → p ∈ fn_at x → func_store s' !! p = func_store s !! p) → listed s' L.
Proof.
  intros [H1 H2 H3 H4 H5 H6] Ha Hp Hd Hf. split; try done.
  - eapply path_frame; [|done]. intros a Hin. unfold nx.
    apply list_elem_of_fmap in Hin as (x & -> & Hx). by rewrite Hd.
  - by rewrite Hp.
  - rewrite Forall_forall in *. intros x Hx. destruct (H4 x Hx) as (r & Hr & Hi & Hl).
    exists r. rewrite Hd by done. split; [done|]. split; [done|].
    eapply fn_list_frame; [|exact Hl]. intros p Hin. by apply (Hf x).
  - eapply Forall_impl; [exact H5|]. intros p. by apply old_mono.
  - eapply Forall_impl; [exact H6|]. intros x Hx. eapply Forall_impl; [exact Hx|]. intros p. by apply old_mono.
Qed.

Lemma listed_hw s p L : listed s L → listed (set_hw s p) L.
Proof. intros Hl. by eapply listed_frame. Qed.

(** A device that is being scanned: not yet in the list. *)
Record pend (n : nat) (s : t P) (L : list found) (x : found) : Prop := {
  pe_dev : dev_ok (dev_store s) (func_store s) x;
  pe_next : nx dev_next (dev_store s) (at_ x) = Some 0;
  pe_old : Forall (old (allocs s)) (at_ x :: fn_at x);
  pe_base : Forall (λ p, ¬ old n p) (at_ x :: fn_at x);
  pe_list : at_ x ∉ map at_ L;
  pe_fns : ∀ y p, y ∈ L → p ∈ fn_at y → p ∉ fn_at x;
}.

Definition add_functions (i : dev_info) (l : list fn_info) : dev_info :=
  DevInfo (i_bus i) (i_number i) (i_dev_vendor i) (i_dev_device i) (i_functions i ++ l).

Lemma pend_frame n s L x s' new :
  pend n s L x → grown (allocs s) s L s' new → pend n s' (L ++ new) x.
Proof.
  intros [(r & Hr & Hi & Hl) P2 P3 P4 P5 P6] [G1 G2 G3 G4 G5 G6].
  pose proof P3 as [Hox Hof]%Forall_cons. rewrite Forall_forall in Hof. rewrite Forall_forall in G6.
  split.
  - exists r. rewrite G5 by done. split; [done|]. split; [done|].
    eapply fn_list_frame; [|exact Hl]. intros p Hp. apply G4. by apply Hof.
  - unfold nx in *. by rewrite G5.
  - eapply Forall_impl; [exact P3|]. intros p. by apply old_mono.
  - done.
  - rewrite map_app. apply not_elem_of_app. split; [done|]. intros (y & Hy & Hin)%list_elem_of_fmap.
    destruct (G6 y Hin) as [Hn _]. by rewrite <- Hy in Hn.
  - intros y p [Hin|Hin]%elem_of_app Hp; [by eapply P6|]. intros Hpx.
    destruct (G6 y Hin) as [_ Hn]. rewrite Forall_forall in Hn. apply (Hn p Hp). by apply Hof.
Qed.

(** What a scan of a bus has to do. *)
Definition scans (scan : Z → t P → res (t P)) (spec : Z → option (list dev_info)) : Prop :=
  ∀ b l s L, spec b = Some l → listed s L →
    ∃ s' new, scan b s = Ok s' ∧ grown (allocs s) s L s' new ∧ map info new = l.

(** The node of a new function is apart from all others. *)
Lemma new_function_apart n s L x (q := alloc (allocs s)) :
  listed s L → pend n s L x → (n ≤ allocs s)%nat →
  (q ∉ fn_at x) ∧
  Forall (λ p, ¬ old n p) (at_ x :: fn_at x ++ [q]) ∧ Forall (old (S (allocs s))) (at_ x :: fn_at x ++ [q]) ∧
  ∀ y p, y ∈ L → p ∈ fn_at y → p ≠ q ∧ p ∉ fn_at x ++ [q].
Proof.
  intros Hli [_ _ P3 P4 _ P6] Hn. pose proof P3 as [_ Hof]%Forall_cons. pose proof P4 as [Hnx Hnf]%Forall_cons.
  assert (Hqf : ¬ old (allocs s) q) by (by apply old_fresh).
  assert (Hq : q ∉ fn_at x) by (rewrite Forall_forall in Hof; intros Hin; by apply Hqf, Hof).
  assert (HLq : ∀ y p, y ∈ L → p ∈ fn_at y → p ≠ q).
  { intros y p Hy Hp ->. apply Hqf. pose proof (li_fns _ _ Hli) as HF. rewrite Forall_forall in HF.
    specialize (HF y Hy). rewrite Forall_forall in HF. by apply HF. }
  split_and!; [done| | |].
  - constructor; [done|]. apply Forall_app. split; [done|]. repeat constructor. by apply old_fresh.
  - apply (Forall_app _ (at_ x :: fn_at x) [q]). split; [|repeat constructor; apply old_last].
    eapply Forall_impl; [exact P3|]. intros p. apply old_mono. lia.
  - intros y p Hy Hp. split; [by eapply HLq|].
    intros [Hin|Hin%list_elem_of_singleton]%elem_of_app; [by eapply P6|by eapply HLq].
Qed.

(** The function appended to a device under scan. *)
Lemma append_function_ok n s L x f :
  listed s L → pend n s L x → (n ≤ allocs s)%nat → fn_next f = 0 → fn_device f = at_ x →
  ∃ s', (m ← init_node (func_store s) (alloc (allocs s)) f;
         append_function (set_funcs (malloc_node alloc s).2 m) (at_ x) (alloc (allocs s))) = Ok s' ∧
    grown n s L s' [] ∧ pend n s' L (Found (at_ x) (add_functions (info x) [fn_view f]) (fn_at x ++ [alloc (allocs s)])).
Proof.
  intros Hli Hpend Hn Hf Hd. set (q := alloc (allocs s)). pose proof Hpend as [(r & Hr & Hi & Hl) P2 P3 P4 P5 P6].
  pose proof P3 as [Hox Hof]%Forall_cons. pose proof P4 as [Hnx Hnf]%Forall_cons.
  assert (Hqf : ¬ old (allocs s) q) by (by apply old_fresh). rewrite Forall_forall in Hof. rewrite Forall_forall in Hnf.
  destruct (new_function_apart n s L x Hli Hpend Hn) as (Hq & Hbase & Hold & Hapart). fold q in Hq, Hbase, Hold, Hapart.
  assert (Hq0 : q ≠ 0) by apply Hnz. assert (Hx0 : at_ x ≠ 0) by (by eapply old_nonzero).
  unfold init_node. rewrite (proj2 (Z.eqb_neq q 0)) by done. cbn [mbind res_bind].
  unfold append_function. cbn [malloc_node snd set_funcs dev_store func_store pci_devices allocs hw pci_device_count].
  assert (deref (dev_store s) (at_ x) = Ok r) as ->.
  { unfold deref. rewrite Hr. by rewrite (proj2 (Z.eqb_neq _ 0)). }
  cbn [mbind res_bind].
  assert (Hlast : last_node (<[q := f]> (func_store s)) fn_next (dev_functions r) = Ok (default 0 (last (fn_at x)))).
  { destruct Hl as [Q1 -> Q3 Q4 Q5]. apply last_node_ok; try done.
    eapply path_frame; [|done]. intros a Ha. unfold nx. rewrite lookup_insert_ne; [done|by intros ->]. }
  rewrite Hlast. cbn [mbind res_bind].
  assert (HLq : ∀ y p, y ∈ L → p ∈ fn_at y → p ≠ q) by (intros y p Hy Hp; by destruct (Hapart y p Hy Hp)).
  assert (Hfns : ∀ y p, y ∈ L → p ∈ fn_at y → p ∉ fn_at x ++ [q]) by (intros y p Hy Hp; by destruct (Hapart y p Hy Hp)).
  destruct (last (fn_at x)) as [z|] eqn:Ez.
  - assert (z ≠ 0).
    { intros ->. apply last_Some_elem_of in Ez. by destruct Hl as [_ _ _ ? _]. }
    change (default 0 (Some z)) with z. rewrite (proj2 (Z.eqb_neq z 0)) by done. cbn [negb].
    destruct (fn_list_snoc _ _ _ _ _ q f z Hl Ez Hq Hq0 Hf Hd) as (m & Hm & Hmf & Hml).
    apply bind_ok in Hm as (m1 & -> & Hm). cbn [mbind res_bind]. rewrite Hm. cbn [mbind res_bind].
    eexists. split; [done|]. split; split; cbn [allocs dev_store func_store set_funcs]; try done; try lia.
    + rewrite app_nil_r. eapply listed_frame; [done|cbn; lia|done|done|]. intros y p Hy Hp. cbn.
      apply Hmf; [by eapply P6|by eapply HLq].
    + intros p Hp. apply Hmf; [intros Hin; by eapply Hnf|intros ->]. apply Hqf. by eapply old_mono.
    + exists r. done.
  - apply last_None in Ez. rewrite Ez in *. cbn [default from_option negb Z.eqb].
    unfold update, deref. cbn [func_store dev_store]. rewrite (proj2 (Z.eqb_neq (at_ x) 0)), Hr by done. cbn [mbind res_bind].
    eexists. split; [done|]. cbn [app] in *. split; split; cbn [allocs dev_store func_store set_devs set_funcs]; try done; try lia.
    + rewrite app_nil_r. eapply listed_frame; [done|cbn; lia|done| |].
      * intros y Hy. cbn. rewrite lookup_insert_ne; [done|]. intros He. apply P5. rewrite He.
        by apply list_elem_of_fmap_2.
      * intros y p Hy Hp. cbn. rewrite lookup_insert_ne; [done|]. intros <-. by eapply HLq.
    + intros p Hp. rewrite lookup_insert_ne; [done|]. intros <-. apply Hqf. by eapply old_mono.
    + intros p Hp HL. rewrite lookup_insert_ne; [done|]. by intros <-.
    + exists (dev_set_functions q r). cbn [at_ info fn_at]. rewrite lookup_insert_eq. split; [done|]. split; [done|].
      destruct Hl as [Q1 Q2 Q3 Q4 Q5]. apply Forall2_nil_inv_l in Q5.
      cbn [dev_functions dev_set_functions add_functions i_functions]. rewrite Q5. cbn [app].
      split; cbn; try done; [|apply NoDup_singleton|set_solver|].
      * unfold nx. rewrite lookup_insert_eq. cbn. by rewrite Hf.
      * repeat constructor. exists f. by rewrite lookup_insert_eq.
    + unfold nx in *. cbn. rewrite lookup_insert_eq. rewrite Hr in P2. done.
Qed.

Lemma set_hw_frame (s : t P) p : allocs (set_hw s p) = allocs s ∧ dev_store (set_hw s p) = dev_store s ∧
  func_store (set_hw s p) = func_store s ∧ pci_devices (set_hw s p) = pci_devices s.
Proof. done. Qed.

Lemma pend_hw n s L x p : pend n s L x → pend n (set_hw s p) L x.
Proof. intros [H1 H2 H3 H4 H5 H6]. by split. Qed.

Lemma grown_hw n s L s' new p : grown n (set_hw s p) L s' new → grown n s L s' new.
Proof. intros [H1 H2 H3 H4 H5 H6]. by split. Qed.

(** Reading a register before a computation. *)
Lemma config_step {B} (f : P → Z * P) v (k : Z → t P → res B) (s : t P) (Q : res B → Prop) :
  (∀ p, (f p).1 = v) → (∀ p, Q (k v (set_hw s p))) → Q (let '(w, s) := config f s in k w s).
Proof. intros Hf Hk. destruct (config_ok f v s Hf) as [p ->]. apply Hk. Qed.

Lemma scan_function_ok n s L x f dl fl scan spec :
  scans scan spec → listed s L → pend n s L x → (n ≤ allocs s)%nat →
  function_spec cfg spec (i_bus (info x)) (i_number (info x)) f = Some (dl, fl) →
  ∃ s' new x', pci_scan_device_function alloc junk scan (at_ x) f s = Ok s' ∧ grown n s L s' new ∧
    map info new = dl ∧ pend n s' (L ++ new) x' ∧ at_ x' = at_ x ∧ info x' = add_functions (info x) fl.
Proof.
  intros Hs Hli Hp Hn Hspec. pose proof (pe_dev _ _ _ _ Hp) as (r & Hr & (Eb & En & _) & _).
  assert (Hx0 : at_ x ≠ 0) by (pose proof (pe_old _ _ _ _ Hp) as [Ho _]%Forall_cons; by eapply old_nonzero).
  unfold pci_scan_device_function, deref. rewrite (proj2 (Z.eqb_neq _ 0)), Hr by done. cbn [mbind res_bind].
  rewrite Eb, En. set (b := i_bus (info x)) in *. set (d := i_number (info x)) in *.
  destruct (config_ok (pci_get_device_id b d f) (id_of cfg b d f) s (get_id_ok b d f)) as [p1 ->].
  destruct (config_ok (pci_get_class_code b d f) (word cfg b d f 0x08) (set_hw s p1) (readl_ok b d f 0x08)) as [p2 ->].
  cbv zeta. change (set_hw (set_hw s p1) p2) with (set_hw s p2).
  unfold function_spec in Hspec. change (Z.shiftr (Z.land (word cfg b d f 8) 4278190080) 24) with (class_of cfg b d f).
  change (Z.shiftr (Z.land (word cfg b d f 8) 16711680) 16) with (subclass_of cfg b d f).
  change ((class_of cfg b d f =? 6) && (subclass_of cfg b d f =? 4)) with (is_bridge cfg b d f).
  destruct (is_bridge cfg b d f).
  - destruct (config_ok (pci_get_secondary_bus_number b d f) (secondary_of cfg b d f) (set_hw s p2)
      (get_secondary_ok b d f)) as [p3 ->]. change (set_hw (set_hw s p2) p3) with (set_hw s p3).
    destruct (spec (secondary_of cfg b d f)) as [l|] eqn:El; [|done]. injection Hspec as <- <-.
    destruct (Hs _ _ (set_hw s p3) L El) as (s' & new & -> & Hg & Hi); [by apply listed_hw|].
    exists s', new, x. split; [done|]. split; [by eapply grown_weaken, grown_hw|]. split; [done|].
    split; [|split; [done|]].
    + eapply pend_frame; [by apply pend_hw|]. exact Hg.
    + unfold add_functions. rewrite app_nil_r. by destruct (info x).
  - injection Hspec as <- <-. cbn [malloc_node].
    set (g := Func _ _ _ _ _ _ _ _ _).
    destruct (append_function_ok n (set_hw s p2) L x g) as (s' & Hs' & Hg & Hp'); try done.
    { by apply listed_hw. } { by apply pend_hw. }
    exists s', [], (Found (at_ x) (add_functions (info x) [fn_view g]) (fn_at x ++ [alloc (allocs s)])).
    split; [exact Hs'|]. split; [by eapply grown_hw|]. split; [done|]. rewrite app_nil_r. split; [exact Hp'|done].
Qed.

Lemma add_functions_app i l k : add_functions (add_functions i l) k = add_functions i (l ++ k).
Proof. unfold add_functions. cbn. by rewrite app_assoc. Qed.

(** The functions 1 to 7. *)
Lemma scan_functions_ok n b d scan spec k lo : ∀ s L x l,
  scans scan spec → listed s L → pend n s L x → (n ≤ allocs s)%nat → i_bus (info x) = b → i_number (info x) = d →
  mapM (function_spec cfg spec b d) (filter (λ f, present cfg b d f = true) (seqZ lo (Z.of_nat k))) = Some l →
  ∃ s' new x', for_up k lo (λ function s,
      let '(devid, s) := config (pci_get_device_id b d function) s in
      if negb (devid =? 0xFFFFFFFF) then pci_scan_device_function alloc junk scan (at_ x) function s
      else Ok s) s = Ok s' ∧ grown n s L s' new ∧
    map info new = concat (map fst l) ∧ pend n s' (L ++ new) x' ∧ at_ x' = at_ x ∧
    info x' = add_functions (info x) (concat (map snd l)).
Proof.
  revert lo. induction k as [|k IH]; intros lo s L x l Hs Hli Hp Hn Hb Hd Hl.
  { injection Hl as <-. exists s, [], x. split; [done|]. split; [by apply grown_refl|]. split; [done|].
    rewrite app_nil_r. split; [done|]. split; [done|]. unfold add_functions. cbn. rewrite app_nil_r. by destruct (info x). }
  rewrite seqZ_cons in Hl by lia. replace (Z.pred (Z.of_nat (S k))) with (Z.of_nat k) in Hl by lia.
  change (Z.succ lo) with (lo + 1) in Hl. rewrite filter_cons in Hl. cbn [for_up].
  destruct (config_ok (pci_get_device_id b d lo) (id_of cfg b d lo) s (get_id_ok b d lo)) as [p ->].
  change (negb (id_of cfg b d lo =? 4294967295)) with (present cfg b d lo).
  destruct (decide (present cfg b d lo = true)) as [Hpr|Hpr%not_true_is_false]; rewrite Hpr; cycle 1.
  - cbn [mbind res_bind].
    destruct (IH (lo + 1) (set_hw s p) L x l) as (s' & new & x' & Hf & Hg & Hr); try done;
      [by apply listed_hw|by apply pend_hw|].
    exists s', new, x'. split; [exact Hf|]. split; [by eapply grown_hw|exact Hr].
  - cbn [mapM] in Hl.
    destruct (function_spec cfg spec b d lo) as [[dl fl]|] eqn:Ef; [|done]. cbn [mbind option_bind] in Hl.
    destruct (mapM _ _) as [l'|] eqn:El; [|done]. injection Hl as <-.
    destruct (scan_function_ok n (set_hw s p) L x lo dl fl scan spec) as (s1 & n1 & x1 & -> & Hg1 & Hi1 & Hp1 & Ha1 & Hx1);
      [done|by apply listed_hw|by apply pend_hw|done|by rewrite Hb, Hd|].
    cbn [mbind res_bind]. pose proof (gr_listed _ _ _ _ _ Hg1) as Hli1. pose proof (gr_allocs _ _ _ _ _ Hg1) as Hal. cbn in Hal.
    destruct (IH (lo + 1) s1 (L ++ n1) x1 l') as (s' & n2 & x' & Hf & Hg2 & Hi2 & Hp2 & Ha2 & Hx2);
      try done; [lia|by rewrite Hx1|by rewrite Hx1|].
    rewrite Ha1 in *. exists s', (n1 ++ n2), x'. split; [exact Hf|].
    split; [eapply grown_trans; [by eapply grown_hw|done]|]. split; [by rewrite map_app, Hi1, Hi2|].
    rewrite app_assoc. split; [done|]. split; [congruence|].
    rewrite Hx2, Hx1, add_functions_app. done.
Qed.

(** The list is changed at the links of its nodes only. *)
Lemma dev_ok_link ds ds' fs y :
  (∃ r, ds !! at_ y = Some r ∧ ∃ r', ds' !! at_ y = Some r' ∧ dev_functions r' = dev_functions r ∧
     dev_bus r' = dev_bus r ∧ dev_number r' = dev_number r ∧ dev_vendor_id r' = dev_vendor_id r ∧
     dev_device_id r' = dev_device_id r) →
  dev_ok ds fs y → dev_ok ds' fs y.
Proof.
  intros (r & Hr & r' & Hr' & E1 & E2 & E3 & E4 & E5) (r0 & Hr0 & Hi & Hl). rewrite Hr in Hr0. injection Hr0 as <-.
  exists r'. split; [done|]. unfold dev_is in *. by rewrite E1, E2, E3, E4, E5.
Qed.

(** The stores that link a node behind the last one. *)
Lemma dev_link (ds : gmap Z pci_device_t) z dev rz rx :
  z ≠ 0 → dev ≠ 0 → z ≠ dev → ds !! z = Some rz → ds !! dev = Some rx →
  ∃ m, (m ← update ds z (dev_set_next dev); update m dev (dev_set_prev z)) = Ok m ∧
    m !! z = Some (dev_set_next dev rz) ∧ m !! dev = Some (dev_set_prev z rx) ∧
    ∀ p, p ≠ z → p ≠ dev → m !! p = ds !! p.
Proof.
  intros Hz Hd Hzd Ez Ed. unfold update, deref.
  rewrite (proj2 (Z.eqb_neq z 0)), Ez by done. cbn [mbind res_bind].
  rewrite (proj2 (Z.eqb_neq dev 0)), lookup_insert_ne, Ed by done. cbn [mbind res_bind].
  eexists. split; [done|]. split; [by rewrite lookup_insert_ne, lookup_insert_eq|].
  split; [apply lookup_insert_eq|]. intros p Hp Hp'. by rewrite !lookup_insert_ne.
Qed.

Lemma dev_ok_linked ds m fs z dev rz rx y :
  ds !! z = Some rz → ds !! dev = Some rx → m !! z = Some (dev_set_next dev rz) → m !! dev = Some (dev_set_prev z rx) →
  (∀ p, p ≠ z → p ≠ dev → m !! p = ds !! p) → dev_ok ds fs y → dev_ok m fs y.
Proof.
  intros Ez Ed Mz Mx Mo Hok. pose proof Hok as (r & Er & _). revert Hok. apply dev_ok_link. exists r. split; [done|].
  destruct (decide (at_ y = z)) as [E|]; [rewrite E, Ez in Er; injection Er as <-; exists (dev_set_next dev rz); by rewrite E|].
  destruct (decide (at_ y = dev)) as [E|]; [rewrite E, Ed in Er; injection Er as <-; exists (dev_set_prev z rx); by rewrite E|].
  exists r. by rewrite Mo.
Qed.

Lemma append_device_ok n s L x :
  listed s L → pend n s L x → (n ≤ allocs s)%nat →
  ∃ s', append_device s (at_ x) = Ok s' ∧ grown n s L s' [x].
Proof.
  intros [I1 I2 I3 I4 I5 I6] [P1 P2 P3 P4 P5 P6] Hn.
  pose proof P3 as [Hox Hof]%Forall_cons. pose proof P4 as [Hnx Hnf]%Forall_cons.
  assert (Hx0 : at_ x ≠ 0) by (by eapply old_nonzero).
  assert (H0L : 0 ∉ map at_ L).
  { intros Hin. rewrite Forall_forall in I5. by apply (old_nonzero _ _ (I5 0 Hin)). }
  unfold append_device. rewrite I2, last_node_ok by done. cbn [mbind res_bind].
  assert (Hnodup : NoDup (map at_ L ++ [at_ x])).
  { apply NoDup_app. split; [done|]. split; [|apply NoDup_singleton]. set_solver. }
  assert (Hold : ∀ k, (allocs s ≤ k)%nat → Forall (old k) (map at_ (L ++ [x])) ∧
            Forall (λ y, Forall (old k) (fn_at y)) (L ++ [x])).
  { intros k Hk. rewrite map_app. split; apply Forall_app; split.
    - eapply Forall_impl; [exact I5|]. intros p. by apply old_mono.
    - repeat constructor. by eapply old_mono.
    - eapply Forall_impl; [exact I6|]. intros y Hy. eapply Forall_impl; [exact Hy|]. intros p. by apply old_mono.
    - repeat constructor. eapply Forall_impl; [exact Hof|]. intros p. by apply old_mono. }
  destruct (Hold (allocs s)) as [Ho1 Ho2]; [done|]. clear Hold.
  destruct (last (map at_ L)) as [z|] eqn:Ez.
  - assert (Hz : z ∈ map at_ L) by (by apply last_Some_elem_of).
    change (default 0 (Some z)) with z. assert (Hz0 : z ≠ 0) by (by intros ->).
    rewrite (proj2 (Z.eqb_neq z 0)) by done. cbn [negb].
    assert (Hzx : z ≠ at_ x) by (by intros ->).
    destruct (path_mem _ _ _ _ I1 Hz) as [nz Enz]. unfold nx in Enz.
    destruct (dev_store s !! z) as [rz|] eqn:Erz; [|done]. clear Enz nz.
    destruct P1 as (rx & Erx & Hix & Hlx).
    destruct (dev_link _ _ _ _ _ Hz0 Hx0 Hzx Erz Erx) as (m & Hm & Mz & Mx & Mo).
    apply bind_ok in Hm as (m1 & -> & Hm). cbn [mbind res_bind]. rewrite Hm. cbn [mbind res_bind].
    eexists. split; [done|]. split; cbn; try done.
    + split; cbn; try done.
      * rewrite map_app. eapply path_snoc; [done|done| | | |done]; unfold nx.
        -- intros a Ha Haz. rewrite Mo; [done|done|by intros ->].
        -- by rewrite Mz.
        -- rewrite Mx. unfold nx in P2. rewrite Erx in P2. done.
      * rewrite map_app, I2. by destruct (map at_ L).
      * by rewrite map_app.
      * apply Forall_app. split.
        -- rewrite Forall_forall in *. intros y Hy. eapply dev_ok_linked; [exact Erz|exact Erx|done|done|done|by apply I4].
        -- repeat constructor. eapply dev_ok_linked; [exact Erz|exact Erx|done|done|done|]. by exists rx.
    + intros p Hp HL. apply Mo; [by intros ->|by intros ->].
    + repeat constructor; done.
  - apply last_None in Ez. rewrite Ez in *. destruct L; [|done]. cbn [default from_option negb Z.eqb].
    eexists. split; [done|]. split; cbn; try done.
    + split; cbn; try done; first [apply NoDup_singleton | by repeat constructor].
    + repeat constructor; done.
Qed.

(** The count of devices is not part of the lists. *)
Lemma grown_count n s L s' new c :
  grown n s L s' new → grown n s L (Pci c (pci_devices s') (dev_store s') (func_store s') (allocs s') (hw s')) new.
Proof.
  intros [H1 H2 H3 H4 H5 H6]. split; try done. by eapply listed_frame.
Qed.

(** A new device, without functions. *)
Lemma new_device_ok s L b d v i :
  listed s L → let dev := alloc (allocs s) in
  ∃ m, init_node (dev_store s) dev (Dev 0 0 b d v i 0) = Ok m ∧
    let s' := set_devs (malloc_node alloc s).2 m in
    grown (allocs s) s L s' [] ∧ pend (allocs s) s' L (Found dev (DevInfo b d v i []) []).
Proof.
  intros Hli dev. unfold init_node. rewrite (proj2 (Z.eqb_neq dev 0)) by apply Hnz.
  eexists. split; [done|]. cbn zeta.
  assert (Hdev : ¬ old (allocs s) dev) by (by apply old_fresh).
  assert (HL : dev ∉ map at_ L).
  { intros Hin. apply Hdev. pose proof (li_old _ _ Hli) as Ho. rewrite Forall_forall in Ho. by apply Ho. }
  split; split; cbn; try done; try lia.
  - rewrite app_nil_r. eapply listed_frame; [done|cbn; lia|done| |done]. intros y Hy. cbn.
    rewrite lookup_insert_ne; [done|]. intros ->. apply HL. by apply list_elem_of_fmap_2.
  - intros p Hp _. rewrite lookup_insert_ne; [done|]. by intros <-.
  - exists (Dev 0 0 b d v i 0). cbn. rewrite lookup_insert_eq. split; [done|]. split; [done|].
    split; try done; first [apply NoDup_nil_2 | set_solver].
  - unfold nx. by rewrite lookup_insert_eq.
  - repeat constructor. apply old_last.
  - by repeat constructor.
  - set_solver.
Qed.

(** The rest of the functions of a device with several. *)
Lemma rest_functions_ok n b d scan spec s L x l p :
  scans scan spec → listed s L → pend n s L x → (n ≤ allocs s)%nat → i_bus (info x) = b → i_number (info x) = d →
  mapM (function_spec cfg spec b d)
    (if multi cfg b d then filter (λ f, present cfg b d f = true) [1; 2; 3; 4; 5; 6; 7] else []) = Some l →
  ∃ s' new x', (if multi cfg b d then
       for_up 7 1 (λ function s,
         let '(devid, s) := config (pci_get_device_id b d function) s in
         if negb (devid =? 0xFFFFFFFF) then pci_scan_device_function alloc junk scan (at_ x) function s
         else Ok s) (set_hw s p) else Ok (set_hw s p)) = Ok s' ∧
    grown n s L s' new ∧ map info new = concat (map fst l) ∧
    pend n s' (L ++ new) x' ∧ at_ x' = at_ x ∧ info x' = add_functions (info x) (concat (map snd l)).
Proof.
  intros Hs Hli Hp Hn Hb Hd Hl. destruct (multi cfg b d).
  - destruct (scan_functions_ok n b d scan spec 7 1 (set_hw s p) L x l) as (s' & new & x' & H4 & Hg4 & Hr);
      [done|by apply listed_hw|by apply pend_hw|done|done|done|exact Hl|].
    exists s', new, x'. split; [exact H4|]. split; [by eapply grown_hw|done].
  - injection Hl as <-. exists (set_hw s p), [], x. split; [done|].
    split; [eapply (grown_hw _ _ _ _ _ p), grown_refl; [done|by apply listed_hw]|]. split; [done|].
    rewrite app_nil_r. split; [by apply pend_hw|]. split; [done|]. unfold add_functions. cbn. rewrite app_nil_r. by destruct (info x).
Qed.

Lemma scan_device_ok scan spec b d s L l :
  scans scan spec → device_spec cfg spec b d = Some l → listed s L →
  ∃ s' new, pci_scan_device alloc junk scan b d s = Ok s' ∧ grown (allocs s) s L s' new ∧ map info new = l.
Proof.
  intros Hs Hl Hli. unfold pci_scan_device.
  destruct (config_ok (pci_get_device_id b d 0) (id_of cfg b d 0) s (get_id_ok b d 0)) as [p ->].
  cbv zeta. unfold device_spec, present in Hl. destruct (id_of cfg b d 0 =? 4294967295); cbn [negb] in Hl.
  { injection Hl as <-. exists (set_hw s p), []. split; [done|]. split; [|done].
    eapply (grown_hw _ _ _ _ _ p), grown_refl; [done|by apply listed_hw]. }
  unfold functions_of in Hl. cbn [mapM] in Hl.
  destruct (function_spec cfg spec b d 0) as [[dl0 fl0]|] eqn:E0; [|done]. cbn [mbind option_bind] in Hl.
  destruct (mapM _ _) as [l'|] eqn:El; [|done]. injection Hl as <-.
  cbn [malloc_node]. set (n := allocs s). fold (id_vendor (id_of cfg b d 0)). fold (id_device (id_of cfg b d 0)).
  destruct (new_device_ok (set_hw s p) L b d (id_vendor (id_of cfg b d 0)) (id_device (id_of cfg b d 0)))
    as (m & Hm & Hg0 & Hp0); [by apply listed_hw|]. cbn [set_hw allocs dev_store malloc_node snd] in *.
  fold n in Hm, Hg0, Hp0 |- *. rewrite Hm. cbn [mbind res_bind]. clear Hm.
  set (s1 := set_devs _ m) in *. set (x0 := Found _ _ _) in *.
  pose proof (gr_listed _ _ _ _ _ Hg0) as Hli1. rewrite app_nil_r in Hli1.
  assert (Hn1 : (n ≤ allocs s1)%nat) by (cbn; lia).
  destruct (scan_function_ok n s1 L x0 0 dl0 fl0 scan spec) as (s2 & n2 & x2 & Hs2 & Hg2 & Hi2 & Hp2 & Ha2 & Hx2); [done..|].
  cbn [x0 at_] in Hs2. rewrite Hs2. cbn [mbind res_bind]. clear Hs2.
  destruct (config_ok (pci_get_header_type b d 0) (Z.land (half cfg b d 0 0x0E) 0xFF) s2 (get_header_ok b d)) as [p3 ->].
  pose proof (gr_listed _ _ _ _ _ Hg2) as Hli2. pose proof (gr_allocs _ _ _ _ _ Hg2) as Hn2.
  destruct (rest_functions_ok n b d scan spec s2 (L ++ n2) x2 l' p3) as (s4 & n4 & x4 & Hs4 & Hg4 & Hi4 & Hp4 & Ha4 & Hx4);
    [done|done|done|lia|by rewrite Hx2|by rewrite Hx2|exact El|].
  fold (multi cfg b d). rewrite Ha2 in *. cbn [x0 at_] in *. rewrite Hs4. cbn [mbind res_bind]. clear Hs4.
  pose proof (gr_listed _ _ _ _ _ Hg4) as Hli4. pose proof (gr_allocs _ _ _ _ _ Hg4) as Hn4.
  destruct (append_device_ok n s4 ((L ++ n2) ++ n4) x4) as (s5 & Hs5 & Hg5); [done|done|lia|].
  rewrite Ha4 in Hs5. rewrite Hs5. cbn [mbind res_bind].
  eexists _, (n2 ++ n4 ++ [x4]). split; [done|]. split.
  - apply grown_count. apply (grown_hw _ _ _ _ _ p). apply (grown_trans n _ L s1 []); [done|]. rewrite app_nil_r.
    eapply grown_trans; [done|]. eapply grown_trans; done.
  - rewrite !map_app, Hi2, Hi4. cbn [map]. rewrite Hx4, Hx2. cbn [x0 info]. unfold add_functions. cbn.
    by rewrite <- app_assoc.
Qed.

Lemma scan_bus_ok depth : scans (pci_scan_bus alloc junk depth) (bus_spec cfg depth).
Proof.
  induction depth as [|depth IH]; intros b l s L Hl Hli; [done|]. cbn [bus_spec pci_scan_bus] in *.
  destruct (mapM _ _) as [ls|] eqn:El; [|done]. injection Hl as <-. revert El.
  change (seqZ 0 32) with (seqZ 0 (Z.of_nat 32)). generalize 32%nat as k, 0 as lo.
  assert (Hgen : ∀ k lo s L ls n, (n ≤ allocs s)%nat → listed s L →
    mapM (device_spec cfg (bus_spec cfg depth) b) (seqZ lo (Z.of_nat k)) = Some ls →
    ∃ s' new, for_up k lo (λ device, pci_scan_device alloc junk (pci_scan_bus alloc junk depth) b device) s = Ok s' ∧
      grown n s L s' new ∧ map info new = concat ls).
  { clear s L ls Hli. induction k as [|k IHk]; intros lo s L ls n Hn Hli El.
    - injection El as <-. exists s, []. split; [done|]. split; [by apply grown_refl|done].
    - rewrite seqZ_cons in El by lia. replace (Z.pred (Z.of_nat (S k))) with (Z.of_nat k) in El by lia.
      change (Z.succ lo) with (lo + 1) in El. cbn [mapM] in El.
      destruct (device_spec _ _ _ lo) as [l1|] eqn:E1; [|done]. cbn [mbind option_bind] in El.
      destruct (mapM _ _) as [l2|] eqn:E2; [|done]. injection El as <-. cbn [for_up].
      destruct (scan_device_ok _ _ _ _ s L _ IH E1 Hli) as (s1 & n1 & -> & Hg1 & Hi1). cbn [mbind res_bind].
      pose proof (gr_allocs _ _ _ _ _ Hg1).
      destruct (IHk (lo + 1) s1 (L ++ n1) l2 n) as (s2 & n2 & H2 & Hg2 & Hi2); [lia|apply Hg1|done|].
      exists s2, (n1 ++ n2). split; [done|]. split; [|by rewrite map_app, Hi1, Hi2].
      eapply grown_trans; [by eapply grown_weaken|done]. }
  intros k lo El. by apply (Hgen k lo s L ls (allocs s)).
Qed.

Lemma pci_scan_ok depth s L l :
  machine_spec cfg depth = Some l → listed s L →
  ∃ s' new, pci_scan alloc junk depth s = Ok s' ∧ listed s' (L ++ new) ∧ map info new = l.
Proof.
  intros Hl Hli. unfold pci_scan, machine_spec in *.
  destruct (config_ok (pci_get_header_type 0 0 0) (Z.land (half cfg 0 0 0 0x0E) 0xFF) s (get_header_ok 0 0)) as [p ->].
  unfold multi in Hl. destruct (Z.land _ 128 =? 0); cbn [negb] in Hl.
  { destruct (scan_bus_ok depth 0 l (set_hw s p) L Hl) as (s' & new & Hs & Hg & Hi); [by apply listed_hw|].
    exists s', new. split; [done|]. split; [by apply (gr_listed _ _ _ _ _ Hg)|done]. }
  unfold present in Hl. destruct (id_of cfg 0 0 0 =? 4294967295) eqn:Eid; cbn [negb] in Hl.
  { injection Hl as <-. cbn [while]. cbn [Z.ltb Z.compare].
    destruct (config_ok (pci_get_device_id 0 0 0) (id_of cfg 0 0 0) (set_hw s p) (get_id_ok 0 0 0)) as [p2 ->].
    rewrite Eid. exists (set_hw s p2), []. split; [done|]. rewrite app_nil_r. split; [by apply listed_hw|done]. }
  destruct (mapM _ _) as [ls|] eqn:El; [|done]. injection Hl as <-.
  assert (Hgen : ∀ k lo s L ls, lo + Z.of_nat k = 8 → listed s L →
    mapM (bus_spec cfg depth) (seqZ lo (Z.of_nat k)) = Some ls →
    ∃ s' new, while (S k) (λ fs : Z * t P, let '(function, s) := fs in
         if function <? 8 then
           let '(devid, s) := config (pci_get_device_id 0 0 0) s in
           if devid =? 0xFFFFFFFF then Ok (Break s)
           else s ← pci_scan_bus alloc junk depth function s; Ok (Continue (function + 1, s))
         else Ok (Break s)) (lo, s) = Ok s' ∧ listed s' (L ++ new) ∧ map info new = concat ls).
  { clear - Hhost Hinj Hnz Eid. induction k as [|k IH]; intros lo s L ls Hlo Hli El; cbn [while].
    - injection El as <-. rewrite (proj2 (Z.ltb_ge lo 8)) by lia. exists s, []. rewrite app_nil_r. done.
    - rewrite seqZ_cons in El by lia. replace (Z.pred (Z.of_nat (S k))) with (Z.of_nat k) in El by lia.
      change (Z.succ lo) with (lo + 1) in El. cbn [mapM] in El.
      destruct (bus_spec cfg depth lo) as [l1|] eqn:E1; [|done]. cbn [mbind option_bind] in El.
      destruct (mapM _ _) as [l2|] eqn:E2; [|done]. injection El as <-.
      rewrite (proj2 (Z.ltb_lt lo 8)) by lia.
      destruct (config_ok (pci_get_device_id 0 0 0) (id_of cfg 0 0 0) s (get_id_ok 0 0 0)) as [p2 ->]. rewrite Eid.
      destruct (scan_bus_ok depth lo l1 (set_hw s p2) L E1) as (s1 & n1 & -> & Hg & Hi); [by apply listed_hw|].
      cbn [mbind res_bind]. destruct (IH (lo + 1) s1 (L ++ n1) l2) as (s2 & n2 & H2 & Hl2 & Hi2); [lia|apply Hg|done|].
      exists s2, (n1 ++ n2). rewrite app_assoc. split; [exact H2|]. split; [done|]. by rewrite map_app, Hi, Hi2. }
  apply (Hgen 8%nat 0 (set_hw s p) L ls); [done|by apply listed_hw|done].
Qed.

(** ** The report *)

Fixpoint lines_from (i : nat) (l : list fn_info) : list line :=
  match l with [] => [] | f :: l => line_of i f :: lines_from (S i) l end.

Lemma lines_from_app i l k : lines_from i (l ++ k) = lines_from i l ++ lines_from (i + length l) k.
Proof.
  revert i. induction l as [|f l IH]; intros i; cbn; [by rewrite Nat.add_0_r|]. rewrite IH. do 3 f_equal. lia.
Qed.

Lemma report_spec_lines l : report_spec l = lines_from 0 (concat (map i_functions l)).
Proof.
  unfold report_spec. enough (∀ k i, imap (λ j f, line_of (i + j) f) k = lines_from i k) as He by apply (He _ 0%nat).
  intros k. induction k as [|f k IH]; intros i; [done|]. cbn. rewrite Nat.add_0_r. f_equal.
  rewrite <- IH. apply imap_ext. intros j x _. cbn. f_equal. lia.
Qed.

Lemma report_functions_ok (s : t P) dev first ps l i :
  fn_list (func_store s) dev first ps l →
  report_functions s first (Z.of_nat i) = Ok (lines_from i l, Z.of_nat (i + length l)).
Proof.
  intros [H1 -> H3 H4 H5]. unfold report_functions.
  assert (Hf : (length ps < S (size (func_store s)))%nat) by (pose proof (path_size _ _ _ _ H1 H3); lia).
  enough (∀ fuel out i, (length ps < fuel)%nat →
    while fuel (λ st : Z * list line * Z, let '(func, out, i) := st in
       if func =? 0 then Ok (Break (out, i))
       else f ← deref (func_store s) func; Ok (Continue (fn_next f, out ++ [function_line i f], i + 1)))
      (hd 0 ps, out, Z.of_nat i) = Ok (out ++ lines_from i l, Z.of_nat (i + length l))) as He by (by apply He).
  clear H3 Hf i. induction H5 as [|p g ps l (f & Hp & _ & Hv) H5 IH]; intros fuel out i Hf;
    (destruct fuel as [|fuel]; [cbn in Hf; lia|]); cbn [while hd].
  { cbn. by rewrite app_nil_r, Nat.add_0_r. }
  apply not_elem_of_cons in H4 as [Hp0 H4]. destruct H1 as [Hn H1].
  rewrite (proj2 (Z.eqb_neq p 0)) by done. unfold deref. rewrite (proj2 (Z.eqb_neq p 0)), Hp by done. cbn [mbind res_bind].
  unfold nx in Hn. rewrite Hp in Hn. injection Hn as ->. replace (Z.of_nat i + 1) with (Z.of_nat (S i)) by lia.
  rewrite IH by (done || (cbn in Hf; lia)). rewrite <- app_assoc. subst g. do 3 f_equal. cbn. lia.
Qed.

Lemma report_devices_ok (s : t P) L : listed s L → report_devices s = Ok (report_spec (map info L)).
Proof.
  intros [H1 H2 H3 H4 H5 _]. rewrite report_spec_lines. unfold report_devices. rewrite H2.
  assert (Hf : (length L < S (size (dev_store s)))%nat).
  { pose proof (path_size _ _ _ _ H1 H3) as Hp. rewrite length_map in Hp. lia. }
  enough (∀ fuel out i, (length L < fuel)%nat →
    while fuel (λ st : Z * list line * Z, let '(dev, out, i) := st in
       if dev =? 0 then Ok (Break out)
       else
         d ← deref (dev_store s) dev;
         '(l, i) ← report_functions s (dev_functions d) i;
         Ok (Continue (dev_next d, out ++ l, i)))
    (hd 0 (map at_ L), out, Z.of_nat i) = Ok (out ++ lines_from i (concat (map i_functions (map info L))))) as He by (by apply (He _ [] 0%nat)).
  clear H2 H3 Hf. induction L as [|x L IH]; intros fuel out i Hf; (destruct fuel as [|fuel]; [cbn in Hf; lia|]); cbn [while hd map].
  { cbn. by rewrite app_nil_r. }
  apply Forall_cons in H4 as [(r & Hr & _ & Hl) H4]. apply Forall_cons in H5 as [Ho H5]. destruct H1 as [Hn H1].
  pose proof (old_nonzero _ _ Ho) as Hx0.
  rewrite (proj2 (Z.eqb_neq (at_ x) 0)) by done.
  assert (deref (dev_store s) (at_ x) = Ok r) as -> by (unfold deref; by rewrite (proj2 (Z.eqb_neq _ _)), Hr).
  cbn [mbind res_bind]. rewrite (report_functions_ok s _ _ _ _ _ Hl). cbn [mbind res_bind].
  unfold nx in Hn. rewrite Hr in Hn. injection Hn as ->.
  rewrite IH by (done || (cbn in Hf; lia)). cbn [concat]. by rewrite lines_from_app, app_assoc.
Qed.

Lemma init_ok depth s l :
  machine_spec cfg depth = Some l →
  ∃ s' L, pci_init alloc junk depth s = Ok (report_spec l, s') ∧ listed s' L ∧ map info L = l.
Proof.
  intros Hl. unfold pci_init.
  assert (Hli : listed (set_first s 0) []) by (split; try done; apply NoDup_nil_2).
  destruct (pci_scan_ok depth _ [] l Hl Hli) as (s' & L & -> & HL & <-). cbn [mbind res_bind app] in *.
  rewrite (report_devices_ok s' L HL). exists s', L. done.
Qed.

(** A loop that returns has run each of its turns. *)
Lemma for_up_turn {S} n lo (body : Z → S → res S) s r i :
  for_up n lo body s = Ok r → lo ≤ i < lo + Z.of_nat n → ∃ s1 s2, body i s1 = Ok s2.
Proof.
  revert lo s. induction n as [|n IH]; intros lo s Hf Hi; [lia|]. cbn [for_up] in Hf.
  apply bind_ok in Hf as (s' & Hb & Hf). destruct (decide (i = lo)) as [->|]; [eauto|]. eapply IH; [exact Hf|lia].
Qed.

Lemma own_bus_ok depth b d s r :
  0 ≤ d < 32 → present cfg b d 0 = true → is_bridge cfg b d 0 = true → secondary_of cfg b d 0 = b →
  pci_scan_bus alloc junk depth b s ≠ Ok r.
Proof using Hhost Hnz.
  intros Hd Hp Hb Hs. revert s r. induction depth as [|depth IH]; intros s r Hr; [done|]. cbn [pci_scan_bus] in Hr.
  apply (for_up_turn _ _ _ _ _ d) in Hr as (s1 & s2 & Hr); [|lia]. unfold pci_scan_device in Hr.
  destruct (config_ok (pci_get_device_id b d 0) (id_of cfg b d 0) s1 (get_id_ok b d 0)) as [p Ep]. rewrite Ep in Hr. clear Ep.
  unfold present in Hp. apply negb_true_iff in Hp. rewrite Hp in Hr. cbn [malloc_node] in Hr.
  unfold init_node in Hr. rewrite (proj2 (Z.eqb_neq (alloc _) 0)) in Hr by apply Hnz. cbn [mbind res_bind] in Hr.
  apply bind_ok in Hr as (s3 & Hr & _). unfold pci_scan_device_function, deref in Hr.
  rewrite (proj2 (Z.eqb_neq (alloc _) 0)) in Hr by apply Hnz. cbn [set_devs dev_store] in Hr.
  rewrite lookup_insert_eq in Hr. cbn [mbind res_bind dev_bus dev_number] in Hr.
  match type of Hr with context [config (pci_get_device_id b d 0) ?t] =>
    destruct (config_ok (pci_get_device_id b d 0) (id_of cfg b d 0) t (get_id_ok b d 0)) as [p1 Ep];
    rewrite Ep in Hr; clear Ep end.
  match type of Hr with context [config (pci_get_class_code b d 0) ?t] =>
    destruct (config_ok (pci_get_class_code b d 0) (word cfg b d 0 0x08) t (readl_ok b d 0 0x08)) as [p2 Ep];
    rewrite Ep in Hr; clear Ep end.
  cbv zeta in Hr. unfold is_bridge, class_of, subclass_of in Hb. rewrite Hb in Hr.
  match type of Hr with context [config (pci_get_secondary_bus_number b d 0) ?t] =>
    destruct (config_ok (pci_get_secondary_bus_number b d 0) (secondary_of cfg b d 0) t (get_secondary_ok b d 0)) as [p3 Ep];
    rewrite Ep in Hr; clear Ep end.
  rewrite Hs in Hr. by eapply IH.
Qed.

End host.

(** ** Termination *)

Section termination.
Variable cfg : Z → Z.

(** The bridges lead to buses with larger numbers. *)
Definition bridges_increase : Prop :=
  ∀ b d f, 0 ≤ b < 256 → 0 ≤ d < 32 → 0 ≤ f < 8 → present cfg b d f = true → is_bridge cfg b d f = true → b < secondary_of cfg b d f.

Lemma bus_spec_total depth b :
  bridges_increase → 0 ≤ b < 256 → 256 ≤ b + Z.of_nat depth → is_Some (bus_spec cfg depth b).
Proof.
  intros Hinc. revert b. induction depth as [|depth IH]; intros b Hb Hd; [lia|]. cbn [bus_spec].
  assert (Hfn : ∀ d f, 0 ≤ d < 32 → 0 ≤ f < 8 → present cfg b d f = true → is_Some (function_spec cfg (bus_spec cfg depth) b d f)).
  { intros d f Hdr Hfr Hp. unfold function_spec. destruct (is_bridge cfg b d f) eqn:Eb; [|eauto].
    specialize (Hinc b d f Hb Hdr Hfr Hp Eb). pose proof (u8_range (Z.shiftr (Z.land (word cfg b d f 0x18) 0xFF00) 8)).
    destruct (IH (secondary_of cfg b d f)) as [l ->]; [unfold secondary_of in *; lia|lia|]. cbn. eauto. }
  enough (is_Some (mapM (device_spec cfg (bus_spec cfg depth) b) (seqZ 0 32))) as [l ->] by (cbn; eauto).
  apply mapM_is_Some, Forall_forall. intros d Hdr%elem_of_seqZ. cbn. unfold device_spec.
  destruct (present cfg b d 0) eqn:Ep; [|eauto].
  enough (is_Some (mapM (function_spec cfg (bus_spec cfg depth) b d) (functions_of cfg b d))) as [l ->] by (cbn; eauto).
  apply mapM_is_Some, Forall_forall. intros f Hf. cbn.
  assert (0 ≤ f < 8 ∧ present cfg b d f = true) as [Hfr Hpr]; [|apply Hfn; [lia|done|done]].
  unfold functions_of in Hf.
  apply elem_of_cons in Hf as [->|Hf]; [done|]. destruct (multi cfg b d); [|by apply elem_of_nil in Hf].
  apply list_elem_of_filter in Hf as [? Hf]. split; [|done].
  repeat (apply elem_of_cons in Hf as [->|Hf]; [lia|]). by apply elem_of_nil in Hf.
Qed.

Lemma concat_Forall {A} (Q : A → Prop) (ls : list (list A)) : Forall (Forall Q) ls → Forall Q (concat ls).
Proof. induction 1 as [|l ls Hl _ IH]; cbn; [constructor|]. by apply Forall_app. Qed.

Lemma device_spec_complete spec b d l :
  (∀ b l, spec b = Some l → Forall (device_complete cfg) l) → device_spec cfg spec b d = Some l → Forall (device_complete cfg) l.
Proof.
  intros Hspec. unfold device_spec. destruct (present cfg b d 0) eqn:Hp; [|by intros [= <-]].
  destruct (mapM _ _) as [fs|] eqn:Hfs; [|done]. intros [= <-]. apply mapM_Some in Hfs.
  assert (Hall : Forall (Forall (device_complete cfg)) (map fst fs) ∧
    concat (map snd fs) = map (fn_spec cfg b d) (filter (λ f, is_bridge cfg b d f = false) (functions_of cfg b d))).
  { induction Hfs as [|f [dl fl] fns fs Hf _ [IH1 IH2]]; [by split; [constructor|]|]. unfold function_spec in Hf. cbn [map concat fst snd].
    rewrite IH2. destruct (is_bridge cfg b d f) eqn:Hb.
    - destruct (spec _) as [l|] eqn:Hl; [|done]. injection Hf as <- <-. rewrite filter_cons_False by congruence.
      split; [constructor; [by eapply Hspec|done]|done].
    - injection Hf as <- <-. rewrite filter_cons_True by done. split; [constructor; [constructor|done]|done]. }
  destruct Hall as [H1 H2]. apply Forall_app. split; [by apply concat_Forall|]. constructor; [|done]. by split.
Qed.

Lemma bus_spec_complete depth b l : bus_spec cfg depth b = Some l → Forall (device_complete cfg) l.
Proof.
  revert b l. induction depth as [|depth IH]; intros b l; [done|]. cbn [bus_spec].
  destruct (mapM _ _) as [ls|] eqn:Hls; [|done]. intros [= <-]. apply mapM_Some in Hls. apply concat_Forall.
  induction Hls as [|d l ds ls Hd _ IHl]; constructor; [|done]. by eapply device_spec_complete.
Qed.

Lemma machine_spec_complete depth l : machine_spec cfg depth = Some l → Forall (device_complete cfg) l.
Proof.
  unfold machine_spec. destruct (multi cfg 0 0); [|apply bus_spec_complete]. destruct (present cfg 0 0 0); [|by intros [= <-]].
  destruct (mapM _ _) as [ls|] eqn:Hls; [|done]. intros [= <-]. apply mapM_Some in Hls. apply concat_Forall.
  induction Hls as [|b l bs ls Hb _ IHl]; constructor; [|done]. by eapply bus_spec_complete.
Qed.

Lemma machine_spec_total : bridges_increase → is_Some (machine_spec cfg 256).
Proof.
  intros Hinc. unfold machine_spec. destruct (multi cfg 0 0); [|apply bus_spec_total; [done|lia|lia]].
  destruct (present cfg 0 0 0); [|eauto].
  enough (is_Some (mapM (bus_spec cfg 256) (seqZ 0 8))) as [l ->] by (cbn; eauto).
  apply mapM_is_Some, Forall_forall. intros b Hb%elem_of_seqZ. change (is_Some (bus_spec cfg 256 b)). apply bus_spec_total; [done|lia|lia].
Qed.

End termination.

(** ** Properties *)

(** A host bridge: the address port is a latch, the data port shows the double
    word of configuration space behind it. *)
Definition host_out (port val : Z) (s : Z) : Z := if port =? PCI_CONFIG_ADDRESS then val else s.
Definition host_in (cfg : Z → Z) (port : Z) (s : Z) : Z * Z :=
  (if port =? PCI_CONFIG_DATA then cfg s else 0xFFFFFFFF, s).
Definition host_bridge (cfg : Z → Z) : Ports Z := {|
  outb := host_out; outw := host_out; outl := host_out;
  inb := host_in cfg; inw := host_in cfg; inl := host_in cfg;
|}.

(** C16: on a machine whose bridges lead to buses with larger numbers, as firmware
    sets them up, and with memory for every node, pci_init ends within a stack of
    256 bridges.  It reports, and leaves in the device list, the devices bus by bus
    in the order of their numbers, those behind a PCI-to-PCI bridge before the
    device that has the bridge; of each device every function that answers is listed
    and reported except the PCI-to-PCI bridges themselves, which the code follows
    without recording them. *)
Theorem pci_init_reports {P} `{Ports P} (cfg : Z → Z) (alloc : nat → Z) (junk : Z) (s : t P) :
  (∀ a b p, (inl PCI_CONFIG_DATA (outb 128 b (outl PCI_CONFIG_ADDRESS a p))).1 = cfg a) →
  (∀ i j, alloc i = alloc j → i = j) → (∀ i, alloc i ≠ 0) → bridges_increase cfg →
  ∃ l s' L, machine_spec cfg 256 = Some l ∧ Forall (device_complete cfg) l ∧
    pci_init alloc junk 256 s = Ok (report_spec l, s') ∧ listed alloc s' L ∧ map info L = l.
Proof.
  intros Hhost Hinj Hnz Hinc. destruct (machine_spec_total cfg Hinc) as [l Hl].
  destruct (init_ok cfg alloc junk Hhost Hinj Hnz 256 s l Hl) as (s' & L & Hr). exists l, s', L.
  split; [done|]. split; [by eapply machine_spec_complete|done].
Qed.

(** A bridge whose secondary bus number is that of its own bus, for example
    one that firmware left at 0 on bus 0, makes the scan of the bus recurse
    without end: however deep the stack is, it does not return. *)
Theorem own_bus_bridge_diverges {P} `{Ports P} (cfg : Z → Z) (alloc : nat → Z) (junk : Z) depth b d (s : t P) :
  (∀ a b p, (inl PCI_CONFIG_DATA (outb 128 b (outl PCI_CONFIG_ADDRESS a p))).1 = cfg a) →
  (∀ i, alloc i ≠ 0) →
  0 ≤ d < 32 → present cfg b d 0 = true → is_bridge cfg b d 0 = true → secondary_of cfg b d 0 = b →
  is_ok (pci_scan_bus alloc junk depth b s) = false.
Proof.
  intros Hhost Hnz Hd Hp Hb Hs. destruct (pci_scan_bus alloc junk depth b s) as [r|] eqn:E; [|done].
  by destruct (own_bus_ok cfg alloc junk Hhost Hnz depth b d s r Hd Hp Hb Hs).
Qed.

(** ** Examples *)

(** Bus 0 has a host bridge and a bridge to bus [secondary], where the IDE
    controller is. *)
Definition demo_cfg (secondary a : Z) : Z :=
  if a =? 0x80000000 then 0x12378086
  else if a =? 0x80000008 then 0x06000002
  else if a =? 0x8000000C then 0
  else if a =? 0x80000800 then 0x70008086
  else if a =? 0x80000808 then 0x06040000
  else if a =? 0x8000080C then 0x00010000
  else if a =? 0x80000818 then secondary * 256
  else if a =? 0x80010000 then 0x70108086
  else if a =? 0x80010008 then 0x01018001
  else if a =? 0x8001000C then 0
  else 0xFFFFFFFF.

Definition demo_alloc (n : nat) : Z := 16 * Z.of_nat (S n).

Definition demo_pci : t Z := Pci 0 0 ∅ ∅ 0 0.

Lemma demo_increases : bridges_increase (demo_cfg 1).
Proof.
  intros b d f Hb Hd Hf _ Hi. unfold is_bridge, class_of, subclass_of, secondary_of, word in *.
  rewrite !config_address_sum in * by (lia || done).
  assert (b = 0 ∧ d = 1 ∧ f = 0) as (-> & -> & ->); [|done].
  revert Hi. unfold demo_cfg. repeat case_test; try (cbn; done); lia.
Qed.

Lemma demo_alloc_inj i j : demo_alloc i = demo_alloc j → i = j.
Proof. unfold demo_alloc. lia. Qed.

Lemma demo_alloc_nonzero i : demo_alloc i ≠ 0.
Proof. unfold demo_alloc. lia. Qed.

(** The report of the example: the bridge at device 1 is followed but not listed. *)
Lemma demo_report :
  option_map report_spec (machine_spec (demo_cfg 1) 256)
  = Some [(0, 0x8086, 0x1237, "Host Bridge"%string); (1, 0x8086, 0x7010, "IDE Controller"%string)].
Proof. vm_compute. reflexivity. Qed.

Lemma pci_init_reports_witness :
  ∃ s' L, pci_init (H := host_bridge (demo_cfg 1)) demo_alloc 0 256 demo_pci
      = Ok ([(0, 0x8086, 0x1237, "Host Bridge"%string); (1, 0x8086, 0x7010, "IDE Controller"%string)], s') ∧
    listed demo_alloc s' L ∧ Forall (device_complete (demo_cfg 1)) (map info L).
Proof.
  destruct (@pci_init_reports Z (host_bridge (demo_cfg 1)) (demo_cfg 1) demo_alloc 0 demo_pci) as (l & s' & L & Hl & Hc & Hi & Hli & HL);
    [done|exact demo_alloc_inj|exact demo_alloc_nonzero|exact demo_increases|].
  pose proof demo_report as Hr. rewrite Hl in Hr. injection Hr as Hr. exists s', L. rewrite HL.
  split; [rewrite <- Hr; exact Hi|]. split; [exact Hli|exact Hc].
Defined.

Lemma own_bus_bridge_diverges_witness :
  is_ok (pci_scan_bus (H := host_bridge (demo_cfg 0)) demo_alloc 0 1000 0 demo_pci) = false.
Proof.
  apply (@own_bus_bridge_diverges Z (host_bridge (demo_cfg 0)) (demo_cfg 0) demo_alloc 0 1000 0 1 demo_pci);
    [done|exact demo_alloc_nonzero|lia|reflexivity..].
Defined.
