(* ===== verification/Ide.v ===== *)
(** The PCI IDE driver: register access and detection of the drives.

    Source: kernel/arch/i386/kernel/drivers/ide/pci_ide.c, kernel/include/kernel/ata/ata.h.

    The driver runs over the PCI state of [Pci] (devices, functions, the ports
    [hw]) and keeps its controllers in a store of its own.  What it prints is a
    list of messages.  The detection is proved against ATA drives in AtaDrives.v. *)
From S2P Require Import Prelude Ports Pci.

Definition ATA_SR_BSY : Z := 0x80.
Definition ATA_SR_DRQ : Z := 0x08.
Definition ATA_SR_ERR : Z := 0x01.
Definition ATA_CMD_IDENTIFY_PACKET : Z := 0xA1.
Definition ATA_CMD_IDENTIFY : Z := 0xEC.
Definition ATA_IDENT_MODEL : Z := 54.
Definition ATA_REG_DATA : Z := 0x00.
Definition ATA_REG_LBA1 : Z := 0x04.
Definition ATA_REG_LBA2 : Z := 0x05.
Definition ATA_REG_HDDEVSEL : Z := 0x06.
Definition ATA_REG_COMMAND : Z := 0x07.
Definition ATA_REG_STATUS : Z := 0x07.
Definition ATA_REG_SECCOUNT1 : Z := 0x08.
Definition ATA_REG_CONTROL : Z := 0x0C.
Definition IDE_ATA : Z := 0x00.
Definition IDE_ATAPI : Z := 0x01.

Record pci_ide_channel_regs_t : Type := Regs { base : Z; ctrl : Z; bm_ide : Z; nien : Z }.

Record pci_ide_controller_t : Type := Controller {
  cprev : Z; cnext : Z; primary : pci_ide_channel_regs_t; secondary : pci_ide_channel_regs_t;
}.

Definition channel_regs (c : pci_ide_controller_t) (channel : Z) : pci_ide_channel_regs_t :=
  if channel =? 0 then primary c else secondary c.

(** The registers from 8 to 11 are behind the high-order bit of the control
    register. *)
Definition high_order (reg : Z) : bool := (ATA_REG_COMMAND <? reg) && (reg <? ATA_REG_CONTROL).

(** The port of a register, [None] from register 0x16 on. *)
Definition ide_port (r : pci_ide_channel_regs_t) (reg : Z) : option Z :=
  if reg <? ATA_REG_SECCOUNT1 then Some (u16 (base r + reg))
  else if reg <? ATA_REG_CONTROL then Some (u16 (base r + reg - 0x06))
  else if reg <? 0x0E then Some (u16 (ctrl r + reg - 0x0A))
  else if reg <? 0x16 then Some (u16 (bm_ide r + reg - 0x0E))
  else None.

Section registers.
Context {P : Type} `{Ports P}.

Definition ide_out (r : pci_ide_channel_regs_t) (reg data : Z) (p : P) : P :=
  match ide_port r reg with Some port => outb port (u8 data) p | None => p end.

(** The calls for the control register are not [high_order] themselves. *)
Definition pci_ide_write (c : pci_ide_controller_t) (channel reg data : Z) (p : P) : P :=
  let r := channel_regs c channel in
  let p := if high_order reg then ide_out r ATA_REG_CONTROL (Z.lor 0x80 (nien r)) p else p in
  let p := ide_out r reg data p in
  if high_order reg then ide_out r ATA_REG_CONTROL (nien r) p else p.

Definition pci_ide_read (c : pci_ide_controller_t) (channel reg : Z) (p : P) : Z * P :=
  let r := channel_regs c channel in
  let p := if high_order reg then pci_ide_write c channel ATA_REG_CONTROL (Z.lor 0x80 (nien r)) p else p in
  let '(result, p) := match ide_port r reg with Some port => inb port p | None => (0, p) end in
  let p := if high_order reg then pci_ide_write c channel ATA_REG_CONTROL (nien r) p else p in
  (result, p).

(** The words read, each in its four bytes. *)
Definition pci_buffer_read (reg size : Z) (p : P) : list Z * P :=
  let '(ws, p) := rep_in (inl reg) (Z.to_nat size) p in (ws ≫= le_put 4, p).

(** Every range of registers is read from [base]. *)
Definition buffer_port (r : pci_ide_channel_regs_t) (reg : Z) : option Z :=
  if reg <? ATA_REG_SECCOUNT1 then Some (u16 (base r + reg))
  else if reg <? ATA_REG_CONTROL then Some (u16 (base r + reg - 0x06))
  else if reg <? 0x0E then Some (u16 (base r + reg - 0x0A))
  else if reg <? 0x16 then Some (u16 (base r + reg - 0x0E))
  else None.

Definition pci_ide_read_buffer (c : pci_ide_controller_t) (channel reg size : Z) (p : P) : list Z * P :=
  let r := channel_regs c channel in
  let p := if high_order reg then pci_ide_write c channel ATA_REG_CONTROL (Z.lor 0x80 (nien r)) p else p in
  let '(bytes, p) := match buffer_port r reg with Some port => pci_buffer_read port size p | None => ([], p) end in
  let p := if high_order reg then pci_ide_write c channel ATA_REG_CONTROL (nien r) p else p in
  (bytes, p).

(** ** Detection *)

Inductive ide_msg : Type :=
  | Detecting
  | Channel (i : Z)
  | Position (j : Z)
  | NoDrive
  | Drive (name : list Z) (type : Z).

(** [scheduler_sleep(1)]. *)
Variable sleep : P → P.

(** The loop on the status: [true] for an error. *)
Definition wait_body (c : pci_ide_controller_t) (i : Z) (p : P) : res (ctl P (bool * P)) :=
  let '(status, p) := pci_ide_read c i ATA_REG_STATUS p in
  if negb (Z.land status ATA_SR_ERR =? 0) then Ok (Break (true, p))
  else if (Z.land status ATA_SR_BSY =? 0) && negb (Z.land status ATA_SR_DRQ =? 0) then Ok (Break (false, p))
  else Ok (Continue p).

(** The model name: the bytes of each 16-bit word swapped. *)
Fixpoint swap_pairs (l : list Z) : list Z :=
  match l with a :: b :: l => b :: a :: swap_pairs l | _ => l end.

Definition model_name (ide_buf : list Z) : list Z := swap_pairs (take 40 (drop (Z.to_nat ATA_IDENT_MODEL) ide_buf)).

(** One turn of the inner loop: the buffer, the output and the ports after it. *)
Definition detect_drive (fuel : nat) (c : pci_ide_controller_t) (i j : Z) (st : list Z * list ide_msg * P) :
    res (list Z * list ide_msg * P) :=
  let '(ide_buf, out, p) := st in
  let out := out ++ [Position j] in
  let p := pci_ide_write c i ATA_REG_HDDEVSEL (Z.lor 0xA0 (Z.shiftl j 4)) p in
  let p := sleep p in
  let p := pci_ide_write c i ATA_REG_COMMAND ATA_CMD_IDENTIFY p in
  let p := sleep p in
  let '(status, p) := pci_ide_read c i ATA_REG_STATUS p in
  if status =? 0 then Ok (ide_buf, out ++ [NoDrive], p)
  else
    '(err, p) ← while fuel (wait_body c i) p;
    let identify type p :=
      let '(bytes, p) := pci_ide_read_buffer c i ATA_REG_DATA 128 p in
      let ide_buf := bytes ++ drop (length bytes) ide_buf in
      Ok (ide_buf, out ++ [Drive (model_name ide_buf) type], p) in
    if (err : bool) then
      let '(cl, p) := pci_ide_read c i ATA_REG_LBA1 p in
      let '(ch, p) := pci_ide_read c i ATA_REG_LBA2 p in
      if ((cl =? 0x14) && (ch =? 0xEB)) || ((cl =? 0x69) && (ch =? 0x96)) then
        let p := pci_ide_write c i ATA_REG_COMMAND ATA_CMD_IDENTIFY_PACKET p in
        identify IDE_ATAPI (sleep p)
      else Ok (ide_buf, out ++ [NoDrive], p)
    else identify IDE_ATA p.

Definition detect_drives (fuel : nat) (c : pci_ide_controller_t) (st : list Z * list ide_msg * P) :
    res (list Z * list ide_msg * P) :=
  let '(ide_buf, out, p) := st in
  for_up 2 0
    (λ i st, let '(ide_buf, out, p) := st in
       for_up 2 0 (detect_drive fuel c i) (ide_buf, out ++ [Channel i], p))
    (ide_buf, out ++ [Detecting], p).

(** ** The controllers *)

Record ide_t : Type := Ide {
  pci : Pci.t P;
  controllers : gmap Z pci_ide_controller_t;
  ide_controllers : Z;
  ide_controllers_tail : Z;
  ide_buf : list Z;
  output : list ide_msg;
}.

Variable alloc : nat → Z.
(** [nien] of fresh memory; the code never sets it. *)
Variable junk : Z.

Definition bar_of (f : Z → Z → Z → P → Z * P) (bus slot func : Z) (p : P) : Z * P :=
  let '(v, p) := f bus slot func p in (Z.land v 0xFFFFFFFC, p).

Definition or_default (bar d : Z) : Z := u16 (if negb (bar =? 0) then bar else d).

Definition controller_of (bar0 bar1 bar2 bar3 bar4 : Z) : pci_ide_controller_t :=
  Controller 0 0 (Regs (or_default bar0 0x1F0) (or_default bar1 0x3F6) (u16 bar4) junk)
                 (Regs (or_default bar2 0x170) (or_default bar3 0x376) (u16 (bar4 + 8)) junk).

Definition pci_ide_initialize_controller (bus slot func : Z) (p : P) : pci_ide_controller_t * P :=
  let '(bar0, p) := bar_of pci_get_bar0 bus slot func p in
  let '(bar1, p) := bar_of pci_get_bar1 bus slot func p in
  let '(bar2, p) := bar_of pci_get_bar2 bus slot func p in
  let '(bar3, p) := bar_of pci_get_bar3 bus slot func p in
  let '(bar4, p) := bar_of pci_get_bar4 bus slot func p in
  let c := controller_of bar0 bar1 bar2 bar3 bar4 in
  let p := pci_ide_write c 0 ATA_REG_CONTROL 2 p in
  let p := pci_ide_write c 1 ATA_REG_CONTROL 2 p in
  (c, p).

Definition set_next (v : Z) (c : pci_ide_controller_t) : pci_ide_controller_t := Controller (cprev c) v (primary c) (secondary c).

Definition append_controller (s : ide_t) (a : Z) (c : pci_ide_controller_t) : res ide_t :=
  let tail := ide_controllers_tail s in
  if negb (tail =? 0) then
    m ← update (controllers s) tail (set_next a);
    m ← init_node m a (Controller tail 0 (primary c) (secondary c));
    Ok (Ide (pci s) m (ide_controllers s) a (ide_buf s) (output s))
  else
    m ← init_node (controllers s) a c;
    Ok (Ide (pci s) m a a (ide_buf s) (output s)).

Definition pci_ide_detect_devices (fuel : nat) (func : Z) (s : ide_t) : res ide_t :=
  f ← deref (func_store (pci s)) func;
  d ← deref (dev_store (pci s)) (fn_device f);
  let '(a, ps) := malloc_node alloc (pci s) in
  let '(c, p) := pci_ide_initialize_controller (dev_bus d) (dev_number d) (fn_number f) (hw ps) in
  s ← append_controller (Ide (set_hw ps p) (controllers s) (ide_controllers s) (ide_controllers_tail s) (ide_buf s) (output s)) a c;
  '(buf, out, p) ← detect_drives fuel c (ide_buf s, output s, hw (pci s));
  Ok (Ide (set_hw (pci s) p) (controllers s) (ide_controllers s) (ide_controllers_tail s) buf out).

(** The functions of a device, and the devices. *)
Definition init_functions (fuel : nat) (dev : Z) (s : ide_t) : res ide_t :=
  func ← pci_enumerate_functions (pci s) dev 0;
  while (S (S (size (func_store (pci s)))))
    (λ st : Z * ide_t, let '(func, s) := st in
       if func =? 0 then Ok (Break s)
       else
         d ← deref (dev_store (pci s)) dev;
         f ← deref (func_store (pci s)) func;
         let '(tmp, p) := pci_get_class_code (dev_bus d) (dev_number d) (fn_number f) (hw (pci s)) in
         let s := Ide (set_hw (pci s) p) (controllers s) (ide_controllers s) (ide_controllers_tail s) (ide_buf s) (output s) in
         let subclass := Z.shiftr (Z.land tmp 0xFF0000) 16 in
         let class_code := Z.shiftr (Z.land tmp 0xFF000000) 24 in
         s ← (if (class_code =? 0x01) && (subclass =? 0x01) then pci_ide_detect_devices fuel func s else Ok s);
         func ← pci_enumerate_functions (pci s) dev func;
         Ok (Continue (func, s))) (func, s).

Definition pci_ide_initialize (fuel : nat) (s : ide_t) : res ide_t :=
  let s := Ide (pci s) (controllers s) 0 0 (ide_buf s) (output s) in
  dev ← pci_enumerate_devices (pci s) 0;
  while (S (S (size (dev_store (pci s)))))
    (λ st : Z * ide_t, let '(dev, s) := st in
       if dev =? 0 then Ok (Break s)
       else
         s ← init_functions fuel dev s;
         dev ← pci_enumerate_devices (pci s) dev;
         Ok (Continue (dev, s))) (dev, s).

End registers.

(** ** Initialisation of a controller *)

(** A read of configuration space takes one answer and writes to the
    configuration and delay ports only. *)
Lemma bar_read f bus slot func (p : port_script) b rest :
  f ∈ [pci_get_bar0; pci_get_bar1; pci_get_bar2; pci_get_bar3; pci_get_bar4] → answers p = b :: rest →
  ∃ p' cfg, bar_of f bus slot func p = (Z.land b 0xFFFFFFFC, p') ∧ answers p' = rest ∧
    writes p' = writes p ++ cfg ∧ Forall (λ w, w.1 = 0xCF8 ∨ w.1 = 0x80) cfg.
Proof.
  intros Hf Ha.
  assert (∃ off, f = λ bus slot func, pci_config_readl bus slot func off) as (off & ->).
  { rewrite !elem_of_cons, elem_of_nil in Hf. destruct Hf as [->|[->|[->|[->|[->|[]]]]]]; eexists; reflexivity. }
  unfold bar_of, pci_config_readl, outl_p, inl_p. cbn. unfold script_in. cbn. rewrite Ha. cbn.
  do 2 eexists. split; [reflexivity|]. split; [done|]. split; [unfold script_out; cbn [writes]; rewrite <- !app_assoc; reflexivity|].
  cbn [app]. unfold PCI_CONFIG_ADDRESS. repeat constructor; cbn; tauto.
Qed.

Definition clear_low (bar : Z) : Z := Z.land bar 0xFFFFFFFC.

(** The control register: the BAR plus 2, or 0x3F8 and 0x378 by default. *)
Definition control_port (bar d : Z) : Z := u16 (or_default (clear_low bar) d + ATA_REG_CONTROL - 0x0A).

Lemma initialize_controller_ok junk bus slot func (p : port_script) b0 b1 b2 b3 b4 rest :
  answers p = b0 :: b1 :: b2 :: b3 :: b4 :: rest →
  ∃ p' cfg, pci_ide_initialize_controller junk bus slot func p
      = (controller_of junk (clear_low b0) (clear_low b1) (clear_low b2) (clear_low b3) (clear_low b4), p') ∧
    answers p' = rest ∧ writes p' = writes p ++ cfg ++ [(control_port b1 0x3F6, 2); (control_port b3 0x376, 2)] ∧
    Forall (λ w, w.1 = 0xCF8 ∨ w.1 = 0x80) cfg.
Proof.
  intros Ha. unfold pci_ide_initialize_controller.
  destruct (bar_read pci_get_bar0 bus slot func p b0 _ ltac:(set_solver) Ha) as (p0 & c0 & -> & A0 & W0 & F0).
  destruct (bar_read pci_get_bar1 bus slot func p0 b1 _ ltac:(set_solver) A0) as (p1 & c1 & -> & A1 & W1 & F1).
  destruct (bar_read pci_get_bar2 bus slot func p1 b2 _ ltac:(set_solver) A1) as (p2 & c2 & -> & A2 & W2 & F2).
  destruct (bar_read pci_get_bar3 bus slot func p2 b3 _ ltac:(set_solver) A2) as (p3 & c3 & -> & A3 & W3 & F3).
  destruct (bar_read pci_get_bar4 bus slot func p3 b4 _ ltac:(set_solver) A3) as (p4 & c4 & -> & A4 & W4 & F4).
  exists (Script (writes p4 ++ [(control_port b1 0x3F6, 2); (control_port b3 0x376, 2)]) (answers p4)), (c0 ++ c1 ++ c2 ++ c3 ++ c4).
  split; [|split; [done|split]].
  - cbv zeta. f_equal. change (pci_ide_write ?c 1 ATA_REG_CONTROL 2 (pci_ide_write ?c 0 ATA_REG_CONTROL 2 p4)) with
      (Script ((writes p4 ++ [(control_port b1 0x3F6, 2)]) ++ [(control_port b3 0x376, 2)]) (answers p4)).
    by rewrite <- (assoc_L (++)).
  - cbn [writes]. by rewrite W4, W3, W2, W1, W0, <- !(assoc_L (++)).
  - by rewrite !Forall_app.
Qed.

(** ** Properties *)

(** Setting up a controller reads its BARs and writes nothing but the
    interrupt disable bit to the two control registers.  A BAR gives the documented
    register, two bytes into the control block; for a controller in compatibility
    mode (BAR 0) the write goes to 0x3F8 and 0x378, the serial and the parallel
    port, instead of 0x3F6 and 0x376. *)
Theorem initialize_controller_ports junk bus slot func (p : port_script) b0 b1 b2 b3 b4 rest :
  answers p = b0 :: b1 :: b2 :: b3 :: b4 :: rest →
  ∃ p' cfg, pci_ide_initialize_controller junk bus slot func p
      = (controller_of junk (clear_low b0) (clear_low b1) (clear_low b2) (clear_low b3) (clear_low b4), p') ∧
    answers p' = rest ∧ writes p' = writes p ++ cfg ++ [(control_port b1 0x3F6, 2); (control_port b3 0x376, 2)] ∧
    Forall (λ w, w.1 = 0xCF8 ∨ w.1 = 0x80) cfg ∧
    (clear_low b1 ≠ 0 → control_port b1 0x3F6 = u16 (clear_low b1 + 2)) ∧
    (clear_low b1 = 0 → control_port b1 0x3F6 = 0x3F8) ∧ (clear_low b3 = 0 → control_port b3 0x376 = 0x378).
Proof.
  intros Ha. destruct (initialize_controller_ok junk bus slot func p b0 b1 b2 b3 b4 rest Ha) as (p' & cfg & Hc & Ha' & Hw & Hf).
  exists p', cfg. split_and!; try done; unfold control_port, or_default.
  - intros Hn. rewrite (proj2 (Z.eqb_neq _ _)) by done. cbn [negb]. unfold u16, ATA_REG_CONTROL.
    replace (clear_low b1 mod 65536 + 12 - 10) with (clear_low b1 mod 65536 + 2) by lia. by rewrite Zplus_mod_idemp_l.
  - by intros ->.
  - by intros ->.
Qed.

(** The controller of the PIIX3, in compatibility mode. *)
Lemma initialize_controller_ports_witness :
  ∃ p' cfg, pci_ide_initialize_controller 7 0 1 1 (Script [] [0; 0; 0; 0; 0xC041])
      = (controller_of 7 0 0 0 0 0xC040, p') ∧
    answers p' = [] ∧ writes p' = [] ++ cfg ++ [(0x3F8, 2); (0x378, 2)] ∧
    Forall (λ w, w.1 = 0xCF8 ∨ w.1 = 0x80) cfg ∧
    (0 ≠ 0 → 0x3F8 = u16 (0 + 2)) ∧ (0 = 0 → 0x3F8 = 0x3F8) ∧ (0 = 0 → 0x378 = 0x378).
Proof. apply (initialize_controller_ports 7 0 1 1 (Script [] [0; 0; 0; 0; 0xC041]) 0 0 0 0 0xC041 []). reflexivity. Defined.
