(* ===== verification/AtaDrives.v ===== *)
(** The detection of the IDE drives, against drives that behave as the ATA standard
    says.

    [ata_bus] is an instance of [Ports]: two channels of two drives, each channel
    with its block of command registers at a base port.  A write to the drive
    register selects a drive, a write to the command register gives the selected
    drive a command, and reads of the status, the signature and the data register
    are answered by the selected drive.  The theorem is about [detect_drives] of
    Ide.v on such a bus: the registers, the channel, the drive selected and the
    commands sent all decide what it sees. *)
From S2P Require Import Prelude Ports Pci Ide.

(** * Drives *)

(** What is connected at a position, with what it answers to IDENTIFY: the
    statuses in the order of the reads, the last of which stays, and the 256 words
    of its identification or the signature of a packet device. *)
Inductive drive_kind : Type :=
  | Absent
  | Ata (status : Z) (waits : list Z) (ready : Z) (words : list Z)
  | Atapi (status : Z) (waits : list Z) (error cl ch : Z) (words : list Z)
  | Unknown (status : Z) (waits : list Z) (error cl ch : Z).

(** A drive: the statuses still to be read, the words in its data register, and
    its registers LBA1 and LBA2. *)
Record ata_drive : Type := AtaDrive { kind : drive_kind; statuses : list Z; fifo : list Z; lba1 : Z; lba2 : Z }.

Definition drive_command (cmd : Z) (d : ata_drive) : ata_drive :=
  match kind d with
  | Ata status waits ready words =>
      if cmd =? 0xEC then AtaDrive (kind d) (status :: waits ++ [ready]) words 0 0 else d
  | Atapi status waits error cl ch words =>
      if cmd =? 0xEC then AtaDrive (kind d) (status :: waits ++ [error]) [] cl ch
      else if cmd =? 0xA1 then AtaDrive (kind d) [0x58] words (lba1 d) (lba2 d) else d
  | Unknown status waits error cl ch =>
      if cmd =? 0xEC then AtaDrive (kind d) (status :: waits ++ [error]) [] cl ch else d
  | Absent => d
  end.

(** An empty position reads 0. *)
Definition drive_status (d : ata_drive) : Z * ata_drive :=
  match kind d, statuses d with
  | Absent, _ => (0, d)
  | _, [] => (0x50, d)
  | _, [st] => (st, d)
  | _, st :: sts => (st, AtaDrive (kind d) sts (fifo d) (lba1 d) (lba2 d))
  end.

(** One 16-bit word of the data register. *)
Definition drive_data (d : ata_drive) : Z * ata_drive :=
  match fifo d with
  | [] => (0xFFFF, d)
  | w :: ws => (w, AtaDrive (kind d) (statuses d) ws (lba1 d) (lba2 d))
  end.

Definition drive_data32 (d : ata_drive) : Z * ata_drive :=
  let '(lo, d) := drive_data d in let '(hi, d) := drive_data d in (lo + 65536 * hi, d).

(** * Channels and the bus *)

Record ata_channel : Type := AtaChannel { slave_selected : bool; master : ata_drive; slave : ata_drive }.

Definition current (ch : ata_channel) : ata_drive := if slave_selected ch then slave ch else master ch.
Definition set_current (d : ata_drive) (ch : ata_channel) : ata_channel :=
  if slave_selected ch then AtaChannel true (master ch) d else AtaChannel false d (slave ch).

(** The command registers, by their number in the block. *)
Definition channel_write (reg v : Z) (ch : ata_channel) : ata_channel :=
  if reg =? 6 then AtaChannel (Z.testbit v 4) (master ch) (slave ch)
  else if reg =? 7 then set_current (drive_command v (current ch)) ch
  else ch.

Definition channel_read (reg : Z) (ch : ata_channel) : Z * ata_channel :=
  if reg =? 7 then let '(v, d) := drive_status (current ch) in (v, set_current d ch)
  else if reg =? 4 then (lba1 (current ch), ch)
  else if reg =? 5 then (lba2 (current ch), ch)
  else (0xFF, ch).

Definition channel_read16 (reg : Z) (ch : ata_channel) : Z * ata_channel :=
  if reg =? 0 then let '(v, d) := drive_data (current ch) in (v, set_current d ch) else (0xFFFF, ch).
Definition channel_read32 (reg : Z) (ch : ata_channel) : Z * ata_channel :=
  if reg =? 0 then let '(v, d) := drive_data32 (current ch) in (v, set_current d ch) else (0xFFFFFFFF, ch).

(** The base ports of the channels, the channels, and a clock. *)
Record ata_bus : Type := AtaBus { base0 : Z; base1 : Z; channel0 : ata_channel; channel1 : ata_channel; ticks : Z }.

(** The channel and the register behind a port. *)
Definition decode (b : ata_bus) (port : Z) : option (bool * Z) :=
  if (base0 b <=? port) && (port <? base0 b + 8) then Some (false, port - base0 b)
  else if (base1 b <=? port) && (port <? base1 b + 8) then Some (true, port - base1 b)
  else None.

Definition channel_of (i : bool) (b : ata_bus) : ata_channel := if i then channel1 b else channel0 b.
Definition set_channel (i : bool) (ch : ata_channel) (b : ata_bus) : ata_bus :=
  if i then AtaBus (base0 b) (base1 b) (channel0 b) ch (ticks b) else AtaBus (base0 b) (base1 b) ch (channel1 b) (ticks b).

Definition bus_write (port v : Z) (b : ata_bus) : ata_bus :=
  match decode b port with
  | Some (i, reg) => set_channel i (channel_write reg v (channel_of i b)) b
  | None => b
  end.

Definition bus_read (f : Z → ata_channel → Z * ata_channel) (floating port : Z) (b : ata_bus) : Z * ata_bus :=
  match decode b port with
  | Some (i, reg) => let '(v, ch) := f reg (channel_of i b) in (v, set_channel i ch b)
  | None => (floating, b)
  end.

(** The command registers are eight bits wide: other writes go nowhere. *)
#[export] Instance ata_ports : Ports ata_bus := {|
  outb := bus_write; outw := λ _ _ b, b; outl := λ _ _ b, b;
  inb := bus_read channel_read 0xFF;
  inw := bus_read channel_read16 0xFFFF;
  inl := bus_read channel_read32 0xFFFFFFFF;
|}.

(** * What the drives are *)

Definition is_error (st : Z) : Prop := Z.land st ATA_SR_ERR ≠ 0.
Definition is_ready (st : Z) : Prop := Z.land st ATA_SR_BSY = 0 ∧ Z.land st ATA_SR_DRQ ≠ 0.
Definition atapi_signature (cl ch : Z) : Prop := (cl = 0x14 ∧ ch = 0xEB) ∨ (cl = 0x69 ∧ ch = 0x96).
Definition waits_ok (status : Z) (waits : list Z) : Prop :=
  status ≠ 0 ∧ Forall (λ st, ¬ is_error st ∧ ¬ is_ready st) waits.
Definition words_ok (words : list Z) : Prop := length words = 256%nat ∧ Forall (λ w, 0 ≤ w < 65536) words.

(** The statuses before the last are neither errors nor ready; an ATA drive ends
    ready, the others in error, and only a packet device has its signature. *)
Definition kind_ok (k : drive_kind) : Prop :=
  match k with
  | Absent => True
  | Ata status waits ready words => waits_ok status waits ∧ ¬ is_error ready ∧ is_ready ready ∧ words_ok words
  | Atapi status waits error cl ch words => waits_ok status waits ∧ is_error error ∧ atapi_signature cl ch ∧ words_ok words
  | Unknown status waits error cl ch => waits_ok status waits ∧ is_error error ∧ ¬ atapi_signature cl ch
  end.

Definition kind_waits (k : drive_kind) : nat :=
  match k with Absent => 0 | Ata _ w _ _ | Atapi _ w _ _ _ _ | Unknown _ w _ _ _ => length w end.

(** The model number in an identification: words 27 to 46, in each the first
    character is the upper byte. *)
Definition ata_model (words : list Z) : list Z := take 20 (drop 27 words) ≫= λ w, [w / 256; w mod 256].

(** What is to be reported. *)
Definition drive_report (k : drive_kind) : ide_msg :=
  match k with
  | Ata _ _ _ words => Drive (ata_model words) IDE_ATA
  | Atapi _ _ _ _ _ words => Drive (ata_model words) IDE_ATAPI
  | _ => NoDrive
  end.

Definition drive_at (b : ata_bus) (i j : bool) : ata_drive :=
  if j then slave (channel_of i b) else master (channel_of i b).

(** The controller drives this bus: its base ports are the channels', whose blocks
    are apart. *)
Record attached (c : pci_ide_controller_t) (b : ata_bus) : Prop := {
  at_base0 : base (primary c) = base0 b;
  at_base1 : base (secondary c) = base1 b;
  at_range : 0 ≤ base0 b ∧ base0 b + 8 ≤ 65536 ∧ 0 ≤ base1 b ∧ base1 b + 8 ≤ 65536;
  at_apart : base0 b + 8 ≤ base1 b ∨ base1 b + 8 ≤ base0 b;
}.

(** * The name *)

Lemma bind_drop {A} (f : A → list Z) n ws : (∀ w, length (f w) = 2%nat) → drop (2 * n) (ws ≫= f) = drop n ws ≫= f.
Proof.
  intros Hf. revert ws. induction n as [|n IH]; intros [|w ws]; try done.
  cbn [drop mbind list_bind]. rewrite drop_app_ge by (rewrite Hf; lia). rewrite Hf.
  replace (2 * S n - 2)%nat with (2 * n)%nat by lia. apply IH.
Qed.

Lemma bind_take {A} (f : A → list Z) n ws : (∀ w, length (f w) = 2%nat) → take (2 * n) (ws ≫= f) = take n ws ≫= f.
Proof.
  intros Hf. revert ws. induction n as [|n IH]; intros [|w ws]; try done.
  cbn [take mbind list_bind]. rewrite take_app_ge by (rewrite Hf; lia). rewrite Hf.
  replace (2 * S n - 2)%nat with (2 * n)%nat by lia. f_equal. apply IH.
Qed.

Lemma model_name_words words : Forall (λ w, 0 ≤ w < 65536) words → model_name (words ≫= le_put 2) = ata_model words.
Proof.
  intros Hw. unfold model_name, ata_model. change (Z.to_nat ATA_IDENT_MODEL) with (2 * 27)%nat. change 40%nat with (2 * 20)%nat.
  rewrite bind_drop, bind_take by (intros; apply length_le_put).
  assert (Ht : Forall (λ w, 0 ≤ w < 65536) (take 20 (drop 27 words))) by (apply Forall_take, Forall_drop, Hw).
  induction Ht as [|w ws Hwr _ IH]; [done|]. rewrite !bind_cons, <- IH. cbn [le_put app swap_pairs].
  do 2 f_equal; mlia.
Qed.

(** * Access to the bus *)

Definition position (n : Z) : bool := negb (n =? 0).

Lemma bus_port c b i reg :
  attached c b → 0 ≤ i < 2 → 0 ≤ reg < 8 →
  ∃ port, ide_port (channel_regs c i) reg = Some port ∧ buffer_port (channel_regs c i) reg = Some port ∧
    high_order reg = false ∧ decode b port = Some (position i, reg).
Proof.
  intros [H0 H1 Hr Ha] Hi Hreg. unfold ide_port, buffer_port, high_order, ATA_REG_SECCOUNT1, ATA_REG_COMMAND.
  rewrite (proj2 (Z.ltb_lt reg 8)) by lia. eexists. split; [done|]. split; [done|].
  split; [by rewrite (proj2 (Z.ltb_ge _ _)) by lia|]. unfold channel_regs, position, decode.
  destruct (decide (i = 0)) as [->|Hne].
  - cbn [Z.eqb negb]. rewrite H0. unfold u16. rewrite Z.mod_small by lia.
    rewrite (proj2 (Z.leb_le _ _)), (proj2 (Z.ltb_lt _ _)) by lia. cbn [andb]. do 2 f_equal. lia.
  - rewrite (proj2 (Z.eqb_neq i 0)) by done. cbn [negb]. rewrite H1. unfold u16. rewrite Z.mod_small by lia.
    replace ((base0 b <=? base1 b + reg) && (base1 b + reg <? base0 b + 8)) with false
      by (symmetry; apply andb_false_iff; rewrite Z.leb_gt, Z.ltb_ge; lia).
    rewrite (proj2 (Z.leb_le _ _)), (proj2 (Z.ltb_lt _ _)) by lia. cbn [andb]. do 2 f_equal. lia.
Qed.

(** [b] with a drive in its position, selected, and another time. *)
Definition put (b : ata_bus) (i j : bool) (d : ata_drive) (t : Z) : ata_bus :=
  let ch := channel_of i b in
  let b := set_channel i (if j then AtaChannel true (master ch) d else AtaChannel false d (slave ch)) b in
  AtaBus (base0 b) (base1 b) (channel0 b) (channel1 b) t.

Lemma attached_put c b i j d t : attached c b → attached c (put b i j d t).
Proof. intros [????]. by destruct i; split. Qed.

Lemma drive_at_put b i j d t i' j' :
  drive_at (put b i j d t) i' j' = if eqb i i' && eqb j j' then d else drive_at b i' j'.
Proof. by destruct i, j, i', j'. Qed.

Lemma write_select c b i j :
  attached c b → 0 ≤ i < 2 → 0 ≤ j < 2 →
  pci_ide_write c i ATA_REG_HDDEVSEL (Z.lor 0xA0 (Z.shiftl j 4)) b
  = put b (position i) (position j) (drive_at b (position i) (position j)) (ticks b).
Proof.
  intros Hb Hi Hj. destruct (bus_port c b i 6 Hb Hi) as (port & Hp & _ & Hh & Hd); [lia|].
  unfold pci_ide_write, ide_out. change ATA_REG_HDDEVSEL with 6. rewrite Hh, Hp. cbn [outb ata_ports]. unfold bus_write. rewrite Hd.
  unfold channel_write. change (6 =? 6) with true. cbv iota.
  assert (Z.testbit (u8 (Z.lor 0xA0 (Z.shiftl j 4))) 4 = position j) as ->.
  { assert (j = 0 ∨ j = 1) as [-> | ->] by lia; done. }
  unfold put, drive_at. by destruct (position i), (position j), b as [? ? [] [] ?].
Qed.

Lemma write_command c b i j d t v :
  attached c b → 0 ≤ i < 2 → 0 ≤ v < 256 →
  pci_ide_write c i ATA_REG_COMMAND v (put b (position i) j d t) = put b (position i) j (drive_command v d) t.
Proof.
  intros Hb Hi Hv. destruct (bus_port c (put b (position i) j d t) i 7 (attached_put _ _ _ _ _ _ Hb) Hi) as (port & Hp & _ & Hh & Hd); [lia|].
  unfold pci_ide_write, ide_out. change ATA_REG_COMMAND with 7. rewrite Hh, Hp. cbn [outb ata_ports]. unfold bus_write. rewrite Hd.
  unfold u8. rewrite Z.mod_small by lia. by destruct (position i), j.
Qed.

Lemma read_put c b i j d t reg v d' :
  attached c b → 0 ≤ i < 2 → 0 ≤ reg < 8 →
  (∀ ch, current ch = d → channel_read reg ch = (v, set_current d' ch)) →
  pci_ide_read c i reg (put b (position i) j d t) = (v, put b (position i) j d' t).
Proof.
  intros Hb Hi Hreg Hr. destruct (bus_port c (put b (position i) j d t) i reg (attached_put _ _ _ _ _ _ Hb) Hi Hreg) as (port & Hp & _ & Hh & Hd).
  unfold pci_ide_read. rewrite Hh, Hp. cbn [inb ata_ports]. unfold bus_read. rewrite Hd.
  rewrite (Hr (channel_of (position i) (put b (position i) j d t))) by (by destruct (position i), j).
  by destruct (position i), j.
Qed.

Lemma set_current_id ch : set_current (current ch) ch = ch.
Proof. by destruct ch as [[] ? ?]. Qed.

Lemma read_status c b i j d t v d' :
  attached c b → 0 ≤ i < 2 → drive_status d = (v, d') →
  pci_ide_read c i ATA_REG_STATUS (put b (position i) j d t) = (v, put b (position i) j d' t).
Proof. intros Hb Hi Hs. apply read_put; [done|done|done|]. intros ch <-. unfold channel_read. cbn. by rewrite Hs. Qed.

Lemma read_lba1 c b i j d t :
  attached c b → 0 ≤ i < 2 →
  pci_ide_read c i ATA_REG_LBA1 (put b (position i) j d t) = (lba1 d, put b (position i) j d t).
Proof. intros Hb Hi. apply read_put; [done|done|done|]. intros ch <-. cbn. by rewrite set_current_id. Qed.

Lemma read_lba2 c b i j d t :
  attached c b → 0 ≤ i < 2 →
  pci_ide_read c i ATA_REG_LBA2 (put b (position i) j d t) = (lba2 d, put b (position i) j d t).
Proof. intros Hb Hi. apply read_put; [done|done|done|]. intros ch <-. cbn. by rewrite set_current_id. Qed.

Lemma le_put_words w1 w2 : 0 ≤ w1 < 65536 → 0 ≤ w2 < 65536 → le_put 4 (w1 + 65536 * w2) = le_put 2 w1 ++ le_put 2 w2.
Proof.
  intros H1 H2. cbn [le_put app]. assert ((w1 + 65536 * w2) / 256 = w1 / 256 + 256 * w2) as -> by mlia.
  assert ((w1 / 256 + 256 * w2) / 256 = w2) as -> by mlia.
  f_equal; [mlia|]. f_equal. mlia.
Qed.

(** The data register, 32 bits at a time. *)
Lemma rep_in_words c b i j k sts l1 l2 t n words port :
  attached c b → 0 ≤ i < 2 → ide_port (channel_regs c i) 0 = Some port → length words = (2 * n)%nat →
  Forall (λ w, 0 ≤ w < 65536) words →
  ∃ vs, rep_in (inl port) n (put b (position i) j (AtaDrive k sts words l1 l2) t)
    = (vs, put b (position i) j (AtaDrive k sts [] l1 l2) t) ∧ vs ≫= le_put 4 = words ≫= le_put 2.
Proof.
  intros Hb Hi Hp. revert words. induction n as [|n IH]; intros words Hl Hw.
  { destruct words; [|cbn in Hl; lia]. by exists []. }
  destruct words as [|w1 [|w2 words]]; cbn [length] in Hl; try lia.
  apply Forall_cons in Hw as [H1 [H2 Hw]%Forall_cons].
  destruct (IH words) as (vs & Hvs & Ebytes); [lia|done|]. exists (w1 + 65536 * w2 :: vs). cbn [rep_in].
  destruct (bus_port c (put b (position i) j (AtaDrive k sts (w1 :: w2 :: words) l1 l2) t) i 0 (attached_put _ _ _ _ _ _ Hb) Hi)
    as (port' & Hp' & _ & _ & Hd); [lia|]. assert (port' = port) as -> by congruence.
  assert (inl port (put b (position i) j (AtaDrive k sts (w1 :: w2 :: words) l1 l2) t)
    = (w1 + 65536 * w2, put b (position i) j (AtaDrive k sts words l1 l2) t)) as ->.
  { cbn [inl ata_ports]. unfold bus_read. rewrite Hd. by destruct (position i), j. }
  rewrite Hvs. split; [done|]. by rewrite !bind_cons, Ebytes, le_put_words, <- (assoc_L (++)) by done.
Qed.

Lemma read_words c b i j k sts l1 l2 t words :
  attached c b → 0 ≤ i < 2 → words_ok words →
  pci_ide_read_buffer c i ATA_REG_DATA 128 (put b (position i) j (AtaDrive k sts words l1 l2) t)
  = (words ≫= le_put 2, put b (position i) j (AtaDrive k sts [] l1 l2) t).
Proof.
  intros Hb Hi [Hl Hw]. destruct (bus_port c b i 0 Hb Hi) as (port & Hp & Hq & Hh & _); [lia|].
  unfold pci_ide_read_buffer. change ATA_REG_DATA with 0. rewrite Hh, Hq. unfold pci_buffer_read. change (Z.to_nat 128) with 128%nat.
  destruct (rep_in_words c b i j k sts l1 l2 t 128 words port Hb Hi Hp) as (vs & -> & ->); [done|done|done].
Qed.

(** * Detection *)

Lemma length_words words : length (words ≫= le_put 2) = (2 * length words)%nat.
Proof. induction words as [|w ws IH]; [done|]. cbn [mbind list_bind]. rewrite length_app, IH, length_le_put. cbn. lia. Qed.

Lemma model_name_prefix bytes rest : (94 ≤ length bytes)%nat → model_name (bytes ++ rest) = model_name bytes.
Proof.
  intros Hl. unfold model_name. change (Z.to_nat ATA_IDENT_MODEL) with 54%nat. rewrite drop_app_le by lia.
  by rewrite take_app_le by (rewrite length_drop; lia).
Qed.

Section detection.
Variable sleep : ata_bus → ata_bus.
(** Time passes, and the drives wait. *)
Context (Hsleep : ∀ b, ∃ t, sleep b = AtaBus (base0 b) (base1 b) (channel0 b) (channel1 b) t).

Lemma sleep_put b i j d t : ∃ t', sleep (put b i j d t) = put b i j d t'.
Proof. destruct (Hsleep (put b i j d t)) as [t' ->]. by exists t'. Qed.

Lemma wait_body_read c i (p p' : ata_bus) st :
  pci_ide_read c i ATA_REG_STATUS p = (st, p') →
  wait_body c i p =
    if negb (Z.land st ATA_SR_ERR =? 0) then Ok (Break (true, p'))
    else if (Z.land st ATA_SR_BSY =? 0) && negb (Z.land st ATA_SR_DRQ =? 0) then Ok (Break (false, p'))
    else Ok (Continue p').
Proof. intros E. unfold wait_body. by rewrite E. Qed.

(** The loop on the status. *)
Lemma wait_ends c b i j k waits last fi l1 l2 t fuel :
  attached c b → 0 ≤ i < 2 → k ≠ Absent → Forall (λ st, ¬ is_error st ∧ ¬ is_ready st) waits → is_error last ∨ is_ready last →
  (length waits < fuel)%nat →
  while fuel (wait_body c i) (put b (position i) j (AtaDrive k (waits ++ [last]) fi l1 l2) t)
  = Ok (bool_decide (is_error last), put b (position i) j (AtaDrive k [last] fi l1 l2) t).
Proof.
  intros Hb Hi Hk Hw Hlast. revert fuel. induction Hw as [|w waits [He Hr] _ IH]; intros [|fuel] Hf; cbn [length] in Hf; try lia;
    cbn [while]; unfold is_error, is_ready in *.
  - cbn [app].
    rewrite (wait_body_read _ _ _ _ _ (read_status c b i j (AtaDrive k [last] fi l1 l2) t last (AtaDrive k [last] fi l1 l2) Hb Hi
      ltac:(by destruct k))).
    destruct (Z.eqb_spec (Z.land last ATA_SR_ERR) 0) as [E|E]; cbn [negb].
    + destruct Hlast as [|[Hbsy Hdrq]]; [done|]. rewrite Hbsy. rewrite (proj2 (Z.eqb_neq (Z.land last ATA_SR_DRQ) 0)) by done.
      cbn. by rewrite bool_decide_false by tauto.
    + cbn. by rewrite bool_decide_true.
  - cbn [app].
    rewrite (wait_body_read _ _ _ _ _ (read_status c b i j (AtaDrive k (w :: waits ++ [last]) fi l1 l2) t w
      (AtaDrive k (waits ++ [last]) fi l1 l2) Hb Hi ltac:(destruct k; try done; by destruct waits))).
    destruct (Z.eqb_spec (Z.land w ATA_SR_ERR) 0) as [E|E]; [|tauto]. cbn [negb].
    assert ((Z.land w ATA_SR_BSY =? 0) && negb (Z.land w ATA_SR_DRQ =? 0) = false) as ->.
    { destruct (Z.eqb_spec (Z.land w ATA_SR_BSY) 0), (Z.eqb_spec (Z.land w ATA_SR_DRQ) 0); try done. tauto. }
    cbn [mbind res_bind]. apply IH. lia.
Qed.

(** Reading the identification and printing the name. *)
Lemma name_read words buf : words_ok words →
  model_name ((words ≫= le_put 2) ++ drop (length (words ≫= le_put 2)) buf) = ata_model words.
Proof. intros [Hl Hw]. rewrite model_name_prefix by (rewrite length_words; lia). by apply model_name_words. Qed.

Lemma detect_drive_ok fuel c i j buf out b k :
  attached c b → 0 ≤ i < 2 → 0 ≤ j < 2 → kind (drive_at b (position i) (position j)) = k → kind_ok k → (kind_waits k < fuel)%nat →
  ∃ buf' d t, detect_drive sleep fuel c i j (buf, out, b)
    = Ok (buf', out ++ [Position j; drive_report k], put b (position i) (position j) d t) ∧ kind d = k.
Proof.
  intros Hb Hi Hj Hkd Hk Hf. unfold detect_drive. rewrite write_select by done.
  destruct (drive_at b (position i) (position j)) as [k' sts fi l1 l2]. cbn in Hkd. subst k'.
  destruct (sleep_put b (position i) (position j) (AtaDrive k sts fi l1 l2) (ticks b)) as [t1 ->].
  rewrite write_command by (done || (unfold ATA_CMD_IDENTIFY, ATA_CMD_IDENTIFY_PACKET; lia)).
  change ATA_CMD_IDENTIFY with 0xEC.
  destruct (sleep_put b (position i) (position j) (drive_command 0xEC (AtaDrive k sts fi l1 l2)) t1) as [t ->].
  change (out ++ [Position j; drive_report k]) with (out ++ [Position j] ++ [drive_report k]). rewrite (assoc_L (++)).
  set (o1 := out ++ [Position j]). clearbody o1.
  destruct k as [|status waits ready words|status waits error cl ch words|status waits error cl ch];
    cbn [kind_ok kind_waits drive_report drive_command kind Z.eqb Pos.eqb] in *.
  - rewrite (read_status c b i (position j) (AtaDrive Absent sts fi l1 l2) t 0 (AtaDrive Absent sts fi l1 l2)) by done.
    cbn. eauto.
  - destruct Hk as ([Hs Hw] & Hne & Hrd & Hwo).
    rewrite (read_status c b i (position j) _ t status (AtaDrive (Ata status waits ready words) (waits ++ [ready]) words 0 0))
      by (done || by destruct waits).
    rewrite (proj2 (Z.eqb_neq status 0)) by done. rewrite wait_ends by (done || by right). cbn [mbind res_bind].
    rewrite bool_decide_false by done. rewrite read_words by done. rewrite name_read by done. eauto.
  - destruct Hk as ([Hs Hw] & He & Hsig & Hwo).
    set (k := Atapi status waits error cl ch words) in *.
    rewrite (read_status c b i (position j) _ t status (AtaDrive k (waits ++ [error]) [] cl ch))
      by (done || by destruct waits).
    rewrite (proj2 (Z.eqb_neq status 0)) by done. rewrite wait_ends by (done || by left). cbn [mbind res_bind].
    rewrite bool_decide_true by done. rewrite read_lba1, read_lba2 by done. cbn [lba1 lba2].
    assert ((cl =? 20) && (ch =? 235) || (cl =? 105) && (ch =? 150) = true) as -> by (destruct Hsig as [[-> ->] | [-> ->]]; done).
    rewrite write_command by (done || (unfold ATA_CMD_IDENTIFY, ATA_CMD_IDENTIFY_PACKET; lia)). change ATA_CMD_IDENTIFY_PACKET with 0xA1.
    cbn [drive_command kind k Z.eqb Pos.eqb lba1 lba2].
    destruct (sleep_put b (position i) (position j) (AtaDrive k [0x58] words cl ch) t) as [t2 ->].
    rewrite read_words by done. rewrite name_read by done. eauto.
  - destruct Hk as ([Hs Hw] & He & Hsig).
    set (k := Unknown status waits error cl ch) in *.
    rewrite (read_status c b i (position j) _ t status (AtaDrive k (waits ++ [error]) [] cl ch))
      by (done || by destruct waits).
    rewrite (proj2 (Z.eqb_neq status 0)) by done. rewrite wait_ends by (done || by left). cbn [mbind res_bind].
    rewrite bool_decide_true by done. rewrite read_lba1, read_lba2 by done. cbn [lba1 lba2].
    assert ((cl =? 20) && (ch =? 235) || (cl =? 105) && (ch =? 150) = false) as ->.
    { unfold atapi_signature in Hsig. destruct (Z.eqb_spec cl 20), (Z.eqb_spec ch 235), (Z.eqb_spec cl 105), (Z.eqb_spec ch 150);
        try done; subst; exfalso; apply Hsig; lia. }
    eauto.
Qed.

End detection.

(** * Property *)

(** C18: on a bus with any ATA drives, packet drives, unknown devices or nothing in
    its four positions, in whatever state they were left, [pci_ide_detect_devices]
    reports for each position the drive that is there: no drive for an empty
    position or an unknown signature, else the kind of the drive with the model
    number of its identification.  It ends when each drive leaves its busy states;
    every drive is still in its place. *)
Theorem detect_drives_reports (sleep : ata_bus → ata_bus) fuel c buf out b :
  (∀ b, ∃ t, sleep b = AtaBus (base0 b) (base1 b) (channel0 b) (channel1 b) t) → attached c b →
  (∀ i j, kind_ok (kind (drive_at b i j)) ∧ (kind_waits (kind (drive_at b i j)) < fuel)%nat) →
  ∃ buf' b', detect_drives sleep fuel c (buf, out, b) = Ok (buf',
      out ++ [Detecting;
              Channel 0; Position 0; drive_report (kind (drive_at b false false)); Position 1; drive_report (kind (drive_at b false true));
              Channel 1; Position 0; drive_report (kind (drive_at b true false)); Position 1; drive_report (kind (drive_at b true true))], b') ∧
    ∀ i j, kind (drive_at b' i j) = kind (drive_at b i j).
Proof.
  intros Hs Hb Hk. unfold detect_drives. cbn [for_up].
  assert (Hone : ∀ i j buf out b1, 0 ≤ i < 2 → 0 ≤ j < 2 → attached c b1 → (∀ i j, kind (drive_at b1 i j) = kind (drive_at b i j)) →
    ∃ buf' b2, detect_drive sleep fuel c i j (buf, out, b1)
      = Ok (buf', out ++ [Position j; drive_report (kind (drive_at b (position i) (position j)))], b2) ∧
      attached c b2 ∧ ∀ i j, kind (drive_at b2 i j) = kind (drive_at b i j)).
  { clear buf out. intros i j buf out b1 Hi Hj Hb1 Hsame. destruct (Hk (position i) (position j)) as [Hok Hw].
    destruct (detect_drive_ok sleep Hs fuel c i j buf out b1 _ Hb1 Hi Hj (Hsame _ _) Hok Hw) as (buf' & d & t & -> & Hd).
    do 2 eexists. split; [reflexivity|]. split; [by apply attached_put|]. intros i' j'. rewrite drive_at_put.
    destruct (eqb (position i) i' && eqb (position j) j') eqn:E; [|done].
    apply andb_true_iff in E as [<-%eqb_prop <-%eqb_prop]. done. }
  change (0 + 1) with 1.
  pose proof Hb as A. assert (K : ∀ i j, kind (drive_at b i j) = kind (drive_at b i j)) by done.
  do 4 match goal with
  | A : attached c ?b1, K : ∀ i j, kind (drive_at ?b1 i j) = _ |- context [detect_drive sleep fuel c ?i ?j (?u, ?o, ?b1)] =>
      destruct (Hone i j u o b1 ltac:(lia) ltac:(lia) A K) as (? & ? & -> & ? & ?); cbn [mbind res_bind]
  end.
  do 2 eexists. split; [|eassumption]. by rewrite <- !(assoc_L (++)).
Qed.

(** A disk as master and a CD drive as slave of the first channel, an empty
    position and a device with another signature on the second. *)
Definition ex_words (w : Z) : list Z := replicate 256 w.
Definition ex_drive (k : drive_kind) : ata_drive := AtaDrive k [0x50] [7] 1 1.
Definition ex_bus : ata_bus :=
  AtaBus 0x1F0 0x170
    (AtaChannel true (ex_drive (Ata 0x50 [0x80; 0xD0] 0x58 (ex_words 0x4154))) (ex_drive (Atapi 0x80 [] 0x01 0x14 0xEB (ex_words 0x4344))))
    (AtaChannel false (ex_drive Absent) (ex_drive (Unknown 0x7F [] 0xFF 0xFF 0xFF))) 0.
Definition ex_sleep (b : ata_bus) : ata_bus := AtaBus (base0 b) (base1 b) (channel0 b) (channel1 b) (ticks b + 1).

Lemma ex_words_ok w : 0 ≤ w < 65536 → words_ok (ex_words w).
Proof. intros Hw. split; [apply length_replicate|by apply Forall_replicate]. Qed.

Lemma detect_drives_reports_witness :
  ∃ buf' b', detect_drives ex_sleep 100 (controller_of 0 0 0 0 0 0) (replicate 1024 0, [], ex_bus) = Ok (buf',
      [Detecting; Channel 0; Position 0; Drive (concat (replicate 20 [0x41; 0x54])) 0; Position 1; Drive (concat (replicate 20 [0x43; 0x44])) 1;
       Channel 1; Position 0; NoDrive; Position 1; NoDrive], b').
Proof.
  destruct (detect_drives_reports ex_sleep 100 (controller_of 0 0 0 0 0 0) (replicate 1024 0) [] ex_bus) as (buf' & b' & H & _).
  - intros b. exists (ticks b + 1). reflexivity.
  - split; [reflexivity|reflexivity|cbn; lia|right; cbn; lia].
  - intros [] []; (split; [|cbn; lia]).
    + split; [split; [lia|constructor]|]. split; [done|]. intros [[? ?]|[? ?]]; lia.
    + exact I.
    + split; [split; [lia|constructor]|]. split; [done|]. split; [by left|by apply ex_words_ok].
    + split; [split; [lia|]|split; [by intros []|split; [by vm_compute|by apply ex_words_ok]]].
      repeat constructor; [by intros []|by intros [? ?]|by intros []|by intros [? ?]].
  - exists buf', b'. exact H.
Defined.
