(* ===== verification/BochsVga.v ===== *)
(** The Bochs display adapter: the search on the PCI bus and the sizes of its
    memory windows.

    Source: kernel/arch/i386/kernel/graphics/bochs_vga.c, bochs_vga.h.  What
    follows the registration of the device in bochs_vga_init is commented out in
    the source, so the two virtual addresses of the device stay unset and are not
    fields here. *)
From S2P Require Import Prelude Linked Ports Pci.

Record bochs_vga_device_t : Type := Vga {
  pci_function : Z; fb_size : Z; io_size : Z; fb_phys_addr : Z; io_phys_addr : Z;
}.

(** The two lines that are printed. *)
Inductive vga_msg : Type :=
  | Bars (bar0 bar2 : Z)
  | Sizes (fb io : Z).

Section bochs.
Context {P : Type} `{Ports P}.

(** The inner loop: the function of [dev] that is a Bochs adapter, or NULL. *)
Definition find_function (s : Pci.t P) (dev : Z) : res Z :=
  func ← pci_enumerate_functions s dev 0;
  while (S (S (size (func_store s))))
    (λ func,
       if func =? 0 then Ok (Break 0)
       else
         f ← deref (func_store s) func;
         if (fn_vendor_id f =? 0x1234) && (fn_device_id f =? 0x1111) then Ok (Break func)
         else func ← pci_enumerate_functions s dev func; Ok (Continue func)) func.

(** Both loops: the device and the function. *)
Definition find_adapter (s : Pci.t P) : res (Z * Z) :=
  dev ← pci_enumerate_devices s 0;
  while (S (S (size (dev_store s))))
    (λ dev,
       if dev =? 0 then Ok (Break (0, 0))
       else
         func ← find_function s dev;
         if negb (func =? 0) then Ok (Break (dev, func))
         else dev ← pci_enumerate_devices s dev; Ok (Continue dev)) dev.

(** [(~(v & 0xFFFFFFF0)) + 1] *)
Definition window_size (v : Z) : Z := u32 (u32 (Z.lnot (Z.land v 0xFFFFFFF0)) + 1).

(** From the BARs to the fields of the device: what is printed, the device, the
    ports after it. *)
Definition probe_bars (bus slot func fn : Z) (p : P) : list vga_msg * bochs_vga_device_t * P :=
  let '(bar0, p) := pci_get_bar0 bus slot func p in
  let '(bar2, p) := pci_get_bar2 bus slot func p in
  let p := pci_config_writel bus slot func 0x10 0xFFFFFFFF p in
  let p := pci_config_writel bus slot func 0x18 0xFFFFFFFF p in
  let '(v0, p) := pci_get_bar0 bus slot func p in
  let framebuffer_size := window_size v0 in
  let '(v2, p) := pci_get_bar2 bus slot func p in
  let mmio_size := window_size v2 in
  let p := pci_config_writel bus slot func 0x10 bar0 p in
  let p := pci_config_writel bus slot func 0x18 bar2 p in
  ([Bars bar0 bar2; Sizes framebuffer_size mmio_size],
   Vga fn framebuffer_size mmio_size (Z.land bar0 0xFFFFFFF0) (Z.land bar2 0xFFFFFFF0), p).

(** [a] is what malloc returns. *)
Definition bochs_vga_init (a : Z) (s : Pci.t P) : res (list vga_msg * option bochs_vga_device_t * Pci.t P) :=
  '(dev, func) ← find_adapter s;
  if func =? 0 then Ok ([], None, s)
  else
    d ← deref (dev_store s) dev;
    f ← deref (func_store s) func;
    let '(out, v, p) := probe_bars (dev_bus d) (dev_number d) (fn_number f) func (hw s) in
    if a =? 0 then Fault NullDeref else Ok (out, Some v, set_hw s p).

(** ** The search *)

Definition is_adapter (i : fn_info) : bool := (i_vendor i =? 0x1234) && (i_device i =? 0x1111).

(** The node of the first adapter among functions [l] at [ps], or NULL. *)
Fixpoint first_adapter (ps : list Z) (l : list fn_info) : Z :=
  match ps, l with p :: ps, i :: l => if is_adapter i then p else first_adapter ps l | _, _ => 0 end.

(** The first device of the list with an adapter, and the adapter. *)
Fixpoint adapter_of (L : list found) : option (found * Z) :=
  match L with
  | [] => None
  | x :: L => let a := first_adapter (fn_at x) (i_functions (info x)) in if a =? 0 then adapter_of L else Some (x, a)
  end.

Lemma enumerate_function_ok (s : Pci.t P) dev p f :
  func_store s !! p = Some f → p ≠ 0 → fn_device f = dev → pci_enumerate_functions s dev p = Ok (fn_next f).
Proof.
  intros Hp H0 Hd. unfold pci_enumerate_functions, deref. rewrite (proj2 (Z.eqb_neq p 0)), Hp by done.
  cbn [mbind res_bind]. by rewrite Hd, Z.eqb_refl.
Qed.

Lemma find_function_ok (s : Pci.t P) x : 
  at_ x ≠ 0 → dev_ok (dev_store s) (func_store s) x → find_function s (at_ x) = Ok (first_adapter (fn_at x) (i_functions (info x))).
Proof.
  intros Hx0 (r & Hr & _ & [H1 H2 H3 H4 H5]). unfold find_function.
  assert (pci_enumerate_functions s (at_ x) 0 = Ok (hd 0 (fn_at x))) as ->.
  { unfold pci_enumerate_functions, deref. cbn. by rewrite (proj2 (Z.eqb_neq _ _)), Hr, <- H2 by done. }
  cbn [mbind res_bind]. assert (Hf : (length (fn_at x) < S (S (size (func_store s))))%nat) by (pose proof (path_size _ _ _ _ H1 H3); lia).
  revert Hf. generalize (S (S (size (func_store s)))). clear H2 H3. induction H5 as [|p i ps l (f & Hp & Hd & Hv) H5 IH]; intros fuel Hf;
    (destruct fuel as [|fuel]; [cbn in Hf; lia|]); cbn [while hd]; [done|].
  apply not_elem_of_cons in H4 as [Hp0 H4]. destruct H1 as [Hn H1]. rewrite (proj2 (Z.eqb_neq p 0)) by done.
  assert (deref (func_store s) p = Ok f) as -> by (unfold deref; by rewrite (proj2 (Z.eqb_neq _ _)), Hp).
  cbn [mbind res_bind first_adapter]. assert (is_adapter i = (fn_vendor_id f =? 0x1234) && (fn_device_id f =? 0x1111)) as -> by by subst i.
  destruct (_ && _); [done|]. rewrite (enumerate_function_ok s (at_ x) p f) by done. cbn [mbind res_bind].
  unfold nx in Hn. rewrite Hp in Hn. injection Hn as ->. apply IH; [done|done|cbn in Hf; lia].
Qed.

Lemma find_adapter_ok alloc (s : Pci.t P) L :
  (∀ i, alloc i ≠ 0) → listed alloc s L →
  find_adapter s = Ok (match adapter_of L with Some (x, a) => (at_ x, a) | None => (0, 0) end).
Proof.
  intros Hnz [H1 H2 H3 H4 H5 _]. unfold find_adapter. change (pci_enumerate_devices s 0) with (Ok (pci_devices s)). rewrite H2. cbn [mbind res_bind].
  assert (Hf : (length L < S (S (size (dev_store s))))%nat).
  { pose proof (path_size _ _ _ _ H1 H3) as Hp. rewrite length_map in Hp. lia. }
  revert Hf. generalize (S (S (size (dev_store s)))). clear H2 H3. induction L as [|x L IH]; intros fuel Hf;
    (destruct fuel as [|fuel]; [cbn in Hf; lia|]); cbn [while hd map adapter_of]; [done|].
  apply Forall_cons in H4 as [Hok H4]. apply Forall_cons in H5 as [Ho H5]. destruct H1 as [Hn H1].
  pose proof (old_nonzero alloc Hnz _ _ Ho) as Hx0. rewrite (proj2 (Z.eqb_neq (at_ x) 0)) by done.
  rewrite find_function_ok by done. cbn [mbind res_bind]. destruct (_ =? 0); [|done].
  destruct Hok as (r & Hr & _). cbn [negb].
  assert (pci_enumerate_devices s (at_ x) = Ok (dev_next r)) as ->.
  { unfold pci_enumerate_devices, deref. by rewrite (proj2 (Z.eqb_neq _ _)), Hr. }
  cbn [mbind res_bind]. unfold nx in Hn. rewrite Hr in Hn. injection Hn as ->. apply IH; [done|done|done|cbn in Hf; lia].
Qed.

(** ** Base address registers *)

(** Configuration space that can be written: [cfg p a] is the double word at [a];
    reads do not change it, and a write of [v] stores [impl a v] there and changes
    nothing else. *)
Record writable_config (cfg : P → Z → Z) (impl : Z → Z → Z) : Prop := {
  cfg_read : ∀ bus slot func offset p,
    (pci_config_readl bus slot func offset p).1 = cfg p (config_address bus slot func offset) ∧
    ∀ a, cfg (pci_config_readl bus slot func offset p).2 a = cfg p a;
  cfg_write : ∀ bus slot func offset v p a,
    cfg (pci_config_writel bus slot func offset v p) a
      = if decide (a = config_address bus slot func offset) then impl a v else cfg p a;
}.

(** A memory window of [2 ^ k] bytes: the upper bits are those written, the low
    four bits are flags. *)
Definition window (impl : Z → Z → Z) (a k flags : Z) : Prop :=
  ∀ v, 0 ≤ v < 2 ^ 32 → impl a v = v / 2 ^ k * 2 ^ k + flags.

Lemma land_fff0 v : 0 ≤ v < 2 ^ 32 → Z.land v 0xFFFFFFF0 = v - v mod 16.
Proof.
  intros Hv. change 0xFFFFFFF0 with (Z.ldiff (Z.ones 32) (Z.ones 4)).
  rewrite Z.ldiff_land, Z.land_assoc, Z.land_ones, Z.mod_small, <- Z.ldiff_land by lia.
  rewrite Z.ldiff_ones_r, Z.shiftr_div_pow2, Z.shiftl_mul_pow2 by lia. change (2 ^ 4) with 16. mlia.
Qed.

Lemma window_size_ok impl a k flags :
  window impl a k flags → 4 ≤ k < 32 → 0 ≤ flags < 16 → window_size (impl a 0xFFFFFFFF) = 2 ^ k.
Proof.
  intros Hw Hk Hf. rewrite Hw by lia. unfold window_size.
  assert (Hp : 2 ^ 32 = 2 ^ (32 - k) * 2 ^ k) by (rewrite <- Z.pow_add_r by lia; f_equal; lia).
  assert (H16 : 2 ^ k = 2 ^ (k - 4) * 16) by (change 16 with (2 ^ 4); rewrite <- Z.pow_add_r by lia; f_equal; lia).
  pose proof (Z.pow_pos_nonneg 2 k). pose proof (Z.pow_pos_nonneg 2 (k - 4)). pose proof (Z.pow_pos_nonneg 2 (32 - k)).
  assert (Hq : 0xFFFFFFFF / 2 ^ k = 2 ^ (32 - k) - 1).
  { symmetry. apply (Z.div_unique_pos _ _ _ (2 ^ k - 1)); [lia|]. lia. }
  rewrite Hq. assert (Hle : 2 ^ k ≤ 2 ^ 31) by (apply Z.pow_le_mono_r; lia).
  set (b := (2 ^ (32 - k) - 1) * 2 ^ k). assert (Hb : b = 2 ^ 32 - 2 ^ k) by (unfold b; lia).
  assert (Hm : (b + flags) mod 16 = flags).
  { rewrite Hb, H16. change (2 ^ 32) with (268435456 * 16).
    replace (268435456 * 16 - 2 ^ (k - 4) * 16 + flags) with (flags + (268435456 - 2 ^ (k - 4)) * 16) by lia.
    rewrite Z_mod_plus_full. by apply Z.mod_small. }
  rewrite land_fff0 by lia. rewrite Hm. replace (b + flags - flags) with b by lia. rewrite Hb.
  unfold Z.lnot, u32. change (2 ^ 32) with 4294967296 in *.
  replace (Z.pred (- (4294967296 - 2 ^ k))) with (2 ^ k - 1 + -1 * 4294967296) by lia.
  rewrite Z_mod_plus_full, (Z.mod_small (2 ^ k - 1)), Z.mod_small by lia. lia.
Qed.

(** The probe of two windows: their sizes and bases, and the registers as before. *)
Lemma probe_ok cfg impl bus slot func fn p k0 f0 k2 f2 :
  writable_config cfg impl →
  let a0 := config_address bus slot func 0x10 in let a2 := config_address bus slot func 0x18 in
  a0 ≠ a2 → window impl a0 k0 f0 → window impl a2 k2 f2 → 4 ≤ k0 < 32 → 4 ≤ k2 < 32 → 0 ≤ f0 < 16 → 0 ≤ f2 < 16 →
  impl a0 (cfg p a0) = cfg p a0 → impl a2 (cfg p a2) = cfg p a2 →
  ∃ p', probe_bars bus slot func fn p
    = ([Bars (cfg p a0) (cfg p a2); Sizes (2 ^ k0) (2 ^ k2)],
       Vga fn (2 ^ k0) (2 ^ k2) (Z.land (cfg p a0) 0xFFFFFFF0) (Z.land (cfg p a2) 0xFFFFFFF0), p') ∧
    ∀ a, cfg p' a = cfg p a.
Proof.
  intros [Hr Hw] a0 a2 Hne W0 W2 Hk0 Hk2 Hf0 Hf2 I0 I2. unfold probe_bars, pci_get_bar0, pci_get_bar2.
  destruct (Hr bus slot func 0x10 p) as [V1 C1]. destruct (pci_config_readl bus slot func 0x10 p) as [b0 p1]. cbn [fst snd] in V1, C1. fold a0 in V1.
  destruct (Hr bus slot func 0x18 p1) as [V2 C2]. destruct (pci_config_readl bus slot func 0x18 p1) as [b2 p2]. cbn [fst snd] in V2, C2. fold a2 in V2.
  set (p3 := pci_config_writel bus slot func 0x10 0xFFFFFFFF p2). set (p4 := pci_config_writel bus slot func 0x18 0xFFFFFFFF p3).
  destruct (Hr bus slot func 0x10 p4) as [V3 C3]. destruct (pci_config_readl bus slot func 0x10 p4) as [v0 p5]. cbn [fst snd] in V3, C3. fold a0 in V3.
  destruct (Hr bus slot func 0x18 p5) as [V4 C4]. destruct (pci_config_readl bus slot func 0x18 p5) as [v2 p6]. cbn [fst snd] in V4, C4. fold a2 in V4.
  assert (E3 : ∀ a, cfg p3 a = if decide (a = a0) then impl a0 0xFFFFFFFF else cfg p a).
  { intros a. unfold p3. rewrite Hw. fold a0. case_decide as Hd; [by rewrite Hd|]. by rewrite C2, C1. }
  assert (E4 : ∀ a, cfg p4 a = if decide (a = a2) then impl a2 0xFFFFFFFF else cfg p3 a).
  { intros a. unfold p4. rewrite Hw. fold a2. case_decide as Hd; [by rewrite Hd|done]. }
  rewrite C1 in V2. rewrite E4, decide_False, E3, decide_True in V3 by done. rewrite C3, E4, decide_True in V4 by done.
  subst b0 b2 v0 v2. rewrite (window_size_ok impl a0 k0 f0), (window_size_ok impl a2 k2 f2) by done.
  eexists. split; [done|]. intros a. rewrite !Hw. fold a0 a2. case_decide as D2; [by rewrite D2|]. case_decide as D0; [by rewrite D0|].
  rewrite C4, C3, E4, E3. by rewrite !decide_False.
Qed.

End bochs.

(** ** Property *)

(** On any list of PCI devices the search finds the first Bochs adapter in
    the order of the list (or none, and then changes nothing); for its two memory
    windows, of 2^k0 and 2^k2 bytes, [bochs_vga_init] finds exactly these sizes,
    keeps the bases without the flag bits, and leaves configuration space as it
    was. *)
Theorem bochs_vga_probes {P} `{Ports P} (cfg : P → Z → Z) impl alloc a (s : Pci.t P) L :
  (∀ i, alloc i ≠ 0) → listed alloc s L → writable_config cfg impl → a ≠ 0 →
  match adapter_of L with
  | None => bochs_vga_init a s = Ok ([], None, s)
  | Some (x, fn) => ∀ d f k0 f0 k2 f2,
      dev_store s !! at_ x = Some d → func_store s !! fn = Some f →
      let a0 := config_address (dev_bus d) (dev_number d) (fn_number f) 0x10 in
      let a2 := config_address (dev_bus d) (dev_number d) (fn_number f) 0x18 in
      a0 ≠ a2 → window impl a0 k0 f0 → window impl a2 k2 f2 →
      4 ≤ k0 < 32 → 4 ≤ k2 < 32 → 0 ≤ f0 < 16 → 0 ≤ f2 < 16 →
      impl a0 (cfg (hw s) a0) = cfg (hw s) a0 → impl a2 (cfg (hw s) a2) = cfg (hw s) a2 →
      ∃ p', bochs_vga_init a s
          = Ok ([Bars (cfg (hw s) a0) (cfg (hw s) a2); Sizes (2 ^ k0) (2 ^ k2)],
                Some (Vga fn (2 ^ k0) (2 ^ k2) (Z.land (cfg (hw s) a0) 0xFFFFFFF0) (Z.land (cfg (hw s) a2) 0xFFFFFFF0)),
                set_hw s p') ∧
        ∀ b, cfg p' b = cfg (hw s) b
  end.
Proof.
  intros Hnz Hl Hc Ha. unfold bochs_vga_init. rewrite (find_adapter_ok alloc s L Hnz Hl).
  destruct (adapter_of L) as [[x fn]|] eqn:E; [|done]. cbn [mbind res_bind].
  intros d f k0 f0 k2 f2 Hd Hf.
  set (a0 := config_address _ _ _ 0x10). set (a2 := config_address _ _ _ 0x18). intros Hne W0 W2 Hk0 Hk2 Hf0 Hf2 I0 I2.
  assert (Hx0 : at_ x ≠ 0 ∧ fn ≠ 0).
  { destruct Hl as [_ _ _ _ Hold _]. clear -E Hnz Hold. induction L as [|y L IH]; [done|]. cbn [adapter_of map] in *.
    apply Forall_cons in Hold as [Ho Hold]. destruct (Z.eqb_spec (first_adapter (fn_at y) (i_functions (info y))) 0) as [|Hne]; [by apply IH|].
    injection E as <- <-. split; [|done]. by eapply old_nonzero. }
  destruct Hx0 as [Hx0 Hfn0]. rewrite (proj2 (Z.eqb_neq fn 0)) by done.
  assert (deref (dev_store s) (at_ x) = Ok d) as -> by (unfold deref; by rewrite (proj2 (Z.eqb_neq _ _)), Hd).
  assert (deref (func_store s) fn = Ok f) as -> by (unfold deref; by rewrite (proj2 (Z.eqb_neq _ _)), Hf).
  cbn [mbind res_bind]. destruct (probe_ok cfg impl (dev_bus d) (dev_number d) (fn_number f) fn (hw s) k0 f0 k2 f2 Hc) as (p' & -> & Hp'); [done..|].
  rewrite (proj2 (Z.eqb_neq a 0)) by done. by exists p'.
Qed.

(** ** Example: an adapter in slot 2 with 16 MB of video memory and 4 KB of
    registers *)

Record ex_host : Type := ExHost { latch : Z; vram : Z; mmio : Z }.

Definition ex_cfg (h : ex_host) (a : Z) : Z :=
  if a =? 0x80001010 then vram h else if a =? 0x80001018 then mmio h else 0xFFFFFFFF.
Definition ex_impl (a v : Z) : Z :=
  if a =? 0x80001010 then v / 2 ^ 24 * 2 ^ 24 + 8 else if a =? 0x80001018 then v / 2 ^ 12 * 2 ^ 12 + 0 else 0xFFFFFFFF.
Definition ex_out (port v : Z) (h : ex_host) : ex_host :=
  if port =? PCI_CONFIG_ADDRESS then ExHost v (vram h) (mmio h)
  else if port =? PCI_CONFIG_DATA then
    ExHost (latch h) (if latch h =? 0x80001010 then ex_impl (latch h) v else vram h)
                     (if latch h =? 0x80001018 then ex_impl (latch h) v else mmio h)
  else h.
Definition ex_in (port : Z) (h : ex_host) : Z * ex_host :=
  (if port =? PCI_CONFIG_DATA then ex_cfg h (latch h) else 0xFFFFFFFF, h).
#[local] Instance ex_ports : Ports ex_host := {| outb := ex_out; outw := ex_out; outl := ex_out; inb := ex_in; inw := ex_in; inl := ex_in |}.

Lemma ex_writable : writable_config ex_cfg ex_impl.
Proof.
  split; [intros bus slot func offset p; by split|]. intros bus slot func offset v p a.
  unfold pci_config_writel, outl_p. cbv zeta. set (c := config_address bus slot func offset).
  change (outb 128 ?x ?p) with p. cbn. unfold ex_cfg, ex_impl. cbn.
  case_decide as Hd; [subst a|]; repeat case_test; try done; congruence.
Qed.

Definition ex_pci : Pci.t ex_host :=
  Pci 1 16 {[16 := Dev 0 0 0 2 0x1234 0x1111 32]} {[32 := Func 0 0 16 0 0x1234 0x1111 3 0 0]} 2 (ExHost 0 0xFD000008 0xFEBF0000).
Definition ex_found : found := Found 16 (DevInfo 0 2 0x1234 0x1111 [FnInfo 0 0x1234 0x1111 3 0 0]) [32].

Lemma ex_listed : listed demo_alloc ex_pci [ex_found].
Proof.
  assert (O16 : old demo_alloc 2 16) by (exists 0%nat; split; [lia|done]).
  assert (O32 : old demo_alloc 2 32) by (exists 1%nat; split; [lia|done]).
  split; [done|done|by apply NoDup_singleton| |by repeat constructor|by repeat constructor].
  constructor; [|done]. eexists. split; [reflexivity|]. split; [done|].
  split; [done|done|by apply NoDup_singleton|set_solver|]. constructor; [|constructor]. by eexists.
Qed.

Lemma bochs_vga_probes_witness :
  ∃ p', bochs_vga_init 48 ex_pci
    = Ok ([Bars 0xFD000008 0xFEBF0000; Sizes (2 ^ 24) (2 ^ 12)], Some (Vga 32 (2 ^ 24) (2 ^ 12) 0xFD000000 0xFEBF0000), set_hw ex_pci p') ∧
    ∀ b, ex_cfg p' b = ex_cfg (hw ex_pci) b.
Proof.
  apply (bochs_vga_probes ex_cfg ex_impl demo_alloc 48 ex_pci [ex_found] demo_alloc_nonzero ex_listed ex_writable ltac:(lia)
    (Dev 0 0 0 2 0x1234 0x1111 32) (Func 0 0 16 0 0x1234 0x1111 3 0 0) 24 8 12 0);
    [reflexivity|reflexivity|done|by intros v _|by intros v _|lia|lia|lia|lia|reflexivity|reflexivity].
Defined.
