(* ===== verification/Serial.v ===== *)
(** The debug console on the serial port.

    Source: kernel/kernel/debug/serial_debug.c, kernel/include/kernel/debug/serial_debug.h
    and kernel/arch/i386/kernel/drivers/debug/pc_serial_debug.c.

    A driver is the record of its two functions that do something; the devices are
    a list that grows at its head and is never changed otherwise. *)
From S2P Require Import Prelude Ports.

(** ** serial_debug.c *)

Section serial_debug.
Context {P : Type}.

Record serial_debug_driver : Type := Driver { install : P → P; putch : Z → P → res P }.

(** [device_head] and the devices behind it. *)
Record serial_t : Type := Serial { devices : list serial_debug_driver; sports : P }.

Definition __serial_debug_init (s : serial_t) : serial_t := Serial [] (sports s).

(** [dev] is what malloc returns. *)
Definition serial_debug_register_driver (dev : Z) (d : serial_debug_driver) (s : serial_t) : res serial_t :=
  if dev =? 0 then Fault NullDeref else Ok (Serial (d :: devices s) (install d (sports s))).

Fixpoint putch_all (ds : list serial_debug_driver) (ch : Z) (p : P) : res P :=
  match ds with
  | [] => Ok p
  | d :: ds => p ← putch d ch p; putch_all ds ch p
  end.

Definition serial_debug_putch (ch : Z) (s : serial_t) : res serial_t :=
  p ← putch_all (devices s) ch (sports s); Ok (Serial (devices s) p).

End serial_debug.
Arguments serial_debug_driver : clear implicits.
Arguments serial_t : clear implicits.

(** ** pc_serial_debug.c *)

Definition PORT : Z := 0x3f8.

Section pc_serial.
Context {P : Type} `{Ports P}.

Definition pc_serial_debug_install (p : P) : P :=
  let p := outb_p (PORT + 1) 0x00 p in
  let p := outb_p (PORT + 3) 0x80 p in
  let p := outb_p (PORT + 0) 0x03 p in
  let p := outb_p (PORT + 1) 0x00 p in
  let p := outb_p (PORT + 3) 0x03 p in
  let p := outb_p (PORT + 2) 0xC7 p in
  outb_p (PORT + 4) 0x0B p.

Definition ready_body (p : P) : res (ctl P P) :=
  let '(st, p) := inb (PORT + 5) p in
  if Z.land st 0x20 =? 0 then Ok (Continue p) else Ok (Break p).

Definition pc_serial_debug_putch (fuel : nat) (ch : Z) (p : P) : res P :=
  p ← while fuel ready_body p; Ok (outb PORT (u8 ch) p).

Definition receive_body (p : P) : res (ctl P P) :=
  let '(st, p) := inb (PORT + 5) p in
  if negb (Z.land st 1 =? 0) then let '(_, p) := inb PORT p in Ok (Continue p) else Ok (Break p).

Definition __pc_serial_debug_receive (fuel : nat) (p : P) : res P := while fuel receive_body p.

Definition pc_serial_debug_driver (fuel : nat) : serial_debug_driver P :=
  Driver pc_serial_debug_install (pc_serial_debug_putch fuel).

(** With CONFIG_DEBUG_SERIAL. *)
Definition __init_pc_serial_debug (fuel : nat) (dev : Z) (s : serial_t P) : res (serial_t P) :=
  serial_debug_register_driver dev (pc_serial_debug_driver fuel) s.

End pc_serial.

(** ** The UART as a script of answers *)

(** The transmitter is busy. *)
Definition busy (st : Z) : Prop := Z.land st 0x20 = 0.

Lemma ready_answers waits st (p : port_script) rest fuel :
  Forall busy waits → ¬ busy st → answers p = waits ++ st :: rest → (length waits < fuel)%nat →
  while fuel ready_body p = Ok (Script (writes p) rest).
Proof.
  intros Hw Hst. revert p fuel. induction Hw as [|w waits Hb Hw IH]; intros p [|fuel] Ha Hf; cbn [length app] in *; try lia; cbn [while].
  - assert (ready_body p = Ok (Break (Script (writes p) rest))) as ->; [|done].
    unfold ready_body. cbn. unfold script_in. rewrite Ha. cbn. unfold busy in Hst. by rewrite (proj2 (Z.eqb_neq _ _)).
  - assert (ready_body p = Ok (Continue (Script (writes p) (waits ++ st :: rest)))) as ->.
    { unfold ready_body. cbn. unfold script_in. rewrite Ha. cbn. by rewrite Hb. }
    cbn [mbind res_bind]. rewrite IH; [done|done|lia].
Qed.

Lemma putch_answers waits st (p : port_script) rest fuel ch :
  Forall busy waits → ¬ busy st → answers p = waits ++ st :: rest → (length waits < fuel)%nat →
  pc_serial_debug_putch fuel ch p = Ok (Script (writes p ++ [(PORT, u8 ch)]) rest).
Proof. intros Hw Hst Ha Hf. unfold pc_serial_debug_putch. by rewrite (ready_answers waits st p rest). Qed.

(** The characters of a text, one after the other. *)
Fixpoint put_text {P} (chs : list Z) (s : serial_t P) : res (serial_t P) :=
  match chs with [] => Ok s | ch :: chs => s ← serial_debug_putch ch s; put_text chs s end.

(** What the UART answers while a text is sent: for each character the busy
    states and the free one. *)
Fixpoint uart_answers (ws : list (list Z * Z)) (rest : list Z) : list Z :=
  match ws with [] => rest | (waits, st) :: ws => waits ++ st :: uart_answers ws rest end.

Lemma serial_text_ok fuel rest chs ws (p : port_script) :
  length ws = length chs → Forall (λ w, Forall busy w.1 ∧ ¬ busy w.2 ∧ (length w.1 < fuel)%nat) ws →
  answers p = uart_answers ws rest →
  put_text chs (Serial [pc_serial_debug_driver fuel] p)
    = Ok (Serial [pc_serial_debug_driver fuel] (Script (writes p ++ map (λ ch, (PORT, u8 ch)) chs) rest)).
Proof.
  revert ws p. induction chs as [|ch chs IH]; intros [|[waits st] ws] p Hl Hw Ha; try done; cbn [put_text map].
  - rewrite app_nil_r. cbn in Ha. by destruct p; cbn in *; subst.
  - apply Forall_cons in Hw as [(Hb & Hst & Hf) Hw]. cbn in Hb, Hst, Hf, Ha.
    unfold serial_debug_putch. cbn [devices putch_all sports putch pc_serial_debug_driver].
    rewrite (putch_answers waits st p (uart_answers ws rest)) by done. cbn [mbind res_bind].
    rewrite (IH ws) by (done || (cbn in Hl; lia)). cbn [writes]. by rewrite <- (assoc_L (++)).
Qed.

Lemma filter_data chs :
  filter (λ w : Z * Z, w.1 ≠ 0x80) (map (λ ch, (PORT, u8 ch)) chs) = map (λ ch, (PORT, u8 ch)) chs.
Proof. induction chs as [|x l IH]; [done|]. cbn [map]. by rewrite filter_cons_True, IH. Qed.

(** ** Properties *)

(** After [__init_pc_serial_debug] on an empty list of devices a text that
    is printed goes to the serial port character by character and in order, each
    one after the transmitter has become free; installing the driver programs
    38400 baud, 8 data bits and no interrupts.  The driver loops as long as the
    transmitter is busy: each wait needs one turn more than the states read. *)
Theorem serial_text_sent fuel dev (p : port_script) chs ws rest :
  dev ≠ 0 → length ws = length chs → Forall (λ w, Forall busy w.1 ∧ ¬ busy w.2 ∧ (length w.1 < fuel)%nat) ws →
  answers p = uart_answers ws rest →
  ∃ s s', __init_pc_serial_debug fuel dev (__serial_debug_init (Serial [] p)) = Ok s ∧ put_text chs s = Ok s' ∧
    answers (sports s') = rest ∧
    filter (λ w, w.1 ≠ 0x80) (writes (sports s')) =
      filter (λ w, w.1 ≠ 0x80) (writes p) ++
      [(PORT + 1, 0); (PORT + 3, 0x80); (PORT, 3); (PORT + 1, 0); (PORT + 3, 3); (PORT + 2, 0xC7); (PORT + 4, 0x0B)] ++
      map (λ ch, (PORT, u8 ch)) chs.
Proof.
  intros Hd Hl Hw Ha. unfold __init_pc_serial_debug, serial_debug_register_driver. rewrite (proj2 (Z.eqb_neq dev 0)) by done.
  set (p0 := install _ _). exists (Serial [pc_serial_debug_driver fuel] p0). eexists. split; [done|].
  split; [by apply (serial_text_ok fuel rest chs ws p0)|]. split; [done|].
  cbn [sports writes]. rewrite filter_app, filter_data. rewrite (assoc_L (++)). f_equal.
  unfold p0. cbn. unfold script_out. cbn. by rewrite !filter_app, <- !(assoc_L (++)).
Qed.

Lemma serial_text_sent_witness :
  ∃ s s', __init_pc_serial_debug 10 0x1000 (__serial_debug_init (Serial [] (Script [] [0; 0x40; 0x20; 0x60]))) = Ok s ∧
    put_text [79; 75] s = Ok s' ∧ answers (sports s') = [] ∧
    filter (λ w, w.1 ≠ 0x80) (writes (sports s')) =
      filter (λ w, w.1 ≠ 0x80) (writes (Script [] [0; 0x40; 0x20; 0x60])) ++
      [(PORT + 1, 0); (PORT + 3, 0x80); (PORT, 3); (PORT + 1, 0); (PORT + 3, 3); (PORT + 2, 0xC7); (PORT + 4, 0x0B)] ++
      map (λ ch, (PORT, u8 ch)) [79; 75].
Proof.
  apply (serial_text_sent 10 0x1000 (Script [] [0; 0x40; 0x20; 0x60]) [79; 75] [([0; 0x40], 0x20); ([], 0x60)] []); [lia|done| |done].
  repeat constructor; cbn; (done || lia).
Defined.
