(* ===== verification/Console.v ===== *)
(** The text console: cursor, scrolling, escape sequences.

    Sources: kernel/kernel/console/console.c, kernel/include/kernel/console/console.h.

    [console_t] is the C struct; its buffer is a list of cells.  The two things
    the console calls, the redraw operation of the driver and the serial debug
    port, are the interface [ConsoleOps] (instances in Display.v).  A [char] is a
    number from -128 to 127. *)
From S2P Require Import Prelude CString.

Definition CONSOLE_FLAG_DIRTY : Z := 1.
Definition CONSOLE_FLAG_AUTODRAW : Z := 2.
Definition CONSOLE_FLAG_SHOW_CURSOR : Z := 4.

(** [enum console_color]: the colours the console itself names. *)
Definition CONS_COLOR_BLACK : Z := 0.
Definition CONS_COLOR_BLUE : Z := 1.
Definition CONS_COLOR_GREEN : Z := 2.
Definition CONS_COLOR_CYAN : Z := 3.
Definition CONS_COLOR_RED : Z := 4.
Definition CONS_COLOR_MAGENTA : Z := 5.
Definition CONS_COLOR_BROWN : Z := 6.
Definition CONS_COLOR_LIGHT_GREY : Z := 7.

Record console_char : Type := Cell { ch : Z; ch_attrs : Z }.

#[export] Instance console_char_eq_dec : EqDecision console_char.
Proof. solve_decision. Defined.

Record console_t : Type := Console {
  columns : Z;
  rows : Z;
  column : Z;
  row : Z;
  attrs : Z;
  flags : Z;
  escape_code_sequence : list Z;
  escape_code_parameter : list Z;
  escape_code_length : Z;
  buffer : list console_char;
}.

#[export] Instance console_t_eq_dec : EqDecision console_t.
Proof. solve_decision. Defined.

(** Assignments to the fields. *)
Definition set_cursor (c : console_t) (r col : Z) : console_t :=
  Console (columns c) (rows c) col r (attrs c) (flags c) (escape_code_sequence c)
    (escape_code_parameter c) (escape_code_length c) (buffer c).
Definition set_attrs (c : console_t) (a : Z) : console_t :=
  Console (columns c) (rows c) (column c) (row c) a (flags c) (escape_code_sequence c)
    (escape_code_parameter c) (escape_code_length c) (buffer c).
Definition set_flags (c : console_t) (f : Z) : console_t :=
  Console (columns c) (rows c) (column c) (row c) (attrs c) f (escape_code_sequence c)
    (escape_code_parameter c) (escape_code_length c) (buffer c).
Definition set_sequence (c : console_t) (s : list Z) (n : Z) : console_t :=
  Console (columns c) (rows c) (column c) (row c) (attrs c) (flags c) s
    (escape_code_parameter c) n (buffer c).
Definition set_parameter (c : console_t) (p : list Z) : console_t :=
  Console (columns c) (rows c) (column c) (row c) (attrs c) (flags c) (escape_code_sequence c)
    p (escape_code_length c) (buffer c).
Definition set_buffer (c : console_t) (b : list console_char) : console_t :=
  Console (columns c) (rows c) (column c) (row c) (attrs c) (flags c) (escape_code_sequence c)
    (escape_code_parameter c) (escape_code_length c) b.

(** What the console needs from the display driver and the serial port. *)
Class ConsoleOps (E : Type) := {
  op_redraw : console_t → E → res E;
  serial_debug_putch : Z → E → E;
}.

(** ** Colours *)

Definition console_entry_color (fg bg : Z) : Z := u8 (Z.lor fg (Z.shiftl bg 4)).
Definition bg_from_console_color (color : Z) : Z := Z.shiftr (Z.land color 240) 4.
Definition fg_from_console_color (color : Z) : Z := Z.land color 15.
Definition console_entry (uc color : Z) : Z := Z.lor uc (Z.shiftl color 8).

Definition console_ansi_to_vga (ansi : Z) : Z :=
  if ansi =? 0 then CONS_COLOR_BLACK
  else if ansi =? 1 then CONS_COLOR_RED
  else if ansi =? 2 then CONS_COLOR_GREEN
  else if ansi =? 3 then CONS_COLOR_BROWN
  else if ansi =? 4 then CONS_COLOR_BLUE
  else if ansi =? 5 then CONS_COLOR_MAGENTA
  else if ansi =? 6 then CONS_COLOR_CYAN
  else if ansi =? 7 then CONS_COLOR_LIGHT_GREY
  else 13.

Definition console_set_foreground_color_ansi (c : console_t) (color : Z) : console_t :=
  let bg := bg_from_console_color (attrs c) in
  let bright_bit := Z.land (fg_from_console_color color) 8 in
  let clr := console_ansi_to_vga color in
  let clr := if negb (bright_bit =? 0) then u8 (Z.lor clr 8) else clr in
  set_attrs c (console_entry_color clr bg).

Definition console_set_foreground_color (c : console_t) (color : Z) : console_t :=
  let bg := bg_from_console_color (attrs c) in
  set_attrs c (console_entry_color color bg).

Definition console_set_background_color_ansi (c : console_t) (color : Z) : console_t :=
  let fg := fg_from_console_color (attrs c) in
  set_attrs c (console_entry_color fg (console_ansi_to_vga color)).

Definition console_set_background_color (c : console_t) (color : Z) : console_t :=
  let fg := fg_from_console_color (attrs c) in
  set_attrs c (console_entry_color fg color).

(** ** Escape sequences *)

Definition console_parameter_terminator (c : console_t) (pos : Z) : res Z :=
  while 257
    (λ pos, if pos <? escape_code_length c then
              x ← aget (escape_code_sequence c) pos;
              if (x =? 59) || (x =? 109) then Ok (Break pos) else Ok (Continue (pos + 1))
            else Ok (Break (-1))) pos.

(** The chain of tests on the value of a parameter. *)
Definition apply_parameter (c : console_t) (value : Z) : console_t :=
  if (30 <=? value) && (value <=? 37) then console_set_foreground_color_ansi c (u8 (value - 30))
  else if (40 <=? value) && (value <=? 47) then console_set_background_color_ansi c (u8 (value - 40))
  else if value =? 1 then console_set_foreground_color c (Z.lor (fg_from_console_color (attrs c)) 8)
  else if value =? 22 then console_set_foreground_color c (Z.land (fg_from_console_color (attrs c)) 7)
  else c.

(** [memset] of the parameter, then [memcpy] of [n] bytes from [pos] on. *)
Definition copy_parameter (c : console_t) (pos n : Z) : res console_t :=
  p ← for_up (Z.to_nat n) 0
        (λ i p, b ← aget (escape_code_sequence c) (pos + i); aset p i b) (replicate 32 0);
  Ok (set_parameter c p).

Definition console_sgr_consume_parameter (c : console_t) (pos : Z) : res (Z * console_t) :=
  if escape_code_length c <=? pos then Ok (-1, c)
  else
    end_ ← console_parameter_terminator c pos;
    if end_ =? -1 then Ok (-1, c)
    else
      c ← copy_parameter c pos (end_ - pos);
      value ← Str.atoi 33 (aget (escape_code_parameter c));
      Ok (end_, apply_parameter c value).

Definition console_sgr (c : console_t) : res console_t :=
  while 257
    (λ st, if 0 <? st.1 then
             st' ← console_sgr_consume_parameter st.2 (st.1 + 1); Ok (Continue st')
           else Ok (Break st.2)) (1, c).

Definition console_clear_to_end_of_line (c : console_t) : res console_t :=
  let index := u16 (row c * columns c) in
  if row c =? rows c then Ok c
  else
    b ← for_up (Z.to_nat (columns c - column c)) (column c)
          (λ i b, aset b (index + i) (Cell 32 (attrs c))) (buffer c);
    Ok (set_cursor (set_buffer c b) (u16 (row c + 1)) 0).

(** ** Text *)

(** The two copying loops of a scroll. *)
Definition scroll_buffer (c : console_t) : res (list console_char) :=
  b ← for_up (Z.to_nat (rows c - 1)) 1
        (λ i b, for_up (Z.to_nat (columns c)) 0
           (λ j b, x ← aget b (i * columns c + j); aset b ((i - 1) * columns c + j) x) b)
        (buffer c);
  for_up (Z.to_nat (columns c)) 0
    (λ i b, let index := u16 ((rows c - 1) * columns c + i) in aset b index (Cell 32 (attrs c))) b.

Definition scroll (c : console_t) : res console_t :=
  if row c =? rows c then
    b ← scroll_buffer c; Ok (set_cursor (set_buffer c b) (u16 (row c - 1)) 0)
  else Ok c.

(** A character that is not part of an escape sequence. *)
Definition put_text {E} `{ConsoleOps E} (c : console_t) (e : E) (chr : Z) : res (console_t * E) :=
  c ← scroll c;
  if chr =? 10 then Ok (set_cursor c (u16 (row c + 1)) 0, serial_debug_putch 10 e)
  else
    let e := serial_debug_putch chr e in
    b ← aset (buffer c) (row c * columns c + column c) (Cell (u8 chr) (attrs c));
    let c := set_buffer c b in
    let col := u16 (column c + 1) in
    if col =? columns c then Ok (set_cursor c (u16 (row c + 1)) 0, e)
    else Ok (set_cursor c (row c) col, e).

(** [escape_code_sequence[escape_code_length] = c; escape_code_length++] *)
Definition append_escape (c : console_t) (chr : Z) : res console_t :=
  s ← aset (escape_code_sequence c) (escape_code_length c) (u8 chr);
  Ok (set_sequence c s (u8 (escape_code_length c + 1))).

(** The [switch] on the final byte of a control sequence. *)
Definition final_byte {E} `{ConsoleOps E} (c : console_t) (e : E) (chr : Z) : res (console_t * E) :=
  if chr =? 75 then c ← console_clear_to_end_of_line c; Ok (c, serial_debug_putch 10 e)
  else if chr =? 109 then c ← console_sgr c; Ok (c, e)
  else Ok (c, e).

Definition __console_putch {E} `{ConsoleOps E} (c : console_t) (e : E) (chr : Z) : res (console_t * E) :=
  if chr =? 27 then
    s ← aset (replicate 32 0) 0 27; Ok (set_sequence c s 1, e)
  else if 0 <? escape_code_length c then
    if escape_code_length c =? 1 then
      if chr =? 91 then c ← append_escape c chr; Ok (c, e)
      else Ok (set_sequence c (escape_code_sequence c) 0, e)
    else if (64 <=? chr) && (chr <=? 126) then
      c ← append_escape c chr;
      '(c, e) ← final_byte c e chr;
      Ok (set_sequence c (escape_code_sequence c) 0, e)
    else c ← append_escape c chr; Ok (c, e)
  else put_text c e chr.

(** ** Entry points *)

Definition __console_redraw {E} `{ConsoleOps E} (c : console_t) (e : E) : res (console_t * E) :=
  if negb (Z.land (flags c) CONSOLE_FLAG_DIRTY =? 0) then
    e ← op_redraw c e; Ok (set_flags c (Z.land (flags c) (u32 (Z.lnot CONSOLE_FLAG_DIRTY))), e)
  else Ok (c, e).

(** [flags |= DIRTY], and the redraw of a console that draws itself. *)
Definition mark_dirty {E} `{ConsoleOps E} (c : console_t) (e : E) : res (console_t * E) :=
  let c := set_flags c (Z.lor (flags c) CONSOLE_FLAG_DIRTY) in
  if negb (Z.land (flags c) CONSOLE_FLAG_AUTODRAW =? 0) then __console_redraw c e else Ok (c, e).

Definition __console_initialize {E} `{ConsoleOps E} (c : console_t) (e : E) : res (console_t * E) :=
  let c := set_attrs (set_cursor c 0 0) 7 in
  b ← for_up (Z.to_nat (rows c)) 0
        (λ i b, for_up (Z.to_nat (columns c)) 0
           (λ j b, aset b (i * columns c + j) (Cell 32 (attrs c))) b) (buffer c);
  mark_dirty (set_buffer c b) e.

Definition console_putch {E} `{ConsoleOps E} (c : console_t) (e : E) (chr : Z) : res (console_t * E) :=
  '(c, e) ← __console_putch c e chr; mark_dirty c e.

(** [putch] for every character of a buffer. *)
Fixpoint put_all {E} `{ConsoleOps E} (c : console_t) (e : E) (buf : list Z) : res (console_t * E) :=
  match buf with
  | [] => Ok (c, e)
  | chr :: buf => '(c, e) ← __console_putch c e chr; put_all c e buf
  end.

Definition console_write {E} `{ConsoleOps E} (c : console_t) (e : E) (buf : list Z) : res (console_t * E) :=
  '(c, e) ← put_all c e buf; mark_dirty c e.

(** The string is given by its characters up to the terminator; [strlen] finds
    their number. *)
Definition console_writestr {E} `{ConsoleOps E} (c : console_t) (e : E) (str : list Z) : res (console_t * E) :=
  len ← Str.strlen (S (length str)) (Str.lit (map u8 str));
  console_write c e (take (Z.to_nat len) str).

Definition console_debug {E} `{ConsoleOps E} (c : console_t) (e : E) : res E := op_redraw c e.

(** ** Invariant *)

Record inv (c : console_t) : Prop := {
  inv_dims : 0 < columns c ∧ 0 < rows c ∧ rows c * columns c ≤ 65535;
  inv_buffer : Z.of_nat (length (buffer c)) = rows c * columns c;
  inv_cursor : 0 ≤ column c < columns c ∧ 0 ≤ row c ≤ rows c;
  inv_sequence : length (escape_code_sequence c) = 32%nat;
  inv_parameter : length (escape_code_parameter c) = 32%nat;
  inv_length : 0 ≤ escape_code_length c ≤ 32;
}.

(** The parameters of a control sequence: the bytes up to each ';' or 'm'. *)
Definition field_end (x : Z) : bool := (x =? 59) || (x =? 109).
Fixpoint sgr_fields (cur l : list Z) : list (list Z) :=
  match l with
  | [] => []
  | x :: l => if field_end x then cur :: sgr_fields [] l else sgr_fields (cur ++ [x]) l
  end.

(** The parameter buffer with one of them, and whether [atoi] overflows on it; for a
    decimal that is when its value exceeds INT_MAX - 48 ([overflows_decimal]). *)
Definition parameter_of (d : list Z) : list Z := d ++ replicate (32 - length d) 0.
Definition overflows (d : list Z) : Prop := Str.atoi 33 (aget (parameter_of d)) = Fault SignedOverflow.

(** The parameters from index [pos] of the sequence on. *)
Definition fields_from (c : console_t) (pos : Z) : list (list Z) :=
  sgr_fields [] (drop (Z.to_nat pos) (take (Z.to_nat (escape_code_length c)) (escape_code_sequence c))).

(** The fields an SGR sequence can change: colours and the parameter buffer. *)
Definition recolour (c : console_t) (a : Z) (p : list Z) : console_t := set_parameter (set_attrs c a) p.

Lemma recolour_self c : recolour c (attrs c) (escape_code_parameter c) = c.
Proof. by destruct c. Qed.

Lemma inv_recolour c a p : inv c → length p = 32%nat → inv (recolour c a p).
Proof. intros []. by split. Qed.

Lemma apply_parameter_recolour c v :
  ∃ a, apply_parameter c v = recolour c a (escape_code_parameter c).
Proof.
  unfold apply_parameter. repeat case_match; eexists; try reflexivity.
  symmetry. apply recolour_self.
Qed.

Lemma sgr_fields_none cur l : Forall (λ x, field_end x = false) l → sgr_fields cur l = [].
Proof. intros Hl. revert cur. induction Hl as [|x l Hx _ IH]; intros cur; [done|]. cbn. by rewrite Hx. Qed.

Lemma sgr_fields_cons cur d t l :
  Forall (λ x, field_end x = false) d → field_end t = true → sgr_fields cur (d ++ t :: l) = (cur ++ d) :: sgr_fields [] l.
Proof.
  intros Hd Ht. revert cur. induction Hd as [|x d Hx _ IH]; intros cur; cbn; [by rewrite Ht, app_nil_r|].
  rewrite Hx, IH. by rewrite <- (assoc_L (++)).
Qed.

(** The sequence cut at [pos] and at a later [q]. *)
Definition sub_field (c : console_t) (pos q : Z) : list Z :=
  take (Z.to_nat (q - pos)) (drop (Z.to_nat pos) (escape_code_sequence c)).

Lemma sub_field_lookup c pos q i x :
  0 ≤ pos → sub_field c pos q !! i = Some x → (i < Z.to_nat (q - pos))%nat ∧ aget (escape_code_sequence c) (pos + Z.of_nat i) = Ok x.
Proof.
  intros Hp. unfold sub_field. intros [Hx Hi]%lookup_take_Some. split; [done|]. rewrite lookup_drop in Hx. apply aget_Ok.
  split; [lia|]. rewrite <- Hx. f_equal. lia.
Qed.

Lemma rest_split c pos q :
  length (escape_code_sequence c) = 32%nat → 0 ≤ pos ≤ q → q ≤ escape_code_length c ≤ 32 →
  drop (Z.to_nat pos) (take (Z.to_nat (escape_code_length c)) (escape_code_sequence c))
  = sub_field c pos q ++ drop (Z.to_nat q) (take (Z.to_nat (escape_code_length c)) (escape_code_sequence c)).
Proof.
  intros Hs Hp Hq. unfold sub_field. set (l := escape_code_sequence c) in *. set (n := Z.to_nat (escape_code_length c)).
  replace (take (Z.to_nat (q - pos)) (drop (Z.to_nat pos) l)) with (take (Z.to_nat (q - pos)) (drop (Z.to_nat pos) (take n l)))
    by (rewrite !take_drop_commute, take_take; f_equal; f_equal; lia).
  replace (drop (Z.to_nat q) (take n l)) with (drop (Z.to_nat (q - pos)) (drop (Z.to_nat pos) (take n l)))
    by (rewrite drop_drop; f_equal; lia).
  by rewrite take_drop.
Qed.

Lemma terminator_ok c pos :
  inv c → 0 ≤ pos →
  ∃ e, console_parameter_terminator c pos = Ok e ∧
    ((e = -1 ∧ fields_from c pos = []) ∨
     (pos ≤ e < escape_code_length c ∧ fields_from c pos = sub_field c pos e :: fields_from c (e + 1))).
Proof.
  intros Hi Hp. unfold console_parameter_terminator. pose proof (inv_length _ Hi). pose proof (inv_sequence _ Hi) as Hs.
  apply (while_total (λ q, pos ≤ q ∧ (escape_code_length c < pos ∨ q ≤ escape_code_length c) ∧
      Forall (λ x, field_end x = false) (sub_field c pos q)) _ (λ q, Z.to_nat (escape_code_length c - q)));
    [|split; [lia|split; [lia|]]; unfold sub_field; by rewrite Z.sub_diag|lia].
  intros q (Hq & Hqe & Hno). case_test.
  - destruct (aget_in (escape_code_sequence c) q) as [x Hx]; [rewrite (inv_sequence _ Hi); lia|].
    rewrite Hx. cbn [mbind res_bind]. fold (field_end x). destruct (field_end x) eqn:Ex; [right|left]; eexists; (split; [done|]).
    + right. split; [lia|]. unfold fields_from. rewrite (rest_split c pos q), (rest_split c q (q + 1)) by (done || lia).
      assert (sub_field c q (q + 1) = [x]) as ->.
      { unfold sub_field. replace (Z.to_nat (q + 1 - q)) with 1%nat by lia. apply aget_Ok in Hx as [_ Hx].
        by erewrite drop_S by exact Hx. }
      cbn [app]. by rewrite sgr_fields_cons.
    + split; [|lia]. split; [lia|]. split; [lia|]. apply Forall_lookup. intros i y Hy.
      apply sub_field_lookup in Hy as [Hiq Hy]; [|lia]. destruct (decide (pos + Z.of_nat i = q)) as [E|Hne].
      * rewrite E in Hy. congruence.
      * rewrite Forall_lookup in Hno. apply (Hno i). unfold sub_field. apply lookup_take_Some. split; [|lia].
        rewrite lookup_drop. apply aget_Ok in Hy as [_ Hy]. rewrite <- Hy. f_equal. lia.
  - right. eexists. split; [done|]. left. split; [done|]. unfold fields_from. apply sgr_fields_none.
    destruct (decide (escape_code_length c < pos)).
    + rewrite drop_ge; [constructor|]. rewrite length_take. lia.
    + assert (q = escape_code_length c) as -> by lia. rewrite (rest_split c pos (escape_code_length c)) by (done || lia).
      apply Forall_app. split; [done|]. rewrite drop_ge; [constructor|]. rewrite length_take. lia.
Qed.

Lemma copy_parameter_ok c pos n :
  length (escape_code_sequence c) = 32%nat → 0 ≤ pos → 0 ≤ n ≤ 32 → pos + n ≤ 32 →
  ∃ p, copy_parameter c pos n = Ok (set_parameter c p) ∧ length p = 32%nat ∧
    (∀ i, 0 ≤ i < n → aget p i = aget (escape_code_sequence c) (pos + i)) ∧
    (∀ i, n ≤ i < 32 → aget p i = Ok 0).
Proof.
  intros Hs Hp Hn Hpn. unfold copy_parameter.
  destruct (for_up_inv (λ k p, length p = 32%nat ∧
      (∀ i, 0 ≤ i < k → aget p i = aget (escape_code_sequence c) (pos + i)) ∧
      (∀ i, k ≤ i < 32 → aget p i = Ok 0)) (Z.to_nat n) 0
      (λ i p, b ← aget (escape_code_sequence c) (pos + i); aset p i b) (replicate 32 0))
    as (p & -> & Hl & H1 & H2).
  - intros k p Hk (Hl & H1 & H2).
    destruct (aget_in (escape_code_sequence c) (pos + k)) as [b Hb]; [lia|].
    rewrite Hb. cbn [mbind res_bind]. rewrite aset_ok by lia. eexists. split; [done|].
    rewrite length_insert. split; [done|]. split.
    + intros i Hi. destruct (decide (i = k)) as [->|].
      * by rewrite aget_insert_eq by lia.
      * rewrite aget_insert_ne by lia. apply H1. lia.
    + intros i Hi. rewrite aget_insert_ne by lia. apply H2. lia.
  - split; [done|]. split; [lia|]. intros i Hi. apply aget_Ok. split; [lia|].
    apply lookup_replicate. split; [done|lia].
  - exists p. split; [done|]. split_and!; [done|..]; intros; [apply H1|apply H2]; lia.
Qed.

Lemma copy_parameter_eq c pos e :
  inv c → 0 ≤ pos ≤ e → e ≤ 32 → copy_parameter c pos (e - pos) = Ok (set_parameter c (parameter_of (sub_field c pos e))).
Proof.
  intros Hi Hp He. pose proof (inv_sequence _ Hi) as Hs.
  destruct (copy_parameter_ok c pos (e - pos)) as (p & -> & Hpl & H1 & H2); [done|lia..|]. do 2 f_equal.
  assert (Hl : length (sub_field c pos e) = Z.to_nat (e - pos)) by (unfold sub_field; rewrite length_take, length_drop; lia).
  apply list_eq_same_length with 32%nat; [unfold parameter_of; rewrite length_app, length_replicate; lia|done|].
  intros i x y Hi32 Hx Hy. unfold parameter_of in Hy.
  assert (Hax : aget p (Z.of_nat i) = Ok x) by (apply aget_Ok; split; [lia|by rewrite Nat2Z.id]).
  destruct (decide (Z.of_nat i < e - pos)) as [Hlt|Hge].
  - rewrite lookup_app_l in Hy by lia. apply sub_field_lookup in Hy as [_ Hy]; [|lia]. rewrite H1 in Hax by lia. congruence.
  - rewrite lookup_app_r in Hy by lia. apply lookup_replicate in Hy as [-> _]. rewrite H2 in Hax by lia. congruence.
Qed.

Lemma consume_ok c pos :
  inv c → 1 ≤ pos →
  post (λ r, (∃ a p, r.2 = recolour c a p ∧ length p = 32%nat) ∧
               ((r.1 = -1 ∧ fields_from c pos = []) ∨
                (pos ≤ r.1 < escape_code_length c ∧
                 ∃ d, fields_from c pos = d :: fields_from c (r.1 + 1) ∧ ¬ overflows d)))
       (λ f, f = SignedOverflow ∧ ∃ d fs, fields_from c pos = d :: fs ∧ overflows d) (console_sgr_consume_parameter c pos).
Proof.
  intros Hi Hp. unfold console_sgr_consume_parameter. pose proof (inv_length _ Hi).
  assert (Hself : ∃ a p, c = recolour c a p ∧ length p = 32%nat).
  { exists (attrs c), (escape_code_parameter c). by rewrite recolour_self, (inv_parameter _ Hi). }
  destruct (terminator_ok c pos) as (e & He & Hcase); [done|lia|]. rewrite He.
  case_test.
  { cbn [post fst snd]. split; [done|]. left. split; [done|]. destruct Hcase as [[_ ?]|[? _]]; [done|lia]. }
  cbn [mbind res_bind]. destruct Hcase as [[-> Hnone]|[Hr Hf]].
  { cbn [Z.eqb Pos.eqb]. cbn [post fst snd]. split; [done|]. by left. }
  rewrite (proj2 (Z.eqb_neq e (-1))) by lia. rewrite copy_parameter_eq by (done || lia). cbn [mbind res_bind].
  cbn [escape_code_parameter set_parameter]. set (d := sub_field c pos e) in *.
  assert (Hl : length d = Z.to_nat (e - pos)) by (unfold d, sub_field; rewrite length_take, length_drop, (inv_sequence _ Hi); lia).
  assert (Hpl : length (parameter_of d) = 32%nat) by (unfold parameter_of; rewrite length_app, length_replicate; lia).
  assert (Hat : post (λ _, True) (λ f, f = SignedOverflow) (Str.atoi 33 (aget (parameter_of d)))).
  { apply (Str.atoi_total _ _ (e - pos)); [|apply aget_Ok; split; [lia|]|lia|lia].
    - intros i Hir. apply aget_in. rewrite Hpl. lia.
    - unfold parameter_of. rewrite lookup_app_r by lia. apply lookup_replicate. split; [done|lia]. }
  destruct (Str.atoi 33 (aget (parameter_of d))) as [v|f] eqn:Ev; cbn [mbind res_bind post fst snd].
  - destruct (apply_parameter_recolour (set_parameter c (parameter_of d)) v) as [a ->].
    split; [by exists a, (parameter_of d)|]. right. split; [lia|]. exists d. split; [done|]. unfold overflows. by rewrite Ev.
  - cbn in Hat. subst f. split; [done|]. eauto.
Qed.

Lemma fields_recolour c a p pos : fields_from (recolour c a p) pos = fields_from c pos.
Proof. done. Qed.

Lemma sgr_ok c :
  inv c → post (λ c', (∃ a p, c' = recolour c a p ∧ length p = 32%nat) ∧ ¬ Exists overflows (fields_from c 2))
               (λ f, f = SignedOverflow ∧ Exists overflows (fields_from c 2)) (console_sgr c).
Proof.
  intros Hi. unfold console_sgr. pose proof (inv_length _ Hi).
  apply (while_post (λ st : Z * console_t, st.1 < 32 ∧ (∃ a p, st.2 = recolour c a p ∧ length p = 32%nat) ∧
      ∃ ds, Forall (λ d, ¬ overflows d) ds ∧ fields_from c 2 = ds ++ (if 0 <? st.1 then fields_from c (st.1 + 1) else []))
    _ _ (λ st, Z.to_nat (33 - st.1) * Z.to_nat (Z.sgn st.1))%nat).
  - intros [pos c'] (Hpos & (a & p & -> & Hp) & ds & Hds & Hf). cbn [fst snd] in *.
    case_test; cbn iota in Hf.
    2:{ cbn. split; [eauto|]. rewrite Hf, app_nil_r. rewrite Exists_exists. intros (d & Hd & Ho).
        rewrite Forall_forall in Hds. by eapply Hds. }
    eapply post_bind with (Q := λ r, (∃ a p, r.2 = recolour c a p ∧ length p = 32%nat) ∧ _).
    + eapply post_mono; [apply (consume_ok (recolour c a p) (pos + 1)); [by apply inv_recolour|lia]| |].
      * intros [e c''] [(a' & p' & Hc & Hp') He]. split; [by exists a', p'|exact He].
      * intros f (-> & d & fs & Hfs & Ho). split; [done|]. rewrite Hf. apply Exists_app. right.
        rewrite fields_recolour in Hfs. rewrite Hfs. by left.
    + intros [e c''] [(a' & p' & Hc & Hp') He]. cbn [fst snd post] in *. rewrite !fields_recolour in He.
      cbn in Hc. subst c''. split.
      * split; [cbn in He; lia|]. split; [by exists a', p'|].
        destruct He as [[-> Hn]|(He & d & Hd & Hno)].
        -- exists ds. split; [done|]. cbn. by rewrite Hf, Hn.
        -- exists (ds ++ [d]). split; [apply Forall_app; by split; [|constructor]|].
           rewrite (proj2 (Z.ltb_lt 0 e)) by lia. rewrite Hf, Hd. by rewrite <- (assoc_L (++)).
      * destruct He as [[-> _]|[He _]]; [cbn; lia|]. rewrite !Z.sgn_pos by lia. cbn in He. lia.
  - cbn. split; [lia|]. split.
    + exists (attrs c), (escape_code_parameter c). by rewrite recolour_self, (inv_parameter _ Hi).
    + exists []. split; [constructor|done].
  - cbn. lia.
Qed.

(** ** Filling and scrolling *)

(** A loop that writes the same cell to [n] consecutive places. *)
Lemma fill_ok (f : Z → Z) (b : list console_char) lo n x base :
  0 ≤ base + lo → base + lo + Z.of_nat n ≤ Z.of_nat (length b) →
  (∀ i, lo ≤ i < lo + Z.of_nat n → f i = base + i) →
  ∃ b', for_up n lo (λ i b, aset b (f i) x) b = Ok b' ∧ length b' = length b ∧
    ∀ k, b' !! k = if bool_decide (base + lo ≤ Z.of_nat k < base + lo + Z.of_nat n)
                   then Some x else b !! k.
Proof.
  intros Hlo Hhi Hf.
  destruct (for_up_inv (λ i b', length b' = length b ∧
      ∀ k, b' !! k = if bool_decide (base + lo ≤ Z.of_nat k < base + i) then Some x else b !! k)
    n lo (λ i b, aset b (f i) x) b) as (b' & -> & Hl & Hb).
  - intros i b' Hi (Hl & Hb). rewrite Hf, aset_ok by lia. eexists. split; [done|].
    rewrite length_insert. split; [done|]. intros k.
    destruct (decide (k = Z.to_nat (base + i))) as [->|Hne].
    + rewrite list_lookup_insert_eq by lia. rewrite bool_decide_true by lia. done.
    + rewrite list_lookup_insert_ne by done. rewrite Hb.
      repeat case_bool_decide; (done || lia).
  - split; [done|]. intros k. rewrite bool_decide_false by lia. done.
  - exists b'. split; [done|]. split; [done|]. intros k. rewrite Hb.
    replace (base + (lo + Z.of_nat n)) with (base + lo + Z.of_nat n) by lia. done.
Qed.

Lemma clear_to_end_of_line_ok c :
  inv c → ∃ c', console_clear_to_end_of_line c = Ok c' ∧ inv c' ∧
    escape_code_sequence c' = escape_code_sequence c ∧ escape_code_length c' = escape_code_length c.
Proof.
  intros Hi. unfold console_clear_to_end_of_line. cbv zeta.
  pose proof (inv_cursor _ Hi). pose proof (inv_dims _ Hi). pose proof (inv_buffer _ Hi).
  case_test; [eauto|]. rewrite (u16_small (row c * columns c)) by nia.
  destruct (fill_ok (λ i, row c * columns c + i) (buffer c) (column c) (Z.to_nat (columns c - column c))
    (Cell 32 (attrs c)) (row c * columns c)) as (b & -> & Hl & _); [nia|nia|done|].
  cbn [mbind res_bind]. eexists. split; [done|]. split; [|done].
  destruct Hi. split; cbn; try done; [lia|]. rewrite u16_small by nia. lia.
Qed.

(** One row of the copying loop: row [i] goes to row [i - 1]. *)
Lemma copy_row_ok (w i : Z) (b : list console_char) :
  0 < w → 1 ≤ i → (i + 1) * w ≤ Z.of_nat (length b) →
  ∃ b', for_up (Z.to_nat w) 0
          (λ j b, x ← aget b (i * w + j); aset b ((i - 1) * w + j) x) b = Ok b' ∧
    length b' = length b ∧
    ∀ k, b' !! k = if bool_decide ((i - 1) * w ≤ Z.of_nat k < i * w)
                   then b !! (k + Z.to_nat w)%nat else b !! k.
Proof.
  intros Hw Hi Hlen.
  destruct (for_up_inv (λ j b', length b' = length b ∧
      ∀ k, b' !! k = if bool_decide ((i - 1) * w ≤ Z.of_nat k < (i - 1) * w + j)
                     then b !! (k + Z.to_nat w)%nat else b !! k)
    (Z.to_nat w) 0 (λ j b, x ← aget b (i * w + j); aset b ((i - 1) * w + j) x) b)
    as (b' & -> & Hl & Hb).
  - intros j b' Hj (Hl & Hb).
    destruct (aget_in b' (i * w + j)) as [x Hx]; [nia|]. rewrite Hx. cbn [mbind res_bind].
    rewrite aset_ok by nia. eexists. split; [done|]. rewrite length_insert. split; [done|].
    apply aget_Ok in Hx as [_ Hx]. rewrite Hb, bool_decide_false in Hx by nia.
    intros k. destruct (decide (k = Z.to_nat ((i - 1) * w + j))) as [->|Hne].
    + rewrite list_lookup_insert_eq by nia. rewrite bool_decide_true by nia.
      rewrite <- Hx. f_equal. nia.
    + rewrite list_lookup_insert_ne by done. rewrite Hb.
      repeat case_bool_decide; (done || nia).
  - split; [done|]. intros k. rewrite bool_decide_false by lia. done.
  - exists b'. split; [done|]. split; [done|]. intros k. rewrite Hb.
    repeat case_bool_decide; (done || nia).
Qed.

(** A scroll drops the first row and adds a blank one. *)
Lemma scroll_buffer_ok c :
  inv c → scroll_buffer c = Ok (drop (Z.to_nat (columns c)) (buffer c)
                               ++ replicate (Z.to_nat (columns c)) (Cell 32 (attrs c))).
Proof.
  intros Hi. pose proof (inv_dims _ Hi) as Hd. pose proof (inv_buffer _ Hi) as Hbuf.
  unfold scroll_buffer. set (w := columns c) in *. set (h := rows c) in *.
  destruct (for_up_inv (λ i b', length b' = length (buffer c) ∧
      ∀ k, b' !! k = if bool_decide (Z.of_nat k < (i - 1) * w)
                     then buffer c !! (k + Z.to_nat w)%nat else buffer c !! k)
    (Z.to_nat (h - 1)) 1 (λ i b, for_up (Z.to_nat w) 0
      (λ j b, x ← aget b (i * w + j); aset b ((i - 1) * w + j) x) b) (buffer c))
    as (b1 & -> & Hl1 & Hb1).
  - intros i b' Hir (Hl & Hb). destruct (copy_row_ok w i b') as (b2 & -> & Hl2 & Hb2); [lia|lia|nia|].
    eexists. split; [done|]. split; [lia|]. intros k. rewrite Hb2, !Hb.
    repeat case_bool_decide; try done; nia.
  - split; [done|]. intros k. rewrite bool_decide_false by lia. done.
  - cbn [mbind res_bind].
    destruct (fill_ok (λ i, u16 ((h - 1) * w + i)) b1 0 (Z.to_nat w) (Cell 32 (attrs c)) ((h - 1) * w))
      as (b2 & -> & Hl2 & Hb2); [nia|nia|intros; apply u16_small; nia|].
    f_equal. apply list_eq. intros k. rewrite Hb2, Hb1.
    destruct (decide (Z.of_nat k < (h - 1) * w)) as [Hk|Hk].
    + rewrite bool_decide_false, bool_decide_true by nia. rewrite lookup_app_l by (rewrite length_drop; nia).
      rewrite lookup_drop. f_equal. lia.
    + rewrite lookup_app_r by (rewrite length_drop; nia). rewrite length_drop.
      destruct (decide (Z.of_nat k < h * w)) as [Hk2|Hk2].
      * rewrite bool_decide_true by nia. symmetry. apply lookup_replicate. split; [done|nia].
      * rewrite bool_decide_false, bool_decide_false by nia.
        rewrite (proj2 (lookup_ge_None _ _)) by nia. symmetry. apply lookup_replicate_None. nia.
Qed.

Lemma scroll_ok c :
  inv c → ∃ c', scroll c = Ok c' ∧ inv c' ∧ row c' < rows c' ∧
    attrs c' = attrs c ∧ columns c' = columns c ∧ rows c' = rows c ∧
    escape_code_length c' = escape_code_length c ∧
    escape_code_sequence c' = escape_code_sequence c ∧
    escape_code_parameter c' = escape_code_parameter c ∧ flags c' = flags c ∧
    (buffer c', row c', column c') =
      if row c =? rows c
      then (drop (Z.to_nat (columns c)) (buffer c)
            ++ replicate (Z.to_nat (columns c)) (Cell 32 (attrs c)), rows c - 1, 0)
      else (buffer c, row c, column c).
Proof.
  intros Hi. pose proof (inv_dims _ Hi). pose proof (inv_cursor _ Hi). pose proof (inv_buffer _ Hi).
  unfold scroll. case_test.
  - rewrite scroll_buffer_ok by done. cbn [mbind res_bind]. eexists. split; [done|].
    cbn. rewrite u16_small by nia. split_and!; try done; try lia; [|congruence].
    destruct Hi. split; cbn; try done; [|rewrite ?u16_small by nia; lia].
    rewrite length_app, length_drop, length_replicate. nia.
  - exists c. split_and!; try done; lia.
Qed.

(** ** One character *)

Section putch.
Context {E : Type} `{ConsoleOps E}.

(** What a plain character does to the text: scroll when the cursor is below the
    last row, then store the character and advance, or start a new row. *)
Definition text_step (c : console_t) (chr : Z) : list console_char * Z * Z :=
  let '(b, r, col) :=
    if row c =? rows c
    then (drop (Z.to_nat (columns c)) (buffer c)
          ++ replicate (Z.to_nat (columns c)) (Cell 32 (attrs c)), rows c - 1, 0)
    else (buffer c, row c, column c) in
  if chr =? 10 then (b, r + 1, 0)
  else
    let b := <[Z.to_nat (r * columns c + col) := Cell (u8 chr) (attrs c)]> b in
    if col + 1 =? columns c then (b, r + 1, 0) else (b, r, col + 1).

(** [c] with the text of [x]. *)
Definition with_text (c : console_t) (x : list console_char * Z * Z) : console_t :=
  set_cursor (set_buffer c x.1.1) x.1.2 x.2.

Lemma inv_with_text c b r col :
  inv c → length b = length (buffer c) → 0 ≤ r ≤ rows c → 0 ≤ col < columns c →
  inv (with_text c (b, r, col)).
Proof. intros [] Hl Hr Hc. split; cbn; try done; lia. Qed.

Lemma put_text_ok c e chr :
  inv c → put_text c e chr = Ok (with_text c (text_step c chr), serial_debug_putch chr e) ∧
    inv (with_text c (text_step c chr)).
Proof.
  intros Hi. destruct (scroll_ok c Hi) as (c1 & Hs & Hi1 & Hr & Ha & Hw & Hh & Hn & Hq & Hp & Hf & Ht).
  unfold put_text, text_step. rewrite Hs, <- Ht. cbn [mbind res_bind].
  pose proof (inv_dims _ Hi1). pose proof (inv_cursor _ Hi1). pose proof (inv_buffer _ Hi1).
  assert (Hlen : length (buffer c1) = length (buffer c)).
  { pose proof (inv_buffer _ Hi) as Hb0. pose proof (inv_buffer _ Hi1) as Hb1.
    rewrite Hw, Hh in Hb1. lia. }
  assert (Hwt : ∀ b r col, set_cursor (set_buffer c1 b) r col = with_text c (b, r, col)).
  { intros b r col. destruct c, c1. cbn in *. subst. done. }
  assert (Hcb : ∀ r col, set_cursor c1 r col = with_text c (buffer c1, r, col))
    by (intros r col; rewrite <- Hwt; by destruct c1).
  case_test.
  - rewrite u16_small by nia. subst chr. rewrite Hcb. split; [done|].
    apply inv_with_text; [done|done|lia|lia].
  - rewrite aset_ok by nia. cbn [mbind res_bind column columns row set_buffer].
    rewrite u16_small by nia. rewrite Hw, Ha. case_test.
    + rewrite u16_small by nia. rewrite Hwt. split; [done|].
      apply inv_with_text; [done|by rewrite length_insert|lia|lia].
    + rewrite Hwt. split; [done|]. apply inv_with_text; [done|by rewrite length_insert|lia|lia].
Qed.

Lemma append_escape_ok c chr :
  inv c → escape_code_length c < 32 →
  ∃ c', append_escape c chr = Ok c' ∧ inv c' ∧ escape_code_length c' = escape_code_length c + 1.
Proof.
  intros Hi Hl. unfold append_escape. pose proof (inv_length _ Hi).
  rewrite (aset_ok (escape_code_sequence c)) by (rewrite (inv_sequence _ Hi); lia).
  cbn [mbind res_bind]. eexists.
  split; [done|]. cbn. rewrite (u8_small (escape_code_length c + 1)) by lia. split; [|done].
  destruct Hi. split; cbn; try done; [by rewrite length_insert|lia].
Qed.

Lemma inv_set_length c n : inv c → 0 ≤ n ≤ 32 → inv (set_sequence c (escape_code_sequence c) n).
Proof. intros [] Hn. by split. Qed.

(** The faults [putch] has: one more byte than the sequence buffer holds, or the 'm'
    after parameters of which [atoi] overflows on one. *)
Definition putch_fault (c : console_t) (chr : Z) (f : fault) : Prop :=
  (f = OutOfBounds ∧ escape_code_length c = 32 ∧ chr ≠ 27) ∨
  (f = SignedOverflow ∧ chr = 109 ∧ 2 ≤ escape_code_length c < 32 ∧
   Exists overflows (sgr_fields [] (drop 2 (take (Z.to_nat (escape_code_length c)) (escape_code_sequence c)) ++ [109]))).

Lemma append_fields c c' :
  inv c → 2 ≤ escape_code_length c < 32 → append_escape c 109 = Ok c' →
  fields_from c' 2 = sgr_fields [] (drop 2 (take (Z.to_nat (escape_code_length c)) (escape_code_sequence c)) ++ [109]).
Proof.
  intros Hi Hl. unfold append_escape. pose proof (inv_sequence _ Hi). rewrite aset_ok by lia. cbn [mbind res_bind]. intros [= <-].
  unfold fields_from. cbn [escape_code_length escape_code_sequence set_sequence]. rewrite u8_small by lia. f_equal.
  change (Z.to_nat 2) with 2%nat. rewrite Z2Nat.inj_add, Nat.add_1_r by lia.
  rewrite (take_S_r _ _ 109) by (apply list_lookup_insert_eq; lia).
  rewrite take_insert_ge by lia. assert (Hl2 : (2 ≤ length (take (Z.to_nat (escape_code_length c)) (escape_code_sequence c)))%nat) by (rewrite length_take; lia).
  by rewrite drop_app_le by exact Hl2.
Qed.

Lemma putch_ok c e chr :
  inv c → post (λ r, inv r.1 ∧ ∀ f, ¬ putch_fault c chr f) (putch_fault c chr) (__console_putch c e chr).
Proof.
  intros Hi. pose proof (inv_length _ Hi) as Hlen. unfold __console_putch. case_test.
  { rewrite aset_ok by done. split; [destruct Hi; split; cbn; done|]. intros f [(_ & _ & ?)|(_ & ? & _)]; lia. }
  case_test.
  2:{ destruct (put_text_ok c e chr Hi) as [-> ?]. split; [done|]. intros f [(_ & ? & _)|(_ & _ & ? & _)]; lia. }
  assert (Happ : ∀ A (k : console_t → res A) Q, chr ≠ 27 →
    (∀ c', inv c' → append_escape c chr = Ok c' → escape_code_length c < 32 → post Q (putch_fault c chr) (k c')) →
    post Q (putch_fault c chr) (append_escape c chr ≫= k)).
  { intros A k Q Hne Hk. destruct (decide (escape_code_length c = 32)) as [He|He].
    - unfold append_escape. rewrite (aset_out (escape_code_sequence c)) by (rewrite (inv_sequence _ Hi); lia).
      cbn. left. done.
    - destruct (append_escape_ok c chr Hi) as (c' & Ha & Hi' & _); [lia|]. rewrite Ha. apply Hk; [done..|lia]. }
  case_test.
  { case_test.
    - apply Happ; [done|]. intros c' Hi' _ _. split; [done|]. intros f [(_ & ? & _)|(_ & ? & _)]; lia.
    - split; [by apply inv_set_length|]. intros f [(_ & ? & _)|(_ & _ & ? & _)]; lia. }
  case_test.
  2:{ apply Happ; [done|]. intros c' Hi' _ Hlt. split; [done|]. intros f [(_ & ? & _)|(_ & -> & _)]; lia. }
  apply Happ; [done|]. intros c' Hi' Ha Hlt.
  eapply (post_bind (λ r, inv r.1 ∧ ∀ f, ¬ putch_fault c chr f));
    [|intros [c2 e2] [Hi2 Hnf]; split; [by apply inv_set_length|exact Hnf]].
  assert (Hother : chr ≠ 109 → ∀ f, ¬ putch_fault c chr f) by (intros Hne f [(_ & ? & _)|(_ & ? & _)]; lia).
  unfold final_byte. case_test.
  - destruct (clear_to_end_of_line_ok c' Hi') as (c2 & -> & Hi2 & _). split; [done|]. apply Hother. lia.
  - case_test; [|split; [done|by apply Hother]]. subst chr.
    pose proof (append_fields c c' Hi ltac:(lia) Ha) as Hf. eapply post_bind.
    + eapply post_mono; [by apply sgr_ok| |].
      * intros c2 Hc2. exact Hc2.
      * intros f [-> He]. right. rewrite Hf in He. split; [done|]. split; [done|]. split; [lia|exact He].
    + intros c2 [(a & p & -> & Hp) Hno]. split; [by apply inv_recolour|]. rewrite Hf in Hno.
      intros f [(_ & ? & _)|(_ & _ & _ & He)]; [lia|done].
Qed.

(** A decimal parameter overflows above INT_MAX - 48. *)
Lemma overflows_decimal d : Forall Str.is_digit d → (length d < 32)%nat → overflows d ↔ 2147483599 < Str.dec_value d.
Proof.
  intros Hd Hl. unfold overflows.
  assert (Hc : Str.cstr (aget (parameter_of d)) 0 d).
  { unfold parameter_of. split.
    - intros k x Hk. split; [apply aget_Ok; split; [lia|]; rewrite Z.add_0_l, Nat2Z.id; by apply lookup_app_l_Some|].
      rewrite Forall_lookup in Hd. specialize (Hd _ _ Hk). unfold Str.is_digit in Hd. lia.
    - replace (32 - length d)%nat with (S (31 - length d)) by lia. rewrite Z.add_0_l. apply aget_mid. done. }
  destruct d as [|x d].
  - rewrite (Str.atoi_empty 32) by done. split; [done|]. cbn. lia.
  - rewrite (Str.atoi_decimal_ok 33 _ false (x :: d) Hc) by (done || lia).
    destruct (Z.leb_spec (Str.dec_value (x :: d)) 2147483599); split; (done || lia).
Qed.

(** ** Select graphic rendition *)

(** The parameters of a sequence with their terminators. *)
Fixpoint sgr_body (ps : list (list Z)) : list Z :=
  match ps with
  | [] => []
  | [d] => d ++ [109]
  | d :: ps => d ++ 59 :: sgr_body ps
  end.

(** The console in the middle of an escape sequence. *)
Definition in_escape (c : console_t) (l : list Z) : console_t :=
  set_sequence c (l ++ replicate (32 - length l) 0) (Z.of_nat (length l)).

Lemma append_in_escape c l x :
  (length l < 32)%nat → is_byte x → append_escape (in_escape c l) x = Ok (in_escape c (l ++ [x])).
Proof.
  intros Hl Hx. unfold append_escape, in_escape. cbn [escape_code_sequence escape_code_length set_sequence].
  rewrite aset_ok by (rewrite length_app, length_replicate; lia). cbn [mbind res_bind].
  rewrite !u8_small by (unfold is_byte in Hx; lia). rewrite length_app, Nat2Z.id. cbn [length].
  replace (32 - length l)%nat with (S (32 - (length l + 1))) by lia. cbn [replicate].
  rewrite insert_app_r_alt by done. rewrite Nat.sub_diag. cbn [insert list_insert].
  rewrite <- (assoc_L (++)). cbn [app]. unfold set_sequence. cbn. do 3 f_equal. lia.
Qed.

(** Intermediate bytes are collected. *)
Lemma put_intermediate c e l xs :
  (2 ≤ length l)%nat → (length l + length xs ≤ 32)%nat → Forall (λ x, 32 ≤ x < 64) xs →
  put_all (in_escape c l) e xs = Ok (in_escape c (l ++ xs), e).
Proof.
  revert l. induction xs as [|x xs IH]; intros l Hl2 Hl Hx; [by rewrite app_nil_r|].
  inversion_clear Hx as [|? ? Hx0 Hxs]. cbn [put_all]. cbn [length] in Hl.
  assert (__console_putch (in_escape c l) e x = Ok (in_escape c (l ++ [x]), e)) as ->.
  { unfold __console_putch. rewrite append_in_escape by (unfold is_byte; lia).
    cbn [escape_code_length in_escape set_sequence].
    test_false (x =? 27). test_true (0 <? Z.of_nat (length l)). test_false (Z.of_nat (length l) =? 1).
    by test_false (64 <=? x). }
  cbn [mbind res_bind]. rewrite IH by (rewrite ?length_app; cbn; (done || lia)).
  by rewrite <- (assoc_L (++)).
Qed.

(** The sequence from index [q] on starts with the digits [d] and a terminator. *)
Definition field_at (c : console_t) (q : Z) (d : list Z) : Prop :=
  ∃ pre t post, escape_code_sequence c = pre ++ d ++ t :: post ∧ q = Z.of_nat (length pre) ∧
    (t = 59 ∨ t = 109) ∧ Forall Str.is_digit d ∧ q + Z.of_nat (length d) < escape_code_length c.

Lemma terminator_field c q d :
  inv c → field_at c q d → console_parameter_terminator c q = Ok (q + Z.of_nat (length d)).
Proof.
  intros Hi (pre & t & post & Hs & Hq & Ht & Hd & Hlen). unfold console_parameter_terminator.
  pose proof (inv_length _ Hi).
  replace 257%nat with (length d + (257 - length d))%nat by lia. rewrite while_steps.
  - replace (257 - length d)%nat with (S (256 - length d)) by lia. cbn [while].
    rewrite (proj2 (Z.ltb_lt _ _)) by done. rewrite Hs, (assoc_L (++)), aget_mid by (rewrite length_app; lia).
    cbn [mbind res_bind]. by destruct Ht as [-> | ->].
  - intros i Hir. rewrite (proj2 (Z.ltb_lt _ _)) by lia.
    destruct (lookup_lt_is_Some_2 d (Z.to_nat (i - q))) as [x Hx]; [lia|].
    assert (aget (escape_code_sequence c) i = Ok x) as ->.
    { apply aget_Ok. split; [lia|]. rewrite Hs, lookup_app_r by lia. rewrite lookup_app_l by lia.
      rewrite <- Hx. f_equal. lia. }
    cbn [mbind res_bind]. rewrite Forall_lookup in Hd. specialize (Hd _ _ Hx). unfold Str.is_digit in Hd.
    test_false (x =? 59). by test_false (x =? 109).
Qed.

Lemma atoi_field fuel rd d :
  Str.cstr rd 0 d → Forall Str.is_digit d → Str.dec_value d ≤ 2147483599 → (length d < fuel)%nat →
  Str.atoi fuel rd = Ok (Str.dec_value d).
Proof.
  intros Hc Hd Hv Hf. destruct d as [|x d].
  - destruct fuel as [|fuel]; [cbn in Hf; lia|]. by rewrite (Str.atoi_empty fuel) by done.
  - rewrite (Str.atoi_decimal_ok fuel rd false (x :: d)) by done. by rewrite (proj2 (Z.leb_le _ _)).
Qed.

Lemma consume_field c q d :
  inv c → field_at c q d → Str.dec_value d ≤ 2147483599 →
  ∃ p, length p = 32%nat ∧ console_sgr_consume_parameter c q
    = Ok (q + Z.of_nat (length d), apply_parameter (set_parameter c p) (Str.dec_value d)).
Proof.
  intros Hi Hfa Hv. pose proof (inv_length _ Hi). pose proof Hfa as (pre & t & post & Hs & Hq & Ht & Hd & Hlen).
  unfold console_sgr_consume_parameter. rewrite (proj2 (Z.leb_gt _ _)) by lia.
  rewrite (terminator_field c q d) by done. cbn [mbind res_bind].
  rewrite (proj2 (Z.eqb_neq _ (-1))) by lia.
  replace (q + Z.of_nat (length d) - q) with (Z.of_nat (length d)) by lia.
  destruct (copy_parameter_ok c q (Z.of_nat (length d))) as (p & -> & Hpl & H1 & H2); [apply Hi|lia..|].
  exists p. split; [done|]. cbn [mbind res_bind escape_code_parameter set_parameter].
  rewrite (atoi_field 33 (aget p) d); try done; [|lia].
  split.
  - intros k x Hk. rewrite Z.add_0_l. pose proof (lookup_lt_Some _ _ _ Hk).
    rewrite H1 by lia. split.
    + apply aget_Ok. split; [lia|]. rewrite Hs, lookup_app_r by lia.
      rewrite lookup_app_l by lia. rewrite <- Hk. f_equal. lia.
    + rewrite Forall_lookup in Hd. specialize (Hd _ _ Hk). unfold Str.is_digit in Hd. lia.
  - rewrite Z.add_0_l. apply H2. lia.
Qed.

(** The colours after the parameters [ps]. *)
Definition sgr_fold (c : console_t) (ps : list (list Z)) : console_t :=
  fold_left (λ c d, apply_parameter c (Str.dec_value d)) ps c.

Lemma sgr_fold_recolour c ps : ∃ a, sgr_fold c ps = recolour c a (escape_code_parameter c).
Proof.
  unfold sgr_fold. revert c. induction ps as [|d ps IH]; intros c; cbn [fold_left].
  - exists (attrs c). by rewrite recolour_self.
  - destruct (apply_parameter_recolour c (Str.dec_value d)) as [a ->].
    destruct (IH (recolour c a (escape_code_parameter c))) as [a' ->]. by exists a'.
Qed.

(** The parameter buffer has no influence on the colours. *)
Lemma apply_parameter_set c v p : apply_parameter (set_parameter c p) v = set_parameter (apply_parameter c v) p.
Proof. unfold apply_parameter. by repeat case_match. Qed.

Lemma sgr_fold_set c ps p : sgr_fold (set_parameter c p) ps = set_parameter (sgr_fold c ps) p.
Proof.
  unfold sgr_fold. revert c. induction ps as [|d ps IH]; intros c; cbn [fold_left]; [done|].
  by rewrite apply_parameter_set, IH.
Qed.

Definition good_field (d : list Z) : Prop := Forall Str.is_digit d ∧ Str.dec_value d ≤ 2147483599.

Lemma sgr_loop ps : ∀ c pre zs q f,
  inv c → ps ≠ [] → Forall good_field ps →
  escape_code_sequence c = pre ++ sgr_body ps ++ zs →
  escape_code_length c = Z.of_nat (length (pre ++ sgr_body ps)) →
  q = Z.of_nat (length pre) → 2 ≤ q → (length ps + 1 < f)%nat →
  ∃ p, length p = 32%nat ∧
    while f (λ st : Z * console_t, if 0 <? st.1 then
                st' ← console_sgr_consume_parameter st.2 (st.1 + 1); Ok (Continue st')
              else Ok (Break st.2)) (q - 1, c) = Ok (set_parameter (sgr_fold c ps) p).
Proof.
  induction ps as [|d ps IH]; intros c pre zs q f Hi Hne Hg Hs Hl Hq Hq2 Hf; [done|].
  apply Forall_cons in Hg as [[Hd Hv] Hg'].
  destruct f as [|f]; [cbn in Hf; lia|]. cbn [while fst snd].
  rewrite (proj2 (Z.ltb_lt 0 _)) by lia. replace (q - 1 + 1) with q by lia.
  assert (Hfa : field_at c q d).
  { destruct ps as [|d' ps']; [exists pre, 109, zs|exists pre, 59, (sgr_body (d' :: ps') ++ zs)];
      rewrite Hs, Hl; cbn [sgr_body]; rewrite ?length_app; cbn [length];
      rewrite <- ?(assoc_L (++)); cbn [app]; split_and!; try done; try lia; auto. }
  destruct (consume_field c q d) as (p & Hp & ->); [done..|]. cbn [mbind res_bind].
  rewrite apply_parameter_set.
  destruct (apply_parameter_recolour c (Str.dec_value d)) as [a Ha].
  assert (Hi' : inv (set_parameter (apply_parameter c (Str.dec_value d)) p)).
  { rewrite Ha. by apply (inv_recolour c a p). }
  destruct ps as [|d' ps'].
  - exists p. split; [done|]. destruct f as [|f]; [cbn in Hf; lia|]. cbn [while fst snd].
    rewrite (proj2 (Z.ltb_lt 0 _)) by lia. unfold console_sgr_consume_parameter.
    rewrite (proj2 (Z.leb_le _ _)).
    2:{ rewrite Ha. cbn. rewrite Hl. cbn [sgr_body]. rewrite !length_app. cbn. lia. }
    cbn [mbind res_bind]. destruct f as [|f]; [cbn in Hf; lia|]. done.
  - destruct (IH (set_parameter (apply_parameter c (Str.dec_value d)) p) (pre ++ d ++ [59]) zs
      (q + Z.of_nat (length d) + 1) f) as (p' & Hp' & Hw); try done.
    + rewrite Ha. cbn [recolour set_parameter set_attrs escape_code_sequence]. rewrite Hs.
      cbn [sgr_body]. by rewrite <- !(assoc_L (++)).
    + rewrite Ha. cbn [recolour set_parameter set_attrs escape_code_length]. rewrite Hl.
      cbn [sgr_body]. rewrite !length_app. cbn [length]. lia.
    + rewrite !length_app. cbn. lia.
    + lia.
    + cbn in Hf |- *. lia.
    + exists p'. split; [done|]. replace (q + Z.of_nat (length d) + 1 - 1) with (q + Z.of_nat (length d)) in Hw by lia.
      rewrite Hw. unfold sgr_fold at 2. cbn [fold_left]. fold (sgr_fold (apply_parameter c (Str.dec_value d)) (d' :: ps')).
      by rewrite sgr_fold_set.
Qed.

Lemma sgr_body_bytes ps :
  Forall good_field ps → ps ≠ [] →
  ∃ body, sgr_body ps = body ++ [109] ∧ Forall (λ x, 32 ≤ x < 64) body ∧
    (length ps ≤ S (length body))%nat.
Proof.
  intros Hg Hne. induction ps as [|d ps IH]; [done|].
  apply Forall_cons in Hg as [[Hd _] Hg].
  assert (Hd' : Forall (λ x, 32 ≤ x < 64) d)
    by (eapply Forall_impl; [done|]; unfold Str.is_digit; intros; lia).
  destruct ps as [|d' ps].
  - exists d. split_and!; [done|done|cbn; lia].
  - destruct IH as (body & Hb & Hf & Hl); [done..|]. exists (d ++ 59 :: body).
    cbn [sgr_body] in *. rewrite Hb. split_and!.
    + by rewrite <- (assoc_L (++)).
    + apply Forall_app. split; [done|]. by constructor; [lia|].
    + rewrite length_app. cbn in *. lia.
Qed.

Lemma put_escape_start c e :
  put_all c e [27; 91] = Ok (in_escape c [27; 91], e).
Proof.
  reflexivity.
Qed.

Lemma inv_in_escape c l : inv c → (length l ≤ 32)%nat → inv (in_escape c l).
Proof.
  intros [] Hl. split; cbn; try done; [|lia].
  rewrite length_app, length_replicate. lia.
Qed.

Lemma put_all_app c e l k :
  put_all c e (l ++ k) = ('(c, e) ← put_all c e l; put_all c e k).
Proof.
  revert c e. induction l as [|x l IH]; intros c e; [done|]. cbn [app put_all].
  destruct (__console_putch c e x) as [[c' e']|]; [|done]. cbn [mbind res_bind]. apply IH.
Qed.

(** The final byte of the sequence: the parameters are applied. *)
Lemma put_sgr_final c e pre body ps :
  inv c → Forall good_field ps → ps ≠ [] → sgr_body ps = body ++ [109] → pre = [27; 91] →
  (length pre + length body < 32)%nat → (length ps ≤ S (length body))%nat →
  ∃ p s, length p = 32%nat ∧ length s = 32%nat ∧
    __console_putch (in_escape c (pre ++ body)) e 109
    = Ok (set_sequence (set_parameter (sgr_fold c ps) p) s 0, e).
Proof.
  intros Hi Hg Hne Hb Hpre Hlen Hps. unfold __console_putch. subst pre.
  rewrite append_in_escape by (unfold is_byte; rewrite ?length_app; cbn in *; lia).
  cbn [escape_code_length in_escape set_sequence Z.eqb Pos.eqb Z.leb Z.compare Pos.compare Pos.compare_cont andb].
  rewrite length_app. cbn [length].
  rewrite (proj2 (Z.ltb_lt _ _)), (proj2 (Z.eqb_neq _ _)) by (cbn; lia || lia).
  cbn [mbind res_bind]. unfold final_byte. cbn [Z.eqb Pos.eqb]. unfold console_sgr.
  rewrite <- (assoc_L (++)), <- Hb.
  destruct (sgr_loop ps (in_escape c ([27; 91] ++ sgr_body ps)) [27; 91]
    (replicate (32 - length ([27; 91] ++ sgr_body ps)) 0) 2 257) as (p & Hp & Hw); try done.
  - apply inv_in_escape; [done|]. rewrite Hb, !length_app. cbn in *. lia.
  - cbn in Hlen. lia.
  - change (2 - 1) with 1 in Hw. rewrite Hw. cbn [mbind res_bind].
    exists p, ([27; 91] ++ sgr_body ps ++ replicate (32 - length ([27; 91] ++ sgr_body ps)) 0).
    split; [done|]. split.
    + rewrite Hb. repeat first [rewrite length_app | rewrite length_replicate | progress cbn [length]].
      cbn [length] in Hlen. lia.
    + destruct (sgr_fold_recolour c ps) as [a Ha].
      destruct (sgr_fold_recolour (in_escape c ([27; 91] ++ sgr_body ps)) ps) as [a' Ha'].
      assert (a' = a) as ->.
      { enough (attrs (sgr_fold (in_escape c ([27; 91] ++ sgr_body ps)) ps) = attrs (sgr_fold c ps)) as Heq
          by (rewrite Ha, Ha' in Heq; exact Heq).
        clear. unfold sgr_fold. generalize (in_escape c ([27; 91] ++ sgr_body ps)) as c',
          (eq_refl : attrs (in_escape c ([27; 91] ++ sgr_body ps)) = attrs c).
        revert c. induction ps as [|d ps IH]; intros c c' Hc; [done|]. cbn [fold_left]. apply IH.
        unfold apply_parameter, console_set_foreground_color_ansi, console_set_background_color_ansi,
          console_set_foreground_color. rewrite Hc. by repeat case_match. }
      rewrite Ha, Ha'. done.
Qed.

Lemma sgr_sequence_ok c e ps :
  inv c → Forall good_field ps → ps ≠ [] → (length (sgr_body ps) ≤ 30)%nat →
  ∃ p s, length p = 32%nat ∧ length s = 32%nat ∧
    put_all c e (27 :: 91 :: sgr_body ps)
    = Ok (set_sequence (set_parameter (sgr_fold c ps) p) s 0, e).
Proof.
  intros Hi Hg Hne Hlen. destruct (sgr_body_bytes ps Hg Hne) as (body & Hb & Hbf & Hbl).
  rewrite Hb, length_app in Hlen. cbn in Hlen.
  destruct (put_sgr_final c e [27; 91] body ps) as (p & s & Hp & Hs & Hfin); try done; [cbn; lia|].
  exists p, s. split; [done|]. split; [done|].
  change (27 :: 91 :: sgr_body ps) with ([27; 91] ++ sgr_body ps). rewrite put_all_app, put_escape_start.
  cbn [mbind res_bind]. rewrite Hb, put_all_app, put_intermediate by (done || (cbn; lia)).
  cbn [mbind res_bind put_all]. rewrite Hfin. done.
Qed.

(** C21: on a well-formed console [putch] of every character ends.  It keeps the
    console well-formed (cursor, buffer and escape state in their bounds), and
    faults exactly in two cases ([putch_fault]): a byte that would be the 33rd of an
    escape sequence, which is written outside of [escape_code_sequence], and the 'm'
    that ends a sequence with a parameter on which [atoi] overflows, for a decimal
    one above INT_MAX - 48. *)
Theorem putch_safe c e chr :
  inv c → post (λ r, inv r.1 ∧ ∀ f, ¬ putch_fault c chr f) (putch_fault c chr) (__console_putch c e chr).
Proof. apply putch_ok. Qed.

(** The 33rd byte of an escape sequence is always written out of bounds. *)
Theorem putch_escape_overflow c e chr :
  inv c → escape_code_length c = 32 → chr ≠ 27 →
  __console_putch c e chr = Fault OutOfBounds.
Proof.
  intros Hi Hl Hne. unfold __console_putch, append_escape.
  rewrite (proj2 (Z.eqb_neq chr 27)) by done. rewrite Hl. cbn [Z.ltb Z.compare Z.eqb Pos.eqb].
  rewrite (aset_out (escape_code_sequence c)) by (rewrite (inv_sequence _ Hi); lia).
  by destruct (_ && _).
Qed.

(** Plain text, character by character. *)
Lemma put_plain_ok buf c e :
  inv c → escape_code_length c = 0 → Forall (λ chr, chr ≠ 27) buf →
  put_all c e buf = Ok (fold_left (λ c chr, with_text c (text_step c chr)) buf c,
                        fold_left (λ e chr, serial_debug_putch chr e) buf e) ∧
  inv (fold_left (λ c chr, with_text c (text_step c chr)) buf c).
Proof.
  revert c e. induction buf as [|chr buf IH]; intros c e Hi Hl Hb; [done|].
  inversion_clear Hb as [|? ? Hchr Hb']. cbn [put_all fold_left].
  destruct (put_text_ok c e chr Hi) as [Hp Hi'].
  assert (__console_putch c e chr = put_text c e chr) as ->.
  { unfold __console_putch. rewrite (proj2 (Z.eqb_neq chr 27)) by done. by rewrite Hl. }
  rewrite Hp. cbn [mbind res_bind]. apply IH; [done|done|done].
Qed.

(** C14: plain text outside of escape sequences behaves as [text_step] says,
    character by character (a newline or a full row starts the next one, a
    cursor below the last row first scrolls by dropping the top row), and is
    copied to the serial port. *)
Theorem write_plain_text c e buf :
  inv c → escape_code_length c = 0 → Forall (λ chr, chr ≠ 27) buf →
  put_all c e buf = Ok (fold_left (λ c chr, with_text c (text_step c chr)) buf c,
                        fold_left (λ e chr, serial_debug_putch chr e) buf e) ∧
  inv (fold_left (λ c chr, with_text c (text_step c chr)) buf c).
Proof. apply put_plain_ok. Qed.

(** ESC [ p1 ; ... ; pn m, with decimal parameters that fit the sequence
    buffer, applies the parameters to the colours from left to right and changes
    neither the text, nor the cursor, nor the escape state. *)
Theorem sgr_sequence c e ps :
  inv c → Forall good_field ps → ps ≠ [] → (length (sgr_body ps) ≤ 30)%nat →
  ∃ p s, put_all c e (27 :: 91 :: sgr_body ps)
         = Ok (set_sequence (set_parameter (sgr_fold c ps) p) s 0, e) ∧
    inv (set_sequence (set_parameter (sgr_fold c ps) p) s 0) ∧
    (∃ a, sgr_fold c ps = set_attrs c a).
Proof.
  intros Hi Hg Hne Hl. destruct (sgr_sequence_ok c e ps) as (p & s & Hp & Hs & Hput); [done..|].
  destruct (sgr_fold_recolour c ps) as [a Ha]. exists p, s. split; [done|]. rewrite Ha. split.
  - destruct Hi. by split.
  - exists a. by destruct c.
Qed.

(** The blanking loops of [__console_initialize]. *)
Lemma blank_ok w h a (b : list console_char) :
  0 < w → 0 ≤ h → Z.of_nat (length b) = h * w →
  for_up (Z.to_nat h) 0
    (λ i b, for_up (Z.to_nat w) 0 (λ j b, aset b (i * w + j) (Cell 32 a)) b) b
  = Ok (replicate (length b) (Cell 32 a)).
Proof.
  intros Hw Hh Hlen.
  destruct (for_up_inv (λ i b', length b' = length b ∧
      ∀ k, Z.of_nat k < i * w → b' !! k = Some (Cell 32 a)) (Z.to_nat h) 0
    (λ i b, for_up (Z.to_nat w) 0 (λ j b, aset b (i * w + j) (Cell 32 a)) b) b) as (b' & -> & Hl & Hb).
  - intros i b' Hi (Hl & Hb).
    destruct (fill_ok (λ j, i * w + j) b' 0 (Z.to_nat w) (Cell 32 a) (i * w))
      as (b2 & -> & Hl2 & Hb2); [nia|nia|done|].
    eexists. split; [done|]. split; [lia|]. intros k Hk. rewrite Hb2.
    case_bool_decide; [done|]. apply Hb. nia.
  - split; [done|]. intros k Hk. lia.
  - f_equal. apply list_eq. intros k. destruct (decide (k < length b)%nat) as [Hk|Hk].
    + rewrite Hb by nia. symmetry. by apply lookup_replicate.
    + rewrite (proj2 (lookup_ge_None b' k)) by lia. symmetry. apply lookup_replicate_None. lia.
Qed.

(** [__console_initialize] of a fresh console fills the whole buffer with
    blanks, puts the cursor at the origin and leaves it well-formed, whatever
    the driver does when it draws it. *)
Theorem initialize_blank c e :
  0 < columns c → 0 < rows c → rows c * columns c ≤ 65535 →
  Z.of_nat (length (buffer c)) = rows c * columns c →
  length (escape_code_sequence c) = 32%nat → length (escape_code_parameter c) = 32%nat →
  escape_code_length c = 0 → (∀ c e, ∃ e', op_redraw c e = Ok e') →
  ∃ c' e', __console_initialize c e = Ok (c', e') ∧ inv c' ∧
    buffer c' = replicate (length (buffer c)) (Cell 32 7) ∧ row c' = 0 ∧ column c' = 0.
Proof.
  intros Hw Hh Hwh Hlen Hs Hp Hn Hdraw. unfold __console_initialize.
  cbn [columns rows buffer attrs set_attrs set_cursor]. rewrite blank_ok by (done || lia).
  cbn [mbind res_bind]. set (c1 := set_buffer _ _).
  assert (Hfin : ∀ f, inv (set_flags c1 f) ∧ buffer (set_flags c1 f) = replicate (length (buffer c)) (Cell 32 7) ∧
    row (set_flags c1 f) = 0 ∧ column (set_flags c1 f) = 0).
  { intros f. split; [|done]. split; cbn; try done; [|lia..]. by rewrite length_replicate. }
  unfold mark_dirty. cbn [flags set_flags]. case_test; [|by do 2 eexists; split; [done|]; apply Hfin].
  unfold __console_redraw. cbn [flags set_flags].
  case_test; [|by do 2 eexists; split; [done|]; apply Hfin].
  destruct (Hdraw (set_flags c1 (Z.lor (flags c1) CONSOLE_FLAG_DIRTY)) e) as [e' ->]. cbn [mbind res_bind].
  do 2 eexists. split; [done|]. apply (Hfin _).
Qed.

End putch.

(** ** Examples *)

(** A driver that ignores redraws and records the serial output. *)
#[local] Instance demo_ops : ConsoleOps (list Z) := {|
  op_redraw := λ _ e, Ok e;
  serial_debug_putch := λ c e, e ++ [c];
|}.

Definition demo : console_t :=
  Console 3 2 0 0 7 0 (replicate 32 0) (replicate 32 0) 0 (replicate 6 (Cell 32 7)).

Lemma demo_console_inv : inv demo.
Proof. by split; cbn; lia. Qed.

Definition demo_full : console_t := set_sequence demo (replicate 32 48) 32.

(** The text ESC [ 2147483600 m, before its last byte, and a shorter parameter. *)
Lemma putch_safe_witness :
  __console_putch (set_sequence demo ([27; 91; 50; 49; 52; 55; 52; 56; 51; 54; 48; 48] ++ replicate 20 0) 12) [] 109
    = Fault SignedOverflow ∧
  ∃ r, __console_putch (set_sequence demo ([27; 91; 51; 49] ++ replicate 28 0) 4) [] 109 = Ok r ∧ inv r.1.
Proof.
  split.
  - set (c := set_sequence _ _ _). pose proof (putch_safe c [] 109 ltac:(by split; cbn; lia)) as H.
    assert (Hf : putch_fault c 109 SignedOverflow).
    { right. split; [reflexivity|]. split; [reflexivity|]. split; [cbn; lia|]. apply Exists_cons_hd. vm_compute. reflexivity. }
    destruct (__console_putch c [] 109) as [r|f].
    + destruct H as [_ H]. destruct (H _ Hf).
    + destruct H as [(_ & H & _)|(-> & _)]; [discriminate H|reflexivity].
  - set (c := set_sequence _ _ _). pose proof (putch_safe c [] 109 ltac:(by split; cbn; lia)) as H.
    destruct (__console_putch c [] 109) as [r|f]; [exists r; split; [reflexivity|apply H]|].
    destruct H as [(_ & H & _)|(_ & _ & _ & H)]; [discriminate H|].
    apply Exists_cons in H as [H|H]; [vm_compute in H; discriminate H|]. by apply Exists_nil in H.
Defined.

Lemma putch_escape_overflow_witness : __console_putch demo_full [] 48 = Fault OutOfBounds.
Proof. apply (putch_escape_overflow demo_full [] 48); [by split; cbn; lia|done|lia]. Defined.

Lemma write_plain_text_witness :
  ∃ c', put_all demo [] [65; 66; 67; 68; 10; 69] = Ok (c', [65; 66; 67; 68; 10; 69]) ∧
    buffer c' = [Cell 68 7; Cell 32 7; Cell 32 7; Cell 69 7; Cell 32 7; Cell 32 7].
Proof.
  destruct (write_plain_text demo [] [65; 66; 67; 68; 10; 69]) as [H _];
    [exact demo_console_inv|done|repeat constructor; lia|].
  eexists. split; [exact H|]. vm_compute. reflexivity.
Defined.

Lemma sgr_sequence_witness :
  ∃ c', put_all demo [] [27; 91; 49; 59; 51; 49; 109] = Ok (c', []) ∧ attrs c' = 4.
Proof.
  destruct (sgr_sequence demo [] [[49]; [51; 49]]) as (p & s & H & _);
    [exact demo_console_inv
    |repeat constructor; unfold Str.is_digit; try lia; vm_compute; congruence
    |done|cbn; lia|].
  eexists. split; [exact H|]. vm_compute. reflexivity.
Defined.

Lemma initialize_blank_witness : ∃ c' e', __console_initialize demo [] = Ok (c', e') ∧ inv c'.
Proof.
  destruct (initialize_blank demo []) as (c' & e' & H & Hi & _);
    first [cbn; lia | done | by (intros; eexists) | eauto].
Defined.
