(* ===== verification/Panic.v ===== *)
(** Messages on the console: printf, panic, abort, putchar.

    Sources: libc/stdio/snprintf.c (vprintf) with libc/stdio/puts.c, putchar.c,
    libc/stdlib/abort.c, kernel/arch/i386/panic.c and kernel/include/kernel/panic.h.

    The output of printf goes to the console of Console.v, [char] by [char]; the
    state is the console and its devices.  [hlt] waits for the next interrupt and
    then goes on: it comes back exactly when interrupts are enabled. *)
From S2P Require Import Prelude CString Format Console.

Section panic.
Context {E : Type} `{ConsoleOps E}.
Variable junk : list Z.
Variable fmtfp : Z → out_t → Z → Z → Z → Z → Z → res out_t.

Abbreviation state := (console_t * E)%type.

(** The bytes of a buffer as [char]. *)
Definition write_bytes (buf : list Z) (s : state) : res state := console_write s.1 s.2 (map s8 buf).

Definition console_vprintf (fuel : nat) (stack : list Z) (fmt : Z → res Z) (args : list Z) (m : mem) (s : state)
    : res (Z * mem * state) := vprintf junk fmtfp write_bytes fuel stack fmt args m s.

Definition putchar (ic : Z) (s : state) : res (Z * state) :=
  let c := s8 ic in s ← console_write s.1 s.2 [c]; Ok (ic, s).

(** "KERNEL PANIC: " *)
Definition panic_prefix : list Z := [75; 69; 82; 78; 69; 76; 32; 80; 65; 78; 73; 67; 58; 32].

Definition hlt (interrupts : bool) : bool := interrupts.

(** Whether the call returns, and the console. *)
Definition _panic (fuel : nat) (stack : list Z) (fmt : Z → res Z) (args : list Z) (interrupts : bool) (m : mem) (s : state)
    : res (bool * state) :=
  '(_, _, s) ← console_vprintf fuel stack fmt args m s;
  Ok (hlt interrupts, s).

Definition PANIC (fuel : nat) (stack : list Z) (x : Z) (interrupts : bool) (m : mem) (s : state) : res (bool * state) :=
  _panic fuel stack (Str.lit (panic_prefix ++ [37; 115])) [x] interrupts m s.

(** The format of [PANIC_ARGS] is a literal that follows the prefix. *)
Definition PANIC_ARGS (fuel : nat) (stack : list Z) (x : list Z) (args : list Z) (interrupts : bool) (m : mem) (s : state)
    : res (bool * state) :=
  _panic fuel stack (Str.lit (panic_prefix ++ x)) args interrupts m s.

(** "kernel: panic: abort()", newline *)
Definition abort_text : list Z :=
  [107; 101; 114; 110; 101; 108; 58; 32; 112; 97; 110; 105; 99; 58; 32; 97; 98; 111; 114; 116; 40; 41; 10].

(** [while (1) { }] takes [spins] turns. *)
Definition abort (spins fuel : nat) (stack : list Z) (m : mem) (s : state) : res state :=
  '(_, _, s) ← console_vprintf fuel stack (Str.lit abort_text) [] m s;
  while spins (λ s, Ok (Continue s)) s.

(** ** Lemmas *)

Lemma chars_bytes l : Forall (λ x, 1 ≤ x < 256) l → map u8 (map s8 l) = l.
Proof.
  induction 1 as [|x l Hx _ IH]; [done|]. cbn. rewrite IH. f_equal. unfold u8, s8.
  rewrite (Z.mod_small x) by lia. case_test; mlia.
Qed.

(** What puts passes on of a buffer of 256 bytes. *)
Lemma puts_printed {S} (cw : list Z → S → res S) stack bytes s :
  length stack = 256%nat → Forall (λ x, 1 ≤ x < 256) bytes →
  puts cw 257 (printed 256 stack (map s8 bytes)) s
  = (s ← cw (take 255 bytes) s; Ok (Z.of_nat (length (take 255 bytes)), s)).
Proof.
  intros Hs Hb. unfold puts, printed. change (Z.to_nat (256 - 1)) with 255%nat. rewrite length_map.
  set (k := Nat.min (length bytes) 255).
  assert (Hk : take k (map s8 bytes) = map s8 (take 255 bytes)).
  { rewrite <- firstn_map. unfold k. destruct (Nat.le_ge_cases (length bytes) 255).
    - by rewrite Nat.min_l, !take_ge by (rewrite ?length_map; lia).
    - by rewrite Nat.min_r by lia. }
  assert (Hb' : Forall (λ x, 1 ≤ x < 256) (take 255 bytes)) by (by apply Forall_take).
  rewrite Hk, chars_bytes by done. set (t := take 255 bytes) in *.
  assert (Ht : length t = k) by (unfold t; rewrite length_take; lia).
  rewrite (Str.strlen_ok 257 _ t); [|split|lia|lia].
  - cbn [mbind res_bind]. rewrite Nat2Z.id, take_app_length, s32_small by lia. done.
  - intros i x Hx. rewrite Forall_lookup in Hb'. split; [|by eapply Hb']. apply aget_Ok.
    split; [lia|]. rewrite Z.add_0_l, Nat2Z.id. by apply lookup_app_l_Some.
  - rewrite Z.add_0_l. by apply aget_mid.
Qed.

(** printf of a format with one %s: the bytes of the text, cut after 255, reach the
    console in one call. *)
Lemma vprintf_string {S} (cw : list Z → S → res S) fuel stack pre txt a str args m s :
  length junk = 20%nat → length stack = 256%nat →
  Forall (λ x, 1 ≤ x < 256 ∧ x ≠ 37) pre → Forall (λ x, 1 ≤ x < 256 ∧ x ≠ 37) txt →
  Str.cstr (load8 m) a str → a ≠ 0 → Z.of_nat (length pre + length str + length txt) < 2147483648 →
  (length pre + length txt + 8 < fuel)%nat →
  vprintf junk fmtfp cw fuel stack (Str.lit (pre ++ 37 :: 115 :: txt)) (a :: args) m s
  = (s ← cw (take 255 (pre ++ str ++ txt)) s; Ok (Z.of_nat (length (pre ++ str ++ txt)), m, s)).
Proof.
  intros Hj Hs Hp Ht Hstr Ha Hl Hf. unfold vprintf.
  rewrite (dopr_conv _ _ _ _ Hj 6 pre [37; 115] txt _ args (map s8 str)) by
    first [done | lia | by (intros; apply run_s; first [done | lia])].
  rewrite <- !map_app. set (l := pre ++ str ++ txt).
  assert (Hll : length l = (length pre + length str + length txt)%nat) by (unfold l; rewrite !length_app; lia).
  rewrite terminate_emit by (rewrite ?length_map; lia). cbn [mbind res_bind Format.buffer Format.currlen].
  rewrite puts_printed; [|done|].
  - destruct (cw _ s); [|done]. cbn. rewrite length_map, s32_small by lia. done.
  - unfold l. rewrite !Forall_app. destruct Hstr as [Hstr _]. split_and!; try (eapply Forall_impl; [done|]; cbn; intros ? [? _]; done).
    apply Forall_lookup. intros i x Hx. by eapply Hstr.
Qed.

(** Characters outside of escape sequences. *)
Lemma write_bytes_plain c e bytes :
  inv c → escape_code_length c = 0 → Forall (λ x, 1 ≤ x < 256 ∧ x ≠ 27) bytes →
  write_bytes bytes (c, e)
  = mark_dirty (fold_left (λ c chr, with_text c (text_step c chr)) (map s8 bytes) c)
               (fold_left (λ e chr, serial_debug_putch chr e) (map s8 bytes) e).
Proof.
  intros Hi Hl Hb. unfold write_bytes, console_write. cbn [fst snd].
  destruct (put_plain_ok (map s8 bytes) c e) as [-> _]; [done..| |done].
  apply Forall_map. eapply Forall_impl; [done|]. cbn. intros x [Hx H27]. unfold s8. case_test; mlia.
Qed.

End panic.

(** ** Theorems *)

(** C34: PANIC(x), outside of an escape sequence and with a message without ESC,
    writes "KERNEL PANIC: " and the message, cut after 255 characters, to the
    console as plain text and to the serial port, and redraws if the console does;
    it returns to its caller exactly when interrupts are enabled. *)
Theorem panic_shows_message {E} `{ConsoleOps E} junk fmtfp fuel stack x str interrupts m c (e : E) :
  length junk = 20%nat → length stack = 256%nat → inv c → escape_code_length c = 0 →
  Str.cstr (load8 m) x str → x ≠ 0 → Forall (λ b, b ≠ 27) str → Z.of_nat (length str) < 2147483600 → (22 < fuel)%nat →
  let text := map s8 (take 255 (panic_prefix ++ str)) in
  PANIC junk fmtfp fuel stack x interrupts m (c, e)
  = (s ← mark_dirty (fold_left (λ c chr, with_text c (text_step c chr)) text c)
                    (fold_left (λ e chr, serial_debug_putch chr e) text e);
     Ok (interrupts, s)).
Proof.
  intros Hj Hs Hi Hl Hx Hx0 H27 Hlen Hf text. unfold PANIC, _panic, console_vprintf.
  assert (Hp : Forall (λ b, (1 ≤ b < 256 ∧ b ≠ 37) ∧ b ≠ 27) panic_prefix) by (repeat constructor; lia).
  rewrite (vprintf_string _ _ _ fuel stack panic_prefix [] x str); [|done|done| |done|done|done|cbn; lia|cbn; lia].
  2:{ eapply Forall_impl; [exact Hp|]. by intros ? [? _]. }
  rewrite app_nil_r, write_bytes_plain; [by destruct (mark_dirty _ _)|done..|].
  apply Forall_take, Forall_app. split.
  - eapply Forall_impl; [exact Hp|]. cbn. intros ? [[? _] ?]. done.
  - rewrite Forall_lookup in H27. apply Forall_lookup. intros i b Hb. destruct Hx as [Hx _].
    destruct (Hx _ _ Hb). eauto.
Qed.

(** abort does not return. *)
Theorem abort_never_returns {E} `{ConsoleOps E} junk fmtfp spins fuel stack m s r :
  abort junk fmtfp spins fuel stack m s ≠ Ok r.
Proof.
  unfold abort. destruct (console_vprintf _ _ _ _ _ _ _ _) as [[[? ?] s']|]; [|done]. cbn [mbind res_bind].
  induction spins as [|n IH]; [done|]. exact IH.
Qed.

#[local] Existing Instance demo_ops.

(** "Hi" at address 1000. *)
Definition demo_mem : mem := {[1000 := 72; 1001 := 105; 1002 := 0]}.

Lemma panic_shows_message_witness :
  ∃ c', PANIC (replicate 20 0) (λ _ o _ _ _ _ _, Ok o) 23 (replicate 256 7) 1000 false demo_mem (demo, [])
        = Ok (false, (c', panic_prefix ++ [72; 105])).
Proof.
  rewrite (panic_shows_message (replicate 20 0) (λ _ o _ _ _ _ _, Ok o) 23 (replicate 256 7) 1000 [72; 105] false demo_mem demo []);
    [eexists; vm_compute; reflexivity|done|done|exact demo_console_inv|done| |done|repeat constructor; lia|cbn; lia|lia].
  split; [|by vm_compute]. intros k x Hk. destruct k as [|[|k]]; cbn in Hk; simplify_eq; (split; [by vm_compute|lia]).
Defined.
