(* ===== verification/Display.v ===== *)
(** The three displays of the console: linear framebuffer, VGA text mode, none.

    Sources: kernel/kernel/console/fbconsole.c, null_console.c,
    kernel/arch/i386/kernel/drivers/console/vga_console.c and their headers.

    Each display is an instance of [ConsoleOps].  The framebuffer is a byte
    array; the font is the array of glyph rows that follows the PSF header.  A
    buffer obtained from [malloc] is a parameter: its contents are arbitrary. *)
From S2P Require Import Prelude Ports Console.

Definition PSF1_MAGIC0 : Z := 54.
Definition PSF1_MAGIC1 : Z := 4.

Record psf1_header : Type := Psf { magic0 : Z; magic1 : Z; mode : Z; charsize : Z }.

Record console_fb_palette : Type := Rgb { r : Z; g : Z; b : Z }.

Record console_fb_color_fmt : Type := Fmt {
  red_mask_size : Z; red_position : Z;
  green_mask_size : Z; green_position : Z;
  blue_mask_size : Z; blue_position : Z;
}.

Definition FB_CONSOLE_FLAG_RGB : Z := 1.

Record console_framebuffer_t : Type := Fb {
  width : Z; height : Z; pitch : Z; bpp : Z; fb_flags : Z;
  data : list Z;
  private : list Z;
  palette_num : Z;
  format : console_fb_color_fmt;
  palette : list console_fb_palette;
}.

Definition set_data (fb : console_framebuffer_t) (d : list Z) : console_framebuffer_t :=
  Fb (width fb) (height fb) (pitch fb) (bpp fb) (fb_flags fb) d (private fb) (palette_num fb)
     (format fb) (palette fb).
Definition set_private (fb : console_framebuffer_t) (l : list Z) : console_framebuffer_t :=
  Fb (width fb) (height fb) (pitch fb) (bpp fb) (fb_flags fb) (data fb) l (palette_num fb)
     (format fb) (palette fb).

(** ** Colours *)

(** The table that [__init_font] fills. *)
Definition vga_palette_colors : list console_fb_palette := [
  Rgb 0 0 0; Rgb 0 0 170; Rgb 0 170 0; Rgb 0 170 170;
  Rgb 170 0 0; Rgb 170 0 170; Rgb 170 85 0; Rgb 170 170 170;
  Rgb 85 85 85; Rgb 85 85 255; Rgb 85 255 85; Rgb 85 255 255;
  Rgb 255 85 85; Rgb 255 85 255; Rgb 255 255 255; Rgb 255 255 255].

(** The magic number check: any other font halts the machine. *)
Definition __init_font (font : psf1_header) : res Z :=
  if negb (magic0 font =? PSF1_MAGIC0) || negb (magic1 font =? PSF1_MAGIC1)
  then Fault Panicked else Ok 0.

Definition fb_palette_match (pal : console_fb_palette) (color : Z) : res bool :=
  v ← aget vga_palette_colors color;
  Ok ((r pal =? r v) && (g pal =? g v) && (b pal =? b v)).

Definition fb_console_lut_indexed (fb : console_framebuffer_t) (lut : list Z) (off color : Z) : res (list Z) :=
  i ← while 257
        (λ i, if i <? palette_num fb then
                p ← aget (palette fb) i;
                m ← fb_palette_match p color;
                if (m : bool) then Ok (Break i) else Ok (Continue (u8 (i + 1)))
              else Ok (Break color)) 0;
  aset lut off i.

Definition bitmask (x : Z) : Z :=
  fold_left (λ m i, u8 (Z.lor m (Z.shiftl 1 (Z.of_nat i)))) (seq 0 (Z.to_nat x)) 0.

(** The 32-bit pixel of a colour. *)
Definition rgb_pixel (fmt : console_fb_color_fmt) (pal : console_fb_palette) : Z :=
  let red := Z.shiftl (Z.land (r pal) (bitmask (red_mask_size fmt))) (red_position fmt) in
  let green := Z.shiftl (Z.land (g pal) (bitmask (green_mask_size fmt))) (green_position fmt) in
  let blue := Z.shiftl (Z.land (b pal) (bitmask (blue_mask_size fmt))) (blue_position fmt) in
  u32 (Z.lor (Z.lor red green) blue).

Definition fb_console_lut_rgb (fb : console_framebuffer_t) (lut : list Z) (off color : Z) : res (list Z) :=
  let bytes := Z.shiftr (bpp fb + 7) 3 in
  pal ← aget vga_palette_colors color;
  let tmp := le_put 4 (rgb_pixel (format fb) pal) in
  for_up (Z.to_nat bytes) 0 (λ i lut, x ← aget tmp i; aset lut (off + i) x) lut.

Definition fb_console_lut (fb : console_framebuffer_t) (lut : list Z) (off color : Z) : res (list Z) :=
  if negb (Z.land (fb_flags fb) FB_CONSOLE_FLAG_RGB =? 0)
  then fb_console_lut_rgb fb lut off color
  else fb_console_lut_indexed fb lut off color.

(** [memcpy] between two byte arrays. *)
Definition copy_bytes (dst : list Z) (doff : Z) (src : list Z) (soff n : Z) : res (list Z) :=
  for_up (Z.to_nat n) 0 (λ i dst, x ← aget src (soff + i); aset dst (doff + i) x) dst.

(** [junk] holds the uninitialised [buffer] and [lut] arrays. *)
Definition fb_console_create_lut (fb : console_framebuffer_t) (junk : Z → list Z) : res console_framebuffer_t :=
  let pixel_size := Z.shiftr (bpp fb + 7) 3 in
  let pair_size := Z.shiftl pixel_size 1 in
  buffer ← for_up 16 0 (λ i buffer, fb_console_lut fb buffer (i * pixel_size) i) (junk 64);
  lut ← for_up 256 0
    (λ i lut,
       let fg := Z.land i 15 in
       let bg := Z.shiftr (Z.land i 240) 4 in
       lut ← copy_bytes lut (i * pair_size) buffer (fg * pixel_size) pixel_size;
       copy_bytes lut (i * pair_size + pixel_size) buffer (bg * pixel_size) pixel_size)
    (junk (pair_size * 256));
  Ok (set_private fb lut).

(** ** Drawing *)

Section framebuffer.
(** The font: its header and the bytes after it. *)
Variable font : psf1_header.
Variable glyphs : list Z.

(** The bytes of one pixel: [pairs] holds the colour pair from [lut_pair] on. *)
Definition draw_pixel (fb : console_framebuffer_t) (pairs : list Z) (ptr color lut_size : Z) (d : list Z) : res (list Z) :=
  for_up (Z.to_nat lut_size) 0 (λ k d, x ← aget pairs (color + k); aset d (ptr + k) x) d.

Definition fb_console_draw_glyph (fb : console_framebuffer_t) (ch x y : Z) (pairs : list Z)
    (lut_pair lut_size : Z) (d : list Z) : res (list Z) :=
  let fg := lut_pair in
  let bg := lut_pair + lut_size in
  let fb_x := u16 (Z.shiftl x 3) in
  let fb_y := u16 (y * 16) in
  for_up 16 0 (λ i d,
    row ← aget glyphs (charsize font * ch + i);
    for_up 8 0 (λ j d,
      let ptr := u32 (pitch fb * (fb_y + i) + (fb_x + j) * lut_size) in
      let color := if negb (Z.land row (Z.shiftl 1 (8 - j)) =? 0) then fg else bg in
      draw_pixel fb pairs ptr color lut_size d) d) d.

Definition fb_console_redraw (cons : console_t) (fb : console_framebuffer_t) : res console_framebuffer_t :=
  let pixel_size := Z.shiftr (bpp fb + 7) 3 in
  let pair_size := u16 (Z.shiftl pixel_size 1) in
  d ← for_up (Z.to_nat (rows cons)) 0 (λ i d,
        for_up (Z.to_nat (columns cons)) 0 (λ j d,
          c ← aget (buffer cons) (i * columns cons + j);
          fb_console_draw_glyph fb (ch c) j i (private fb) (ch_attrs c * pair_size) (u8 pixel_size) d) d)
        (data fb);
  Ok (set_data fb d).

(** A console of the given size with a fresh buffer, as the three [__init]
    functions build it before [__console_initialize]. *)
Definition fresh_console (cols rws : Z) (buf : list console_char) : console_t :=
  Console cols rws 0 0 0 (Z.lor CONSOLE_FLAG_AUTODRAW CONSOLE_FLAG_SHOW_CURSOR)
    (replicate 32 0) (replicate 32 0) 0 buf.

(** The serial port is a parameter of the driver. *)
Variable serial : Type.
Variable serial_putch : Z → serial → serial.

#[local] Instance fb_console_ops : ConsoleOps (console_framebuffer_t * serial) := {|
  op_redraw := λ c e, fb ← fb_console_redraw c e.1; Ok (fb, e.2);
  serial_debug_putch := λ c e, (e.1, serial_putch c e.2);
|}.

Definition __init_fb_console (fb : console_framebuffer_t) (s : serial) (junk : Z → list Z)
    (cells : Z → list console_char) : res (console_t * (console_framebuffer_t * serial)) :=
  let cols := u16 (width fb / 8) in
  let rws := u16 (height fb / 16) in
  let cons := fresh_console cols rws (cells (rws * cols)) in
  fb ← fb_console_create_lut fb junk;
  __console_initialize cons (fb, s).

End framebuffer.

(** ** No display *)

Section null.
Variable serial : Type.
Variable serial_putch : Z → serial → serial.

Definition null_console_redraw (c : console_t) (e : serial) : res serial := Ok e.

#[local] Instance null_console_ops : ConsoleOps serial := {|
  op_redraw := null_console_redraw;
  serial_debug_putch := serial_putch;
|}.

Definition __init_null_console (s : serial) (cells : Z → list console_char) : res (console_t * serial) :=
  __console_initialize (fresh_console 80 25 (cells (80 * 25))) s.

End null.

(** ** VGA text mode: the buffer is the video memory, only the cursor is drawn *)

Section vga.
Context {P : Type} `{Ports P}.
Variable serial : Type.
Variable serial_putch : Z → serial → serial.

Record vga_t : Type := Vga {
  cursor_column : Z;
  cursor_row : Z;
  cursor_visible : Z;
  ports : P;
  vga_serial : serial;
}.

Definition vga_enable_cursor (v : vga_t) : vga_t :=
  Vga (cursor_column v) (cursor_row v) 1 (outb_p 981 31 (outb_p 980 10 (ports v))) (vga_serial v).

Definition vga_disable_cursor (v : vga_t) : vga_t :=
  Vga (cursor_column v) (cursor_row v) 0 (outb_p 981 63 (outb_p 980 10 (ports v))) (vga_serial v).

Definition vga_set_cursor (v : vga_t) (x y : Z) : vga_t :=
  let pos := u16 (y * 80 + x) in
  let p := outb_p 981 (Z.land pos 255) (outb_p 980 15 (ports v)) in
  let p := outb_p 981 (Z.land (Z.shiftr pos 8) 255) (outb_p 980 14 p) in
  Vga x y (cursor_visible v) p (vga_serial v).

Definition vga_console_redraw (cons : console_t) (v : vga_t) : res vga_t :=
  let show_cursor := if negb (Z.land (flags cons) CONSOLE_FLAG_SHOW_CURSOR =? 0) then 1 else 0 in
  let v := if negb (column cons =? cursor_column v) || negb (row cons =? cursor_row v)
           then vga_set_cursor v (column cons) (row cons) else v in
  Ok (if negb (show_cursor =? cursor_visible v)
      then (if negb (show_cursor =? 0) then vga_enable_cursor v else vga_disable_cursor v)
      else v).

#[local] Instance vga_console_ops : ConsoleOps vga_t := {|
  op_redraw := vga_console_redraw;
  serial_debug_putch := λ c v,
    Vga (cursor_column v) (cursor_row v) (cursor_visible v) (ports v) (serial_putch c (vga_serial v));
|}.

Definition __init_vga_console (p : P) (s : serial) (vga_memory : list console_char) (cols rws : Z) :
    res (console_t * vga_t) :=
  __console_initialize (fresh_console (u16 cols) (u16 rws) vga_memory) (Vga 0 0 1 p s).

End vga.

(** ** The pixels of a glyph *)

(** Copying between byte arrays. *)
Lemma copy_ok n src so po (d : list Z) :
  0 ≤ so → so + Z.of_nat n ≤ Z.of_nat (length src) →
  0 ≤ po → po + Z.of_nat n ≤ Z.of_nat (length d) →
  ∃ d', for_up n 0 (λ k d, x ← aget src (so + k); aset d (po + k) x) d = Ok d' ∧
    length d' = length d ∧
    (∀ k, 0 ≤ k < Z.of_nat n → aget d' (po + k) = aget src (so + k)) ∧
    (∀ a, 0 ≤ a → (a < po ∨ po + Z.of_nat n ≤ a) → aget d' a = aget d a).
Proof.
  intros Hso Hsl Hpo Hpl.
  destruct (for_up_inv (λ i d', length d' = length d ∧
      (∀ k, 0 ≤ k < i → aget d' (po + k) = aget src (so + k)) ∧
      (∀ a, 0 ≤ a → (a < po ∨ po + i ≤ a) → aget d' a = aget d a))
    n 0 (λ k d, x ← aget src (so + k); aset d (po + k) x) d) as (d' & -> & Hl & H1 & H2).
  - intros i d' Hi (Hl & H1 & H2). destruct (aget_in src (so + i)) as [x Hx]; [lia|].
    rewrite Hx. cbn [mbind res_bind]. rewrite aset_ok by lia. eexists. split; [done|].
    rewrite length_insert. split; [done|]. split.
    + intros k Hk. destruct (decide (k = i)) as [->|].
      * by rewrite aget_insert_eq by lia.
      * rewrite aget_insert_ne by lia. apply H1. lia.
    + intros a Ha Hout. rewrite aget_insert_ne by lia. apply H2; [done|lia].
  - split; [done|]. split; [lia|done].
  - exists d'. split_and!; done.
Qed.

Lemma land_bit row n : 0 ≤ n → (Z.land row (Z.shiftl 1 n) =? 0) = negb (Z.testbit row n).
Proof.
  intros Hn. rewrite Z.shiftl_1_l. destruct (Z.testbit row n) eqn:E; cbn.
  - apply Z.eqb_neq. intros H0. assert (Z.testbit (Z.land row (2 ^ n)) n = false) as Hf
      by (by rewrite H0, Z.bits_0).
    by rewrite Z.land_spec, E, Z.pow2_bits_true in Hf by done.
  - apply Z.eqb_eq. apply Z.bits_inj'. intros m Hm. rewrite Z.land_spec, Z.bits_0.
    destruct (decide (n = m)) as [->|Hne]; [by rewrite E|].
    by rewrite Z.pow2_bits_false, andb_false_r by lia.
Qed.

Section glyph.
Variables (font : psf1_header) (glyphs : list Z) (fb : console_framebuffer_t).
Variables (ch x y lut_pair sz : Z) (pairs : list Z).

(** Byte [k] of pixel [t], counted in reading order within the 8x16 cell. *)
Definition pixel_addr (t k : Z) : Z :=
  pitch fb * (16 * y + t / 8) + (8 * x + t mod 8) * sz + k.

(** The colour the code gives to pixel [t]. *)
Definition pixel_color (t : Z) : Z :=
  if Z.testbit (default 0 (glyphs !! Z.to_nat (charsize font * ch + t / 8))) (8 - t mod 8)
  then lut_pair else lut_pair + sz.

(** The cell lies in the framebuffer, the glyph in the font, the pair in the table. *)
Record cell_fits (d : list Z) : Prop := {
  cf_x : 0 ≤ x ∧ 8 * x + 8 ≤ 65536;
  cf_y : 0 ≤ y ∧ 16 * y + 16 ≤ 65536;
  cf_sz : 0 < sz ∧ (8 * x + 8) * sz ≤ pitch fb;
  cf_data : pitch fb * (16 * y + 16) ≤ Z.of_nat (length d) ≤ 4294967296;
  cf_glyph : 0 ≤ charsize font * ch ∧ charsize font * ch + 16 ≤ Z.of_nat (length glyphs);
  cf_pairs : 0 ≤ lut_pair ∧ lut_pair + 2 * sz ≤ Z.of_nat (length pairs);
}.

Lemma pixel_addr_range d t k :
  cell_fits d → 0 ≤ t < 128 → 0 ≤ k < sz →
  pitch fb * (16 * y + t / 8) ≤ pixel_addr t k < pitch fb * (16 * y + t / 8) + pitch fb ∧
  0 ≤ pixel_addr t 0 ∧ pixel_addr t 0 + sz ≤ Z.of_nat (length d).
Proof.
  intros [[] [] [] [] _ _] Ht Hk. unfold pixel_addr.
  assert (0 ≤ t / 8 ≤ 15) by mlia. assert (0 ≤ t mod 8 ≤ 7) by mlia.
  assert (0 ≤ (8 * x + t mod 8) * sz ≤ pitch fb - sz) by nia.
  assert (0 ≤ pitch fb * (16 * y + t / 8)) by nia.
  assert (pitch fb * (16 * y + t / 8) + pitch fb ≤ pitch fb * (16 * y + 16)) by nia.
  lia.
Qed.

Lemma pixel_addr_inj d t k t' k' :
  cell_fits d → 0 ≤ t < 128 → 0 ≤ t' < 128 → 0 ≤ k < sz → 0 ≤ k' < sz →
  pixel_addr t k = pixel_addr t' k' → t = t'.
Proof.
  intros Hf Ht Ht' Hk Hk' Heq.
  destruct (pixel_addr_range d t k Hf Ht Hk) as [Hr _].
  destruct (pixel_addr_range d t' k' Hf Ht' Hk') as [Hr' _].
  destruct Hf as [_ _ [Hsz _] _ _ _]. rewrite Heq in Hr.
  assert (t / 8 = t' / 8) as Hi.
  { destruct (Z.lt_trichotomy (t / 8) (t' / 8)) as [Hlt|[?|Hlt]]; [exfalso|done|exfalso]; nia. }
  unfold pixel_addr in Heq. rewrite Hi in Heq.
  assert (t mod 8 = t' mod 8).
  { destruct (Z.lt_trichotomy (t mod 8) (t' mod 8)) as [Hlt|[?|Hlt]]; [exfalso|done|exfalso]; nia. }
  mlia.
Qed.

(** The state after the pixels before [t]. *)
Definition drawn (d0 : list Z) (t : Z) (d : list Z) : Prop :=
  length d = length d0 ∧
  (∀ t' k, 0 ≤ t' < t → 0 ≤ k < sz → aget d (pixel_addr t' k) = aget pairs (pixel_color t' + k)) ∧
  (∀ a, 0 ≤ a → (∀ t' k, 0 ≤ t' < t → 0 ≤ k < sz → a ≠ pixel_addr t' k) → aget d a = aget d0 a).

Lemma draw_pixel_step d0 t d :
  cell_fits d0 → 0 ≤ t < 128 → drawn d0 t d →
  ∃ d', draw_pixel fb pairs (pixel_addr t 0) (pixel_color t) sz d = Ok d' ∧ drawn d0 (t + 1) d'.
Proof.
  intros Hf Ht (Hl & H1 & H2). unfold draw_pixel.
  pose proof Hf as [_ _ [Hsz _] _ _ [Hp1 Hp2]].
  destruct (pixel_addr_range d0 t 0 Hf Ht ltac:(lia)) as (_ & Ha0 & Ha1).
  assert (Hc : 0 ≤ pixel_color t ∧ pixel_color t + sz ≤ Z.of_nat (length pairs))
    by (unfold pixel_color; case_match; lia).
  destruct (copy_ok (Z.to_nat sz) pairs (pixel_color t) (pixel_addr t 0) d)
    as (d' & -> & Hl' & G1 & G2); [lia..|].
  exists d'. split; [done|]. split; [lia|]. split.
  - intros t' k Ht' Hk. destruct (decide (t' = t)) as [->|Hne].
    + replace (pixel_addr t k) with (pixel_addr t 0 + k) by (unfold pixel_addr; lia).
      apply G1. lia.
    + destruct (pixel_addr_range d0 t' k Hf) as (_ & Hb & _); [lia..|].
      rewrite G2; [apply H1; lia|unfold pixel_addr in *; lia|].
      destruct (decide (pixel_addr t 0 ≤ pixel_addr t' k < pixel_addr t 0 + sz)); [|lia].
      exfalso. apply Hne. apply (pixel_addr_inj d0 t' k t (pixel_addr t' k - pixel_addr t 0) Hf);
        [lia..|unfold pixel_addr; lia].
  - intros a Ha Hout. rewrite G2; [apply H2; [done|]; intros; apply Hout; lia|done|].
    destruct (decide (pixel_addr t 0 ≤ a < pixel_addr t 0 + sz)) as [Hin|]; [|lia].
    exfalso. apply (Hout t (a - pixel_addr t 0)); [lia..|unfold pixel_addr; lia].
Qed.

Lemma draw_glyph_ok d :
  cell_fits d → ∃ d', fb_console_draw_glyph font glyphs fb ch x y pairs lut_pair sz d = Ok d' ∧ drawn d 128 d'.
Proof.
  intros Hf. pose proof Hf as [Hx Hy [Hsz Hpitch] Hd [Hg1 Hg2] _].
  unfold fb_console_draw_glyph. cbv zeta.
  rewrite Z.shiftl_mul_pow2 by lia. change (2 ^ 3) with 8.
  rewrite (u16_small (x * 8)), (u16_small (y * 16)) by lia.
  apply (for_up_inv (λ i d', drawn d (8 * i) d') 16); [|split; [done|]; split; [lia|done]].
  intros i d1 Hi H1.
  destruct (lookup_lt_is_Some_2 glyphs (Z.to_nat (charsize font * ch + i))) as [row Hrow]; [lia|].
  assert (aget glyphs (charsize font * ch + i) = Ok row) as -> by (apply aget_Ok; split; [lia|done]).
  cbn [mbind res_bind].
  destruct (for_up_inv (λ j d', drawn d (8 * i + j) d') 8 0 (λ j d,
      draw_pixel fb pairs (u32 (pitch fb * (y * 16 + i) + (x * 8 + j) * sz))
        (if negb (Z.land row (Z.shiftl 1 (8 - j)) =? 0) then lut_pair else lut_pair + sz) sz d) d1)
    as (d2 & -> & H2); [|by rewrite Z.add_0_r|].
  - intros j d2 Hj H2.
    assert (Hti : (8 * i + j) / 8 = i) by mlia. assert (Htj : (8 * i + j) mod 8 = j) by mlia.
    destruct (draw_pixel_step d (8 * i + j) d2 Hf) as (d3 & H3 & Hd3); [lia|done|].
    destruct (pixel_addr_range d (8 * i + j) 0 Hf) as (_ & Ha0 & Ha1); [lia..|].
    exists d3. rewrite Z.add_assoc. split; [|done]. rewrite <- H3. f_equal.
    + unfold pixel_addr in *. rewrite Hti, Htj in *. rewrite u32_small; [nia|nia].
    + unfold pixel_color. rewrite Hti, Htj, Hrow. cbn [default from_option id].
      rewrite land_bit by lia. by rewrite negb_involutive.
  - exists d2. split; [done|]. by replace (8 * (i + 1)) with (8 * i + Z.of_nat 8) by lia.
Qed.

(** Drawing a glyph stays inside its cell of the framebuffer, and shows the
    glyph one pixel too far to the right: the first column of the cell is always
    background, column [j >= 1] shows bit [8 - j] of the row (the font's column
    [j - 1]), and the font's last column, bit 0, is never drawn. *)
Theorem draw_glyph_pixels d :
  cell_fits d → Forall is_byte glyphs →
  ∃ d', fb_console_draw_glyph font glyphs fb ch x y pairs lut_pair sz d = Ok d' ∧
    length d' = length d ∧
    (∀ i j k row, 0 ≤ i < 16 → 0 ≤ j < 8 → 0 ≤ k < sz →
       glyphs !! Z.to_nat (charsize font * ch + i) = Some row →
       aget d' (pixel_addr (8 * i + j) k) =
         if bool_decide (1 ≤ j) && Z.testbit row (8 - j)
         then aget pairs (lut_pair + k) else aget pairs (lut_pair + sz + k)) ∧
    (∀ a, 0 ≤ a → (∀ t k, 0 ≤ t < 128 → 0 ≤ k < sz → a ≠ pixel_addr t k) → aget d' a = aget d a).
Proof.
  intros Hf Hg. destruct (draw_glyph_ok d Hf) as (d' & Hd' & Hl & H1 & H2).
  exists d'. split_and!; [done|done| |done].
  intros i j k row Hi Hj Hk Hrow. rewrite H1 by lia. unfold pixel_color.
  replace ((8 * i + j) / 8) with i by mlia. replace ((8 * i + j) mod 8) with j by mlia.
  rewrite Hrow. cbn [default from_option id].
  destruct (decide (j = 0)) as [->|Hj0].
  - cbn [bool_decide]. rewrite Forall_lookup in Hg. specialize (Hg _ _ Hrow). unfold is_byte in Hg.
    change (8 - 0) with 8.
    assert (Z.testbit row 8 = false) as ->.
    { destruct (decide (row = 0)) as [->|]; [by rewrite Z.bits_0|].
      apply Z.bits_above_log2; [lia|]. apply Z.log2_lt_pow2; [lia|]. cbn. lia. }
    by rewrite andb_false_r.
  - rewrite bool_decide_true by lia. cbn [andb]. by case_match.
Qed.

End glyph.

Definition demo_fb : console_framebuffer_t :=
  Fb 8 16 8 8 0 (replicate 128 7) [] 0 (Fmt 0 0 0 0 0 0) [].

Lemma draw_glyph_pixels_witness :
  ∃ d, fb_console_draw_glyph (Psf 54 4 0 16) (replicate 16 129) demo_fb 0 0 0 [1; 2] 0 1 (replicate 128 7) = Ok d ∧
    take 8 d = [2; 1; 2; 2; 2; 2; 2; 2].
Proof.
  destruct (draw_glyph_pixels (Psf 54 4 0 16) (replicate 16 129) demo_fb 0 0 0 0 1 [1; 2] (replicate 128 7))
    as (d & H & _).
  - split; cbn; lia.
  - apply Forall_replicate. unfold is_byte. lia.
  - exists d. split; [exact H|]. revert H. vm_compute. by intros [= <-].
Defined.
