(* ===== verification/Keyboard.v ===== *)
(** Keyboard input: modifiers, key ring, character maps.

    Sources: kernel/kernel/input/keyboard.c, kernel/include/kernel/input/keyboard.h.

    [__kb_emit_keycode] is called by the keyboard driver for every key event;
    [kb_getkey] waits on [key_wait_queue] until the ring index differs from the
    one it saw first.  The wait is split at the point where the caller sleeps:
    [kb_getkey_begin] takes the index, [kb_getkey_check] is the condition of
    WAIT_EVENT_INTERRUPTIBLE.  The queue itself is a parameter with its wake-up
    operation.  The spin lock makes each operation atomic. *)
From S2P Require Import Prelude.

Definition KEY_RING_SIZE : Z := 128.
Definition KEY_MODIFIER_SHIFT : Z := 1.
Definition KEY_MODIFIER_CTRL : Z := 2.
Definition KEY_MODIFIER_ALT : Z := 4.
Definition KEY_MODIFIER_ALT_GR : Z := 8.
Definition KEY_MODIFIER_CAPS : Z := 16.

(** The rest of an initialised array is zero. *)
Definition pad256 (l : list Z) : list Z := l ++ replicate (256 - length l) 0.

Definition plain_map : list Z := pad256 [
  0; 27; 49; 50; 51; 52; 53; 54; 55; 56; 57; 48; 45; 61; 8; 9;
  113; 119; 101; 114; 116; 121; 117; 105; 111; 112; 91; 93; 13; 0; 97; 115;
  100; 102; 103; 104; 106; 107; 108; 59; 39; 96; 0; 92; 122; 120; 99; 118;
  98; 110; 109; 44; 46; 47; 0; 42; 0; 32].

Definition shift_map : list Z := pad256 [
  0; 0; 33; 64; 35; 36; 37; 94; 38; 42; 40; 41; 95; 43; 0; 0;
  81; 87; 69; 82; 84; 89; 85; 73; 79; 80; 123; 125; 0; 0; 65; 83;
  68; 70; 71; 72; 74; 75; 76; 58; 34; 126; 0; 124; 90; 88; 67; 86;
  66; 78; 77; 60; 62; 63; 0; 42].

Definition altgr_map : list Z := pad256 [
  0; 0; 0; 64; 0; 36; 0; 0; 123; 91; 93; 125].

(** [mods & mask] as a test. *)
Definition has (mods mask : Z) : bool := negb (Z.land mods mask =? 0).

Definition _kb_map (code mods : Z) : res Z :=
  x ← (if has mods KEY_MODIFIER_SHIFT then aget shift_map (Z.land code 255)
       else if has mods (Z.lor KEY_MODIFIER_ALT_GR KEY_MODIFIER_ALT) then aget altgr_map (Z.land code 255)
       else aget plain_map (Z.land code 255));
  if has mods KEY_MODIFIER_CAPS then
    if (97 <=? x) && (x <=? 122) then Ok (x - 32)
    else if (65 <=? x) && (x <=? 90) then Ok (x + 32)
    else Ok x
  else Ok x.

Section keyboard.
(** The wait queue and [wait_wake_up_interruptible]. *)
Variable queue : Type.
Variable wait_wake_up_interruptible : queue → queue.

Record t : Type := Kb {
  key_ring_index : Z;
  key_ring : list Z;
  key_modifiers : Z;
  key_wait_queue : queue;
}.

Definition kb_early_init (ring : list Z) (q : queue) : t := Kb 0 ring 0 q.

Definition _key_ring_idx (s : t) : Z := u8 (key_ring_index s).

Definition kb_getmods (s : t) : Z := key_modifiers s.

(** [key_modifiers |= m] and [key_modifiers &= ~m]. *)
Definition set_mod (mods m : Z) : Z := u8 (Z.lor mods m).
Definition clear_mod (mods m : Z) : Z := Z.land mods (u8 (Z.lnot m)).

(** Press sets, release clears. *)
Definition press_mod (released : bool) (mods m : Z) : Z :=
  if released then clear_mod mods m else set_mod mods m.

(** The modifier part of [__kb_emit_keycode]. *)
Definition update_modifiers (mods keycode : Z) : Z :=
  let released := negb (Z.shiftr keycode 8 =? 0) in
  let key := Z.land keycode 255 in
  let mods :=
    if key =? 58 then
      if released then
        if has mods KEY_MODIFIER_CAPS then clear_mod mods KEY_MODIFIER_CAPS
        else set_mod mods KEY_MODIFIER_CAPS
      else mods
    else mods in
  if (key =? 29) || (key =? 97) then press_mod released mods KEY_MODIFIER_CTRL
  else if (key =? 42) || (key =? 54) then press_mod released mods KEY_MODIFIER_SHIFT
  else if key =? 56 then press_mod released mods KEY_MODIFIER_ALT
  else if key =? 100 then press_mod released mods KEY_MODIFIER_ALT_GR
  else mods.

Definition __kb_emit_keycode (s : t) (keycode : Z) : res t :=
  let mods := update_modifiers (key_modifiers s) keycode in
  let index := (key_ring_index s + 1) mod 128 in
  ring ← aset (key_ring s) index keycode;
  Ok (Kb index ring mods (wait_wake_up_interruptible (key_wait_queue s))).

(** [kb_getkey] up to the wait: the index it compares with. *)
Definition kb_getkey_begin (s : t) : Z := _key_ring_idx s.

(** The wait condition: [None] while the caller has to go on sleeping. *)
Definition kb_getkey_check (tmp : Z) (s : t) : res (option Z) :=
  let cmp := _key_ring_idx s in
  if negb (cmp =? tmp) then k ← aget (key_ring s) cmp; Ok (Some k) else Ok None.

(** One turn of the loop of [kb_getch] on the key it got: the character to
    return, or [None] to wait for another key. *)
Definition kb_getch_key (s : t) (key : Z) : res (option Z) :=
  let state := Z.shiftr (Z.land key 65280) 8 in
  let key := Z.land key 255 in
  if state =? 0 then
    chr ← _kb_map key (kb_getmods s); Ok (if negb (chr =? 0) then Some chr else None)
  else Ok None.

(** Key events that arrive one after the other. *)
Fixpoint emits (s : t) (es : list Z) : res t :=
  match es with
  | [] => Ok s
  | e :: es => s ← __kb_emit_keycode s e; emits s es
  end.

(** ** Invariant *)

Definition inv (s : t) : Prop :=
  0 ≤ key_ring_index s < 128 ∧ length (key_ring s) = 128%nat.

Lemma emit_ok s e :
  inv s → ∃ s', __kb_emit_keycode s e = Ok s' ∧ inv s' ∧
    key_ring_index s' = (key_ring_index s + 1) mod 128 ∧
    key_ring s' = <[Z.to_nat (key_ring_index s') := e]> (key_ring s) ∧
    key_modifiers s' = update_modifiers (key_modifiers s) e.
Proof.
  intros [Hi Hl]. unfold __kb_emit_keycode. rewrite aset_ok by mlia. cbn [mbind res_bind].
  eexists. split; [done|]. split; [|done]. split; cbn; [mlia|by rewrite length_insert].
Qed.

Lemma emits_app s es e :
  emits s (es ++ [e]) = (s ← emits s es; __kb_emit_keycode s e).
Proof.
  revert s. induction es as [|x es IH]; intros s; cbn.
  - by destruct (__kb_emit_keycode s e).
  - destruct (__kb_emit_keycode s x) as [s'|]; cbn; [apply IH|done].
Qed.

Lemma emits_ok s es :
  inv s → ∃ s', emits s es = Ok s' ∧ inv s' ∧
    key_ring_index s' = (key_ring_index s + Z.of_nat (length es)) mod 128 ∧
    (∀ e, last es = Some e → aget (key_ring s') (key_ring_index s') = Ok e) ∧
    key_modifiers s' = fold_left update_modifiers es (key_modifiers s).
Proof.
  intros Hi. induction es as [|e es IH] using rev_ind.
  - exists s. split_and!; try done. cbn. destruct Hi. rewrite Z.add_0_r, Z.mod_small by lia. done.
  - destruct IH as (s1 & H1 & Hi1 & Hx1 & _ & Hm1).
    destruct (emit_ok s1 e Hi1) as (s2 & H2 & Hi2 & Hx2 & Hr2 & Hm2).
    exists s2. rewrite emits_app, H1. cbn [mbind res_bind]. split; [done|]. split; [done|]. split_and!.
    + rewrite Hx2, Hx1, length_app. cbn [length]. rewrite Nat2Z.inj_add. cbn.
      rewrite Zplus_mod_idemp_l. f_equal. lia.
    + intros e'. rewrite last_snoc. intros [= <-]. rewrite Hr2. destruct Hi1, Hi2.
      apply aget_insert_eq. lia.
    + by rewrite Hm2, Hm1, fold_left_app.
Qed.

(** A reader that sleeps while the events [es] arrive sees, when it is
    scheduled, the last of them only: the earlier ones are lost, and if their
    number is a multiple of 128 the reader sees nothing and sleeps on. *)
Theorem getkey_sees_last s es :
  inv s → ∃ s', emits s es = Ok s' ∧ inv s' ∧
    kb_getkey_check (kb_getkey_begin s) s' =
      Ok (if Z.of_nat (length es) mod 128 =? 0 then None else last es).
Proof.
  intros Hi. destruct (emits_ok s es Hi) as (s' & Hs & Hi' & Hx & Hl & _).
  exists s'. split; [done|]. split; [done|]. unfold kb_getkey_check, kb_getkey_begin, _key_ring_idx.
  destruct Hi as [Hr _], Hi' as [Hr' _]. rewrite !u8_small by lia.
  destruct (Z.of_nat (length es) mod 128 =? 0) eqn:E.
  - apply Z.eqb_eq in E. rewrite (proj2 (Z.eqb_eq _ _)); [done|]. rewrite Hx. mlia.
  - apply Z.eqb_neq in E. rewrite (proj2 (Z.eqb_neq _ _)) by (rewrite Hx; mlia). cbn [negb].
    destruct (last es) as [e|] eqn:El.
    + by rewrite (Hl e eq_refl).
    + apply last_None in El as ->. done.
Qed.

(** ** Modifiers *)

(** The last event on one of [keys]: is it a press? *)
Definition held (keys : list Z) (es : list Z) : bool :=
  fold_left (λ b e, if bool_decide (Z.land e 255 ∈ keys) then Z.shiftr e 8 =? 0 else b) es false.

(** An odd number of releases of Caps Lock. *)
Definition caps_on (es : list Z) : bool :=
  fold_left (λ b e, if bool_decide (Z.land e 255 = 58 ∧ Z.shiftr e 8 ≠ 0) then negb b else b) es false.

Definition mods_of (shift ctrl alt altgr caps : bool) : Z :=
  Z.b2z shift + 2 * Z.b2z ctrl + 4 * Z.b2z alt + 8 * Z.b2z altgr + 16 * Z.b2z caps.

Definition mods_spec (es : list Z) : Z :=
  mods_of (held [42; 54] es) (held [29; 97] es) (held [56] es) (held [100] es) (caps_on es).

Lemma held_snoc keys es e :
  held keys (es ++ [e]) = if bool_decide (Z.land e 255 ∈ keys) then Z.shiftr e 8 =? 0 else held keys es.
Proof. unfold held. by rewrite fold_left_app. Qed.

Lemma caps_snoc es e :
  caps_on (es ++ [e]) = if bool_decide (Z.land e 255 = 58 ∧ Z.shiftr e 8 ≠ 0) then negb (caps_on es) else caps_on es.
Proof. unfold caps_on. by rewrite fold_left_app. Qed.

Lemma update_modifiers_spec es e : update_modifiers (mods_spec es) e = mods_spec (es ++ [e]).
Proof.
  unfold mods_spec. rewrite !held_snoc, caps_snoc. unfold update_modifiers.
  generalize (held [42; 54] es) (held [29; 97] es) (held [56] es) (held [100] es) (caps_on es).
  generalize (Z.land e 255) as k. intros k b1 b2 b3 b4 b5.
  assert (Hr : bool_decide (k = 58 ∧ Z.shiftr e 8 ≠ 0) = (k =? 58) && negb (Z.shiftr e 8 =? 0)).
  { case_bool_decide as Hd; symmetry.
    - destruct Hd as [-> Hne]. cbn. apply negb_true_iff, Z.eqb_neq. done.
    - apply andb_false_iff. destruct (decide (k = 58)) as [->|]; [right|left; by apply Z.eqb_neq].
      apply negb_false_iff, Z.eqb_eq. destruct (decide (Z.shiftr e 8 = 0)); [done|]. by exfalso; apply Hd. }
  rewrite Hr. clear Hr. generalize (Z.shiftr e 8 =? 0) as p. intros p.
  assert (H2 : ∀ a c, bool_decide (k ∈ [a; c]) = (k =? a) || (k =? c)).
  { intros a c. case_bool_decide as Hd; rewrite !elem_of_cons, elem_of_nil in Hd; lia. }
  assert (H1 : ∀ a, bool_decide (k ∈ [a]) = (k =? a)).
  { intros a. case_bool_decide as Hd; rewrite !elem_of_cons, elem_of_nil in Hd; lia. }
  rewrite !H2, !H1.
  destruct (k =? 58) eqn:E58; [apply Z.eqb_eq in E58 as ->; by destruct p, b1, b2, b3, b4, b5|].
  destruct ((k =? 29) || (k =? 97)) eqn:E1.
  { assert ((k =? 42) || (k =? 54) = false ∧ (k =? 56) = false ∧ (k =? 100) = false) as (-> & -> & ->) by lia.
    by destruct p, b1, b2, b3, b4, b5. }
  destruct ((k =? 42) || (k =? 54)) eqn:E2.
  { assert ((k =? 56) = false ∧ (k =? 100) = false) as (-> & ->) by lia.
    by destruct p, b1, b2, b3, b4, b5. }
  destruct (k =? 56) eqn:E3.
  { assert ((k =? 100) = false) as -> by lia. by destruct p, b1, b2, b3, b4, b5. }
  destruct (k =? 100); by destruct p, b1, b2, b3, b4, b5.
Qed.

(** After any sequence of key events, Shift, Ctrl, Alt and AltGr are set
    exactly when the last event on one of their keys was a press (so releasing
    one Shift key clears the modifier although the other one is held), and Caps
    is set after an odd number of releases of Caps Lock. *)
Theorem modifiers_track_events ring q es :
  length ring = 128%nat →
  ∃ s, emits (kb_early_init ring q) es = Ok s ∧ kb_getmods s = mods_spec es.
Proof.
  intros Hl. destruct (emits_ok (kb_early_init ring q) es) as (s & Hs & _ & _ & _ & Hm);
    [split; [cbn; lia|done]|].
  exists s. split; [done|]. unfold kb_getmods. rewrite Hm. cbn [kb_early_init key_modifiers].
  clear. induction es as [|e es IH] using rev_ind; [done|].
  rewrite fold_left_app. cbn [fold_left]. by rewrite IH, update_modifiers_spec.
Qed.

End keyboard.

(** Every printable ASCII character can be typed: some key gives it with no
    modifier or with Shift. *)
Theorem printable_typeable c :
  32 ≤ c ≤ 126 → ∃ code, 0 ≤ code < 128 ∧ (_kb_map code 0 = Ok c ∨ _kb_map code KEY_MODIFIER_SHIFT = Ok c).
Proof.
  intros Hc.
  assert (Hall : forallb (λ c, existsb (λ code,
      bool_decide (_kb_map code 0 = Ok c) || bool_decide (_kb_map code KEY_MODIFIER_SHIFT = Ok c))
      (seqZ 0 128)) (seqZ 32 95) = true) by (vm_compute; reflexivity).
  rewrite forallb_forall in Hall. specialize (Hall c).
  rewrite <- list_elem_of_In, elem_of_seqZ in Hall. specialize (Hall ltac:(lia)).
  apply existsb_exists in Hall as (code & Hin & Hd).
  rewrite <- list_elem_of_In, elem_of_seqZ in Hin. exists code. split; [lia|].
  apply orb_true_iff in Hd. by rewrite !bool_decide_eq_true in Hd.
Qed.

Lemma getkey_sees_last_witness :
  ∃ s', emits unit id (kb_early_init unit (replicate 128 0) tt) [30; 286; 31] = Ok s' ∧
    kb_getkey_check unit (kb_getkey_begin unit (kb_early_init unit (replicate 128 0) tt)) s' = Ok (Some 31).
Proof.
  destruct (getkey_sees_last unit id (kb_early_init unit (replicate 128 0) tt) [30; 286; 31])
    as (s' & Hs & _ & Hk); [split; [cbn; lia|done]|].
  exists s'. split; [exact Hs|exact Hk].
Defined.

Lemma modifiers_track_events_witness :
  ∃ s, emits unit id (kb_early_init unit (replicate 128 0) tt) [42; 54; 298; 58; 314] = Ok s ∧
    kb_getmods unit s = 16.
Proof.
  destruct (modifiers_track_events unit id (replicate 128 0) tt [42; 54; 298; 58; 314]) as (s & Hs & Hm);
    [reflexivity|].
  exists s. split; [exact Hs|]. rewrite Hm. reflexivity.
Defined.

Lemma printable_typeable_witness :
  ∃ code, 0 ≤ code < 128 ∧ (_kb_map code 0 = Ok 64 ∨ _kb_map code KEY_MODIFIER_SHIFT = Ok 64).
Proof. apply (printable_typeable 64). lia. Defined.
