(* ===== verification/AtKeyboard.v ===== *)
(** The AT keyboard: scan code sequences to key codes.

    Source: kernel/arch/i386/kernel/drivers/keyboard/at_keyboard.c.

    Bytes from port 0x60 are collected in [scancode_buffer] until they form a
    complete sequence of scan code set 1 ([scancode_set] 0) or set 2
    ([scancode_set] 1), which is decoded and handed to [__kb_emit_keycode]
    (Keyboard.v, here a parameter). *)
From S2P Require Import Prelude Ports.

Definition MAX_SCANCODE_SEQUENCE : Z := 16.

Record ps2_keyboard_t : Type := Ps2 {
  scancode_buffer : list Z;
  scancode_index : Z;
  scancode_set : Z;
}.

(** Scan code set 2 to key codes: 0x00 to 0x7F, 0x80 to 0xFF. *)
Definition basemap_at2_00_7F : list Z := [
  0; 67; 0; 63; 61; 59; 60; 88; 0; 68; 66; 64; 62; 15; 41; 0;
  0; 56; 42; 0; 29; 16; 2; 0; 0; 0; 44; 31; 30; 17; 3; 0;
  0; 46; 45; 32; 18; 5; 4; 0; 0; 57; 47; 33; 20; 19; 6; 0;
  0; 49; 48; 35; 34; 21; 7; 0; 0; 0; 50; 36; 22; 8; 9; 0;
  0; 51; 37; 23; 24; 11; 10; 0; 0; 52; 53; 38; 39; 25; 12; 0;
  0; 0; 40; 0; 26; 13; 0; 0; 58; 54; 28; 27; 0; 43; 0; 0;
  0; 0; 0; 0; 0; 0; 14; 0; 0; 79; 0; 75; 71; 0; 0; 0;
  82; 83; 80; 76; 77; 72; 1; 69; 87; 78; 81; 74; 55; 73; 70; 0].
Definition basemap_at2_80_FF : list Z := [
  0; 0; 0; 65; 0; 0; 0; 0; 0; 0; 0; 0; 0; 0; 0; 0;
  0; 0; 0; 0; 0; 0; 0; 0; 0; 0; 0; 0; 0; 0; 0; 0;
  0; 0; 0; 0; 0; 0; 0; 0; 0; 0; 0; 0; 0; 0; 0; 0;
  0; 0; 0; 0; 0; 0; 0; 0; 0; 0; 0; 0; 0; 0; 0; 0;
  0; 0; 0; 0; 0; 0; 0; 0; 0; 0; 0; 0; 0; 0; 0; 0;
  0; 0; 0; 0; 0; 0; 0; 0; 0; 0; 0; 0; 0; 0; 0; 0;
  0; 0; 0; 0; 0; 0; 0; 0; 0; 0; 0; 0; 0; 0; 0; 0;
  0; 0; 0; 0; 0; 0; 0; 0; 0; 0; 0; 0; 0; 0; 0; 0].
Definition basemap_at2 : list Z := basemap_at2_00_7F ++ basemap_at2_80_FF.

(** The extended map of set 2 lists 256 zeros. *)
Definition exmap_at2_00_7F : list Z := replicate 128 0.
Definition exmap_at2_80_FF : list Z := replicate 128 0.
Definition exmap_at2 : list Z := exmap_at2_00_7F ++ exmap_at2_80_FF.

(** The extended map of set 1 has no initialiser: zeros. *)
Definition exmap_at1 : list Z := replicate 256 0.

Definition kb_map_scancode_at2 (scancode : list Z) : res Z :=
  s0 ← aget scancode 0;
  if s0 =? 225 then Ok 0
  else if s0 =? 224 then
    s1 ← aget scancode 1;
    if s1 =? 240 then s2 ← aget scancode 2; k ← aget exmap_at2 s2; Ok (Z.lor k 256)
    else aget exmap_at2 s1
  else if s0 =? 240 then s1 ← aget scancode 1; k ← aget basemap_at2 s1; Ok (Z.lor k 256)
  else aget basemap_at2 s0.

Definition kb_scancode_sequence_complete_at2 (scancode : list Z) (scancode_len : Z) : res bool :=
  s0 ← aget scancode 0;
  if s0 =? 225 then Ok (scancode_len =? 8)
  else if s0 =? 224 then
    if scancode_len =? 1 then Ok false
    else
      s1 ← aget scancode 1;
      if s1 =? 240 then Ok (scancode_len =? 3) else Ok (scancode_len =? 2)
  else if s0 =? 240 then Ok (scancode_len =? 2)
  else Ok (scancode_len =? 1).

Definition kb_map_scancode_at1 (scancode : list Z) : res Z :=
  s0 ← aget scancode 0;
  if s0 =? 225 then Ok 119
  else if s0 =? 224 then
    s1 ← aget scancode 1;
    if s1 =? 42 then Ok 99
    else if s1 =? 183 then Ok (Z.lor 99 256)
    else aget exmap_at1 s1
  else if 128 <? s0 then Ok (Z.lor (s0 - 128) 256)
  else Ok s0.

Definition kb_scancode_sequence_complete_at1 (scancode : list Z) (scancode_len : Z) : res bool :=
  s0 ← aget scancode 0;
  if s0 =? 225 then Ok (scancode_len =? 6)
  else
    r ← (if s0 =? 224 then
           if 1 <? scancode_len then
             s1 ← aget scancode 1;
             if (s1 =? 42) || (s1 =? 183) then Ok (Some (scancode_len =? 4))
             else Ok (Some (scancode_len =? 2))
           else Ok None
         else Ok None);
    match r with Some b => Ok b | None => Ok (scancode_len =? 1) end.

Section driver.
(** The keyboard state behind [__kb_emit_keycode]. *)
Variable K : Type.
Variable __kb_emit_keycode : K → Z → res K.

Definition reset_index (kb : ps2_keyboard_t) : ps2_keyboard_t :=
  Ps2 (scancode_buffer kb) 0 (scancode_set kb).

(** The part of [kb_add_scancode_seq] after the byte is stored. *)
Definition kb_finish_seq (kb : ps2_keyboard_t) (k : K) : res (ps2_keyboard_t * K) :=
  if scancode_set kb =? 0 then
    c ← kb_scancode_sequence_complete_at1 (scancode_buffer kb) (scancode_index kb);
    if (c : bool) then
      kc ← kb_map_scancode_at1 (scancode_buffer kb); k ← __kb_emit_keycode k kc; Ok (reset_index kb, k)
    else Ok (kb, k)
  else if scancode_set kb =? 1 then
    c ← kb_scancode_sequence_complete_at2 (scancode_buffer kb) (scancode_index kb);
    if (c : bool) then
      kc ← kb_map_scancode_at2 (scancode_buffer kb); k ← __kb_emit_keycode k kc; Ok (reset_index kb, k)
    else Ok (kb, k)
  else Ok (kb, k).

Definition kb_add_scancode_seq (kb : ps2_keyboard_t) (k : K) (scancode : Z) : res (ps2_keyboard_t * K) :=
  buf ← aset (scancode_buffer kb) (scancode_index kb) scancode;
  kb_finish_seq (Ps2 buf (u8 (scancode_index kb + 1)) (scancode_set kb)) k.

(** [while((inb_p(0x64) & 1) == 1)]: [fuel] bounds the bytes the controller has. *)
Definition keyboard_handler {P} `{Ports P} (fuel : nat) (kb : ps2_keyboard_t) (k : K) (p : P) :
    res (ps2_keyboard_t * K * P) :=
  while fuel
    (λ st, let '(kb, k, p) := st in
       let '(status, p) := inb_p 100 p in
       if Z.land status 1 =? 1 then
         let '(scancode, p) := inb_p 96 p in
         '(kb, k) ← kb_add_scancode_seq kb k scancode; Ok (Continue (kb, k, p))
       else Ok (Break (kb, k, p))) (kb, k, p).

Definition init_ps2_keyboard : ps2_keyboard_t := Ps2 (replicate 16 0) 0 0.

(** A stream of scan codes. *)
Fixpoint add_all (kb : ps2_keyboard_t) (k : K) (bs : list Z) : res (ps2_keyboard_t * K) :=
  match bs with
  | [] => Ok (kb, k)
  | b :: bs => '(kb, k) ← kb_add_scancode_seq kb k b; add_all kb k bs
  end.

End driver.

(** ** The decoders *)

(** The driver has collected the bytes [l] of a sequence of set [set]. *)
Definition pending (set : Z) (kb : ps2_keyboard_t) (l : list Z) : Prop :=
  length (scancode_buffer kb) = 16%nat ∧ Forall is_byte (scancode_buffer kb) ∧
  scancode_index kb = Z.of_nat (length l) ∧ scancode_set kb = set ∧
  ∀ j x, l !! j = Some x → scancode_buffer kb !! j = Some x.

Lemma pending_aget set kb l j x :
  pending set kb l → l !! Z.to_nat j = Some x → 0 ≤ j → aget (scancode_buffer kb) j = Ok x.
Proof. intros (_ & _ & _ & _ & H) Hx Hj. apply aget_Ok. split; [done|by apply H]. Qed.

Lemma add_pending {K} (emit : K → Z → res K) set kb k l b :
  pending set kb l → (length l < 16)%nat → is_byte b →
  ∃ kb', kb_add_scancode_seq K emit kb k b = kb_finish_seq K emit kb' k ∧ pending set kb' (l ++ [b]) ∧
    ∀ j, (length l < j)%nat → scancode_buffer kb' !! j = scancode_buffer kb !! j.
Proof.
  intros (Hl & Hb & Hi & Hs & Hp) Hlt Hby. unfold kb_add_scancode_seq.
  rewrite aset_ok by lia. cbn [mbind res_bind]. eexists. split; [done|]. cbn.
  rewrite Hi, Nat2Z.id, u8_small by lia. split.
  - split_and!; cbn; [by rewrite length_insert|by apply Forall_insert| |done|].
    + rewrite length_app. cbn. lia.
    + intros j x. destruct (decide (j = length l)) as [->|Hne].
      * rewrite lookup_app_r, Nat.sub_diag by lia. cbn. intros [= <-].
        apply list_lookup_insert_eq. lia.
      * rewrite list_lookup_insert_ne by done. intros Hx. apply Hp.
        pose proof (lookup_lt_Some _ _ _ Hx) as Hlen. rewrite length_app in Hlen. cbn in Hlen.
        rewrite lookup_app_l in Hx by lia. done.
  - intros j Hj. by rewrite list_lookup_insert_ne by lia.
Qed.

Lemma pending_reset set kb l : pending set kb l → pending set (reset_index kb) [].
Proof. intros (? & ? & ? & ? & ?). by split_and!. Qed.

(** When a sequence of set 2 is complete, on the bytes read so far. *)
Definition complete2 (l : list Z) : bool :=
  match l with
  | [] => false
  | x :: r =>
      if x =? 225 then Z.of_nat (length l) =? 8
      else if x =? 224 then
        match r with
        | [] => false
        | y :: _ => if y =? 240 then Z.of_nat (length l) =? 3 else Z.of_nat (length l) =? 2
        end
      else if x =? 240 then Z.of_nat (length l) =? 2
      else Z.of_nat (length l) =? 1
  end.

Definition complete1 (l : list Z) : bool :=
  match l with
  | [] => false
  | x :: r => if x =? 225 then Z.of_nat (length l) =? 6
              else if x =? 224 then
                match r with
                | [] => true
                | y :: _ => if (y =? 42) || (y =? 183) then Z.of_nat (length l) =? 4
                            else Z.of_nat (length l) =? 2
                end
              else Z.of_nat (length l) =? 1
  end.

Lemma complete2_ok kb l :
  pending 1 kb l → l ≠ [] →
  kb_scancode_sequence_complete_at2 (scancode_buffer kb) (scancode_index kb) = Ok (complete2 l).
Proof.
  intros Hp Hne. destruct l as [|x r]; [done|]. unfold kb_scancode_sequence_complete_at2.
  rewrite (pending_aget 1 kb (x :: r) 0 x) by done. cbn [mbind res_bind].
  assert (scancode_index kb = Z.of_nat (length (x :: r))) as -> by apply Hp. unfold complete2.
  destruct r as [|y r]; [by repeat case_match|].
  rewrite (pending_aget 1 kb (x :: y :: r) 1 y) by done. cbn [mbind res_bind].
  rewrite (proj2 (Z.eqb_neq (Z.of_nat (length (x :: y :: r))) 1)) by (cbn; lia).
  by repeat case_match.
Qed.

Lemma complete1_ok kb l :
  pending 0 kb l → l ≠ [] →
  kb_scancode_sequence_complete_at1 (scancode_buffer kb) (scancode_index kb) = Ok (complete1 l).
Proof.
  intros Hp Hne. destruct l as [|x r]; [done|]. unfold kb_scancode_sequence_complete_at1.
  rewrite (pending_aget 0 kb (x :: r) 0 x) by done. cbn [mbind res_bind].
  assert (scancode_index kb = Z.of_nat (length (x :: r))) as -> by apply Hp. unfold complete1.
  destruct r as [|y r]; [by repeat case_match|].
  rewrite (pending_aget 0 kb (x :: y :: r) 1 y) by done. cbn [mbind res_bind].
  rewrite (proj2 (Z.ltb_lt 1 (Z.of_nat (length (x :: y :: r))))) by (cbn; lia).
  by repeat case_match.
Qed.

Lemma table_lookup (l : list Z) b :
  length l = 256%nat → is_byte b → aget l b = Ok (default 0 (l !! Z.to_nat b)).
Proof.
  unfold is_byte. intros Hl Hb. destruct (lookup_lt_is_Some_2 l (Z.to_nat b)) as [x Hx]; [lia|].
  rewrite Hx. apply aget_Ok. split; [lia|done].
Qed.

Lemma zeros_lookup n b : is_byte b → (256 ≤ n)%nat → aget (replicate n 0) b = Ok 0.
Proof. unfold is_byte. intros Hb Hn. apply aget_Ok. split; [lia|]. apply lookup_replicate. split; [done|lia]. Qed.

Lemma exmap_at2_zero b : is_byte b → aget exmap_at2 b = Ok 0.
Proof. intros Hb. by apply (zeros_lookup 256). Qed.

(** The key code of a complete sequence of set 2. *)
Definition code_at2 (l : list Z) : Z :=
  match l with
  | [] => 0
  | x :: r =>
      if x =? 225 then 0
      else if x =? 224 then if default 0 (head r) =? 240 then 256 else 0
      else if x =? 240 then Z.lor (default 0 (basemap_at2 !! Z.to_nat (default 0 (head r)))) 256
      else default 0 (basemap_at2 !! Z.to_nat x)
  end.

Lemma map_at2_ok kb l :
  pending 1 kb l → complete2 l = true → kb_map_scancode_at2 (scancode_buffer kb) = Ok (code_at2 l).
Proof.
  intros Hp Hc. destruct l as [|x r]; [done|]. unfold kb_map_scancode_at2.
  assert (Hby : ∀ j y, (x :: r) !! j = Some y → is_byte y).
  { intros j y Hy. destruct Hp as (_ & Hb & _ & _ & Hj). rewrite Forall_lookup in Hb. eauto. }
  rewrite (pending_aget 1 kb (x :: r) 0 x) by done. cbn [mbind res_bind].
  unfold complete2 in Hc. unfold code_at2.
  destruct (x =? 225); [done|]. destruct (x =? 224).
  - destruct r as [|y r]; [done|]. rewrite (pending_aget 1 kb (x :: y :: r) 1 y) by done.
    cbn [mbind res_bind head default from_option id]. destruct (y =? 240) eqn:E.
    + destruct r as [|z r]; [done|]. rewrite (pending_aget 1 kb (x :: y :: z :: r) 2 z) by done.
      cbn [mbind res_bind]. by rewrite exmap_at2_zero by (by eapply (Hby 2%nat)).
    + by rewrite exmap_at2_zero by (by eapply (Hby 1%nat)).
  - destruct (x =? 240).
    + destruct r as [|y r]; [done|]. rewrite (pending_aget 1 kb (x :: y :: r) 1 y) by done.
      cbn [mbind res_bind head default from_option id].
      by rewrite table_lookup by (done || by eapply (Hby 1%nat)).
    + rewrite table_lookup; [done|done|]. by eapply (Hby 0%nat).
Qed.

(** ** Set 2 *)

(** A keyboard layer that records the key codes. *)
Definition log_key (k : list Z) (code : Z) : res (list Z) := Ok (k ++ [code]).

Lemma step2 kb k l b :
  pending 1 kb l → (length l < 16)%nat → is_byte b →
  ∃ kb', kb_add_scancode_seq _ log_key kb k b
         = Ok (kb', if complete2 (l ++ [b]) then k ++ [code_at2 (l ++ [b])] else k) ∧
    pending 1 kb' (if complete2 (l ++ [b]) then [] else l ++ [b]).
Proof.
  intros Hp Hl Hb. destruct (add_pending log_key 1 kb k l b) as (kb' & -> & Hp' & _); [done..|].
  unfold kb_finish_seq. assert (scancode_set kb' = 1) as -> by apply Hp'. cbn [Z.eqb Pos.eqb].
  rewrite (complete2_ok kb' (l ++ [b])) by (done || by destruct l). cbn [mbind res_bind].
  destruct (complete2 (l ++ [b])) eqn:E.
  - rewrite (map_at2_ok kb' (l ++ [b])) by done. cbn [mbind res_bind log_key].
    eexists. split; [done|]. by eapply pending_reset.
  - eauto.
Qed.

(** Bytes that complete a sequence only at the last one. *)
Lemma sequence2 kb k l bs b :
  pending 1 kb l → (length l + length bs < 16)%nat → Forall is_byte (bs ++ [b]) →
  (∀ i, (1 ≤ i ≤ length bs)%nat → complete2 (l ++ take i bs) = false) →
  complete2 (l ++ bs ++ [b]) = true →
  ∃ kb', add_all _ log_key kb k (bs ++ [b]) = Ok (kb', k ++ [code_at2 (l ++ bs ++ [b])]) ∧ pending 1 kb' [].
Proof.
  revert kb l. induction bs as [|x bs IH]; intros kb l Hp Hlen Hby Hpre Hc.
  - cbn [app add_all] in *. inv Hby. destruct (step2 kb k l b Hp) as (kb' & -> & Hp'); [cbn in Hlen; lia|done|].
    rewrite Hc in *. cbn [mbind res_bind]. eauto.
  - cbn [app add_all] in *. inv Hby. destruct (step2 kb k l x Hp) as (kb' & -> & Hp'); [cbn in Hlen; lia|done|].
    pose proof (Hpre 1%nat ltac:(cbn; lia)) as Hc1. change (take 1 (x :: bs)) with [x] in Hc1. rewrite Hc1 in *. cbn [mbind res_bind].
    destruct (IH kb' (l ++ [x])) as (kb2 & Hk2 & Hp2); [done| |done| | |].
    + rewrite length_app. cbn in *. lia.
    + intros i Hi. rewrite <- (assoc_L (++)). apply (Hpre (S i)). cbn. lia.
    + by rewrite <- (assoc_L (++)).
    + exists kb2. rewrite <- (assoc_L (++)) in Hk2. done.
Qed.

(** The sequences of set 2. *)
Inductive seq2 : Type :=
  | Make (b : Z)
  | Release (b : Z)
  | ExtMake (b : Z)
  | ExtRelease (b : Z)
  | Pause (l : list Z) (b : Z).

Definition bytes2 (q : seq2) : list Z :=
  match q with
  | Make b => [b]
  | Release b => [240; b]
  | ExtMake b => [224; b]
  | ExtRelease b => [224; 240; b]
  | Pause l b => 225 :: l ++ [b]
  end.

Definition valid2 (q : seq2) : Prop :=
  match q with
  | Make b => is_byte b ∧ b ≠ 224 ∧ b ≠ 225 ∧ b ≠ 240
  | Release b | ExtRelease b => is_byte b
  | ExtMake b => is_byte b ∧ b ≠ 240
  | Pause l b => Forall is_byte l ∧ is_byte b ∧ length l = 6%nat
  end.

(** The key code of a sequence: the extended map of set 2 is all zeros. *)
Definition code2 (q : seq2) : Z :=
  match q with
  | Make b => default 0 (basemap_at2 !! Z.to_nat b)
  | Release b => Z.lor (default 0 (basemap_at2 !! Z.to_nat b)) 256
  | ExtMake _ => 0
  | ExtRelease _ => 256
  | Pause _ _ => 0
  end.

Lemma decode_one2 kb k q :
  pending 1 kb [] → valid2 q →
  ∃ kb', add_all _ log_key kb k (bytes2 q) = Ok (kb', k ++ [code2 q]) ∧ pending 1 kb' [].
Proof.
  intros Hp Hv. pose proof (sequence2 kb k []) as Hseq.
  assert (H240 : is_byte 240) by (unfold is_byte; lia). assert (H224 : is_byte 224) by (unfold is_byte; lia).
  assert (H225 : is_byte 225) by (unfold is_byte; lia).
  destruct q as [b|b|b|b|l b]; cbn [bytes2 valid2 code2] in *.
  - destruct Hv as (Hb & H1 & H2 & H3).
    assert (Ht : (b =? 225) = false ∧ (b =? 224) = false ∧ (b =? 240) = false) by (rewrite !Z.eqb_neq; done).
    destruct Ht as (T1 & T2 & T3). destruct (Hseq [] b) as (kb' & Hk & Hp'); [done|cbn; lia|by (cbn; rewrite !Forall_cons; split_and!; done || constructor)| | |].
    + intros i Hi. cbn in Hi. lia.
    + unfold complete2. cbn [app length]. by rewrite T1, T2, T3.
    + exists kb'. split; [|done]. cbn [app] in Hk. rewrite Hk. unfold code_at2. by rewrite T1, T2, T3.
  - destruct (Hseq [240] b) as (kb' & Hk & Hp'); [done|cbn; lia|by (cbn; rewrite !Forall_cons; split_and!; done || constructor)| |done|by exists kb'].
    intros i Hi. cbn in Hi. by replace i with 1%nat by lia.
  - destruct Hv as (Hb & H1). assert (T : (b =? 240) = false) by (by apply Z.eqb_neq).
    destruct (Hseq [224] b) as (kb' & Hk & Hp'); [done|cbn; lia|by (cbn; rewrite !Forall_cons; split_and!; done || constructor)| | |].
    + intros i Hi. cbn in Hi. by replace i with 1%nat by lia.
    + unfold complete2. cbn. by rewrite T.
    + exists kb'. split; [|done]. cbn [app] in Hk. rewrite Hk. unfold code_at2. cbn. by rewrite T.
  - destruct (Hseq [224; 240] b) as (kb' & Hk & Hp'); [done|cbn; lia|by (cbn; rewrite !Forall_cons; split_and!; done || constructor)| |done|by exists kb'].
    intros i Hi. cbn in Hi. assert (i = 1 ∨ i = 2)%nat as [-> | ->] by lia; done.
  - destruct Hv as (Hl & Hb & H6).
    destruct (Hseq (225 :: l) b) as (kb' & Hk & Hp'); [done|cbn; lia| | | |by exists kb'].
    + cbn. constructor; [done|]. apply Forall_app. split; [done|by constructor].
    + intros i Hi. destruct i as [|i]; [lia|]. cbn in Hi |- *. apply Z.eqb_neq.
      rewrite length_take. lia.
    + unfold complete2. cbn [app Z.eqb Pos.eqb length]. apply Z.eqb_eq. rewrite length_app. cbn. lia.
Qed.

Lemma decode_set2_ok kb k qs :
  pending 1 kb [] → Forall valid2 qs →
  ∃ kb', add_all _ log_key kb k (concat (map bytes2 qs)) = Ok (kb', k ++ map code2 qs) ∧ pending 1 kb' [].
Proof.
  intros Hp Hq. revert kb k Hp. induction Hq as [|q qs Hv Hq IH]; intros kb k Hp; cbn [map concat].
  - exists kb. by rewrite app_nil_r.
  - destruct (decode_one2 kb k q Hp Hv) as (kb1 & H1 & Hp1).
    destruct (IH kb1 (k ++ [code2 q]) Hp1) as (kb2 & H2 & Hp2). exists kb2.
    assert (Happ : ∀ l1 l2 kb k, add_all (list Z) log_key kb k (l1 ++ l2)
      = ('(kb, k) ← add_all _ log_key kb k l1; add_all _ log_key kb k l2)).
    { clear. induction l1 as [|b l1 IH]; intros l2 kb k; [done|]. cbn [app add_all].
      destruct (kb_add_scancode_seq _ log_key kb k b) as [[kb' k']|]; [|done]. apply IH. }
    rewrite Happ, H1. cbn [mbind res_bind]. rewrite H2, <- (assoc_L (++)). done.
Qed.

(** ** Set 1 *)

(** The key code of one byte of set 1, decoded on its own. *)
Definition code1 (b : Z) : Z :=
  if b =? 224 then 0 else if 128 <? b then Z.lor (b - 128) 256 else b.

Lemma step1 kb k b :
  pending 0 kb [] → scancode_buffer kb !! 1%nat = Some 0 → is_byte b → b ≠ 225 →
  ∃ kb', kb_add_scancode_seq _ log_key kb k b = Ok (kb', k ++ [code1 b]) ∧
    pending 0 kb' [] ∧ scancode_buffer kb' !! 1%nat = Some 0.
Proof.
  intros Hp H1 Hb Hne. destruct (add_pending log_key 0 kb k [] b) as (kb' & -> & Hp' & Hrest); [done|cbn; lia|done|].
  assert (T : (b =? 225) = false) by (by apply Z.eqb_neq).
  unfold kb_finish_seq. assert (scancode_set kb' = 0) as -> by apply Hp'. cbn [Z.eqb].
  rewrite (complete1_ok kb' [b]) by done.
  assert (complete1 [b] = true) as -> by (unfold complete1; rewrite T; by case_match).
  cbn [mbind res_bind].
  assert (Hb1 : scancode_buffer kb' !! 1%nat = Some 0) by (rewrite Hrest; [done|cbn; lia]).
  assert (kb_map_scancode_at1 (scancode_buffer kb') = Ok (code1 b)) as ->.
  { unfold kb_map_scancode_at1. rewrite (pending_aget 0 kb' [b] 0 b) by done. cbn [mbind res_bind].
    rewrite T. unfold code1. destruct (b =? 224); [|by case_match].
    assert (aget (scancode_buffer kb') 1 = Ok 0) as -> by (by apply aget_Ok). done. }
  cbn [mbind res_bind log_key]. eexists. split; [done|]. split; [by eapply pending_reset|done].
Qed.

(** ** Any stream *)

(** The bytes of an incomplete sequence. *)
Definition viable (set : Z) (l : list Z) : Prop :=
  match l with
  | [] => True
  | x :: r =>
      if set =? 0 then x = 225 ∧ (length r < 5)%nat
      else (x = 225 ∧ (length r < 7)%nat) ∨ l = [224] ∨ l = [224; 240] ∨ l = [240]
  end.

Lemma viable_step set l b :
  set = 0 ∨ set = 1 → viable set l → (if set =? 0 then complete1 (l ++ [b]) else complete2 (l ++ [b])) = false →
  viable set (l ++ [b]).
Proof.
  intros [-> | ->]; cbn [Z.eqb]; intros Hv Hc.
  - destruct l as [|x r]; cbn in *.
    + destruct (b =? 225) eqn:E; [apply Z.eqb_eq in E; split; [done|lia]|]. by destruct (b =? 224).
    + destruct Hv as [-> Hr]. cbn in Hc. apply Z.eqb_neq in Hc. split; [done|].
      rewrite length_app in *. cbn in *. lia.
  - destruct l as [|x r]; cbn in *.
    + destruct (b =? 225) eqn:E1; [apply Z.eqb_eq in E1; left; split; [done|lia]|].
      destruct (b =? 224) eqn:E2; [apply Z.eqb_eq in E2 as ->; auto|].
      destruct (b =? 240) eqn:E3; [apply Z.eqb_eq in E3 as ->; auto|done].
    + destruct Hv as [[-> Hr]|[[= -> ->]|[[= -> ->]|[= -> ->]]]]; cbn in Hc.
      * left. split; [done|]. apply Z.eqb_neq in Hc. rewrite length_app in *. cbn in *. lia.
      * destruct (b =? 240) eqn:E; [apply Z.eqb_eq in E as ->; auto|done].
      * done.
      * done.
Qed.

Lemma viable_length set l : viable set l → (length l ≤ 7)%nat.
Proof.
  destruct l as [|x r]; cbn; [lia|]. destruct (set =? 0); [lia|].
  intros [[_ ?]|[[= _ ->]|[[= _ ->]|[= _ ->]]]]; cbn; lia.
Qed.

Lemma map_at1_total kb l : pending 0 kb l → l ≠ [] → ∃ c, kb_map_scancode_at1 (scancode_buffer kb) = Ok c.
Proof.
  intros (Hl & Hb & _) Hne. unfold kb_map_scancode_at1.
  destruct (aget_in (scancode_buffer kb) 0) as [x ->]; [lia|].
  destruct (aget_in (scancode_buffer kb) 1) as [y Hy]; [lia|]. cbn [mbind res_bind].
  destruct (x =? 225); [eauto|]. destruct (x =? 224); [|destruct (128 <? x); eauto].
  rewrite Hy. cbn [mbind res_bind].
  destruct (y =? 42); [eauto|]. destruct (y =? 183); [eauto|].
  exists 0. apply (zeros_lookup 256); [|lia]. apply aget_Ok in Hy as [_ Hy].
  rewrite Forall_lookup in Hb. eauto.
Qed.

(** One byte, in any state the driver can be in. *)
Lemma step_any set kb k l b :
  set = 0 ∨ set = 1 → pending set kb l → viable set l → is_byte b →
  ∃ kb' k' l', kb_add_scancode_seq _ log_key kb k b = Ok (kb', k') ∧ pending set kb' l' ∧ viable set l'.
Proof.
  intros Hset Hp Hv Hb. pose proof (viable_length set l Hv) as Hl.
  destruct Hset as [-> | ->].
  - destruct (add_pending log_key 0 kb k l b) as (kb' & -> & Hp' & _); [done|lia|done|].
    unfold kb_finish_seq. assert (scancode_set kb' = 0) as -> by apply Hp'. cbn [Z.eqb].
    rewrite (complete1_ok kb' (l ++ [b])) by (done || by destruct l). cbn [mbind res_bind].
    destruct (complete1 (l ++ [b])) eqn:E.
    + destruct (map_at1_total kb' (l ++ [b])) as [c ->]; [done|by destruct l|]. cbn [mbind res_bind log_key].
      do 3 eexists. split; [done|]. split; [by eapply pending_reset|done].
    + exists kb', k, (l ++ [b]). split; [done|]. split; [done|]. apply viable_step; auto.
  - destruct (step2 kb k l b Hp) as (kb' & -> & Hp'); [lia|done|]. do 3 eexists. split; [done|].
    split; [done|]. destruct (complete2 (l ++ [b])) eqn:E; [done|]. apply viable_step; auto.
Qed.

(** Whatever bytes a keyboard in set 1 or 2 sends, the driver never writes
    beyond [scancode_buffer] and never reads outside of its tables: it collects
    at most 7 bytes before a sequence is complete. *)
Theorem scancode_buffer_bounded set kb k bs :
  set = 0 ∨ set = 1 → pending set kb [] → Forall is_byte bs →
  ∃ kb' k', add_all _ log_key kb k bs = Ok (kb', k') ∧ 0 ≤ scancode_index kb' ≤ 7 ∧
    length (scancode_buffer kb') = 16%nat.
Proof.
  intros Hset Hp Hb. assert (Hv : viable set []) by done. revert Hp Hv. generalize (@nil Z) as l.
  revert kb k. induction Hb as [|b bs Hb Hbs IH]; intros kb k l Hp Hv; cbn [add_all].
  - exists kb, k. split; [done|]. pose proof (viable_length set l Hv).
    destruct Hp as (? & _ & Hi & _). split; [lia|done].
  - destruct (step_any set kb k l b Hset Hp Hv Hb) as (kb' & k' & l' & -> & Hp' & Hv').
    cbn [mbind res_bind]. by apply (IH kb' k' l').
Qed.

(** In set 2 a stream of complete sequences (press, release, extended press,
    extended release, pause) is decoded into one key code per sequence: the base
    map's code, with 256 added for a release, and nothing but 0 and 256 for the
    extended keys, whose map is empty. *)
Theorem decode_set2 kb k qs :
  pending 1 kb [] → Forall valid2 qs →
  ∃ kb', add_all _ log_key kb k (concat (map bytes2 qs)) = Ok (kb', k ++ map code2 qs) ∧ pending 1 kb' [].
Proof. apply decode_set2_ok. Qed.

(** In set 1, which is the one in use, every byte but 0xE1 is decoded on its
    own: the prefix 0xE0 of an extended key is reported as key code 0, and the
    byte after it as the key of the same number without the prefix (right Ctrl
    as left Ctrl). *)
Theorem decode_set1_drops_prefix k bs :
  Forall (λ b, is_byte b ∧ b ≠ 225) bs →
  ∃ kb', add_all _ log_key init_ps2_keyboard k bs = Ok (kb', k ++ map code1 bs) ∧ pending 0 kb' [].
Proof.
  intros Hb. assert (Hp : pending 0 init_ps2_keyboard []).
  { split_and!; try done. apply Forall_replicate. unfold is_byte. lia. }
  assert (H1 : scancode_buffer init_ps2_keyboard !! 1%nat = Some 0) by done.
  revert Hp H1. generalize init_ps2_keyboard as kb. revert k.
  induction Hb as [|b bs [Hb Hne] Hbs IH]; intros k kb Hp H1; cbn [add_all map].
  - exists kb. by rewrite app_nil_r.
  - destruct (step1 kb k b Hp H1 Hb Hne) as (kb' & -> & Hp' & H1'). cbn [mbind res_bind].
    destruct (IH (k ++ [code1 b]) kb' Hp' H1') as (kb2 & -> & Hp2). exists kb2.
    by rewrite <- (assoc_L (++)).
Qed.

Definition set2_keyboard : ps2_keyboard_t := Ps2 (replicate 16 0) 0 1.

Lemma set2_pending : pending 1 set2_keyboard [].
Proof. split_and!; try done. apply Forall_replicate. unfold is_byte. lia. Qed.

Lemma scancode_buffer_bounded_witness :
  ∃ kb' k', add_all _ log_key set2_keyboard [] [225; 20; 119; 225; 240; 20; 240] = Ok (kb', k') ∧
    scancode_index kb' = 7.
Proof.
  destruct (scancode_buffer_bounded 1 set2_keyboard [] [225; 20; 119; 225; 240; 20; 240]) as (kb' & k' & H & _);
    [by right|exact set2_pending|repeat (constructor; [unfold is_byte; lia|]); constructor|].
  exists kb', k'. split; [exact H|]. revert H. vm_compute. by intros [= <- _].
Defined.

Lemma decode_set2_witness :
  ∃ kb', add_all _ log_key set2_keyboard [] [28; 240; 28; 224; 117] = Ok (kb', [30; 286; 0]).
Proof.
  destruct (decode_set2 set2_keyboard [] [Make 28; Release 28; ExtMake 117]) as (kb' & H & _);
    [exact set2_pending|repeat (constructor; [cbn; unfold is_byte; lia|]); constructor|].
  exists kb'. exact H.
Defined.

Lemma decode_set1_drops_prefix_witness :
  ∃ kb', add_all _ log_key init_ps2_keyboard [] [224; 29; 30; 158] = Ok (kb', [0; 29; 30; 286]).
Proof.
  destruct (decode_set1_drops_prefix [] [224; 29; 30; 158]) as (kb' & H & _);
    [repeat (constructor; [unfold is_byte; lia|]); constructor|].
  exists kb'. exact H.
Defined.
