(* ===== verification/Kash.v ===== *)
(** The shell: from the scan codes to the characters on the console.

    Source: kernel/kernel/kernel.c (kash_main), with the keyboard driver
    (AtKeyboard.v), the input layer (Keyboard.v) and the console (Console.v) that
    it connects.

    The keyboard interrupt and the task kash share the ring of keys and are
    interleaved in any order: [step] is either one scan code or one turn of kash,
    which [pc] divides at the points where it looks at the shared state. *)
From S2P Require Import Prelude Ports CString Console Keyboard AtKeyboard.

(** The scan code driver hands on what it decodes. *)
Definition decode (kb : ps2_keyboard_t) (b : Z) : res (ps2_keyboard_t * list Z) :=
  kb_add_scancode_seq (list Z) log_key kb [] b.

(** Where kash is: in the wait of kb_getkey, in kb_getch with a key, or with a
    character for console_putch. *)
Inductive kash_pc : Type :=
  | Waiting (tmp : Z)
  | Got (key : Z)
  | Put (ch : Z).

(** What happens, for the properties. *)
Inductive event : Type :=
  | Emitted (key : Z)
  | Read (key : Z)
  | Mapped (key mods : Z)
  | Echoed (ch : Z).

Section kash.
Context {Q : Type} (wake : Q → Q) {E : Type} `{ConsoleOps E}.

Record machine : Type := Machine {
  driver : ps2_keyboard_t;
  keyboard : Keyboard.t Q;
  pc : kash_pc;
  con : console_t;
  env : E;
}.

(** Both statics are initialised, kash enters kb_getch for the first time. *)
Definition boot (ring : list Z) (q : Q) (c : console_t) (e : E) : machine :=
  let k := kb_early_init Q ring q in Machine init_ps2_keyboard k (Waiting (kb_getkey_begin Q k)) c e.

(** The interrupt handler with one scan code from the controller. *)
Definition scancode_arrives (b : Z) (s : machine) : res machine :=
  '(d, k) ← kb_add_scancode_seq (Keyboard.t Q) (__kb_emit_keycode Q wake) (driver s) (keyboard s) b;
  Ok (Machine d k (pc s) (con s) (env s)).

Definition go (s : machine) (p : kash_pc) : machine := Machine (driver s) (keyboard s) p (con s) (env s).

(** Back to kb_getkey. *)
Definition next_key (s : machine) : machine := go s (Waiting (kb_getkey_begin Q (keyboard s))).

Definition kash_turn (s : machine) : res (machine * list event) :=
  match pc s with
  | Waiting tmp =>
      key ← kb_getkey_check Q tmp (keyboard s);
      match key with Some key => Ok (go s (Got key), [Read key]) | None => Ok (s, []) end
  | Got key =>
      ch ← kb_getch_key Q (keyboard s) key;
      match ch with
      | Some ch => Ok (go s (Put ch), [Mapped key (kb_getmods Q (keyboard s))])
      | None => Ok (next_key s, [Mapped key (kb_getmods Q (keyboard s))])
      end
  | Put ch =>
      '(c, e) ← console_putch (con s) (env s) ch;
      Ok (next_key (Machine (driver s) (keyboard s) (pc s) c e), [Echoed ch])
  end.

(** The keys that a scan code completes. *)
Definition emitted_by (b : Z) (s : machine) : list event :=
  match decode (driver s) b with Ok (_, cs) => map Emitted cs | Fault _ => [] end.

Inductive step : machine → list event → machine → Prop :=
  | step_scancode s b s' : is_byte b → scancode_arrives b s = Ok s' → step s (emitted_by b s) s'
  | step_kash s tr s' : kash_turn s = Ok (s', tr) → step s tr s'.

Inductive runs (s : machine) : list event → machine → Prop :=
  | runs_nil : runs s [] s
  | runs_snoc tr s1 tr' s2 : runs s tr s1 → step s1 tr' s2 → runs s (tr ++ tr') s2.

(** ** The events *)

Definition emitted (tr : list event) : list Z := omap (λ e, match e with Emitted k => Some k | _ => None end) tr.
Definition reads (tr : list event) : list Z := omap (λ e, match e with Read k => Some k | _ => None end) tr.
Definition mapped_keys (tr : list event) : list (Z * Z) := omap (λ e, match e with Mapped k m => Some (k, m) | _ => None end) tr.
Definition echoed (tr : list event) : list Z := omap (λ e, match e with Echoed c => Some c | _ => None end) tr.

(** The character of a key event: only presses have one. *)
Definition char_of (key mods : Z) : option Z :=
  if Z.shiftr (Z.land key 65280) 8 =? 0 then
    match _kb_map (Z.land key 255) mods with Ok x => if x =? 0 then None else Some x | Fault _ => None end
  else None.

(** [console_putch] for every character. *)
Fixpoint echo_all (c : console_t) (e : E) (chs : list Z) : res (console_t * E) :=
  match chs with [] => Ok (c, e) | ch :: chs => '(c, e) ← console_putch c e ch; echo_all c e chs end.

(** The characters that a sequence of key events types, after the events [past]. *)
Fixpoint typed_text (past es : list Z) : list Z :=
  match es with
  | [] => []
  | e :: es => option_list (char_of e (mods_spec (past ++ [e]))) ++ typed_text (past ++ [e]) es
  end.

(** One scan code, after which kash runs until it waits again. *)
Definition type_scancode (b : Z) (s : machine) : res machine :=
  s ← scancode_arrives b s;
  '(s, _) ← kash_turn s; '(s, _) ← kash_turn s; '(s, _) ← kash_turn s; Ok s.

Fixpoint type_all (bs : list Z) (s : machine) : res machine :=
  match bs with [] => Ok s | b :: bs => s ← type_scancode b s; type_all bs s end.

(** ** Lemmas *)

Lemma kb_map_range code mods : ∃ x, _kb_map code mods = Ok x ∧ 0 ≤ x ≤ 126.
Proof.
  assert (Ht : ∀ l, length l = 256%nat → forallb (λ x, (0 <=? x) && (x <=? 126)) l = true →
      ∃ x, aget l (Z.land code 255) = Ok x ∧ 0 ≤ x ≤ 126).
  { intros l Hl Hall. destruct (aget_in l (Z.land code 255)) as [x Hx].
    { change 255 with (Z.ones 8). rewrite Z.land_ones by lia. rewrite Hl. mlia. }
    exists x. split; [done|]. apply aget_Ok in Hx as [_ Hx]. rewrite forallb_forall in Hall.
    apply list_elem_of_lookup_2, list_elem_of_In, Hall in Hx. lia. }
  unfold _kb_map.
  assert (Hx : ∃ x, (if has mods KEY_MODIFIER_SHIFT then aget shift_map (Z.land code 255)
      else if has mods (Z.lor KEY_MODIFIER_ALT_GR KEY_MODIFIER_ALT) then aget altgr_map (Z.land code 255)
      else aget plain_map (Z.land code 255)) = Ok x ∧ 0 ≤ x ≤ 126).
  { repeat case_match; by apply Ht. }
  destruct Hx as (x & -> & Hx). cbn [mbind res_bind].
  destruct (has mods KEY_MODIFIER_CAPS); [|by exists x].
  destruct ((97 <=? x) && (x <=? 122)) eqn:E1; [exists (x - 32); split; [done|lia]|].
  destruct ((65 <=? x) && (x <=? 90)) eqn:E2; [exists (x + 32); split; [done|lia]|by exists x].
Qed.

Lemma getch_key_ok (k : Keyboard.t Q) key :
  kb_getch_key Q k key = Ok (char_of key (kb_getmods Q k)) ∧
  ∀ ch, char_of key (kb_getmods Q k) = Some ch → 1 ≤ ch ≤ 126.
Proof.
  unfold kb_getch_key, char_of. cbv zeta. destruct (_ =? 0); [|done].
  destruct (kb_map_range (Z.land key 255) (kb_getmods Q k)) as (x & -> & Hx). cbn [mbind res_bind].
  destruct (Z.eqb_spec x 0); cbn [negb]; split; [done|done|done|]. intros ch [= <-]. lia.
Qed.

(** The driver does the same whatever layer is above it. *)
Lemma add_decodes d k b d' cs :
  decode d b = Ok (d', cs) →
  kb_add_scancode_seq (Keyboard.t Q) (__kb_emit_keycode Q wake) d k b = (k ← emits Q wake k cs; Ok (d', k)).
Proof.
  unfold decode, kb_add_scancode_seq. destruct (aset _ _ _) as [buf|]; [|done]. cbn [mbind res_bind].
  unfold kb_finish_seq. set (kb := Ps2 _ _ _).
  destruct (scancode_set kb =? 0).
  - destruct (kb_scancode_sequence_complete_at1 _ _) as [[]|]; cbn [mbind res_bind]; [|by intros [= <- <-]|done].
    destruct (kb_map_scancode_at1 _) as [c|]; cbn [mbind res_bind log_key app]; [|done]. intros [= <- <-].
    cbn [emits]. by destruct (__kb_emit_keycode Q wake k c).
  - destruct (scancode_set kb =? 1); [|by intros [= <- <-]].
    destruct (kb_scancode_sequence_complete_at2 _ _) as [[]|]; cbn [mbind res_bind]; [|by intros [= <- <-]|done].
    destruct (kb_map_scancode_at2 _) as [c|]; cbn [mbind res_bind log_key app]; [|done]. intros [= <- <-].
    cbn [emits]. by destruct (__kb_emit_keycode Q wake k c).
Qed.

End kash.
Arguments machine : clear implicits.

Section reachable.
Context {Q : Type} (wake : Q → Q) {E : Type} `{ConsoleOps E}.

(** ** Reachable states *)

(** The display never refuses a redraw. *)
Definition redraws : Prop := ∀ c e, Console.inv c → ∃ e', op_redraw c e = Ok e'.

Record kash_inv (s : machine Q E) : Prop := {
  kash_driver : ∃ l, pending 0 (driver s) l ∧ viable 0 l;
  kash_keyboard : Keyboard.inv Q (keyboard s);
  kash_console : Console.inv (con s);
  kash_char : ∀ ch, pc s = Put ch → 1 ≤ ch ≤ 126;
}.

Lemma mark_dirty_ok c e :
  redraws → Console.inv c → ∃ f e', mark_dirty c e = Ok (set_flags c f, e').
Proof.
  intros Hr Hi. unfold mark_dirty, __console_redraw. cbv zeta.
  assert (Hf : ∀ f, Console.inv (set_flags c f)) by (intros f; by destruct Hi).
  repeat case_match; eauto. destruct (Hr (set_flags c (Z.lor (flags c) CONSOLE_FLAG_DIRTY)) e) as [e' ->]; [done|].
  cbn [mbind res_bind]. eauto.
Qed.

Lemma console_putch_ok c e ch :
  redraws → Console.inv c → post (λ r, Console.inv r.1) (putch_fault c ch) (console_putch c e ch).
Proof.
  intros Hr Hi. unfold console_putch. eapply post_bind; [by apply putch_ok|].
  intros [c' e'] [Hi' _]. cbn [fst] in Hi'. destruct (mark_dirty_ok c' e' Hr Hi') as (f & e2 & ->). by destruct Hi'.
Qed.

Lemma decode_ok d l b :
  pending 0 d l → viable 0 l → is_byte b → ∃ d' cs l', decode d b = Ok (d', cs) ∧ pending 0 d' l' ∧ viable 0 l'.
Proof.
  intros Hp Hv Hb. destruct (step_any 0 d [] l b) as (d' & cs & l' & ? & ? & ?); [by left|done..|].
  by exists d', cs, l'.
Qed.

(** A scan code changes the driver and the keyboard only. *)
Lemma scancode_ok s b :
  kash_inv s → is_byte b →
  ∃ d' cs k', decode (driver s) b = Ok (d', cs) ∧ emits Q wake (keyboard s) cs = Ok k' ∧
    scancode_arrives wake b s = Ok (Machine d' k' (pc s) (con s) (env s)) ∧
    kash_inv (Machine d' k' (pc s) (con s) (env s)) ∧ emitted (emitted_by b s) = cs.
Proof.
  intros [(l & Hp & Hv) Hk Hc Hch] Hb. destruct (decode_ok _ _ b Hp Hv Hb) as (d' & cs & l' & Hd & Hp' & Hv').
  destruct (emits_ok Q wake (keyboard s) cs Hk) as (k' & He & Hk' & _). exists d', cs, k'.
  split; [done|]. split; [done|]. unfold scancode_arrives. rewrite (add_decodes wake _ _ _ _ _ Hd), He. cbn [mbind res_bind].
  split; [done|]. split; [split; cbn; [by exists l'|done..]|].
  unfold emitted_by. rewrite Hd. unfold emitted. clear. induction cs as [|x cs IH]; [done|]. cbn. by rewrite IH.
Qed.

Lemma turn_ok s :
  redraws → kash_inv s →
  post (λ r, kash_inv r.1) (λ f, ∃ ch, pc s = Put ch ∧ putch_fault (con s) ch f) (kash_turn s).
Proof.
  intros Hr [Hd Hk Hc Hch]. unfold kash_turn. destruct (pc s) as [tmp|key|ch] eqn:Epc.
  - unfold kb_getkey_check, _key_ring_idx. destruct Hk as [Hi Hl]. rewrite u8_small by lia.
    destruct (negb _); [|by split; cbn; rewrite ?Epc]. destruct (aget_in (key_ring Q (keyboard s)) (key_ring_index Q (keyboard s))) as [x ->]; [lia|].
    by split; cbn.
  - destruct (getch_key_ok (keyboard s) key) as [-> Hrange]. cbn [mbind res_bind].
    destruct (char_of _ _) as [ch|]; cbn; [|by split]. split; cbn; [done..|]. intros ch' [= <-]. by apply Hrange.
  - eapply (post_bind (λ r, Console.inv r.1)).
    { eapply post_mono; [exact (console_putch_ok (con s) (env s) ch Hr Hc)|done|]. intros f Hf. by exists ch. }
    intros [c e] Hi. by split; cbn.
Qed.

Lemma boot_inv ring q c e : length ring = 128%nat → Console.inv c → kash_inv (boot ring q c e).
Proof.
  intros Hl Hc. split; cbn; [|by split; cbn|done|done]. exists []. split; [|done].
  split_and!; try done. apply Forall_replicate. unfold is_byte. lia.
Qed.

Lemma step_inv s tr s' : redraws → kash_inv s → step wake s tr s' → kash_inv s'.
Proof.
  intros Hr Hi Hstep. inversion Hstep as [? b ? Hb Hs|? ? ? Hs]; subst.
  - destruct (scancode_ok s b Hi Hb) as (d & cs & k & _ & _ & Hs' & Hi' & _).
    rewrite Hs in Hs'. by injection Hs' as ->.
  - pose proof (turn_ok s Hr Hi) as Ht. by rewrite Hs in Ht.
Qed.

Lemma runs_inv s tr s' : redraws → kash_inv s → runs wake s tr s' → kash_inv s'.
Proof. intros Hr Hi. induction 1; [done|]. by eapply step_inv. Qed.

(** ** Traces *)

Record traced (c0 : console_t) (e0 : E) (tr : list event) (s : machine Q E) : Prop := {
  tr_index : key_ring_index Q (keyboard s) = Z.of_nat (length (emitted tr)) mod 128;
  tr_last : ∀ x, last (emitted tr) = Some x → aget (key_ring Q (keyboard s)) (key_ring_index Q (keyboard s)) = Ok x;
  tr_mods : kb_getmods Q (keyboard s) = mods_spec (emitted tr);
  tr_reads : ∃ m, (m ≤ length (emitted tr))%nat ∧ reads tr `sublist_of` take m (emitted tr) ∧
    ∀ tmp, pc s = Waiting tmp → tmp = Z.of_nat m mod 128;
  tr_mapped : reads tr = (mapped_keys tr).*1 ++ (if pc s is Got key then [key] else []);
  tr_when : Forall (λ km, ∃ j, km.2 = mods_spec (take j (emitted tr))) (mapped_keys tr);
  tr_echoed : omap (λ km, char_of km.1 km.2) (mapped_keys tr) = echoed tr ++ (if pc s is Put ch then [ch] else []);
  tr_console : echo_all c0 e0 (echoed tr) = Ok (con s, env s);
}.

Lemma echo_all_app (c : console_t) (e : E) l k :
  echo_all c e (l ++ k) = ('(c, e) ← echo_all c e l; echo_all c e k).
Proof.
  revert c e. induction l as [|x l IH]; intros c e; [done|]. cbn [app echo_all].
  destruct (console_putch c e x) as [[c' e']|]; [apply IH|done].
Qed.

Lemma events_app tr tr' :
  emitted (tr ++ tr') = emitted tr ++ emitted tr' ∧ reads (tr ++ tr') = reads tr ++ reads tr' ∧
  mapped_keys (tr ++ tr') = mapped_keys tr ++ mapped_keys tr' ∧ echoed (tr ++ tr') = echoed tr ++ echoed tr'.
Proof. unfold emitted, reads, mapped_keys, echoed. by rewrite !omap_app. Qed.

Lemma emitted_map cs :
  emitted (map Emitted cs) = cs ∧ reads (map Emitted cs) = [] ∧ mapped_keys (map Emitted cs) = [] ∧ echoed (map Emitted cs) = [].
Proof.
  induction cs as [|x cs (H1 & H2 & H3 & H4)]; [done|]. split; [|by split].
  change (x :: emitted (map Emitted cs) = x :: cs). by rewrite H1.
Qed.

(** The events that a turn of kash cannot produce. *)
Lemma mods_spec_from es past : fold_left update_modifiers es (mods_spec past) = mods_spec (past ++ es).
Proof.
  revert past. induction es as [|e es IH]; intros past; [by rewrite app_nil_r|]. cbn [fold_left].
  rewrite update_modifiers_spec, IH. by rewrite <- (assoc_L (++)).
Qed.

Lemma traced_boot ring q c e : traced c e [] (boot ring q c e).
Proof. split; cbn; try done. exists 0%nat. split; [lia|]. split; [done|]. by intros ? [= <-]. Qed.

Lemma traced_scancode c0 e0 tr s b s' :
  kash_inv s → is_byte b → traced c0 e0 tr s → scancode_arrives wake b s = Ok s' → traced c0 e0 (tr ++ emitted_by b s) s'.
Proof.
  intros Hi Hb Ht Hs. destruct (scancode_ok s b Hi Hb) as (d & cs & k & Hd & He & Hs' & _).
  rewrite Hs in Hs'. injection Hs' as ->. unfold emitted_by. rewrite Hd.
  destruct (events_app tr (map Emitted cs)) as (A1 & A2 & A3 & A4).
  destruct (emitted_map cs) as (B1 & B2 & B3 & B4). rewrite B1 in A1. rewrite B2, app_nil_r in A2. rewrite B3, app_nil_r in A3. rewrite B4, app_nil_r in A4.
  destruct (emits_ok Q wake (keyboard s) cs (kash_keyboard _ Hi)) as (k' & He' & _ & Hx & Hl & Hm).
  rewrite He in He'. injection He' as <-. destruct Ht as [T1 T2 T3 (m & T4 & T5 & T6) T7 T8 T9 T10].
  split; cbn; rewrite ?A1, ?A2, ?A3, ?A4; try done.
  - rewrite Hx, T1, length_app, Nat2Z.inj_add. by rewrite Zplus_mod_idemp_l.
  - intros x. destruct cs as [|y cs] using rev_ind.
    + rewrite app_nil_r. cbn in He. injection He as <-. apply T2.
    + rewrite (assoc_L (++)), last_snoc. intros [= <-]. apply Hl. by rewrite last_snoc.
  - unfold kb_getmods in *. by rewrite Hm, T3, mods_spec_from.
  - exists m. split; [rewrite length_app; lia|]. split; [|done]. by rewrite take_app_le.
  - eapply Forall_impl; [exact T8|]. intros km (j & Hj). exists (j `min` length (emitted tr))%nat.
    rewrite take_app_le by lia. by rewrite <- take_take, firstn_all.
Qed.

Lemma traced_turn c0 e0 tr s tr' s' :
  kash_inv s → traced c0 e0 tr s → kash_turn s = Ok (s', tr') → traced c0 e0 (tr ++ tr') s'.
Proof.
  intros Hi Ht Hs. destruct Hi as [_ [Hk Hkl] _ _]. destruct Ht as [T1 T2 T3 (m & T4 & T5 & T6) T7 T8 T9 T10].
  destruct (events_app tr tr') as (A1 & A2 & A3 & A4). unfold kash_turn in Hs.
  assert (Hnow : kb_getkey_begin Q (keyboard s) = Z.of_nat (length (emitted tr)) mod 128).
  { unfold kb_getkey_begin, _key_ring_idx. by rewrite u8_small by lia. }
  destruct (pc s) as [tmp|key|ch] eqn:Epc.
  - unfold kb_getkey_check in Hs. change (_key_ring_idx Q (keyboard s)) with (kb_getkey_begin Q (keyboard s)) in Hs.
    specialize (T6 tmp eq_refl). destruct (Z.eqb_spec (kb_getkey_begin Q (keyboard s)) tmp) as [E1|E1]; cbn [negb] in Hs.
    { injection Hs as <- <-. rewrite !app_nil_r. split; rewrite ?Epc; try done. exists m. split; [done|]. split; [done|]. by intros ? [= ->]. }
    destruct (last (emitted tr)) as [x|] eqn:El.
    2: { apply last_None in El. rewrite El in *. cbn in T4. assert (m = 0)%nat as -> by lia. by rewrite Hnow, T6 in E1. }
    assert (aget (key_ring Q (keyboard s)) (kb_getkey_begin Q (keyboard s)) = Ok x) as Hx.
    { rewrite Hnow, <- T1. by apply T2. }
    rewrite Hx in Hs. cbn [mbind res_bind] in Hs. injection Hs as <- <-. cbn in A1, A2, A3, A4. rewrite ?app_nil_r in *.
    split; cbn; rewrite ?A1, ?A2, ?A3, ?A4; try done; try (by rewrite T1); [by rewrite El|..].
    + exists (length (emitted tr)). split; [done|]. split; [|done]. rewrite firstn_all.
      apply last_Some in El as (l & Hl). rewrite Hl. assert (m ≠ length (emitted tr)) by congruence.
      rewrite Hl, length_app in *. cbn [length] in *. apply sublist_app; [|done].
      etrans; [exact T5|]. rewrite take_app_le by lia. apply sublist_take.
    + by rewrite T7.
    + by rewrite T9, app_nil_r.
  - destruct (getch_key_ok (keyboard s) key) as [E1 _]. rewrite E1 in Hs. cbn [mbind res_bind] in Hs.
    assert (Htr : tr' = [Mapped key (kb_getmods Q (keyboard s))]) by (destruct (char_of _ _); by injection Hs).
    subst tr'. cbn in A1, A2, A3, A4. rewrite ?app_nil_r in *.
    assert (Hwhen : Forall (λ km, ∃ j, km.2 = mods_spec (take j (emitted tr))) (mapped_keys tr ++ [(key, kb_getmods Q (keyboard s))])).
    { apply Forall_app. split; [done|]. constructor; [|done]. exists (length (emitted tr)). by rewrite firstn_all. }
    assert (Hmap : reads tr = (mapped_keys tr ++ [(key, kb_getmods Q (keyboard s))]).*1) by by rewrite fmap_app.
    destruct (char_of _ _) as [ch|] eqn:Ech; injection Hs as <-.
    + split; cbn; rewrite ?A1, ?A2, ?A3, ?A4; try done; [exists m; by split_and!|by rewrite app_nil_r|].
      rewrite omap_app, T9. cbn. by rewrite Ech.
    + split; cbn; rewrite ?A1, ?A2, ?A3, ?A4; try done; [|by rewrite app_nil_r|].
      * exists (length (emitted tr)). split; [done|]. rewrite firstn_all. split; [etrans; [exact T5|apply sublist_take]|]. by intros ? [= <-].
      * rewrite omap_app, T9. cbn. by rewrite Ech.
  - destruct (console_putch (con s) (env s) ch) as [[c e]|] eqn:Ep; [|done]. cbn [mbind res_bind] in Hs. injection Hs as <- <-.
    cbn in A1, A2, A3, A4. rewrite ?app_nil_r in *. split; cbn; rewrite ?A1, ?A2, ?A3, ?A4; try done.
    + exists (length (emitted tr)). split; [done|]. rewrite firstn_all. split; [etrans; [exact T5|apply sublist_take]|]. by intros ? [= <-].
    + by rewrite app_nil_r.
    + by rewrite app_nil_r.
    + by rewrite echo_all_app, T10; cbn; rewrite Ep.
Qed.

Lemma runs_traced ring q c e tr s :
  redraws → length ring = 128%nat → Console.inv c → runs wake (boot ring q c e) tr s → traced c e tr s.
Proof.
  intros Hr Hl Hc. induction 1 as [|tr s1 tr' s2 Hruns IH Hstep]; [apply traced_boot|].
  pose proof (runs_inv _ _ _ Hr (boot_inv ring q c e Hl Hc) Hruns) as Hi.
  inversion Hstep; subst; [by apply traced_scancode|by eapply traced_turn].
Qed.

(** ** Typing with a prompt reader *)

(** Between two scan codes: kash waits for the next event, the driver for the
    next sequence, and the modifiers are those of the events [past]. *)
Record ready (past : list Z) (s : machine Q E) : Prop := {
  ready_inv : kash_inv s;
  ready_driver : pending 0 (driver s) [] ∧ scancode_buffer (driver s) !! 1%nat = Some 0;
  ready_pc : pc s = Waiting (kb_getkey_begin Q (keyboard s));
  ready_mods : kb_getmods Q (keyboard s) = mods_spec past;
}.

Lemma waiting_turn s : pc s = Waiting (kb_getkey_begin Q (keyboard s)) → kash_turn s = Ok (s, []).
Proof. intros Hp. unfold kash_turn. rewrite Hp. unfold kb_getkey_check, kb_getkey_begin. by rewrite Z.eqb_refl. Qed.

Lemma type_scancode_ok past s b :
  ready past s → is_byte b → b ≠ 225 →
  ∃ d k, type_scancode wake b s
    = ('(c, e) ← echo_all (con s) (env s) (option_list (char_of (code1 b) (mods_spec (past ++ [code1 b]))));
       Ok (Machine d k (Waiting (kb_getkey_begin Q k)) c e)) ∧
    pending 0 d [] ∧ scancode_buffer d !! 1%nat = Some 0 ∧ Keyboard.inv Q k ∧ kb_getmods Q k = mods_spec (past ++ [code1 b]).
Proof.
  intros [Hi [Hp H1] Hpc Hm] Hb Hne. destruct (step1 (driver s) [] b Hp H1 Hb Hne) as (d & Hd & Hpd & H1d).
  destruct (emit_ok Q wake (keyboard s) (code1 b) (kash_keyboard _ Hi)) as (k & Hk & Hki & Hx & Hr & Hmk).
  exists d, k. assert (Hmods : kb_getmods Q k = mods_spec (past ++ [code1 b])).
  { unfold kb_getmods in *. by rewrite Hmk, Hm, update_modifiers_spec. }
  split; [|done]. unfold type_scancode, scancode_arrives.
  rewrite (add_decodes wake _ _ _ d [code1 b]) by done. cbn [emits mbind res_bind]. rewrite Hk. cbn [mbind res_bind].
  set (s1 := Machine d k (pc s) (con s) (env s)).
  assert (kash_turn s1 = Ok (go s1 (Got (code1 b)), [Read (code1 b)])) as ->.
  { unfold kash_turn. cbn [s1 pc keyboard]. rewrite Hpc. unfold kb_getkey_check, kb_getkey_begin, _key_ring_idx.
    destruct (kash_keyboard _ Hi) as [Hi1 Hl1], Hki as [Hi2 Hl2]. rewrite !u8_small by lia.
    rewrite (proj2 (Z.eqb_neq _ _)) by (rewrite Hx; mlia). cbn [negb]. rewrite Hr, Hx. rewrite aget_insert_eq by mlia. done. }
  cbn [mbind res_bind]. destruct (getch_key_ok k (code1 b)) as [Hch _]. rewrite Hmods in Hch.
  destruct (char_of (code1 b) _) as [ch|]; cbn [option_list echo_all].
  - assert (kash_turn (go s1 (Got (code1 b))) = Ok (go s1 (Put ch), [Mapped (code1 b) (kb_getmods Q k)])) as ->.
    { unfold kash_turn. cbn [go pc keyboard s1]. by rewrite Hch. }
    cbn [mbind res_bind]. unfold kash_turn. cbn. destruct (console_putch (con s) (env s) ch) as [[c e]|]; cbn; done.
  - assert (kash_turn (go s1 (Got (code1 b))) = Ok (next_key s1, [Mapped (code1 b) (kb_getmods Q k)])) as ->.
    { unfold kash_turn. cbn [go pc keyboard s1]. by rewrite Hch. }
    cbn [mbind res_bind]. by rewrite waiting_turn.
Qed.

Lemma echo_inv c e chs c' e' : redraws → Console.inv c → echo_all c e chs = Ok (c', e') → Console.inv c'.
Proof.
  intros Hr. revert c e. induction chs as [|x chs IH]; intros c e Hc; cbn [echo_all]; [by intros [= <- _]|].
  pose proof (console_putch_ok c e x Hr Hc) as Hp. destruct (console_putch c e x) as [[c1 e1]|]; [|done]. by apply IH.
Qed.

(** What kash does is [echo_all] of the text typed, to the end or to its fault. *)
Lemma type_all_ok past s bs :
  redraws → ready past s → Forall (λ b, is_byte b ∧ b ≠ 225) bs →
  match echo_all (con s) (env s) (typed_text past (map code1 bs)) with
  | Ok (c, e) => ∃ s', type_all wake bs s = Ok s' ∧ con s' = c ∧ env s' = e ∧ ready (past ++ map code1 bs) s'
  | Fault f => type_all wake bs s = Fault f
  end.
Proof.
  intros Hr Hs Hb. revert past s Hs. induction Hb as [|b bs [Hb Hne] Hbs IH]; intros past s Hs; cbn [map typed_text type_all].
  { exists s. by rewrite app_nil_r. }
  rewrite echo_all_app. destruct (type_scancode_ok past s b Hs Hb Hne) as (d & k & -> & Hp & H1 & Hk & Hm).
  destruct (echo_all (con s) (env s) _) as [[c e]|] eqn:Ee; [|done]. cbn [mbind res_bind].
  set (s1 := Machine d k _ c e). specialize (IH (past ++ [code1 b]) s1). rewrite <- (assoc_L (++)) in IH. cbn [app] in IH.
  apply IH. split; cbn; [|done..]. split; cbn; [by exists []|done| |done]. eapply echo_inv; [done| |exact Ee]. apply Hs.
Qed.

Lemma ready_boot ring q c e : length ring = 128%nat → Console.inv c → ready [] (boot ring q c e).
Proof.
  intros Hl Hc. split; [by apply boot_inv| |done|done]. split; [|done].
  split_and!; try done. apply Forall_replicate. unfold is_byte. lia.
Qed.

(** ** What the console shows *)

Definition text_fold (c : console_t) (chs : list Z) : console_t := fold_left (λ c ch, with_text c (text_step c ch)) chs c.

Lemma text_fold_flags c f chs : text_fold (set_flags c f) chs = set_flags (text_fold c chs) f.
Proof.
  revert c. induction chs as [|x chs IH]; intros c; [done|]. unfold text_fold in *. cbn [fold_left]. rewrite <- IH. done.
Qed.

Lemma putch_plain c e ch :
  redraws → Console.inv c → escape_code_length c = 0 → ch ≠ 27 →
  ∃ f e', console_putch c e ch = Ok (set_flags (with_text c (text_step c ch)) f, e') ∧ Console.inv (with_text c (text_step c ch)).
Proof.
  intros Hr Hi Hl Hne. destruct (put_text_ok c e ch Hi) as [Hp Hi']. unfold console_putch.
  assert (__console_putch c e ch = put_text c e ch) as ->.
  { unfold __console_putch. rewrite (proj2 (Z.eqb_neq ch 27)) by done. by rewrite Hl. }
  rewrite Hp. cbn [mbind res_bind]. destruct (mark_dirty_ok _ (serial_debug_putch ch e) Hr Hi') as (f & e' & ->). eauto.
Qed.

Lemma echo_plain c e chs :
  redraws → Console.inv c → escape_code_length c = 0 → 27 ∉ chs →
  ∃ f e', echo_all c e chs = Ok (set_flags (text_fold c chs) f, e').
Proof.
  intros Hr. revert c e. induction chs as [|x chs IH]; intros c e Hi Hl Hn; cbn [echo_all].
  { exists (flags c), e. by destruct c. }
  apply not_elem_of_cons in Hn as [Hx Hn].
  destruct (putch_plain c e x Hr Hi Hl (not_eq_sym Hx)) as (f & e1 & -> & Hi1). cbn [mbind res_bind].
  destruct (IH (set_flags (with_text c (text_step c x)) f) e1) as (f2 & e2 & ->); [by destruct Hi1|done|done|].
  exists f2, e2. rewrite text_fold_flags. done.
Qed.

(** Inside of an escape sequence a digit only makes the sequence longer. *)
Lemma putch_digit c e :
  redraws → Console.inv c → 2 ≤ escape_code_length c →
  (escape_code_length c < 32 → ∃ c' e', console_putch c e 49 = Ok (c', e') ∧ Console.inv c' ∧ escape_code_length c' = escape_code_length c + 1) ∧
  (escape_code_length c = 32 → console_putch c e 49 = Fault OutOfBounds).
Proof.
  intros Hr Hi Hl. unfold console_putch, __console_putch. cbn [Z.eqb Pos.eqb Z.leb Z.compare Pos.compare Pos.compare_cont andb].
  test_true (0 <? escape_code_length c). test_false (escape_code_length c =? 1). split; intros Hlt.
  - destruct (append_escape_ok c 49 Hi Hlt) as (c' & -> & Hi' & Hl'). cbn [mbind res_bind].
    destruct (mark_dirty_ok c' e Hr Hi') as (f & e' & ->). do 2 eexists. split; [done|]. split; [by destruct Hi'|done].
  - unfold append_escape. rewrite (aset_out (escape_code_sequence c)) by (rewrite (inv_sequence _ Hi); lia). done.
Qed.

Lemma echo_digits n : ∀ c e,
  redraws → Console.inv c → 2 ≤ escape_code_length c → escape_code_length c + Z.of_nat n = 32 →
  echo_all c e (replicate (S n) 49) = Fault OutOfBounds.
Proof.
  induction n as [|n IH]; intros c e Hr Hi Hl Hn.
  - cbn [replicate echo_all]. destruct (putch_digit c e Hr Hi Hl) as [_ ->]; [done|lia].
  - change (replicate (S (S n)) 49) with (49 :: replicate (S n) 49). cbn [echo_all].
    destruct (putch_digit c e Hr Hi Hl) as [(c' & e' & -> & Hi' & Hl') _]; [lia|]. cbn [mbind res_bind].
    apply IH; [done|done|lia|lia].
Qed.

(** ESC and [ *)
Lemma echo_escape c e :
  redraws → Console.inv c → ∃ c' e', echo_all c e [27; 91] = Ok (c', e') ∧ Console.inv c' ∧ escape_code_length c' = 2.
Proof.
  intros Hr Hi. cbn [echo_all].
  set (c1 := set_sequence c (<[0%nat := 27]> (replicate 32 0)) 1). assert (Hi1 : Console.inv c1) by by destruct Hi; split.
  destruct (mark_dirty_ok c1 e Hr Hi1) as (f & e1 & H1). set (c2 := set_flags c1 f) in *.
  assert (console_putch c e 27 = Ok (c2, e1)) as ->.
  { unfold console_putch, __console_putch. cbn [Z.eqb Pos.eqb]. rewrite aset_ok by done. exact H1. }
  assert (Hi2 : Console.inv c2) by by destruct Hi1; split.
  destruct (append_escape_ok c2 91 Hi2) as (c3 & H3 & Hi3 & Hl3); [done|].
  destruct (mark_dirty_ok c3 e1 Hr Hi3) as (f3 & e3 & H4). cbn [mbind res_bind].
  assert (console_putch c2 e1 91 = Ok (set_flags c3 f3, e3)) as ->.
  { unfold console_putch, __console_putch. cbn [Z.eqb Pos.eqb]. change (escape_code_length c2) with 1.
    cbn [Z.ltb Z.eqb Z.compare Pos.eqb]. by rewrite H3. }
  cbn [mbind res_bind]. do 2 eexists. split; [done|]. split; [by destruct Hi3|done].
Qed.

(** ** Properties *)

(** C12: However interrupts and turns of kash are interleaved after the boot, no
    scan code is ever out of place: the interrupt handler takes every byte without
    a fault.  kash goes on as well: every key has a map entry, every character it
    gets is one from 1 to 126, and the only faults are those of [console_putch] on
    the 33rd byte of an escape sequence, or on the end of one with a parameter that
    [atoi] overflows on ([putch_fault]).  The console stays well formed. *)
Theorem kash_type_safe ring q c e tr s :
  redraws → length ring = 128%nat → Console.inv c → runs wake (boot ring q c e) tr s →
  (∀ b, is_byte b → ∃ s', scancode_arrives wake b s = Ok s') ∧
  Console.inv (con s) ∧ (∀ ch, pc s = Put ch → 1 ≤ ch ≤ 126) ∧
  ((∃ s' tr', kash_turn s = Ok (s', tr')) ∨
   ∃ ch f, pc s = Put ch ∧ kash_turn s = Fault f ∧ putch_fault (con s) ch f).
Proof.
  intros Hr Hl Hc Hruns. pose proof (runs_inv _ _ _ Hr (boot_inv ring q c e Hl Hc) Hruns) as Hi.
  split; [|split; [apply Hi|split; [apply Hi|]]].
  - intros b Hb. destruct (scancode_ok s b Hi Hb) as (d & cs & k & _ & _ & Hs & _). eauto.
  - pose proof (turn_ok s Hr Hi) as Ht. destruct (kash_turn s) as [[s' tr']|f]; [left; eauto|right].
    destruct Ht as (ch & Hch & Hf). eauto.
Qed.

(** C10: Whatever the interleaving, the keys that kash reads are key events that
    were emitted, in their order and none twice (some may be missing); each is
    mapped under the modifiers of some moment; and the console has received
    exactly the characters of those keys, in this order. *)
Theorem kash_echoes_typed_keys ring q c e tr s :
  redraws → length ring = 128%nat → Console.inv c → runs wake (boot ring q c e) tr s →
  reads tr `sublist_of` emitted tr ∧
  (mapped_keys tr).*1 `prefix_of` reads tr ∧
  Forall (λ km, ∃ j, km.2 = mods_spec (take j (emitted tr))) (mapped_keys tr) ∧
  echoed tr `prefix_of` omap (λ km, char_of km.1 km.2) (mapped_keys tr) ∧
  echo_all c e (echoed tr) = Ok (con s, env s).
Proof.
  intros Hr Hl Hc Hruns. destruct (runs_traced ring q c e tr s Hr Hl Hc Hruns) as [_ _ _ (m & _ & Hs & _) Hm Hw He Hcon].
  split; [etrans; [exact Hs|apply sublist_take]|]. split; [by eexists|]. split; [done|]. split; [by eexists|done].
Qed.

(** C11: With a kash that runs between the scan codes nothing is lost: the console
    shows the text of the keys pressed, with the modifiers as they were (one
    byte of set 1 per event, no Pause and no Escape key). *)
Theorem typing_shows_text ring q c e bs :
  redraws → length ring = 128%nat → Console.inv c → escape_code_length c = 0 →
  Forall (λ b, is_byte b ∧ b ≠ 225) bs → 27 ∉ typed_text [] (map code1 bs) →
  ∃ s f, type_all wake bs (boot ring q c e) = Ok s ∧
    con s = set_flags (text_fold c (typed_text [] (map code1 bs))) f ∧
    kb_getmods Q (keyboard s) = mods_spec (map code1 bs).
Proof.
  intros Hr Hl Hc He Hb Hn. pose proof (type_all_ok [] (boot ring q c e) bs Hr (ready_boot ring q c e Hl Hc) Hb) as Ht.
  destruct (echo_plain c e (typed_text [] (map code1 bs)) Hr Hc He Hn) as (f & e' & Hp). cbn [con env boot] in Ht. rewrite Hp in Ht.
  destruct Ht as (s & Hs & Hcon & _ & Hready). exists s, f. split; [done|]. split; [done|]. apply Hready.
Qed.

(** Typing can corrupt the kernel: after Escape and [ the 31st repetition of
    the key 1 is the 33rd byte of the escape sequence, which the console stores
    out of bounds. *)
Theorem typing_overflows_sequence ring q c e :
  redraws → length ring = 128%nat → Console.inv c →
  type_all wake ([1; 26] ++ replicate 31 2) (boot ring q c e) = Fault OutOfBounds.
Proof.
  intros Hr Hl Hc. pose proof (type_all_ok [] (boot ring q c e) ([1; 26] ++ replicate 31 2) Hr (ready_boot ring q c e Hl Hc)) as Ht.
  assert (typed_text [] (map code1 ([1; 26] ++ replicate 31 2)) = [27; 91] ++ replicate 31 49) as E1 by (vm_compute; reflexivity).
  rewrite E1, echo_all_app in Ht. cbn [con env boot] in Ht.
  destruct (echo_escape c e Hr Hc) as (c' & e' & H1 & Hi & H2). rewrite H1 in Ht. cbn [mbind res_bind] in Ht.
  rewrite (echo_digits 30 c' e' Hr Hi) in Ht; [|lia|lia]. apply Ht.
  repeat (constructor; [unfold is_byte; lia|]). constructor.
Qed.

End reachable.

(** ** Examples *)

(** A display that draws nothing, with a log of the serial port. *)
#[local] Instance log_ops : ConsoleOps (list Z) := {|
  op_redraw := λ _ e, Ok e;
  serial_debug_putch := λ ch e, e ++ [ch];
|}.

Definition small_console : console_t := Console 8 2 0 0 7 3 (replicate 32 0) (replicate 32 0) 0 (replicate 16 (Cell 32 7)).

Lemma small_inv : Console.inv small_console.
Proof. by split; cbn; lia. Qed.

Lemma log_redraws : redraws.
Proof. intros c e _. by exists e. Qed.

Definition small_boot : machine unit (list Z) := boot (replicate 128 0) tt small_console [].

(** Two scan codes before kash runs: the first is lost. *)
Lemma lost_key : ∃ s, runs id small_boot ([Emitted 30] ++ [Emitted 48] ++ [Read 48] ++ [Mapped 48 0] ++ [Echoed 98]) s.
Proof.
  eexists. rewrite !(assoc_L (++)). change [Emitted 30] with ([] ++ [Emitted 30]).
  assert (H30 : is_byte 30) by (unfold is_byte; lia). assert (H48 : is_byte 48) by (unfold is_byte; lia).
  eapply runs_snoc; [eapply runs_snoc; [eapply runs_snoc; [eapply runs_snoc; [eapply runs_snoc; [apply runs_nil|]|]|]|]|].
  - match goal with |- step _ ?s _ _ => apply (step_scancode id s 30) end; [exact H30|reflexivity].
  - match goal with |- step _ ?s _ _ => apply (step_scancode id s 48) end; [exact H48|reflexivity].
  - apply step_kash. reflexivity.
  - apply step_kash. reflexivity.
  - apply step_kash. reflexivity.
Qed.

Lemma kash_type_safe_witness :
  ∃ s, runs id small_boot [Emitted 30; Emitted 48; Read 48; Mapped 48 0; Echoed 98] s ∧
    (∀ b, is_byte b → ∃ s', scancode_arrives id b s = Ok s') ∧ Console.inv (con s).
Proof.
  destruct lost_key as [s Hs]. exists s. split; [exact Hs|].
  destruct (kash_type_safe id (replicate 128 0) tt small_console [] [Emitted 30; Emitted 48; Read 48; Mapped 48 0; Echoed 98] s)
    as (H1 & H2 & _); [exact log_redraws|reflexivity|exact small_inv|exact Hs|]. split; [exact H1|exact H2].
Defined.

(** In the run [lost_key] the key 30 is emitted but lost; 48 is read, mapped without
    modifiers and echoed as 'b'. *)
Definition lost_key_trace : list event := [Emitted 30; Emitted 48; Read 48; Mapped 48 0; Echoed 98].

Lemma kash_echoes_typed_keys_witness :
  ∃ s, runs id small_boot lost_key_trace s ∧
    reads lost_key_trace = [48] ∧ emitted lost_key_trace = [30; 48] ∧ echoed lost_key_trace = [98] ∧
    reads lost_key_trace `sublist_of` emitted lost_key_trace ∧
    (mapped_keys lost_key_trace).*1 `prefix_of` reads lost_key_trace ∧
    Forall (λ km, ∃ j, km.2 = mods_spec (take j (emitted lost_key_trace))) (mapped_keys lost_key_trace) ∧
    echoed lost_key_trace `prefix_of` omap (λ km, char_of km.1 km.2) (mapped_keys lost_key_trace) ∧
    echo_all small_console [] (echoed lost_key_trace) = Ok (con s, env s) ∧ env s = [98].
Proof.
  destruct lost_key as [s Hs]. exists s. split; [exact Hs|].
  destruct (kash_echoes_typed_keys id (replicate 128 0) tt small_console [] lost_key_trace s)
    as (H1 & H2 & H3 & H4 & H5); [exact log_redraws|reflexivity|exact small_inv|exact Hs|].
  do 3 (split; [reflexivity|]). split; [exact H1|]. split; [exact H2|]. split; [exact H3|]. split; [exact H4|].
  split; [exact H5|]. vm_compute in H5. injection H5 as _ H5. symmetry. exact H5.
Defined.

(** Shift-H, i: on the screen and on the serial port. *)
Lemma typing_shows_text_witness :
  ∃ s f, type_all id [42; 35; 163; 170; 23; 151] small_boot = Ok s ∧
    con s = set_flags (text_fold small_console [72; 105]) f ∧ kb_getmods unit (keyboard s) = 0.
Proof.
  apply (typing_shows_text id (replicate 128 0) tt small_console [] [42; 35; 163; 170; 23; 151]);
    [exact log_redraws|reflexivity|exact small_inv|reflexivity| |vm_compute; by inversion 1 as [|? ? ? Hx]; inversion Hx as [|? ? ? Hy]; inversion Hy].
  repeat (constructor; [unfold is_byte; lia|]). constructor.
Defined.

Lemma typing_overflows_sequence_witness : type_all id ([1; 26] ++ replicate 31 2) small_boot = Fault OutOfBounds.
Proof.
  apply (typing_overflows_sequence id (replicate 128 0) tt small_console []); [exact log_redraws|reflexivity|exact small_inv].
Defined.
