(* ===== verification/Acpi.v ===== *)
(** The search for the ACPI root pointer and what is printed of it.

    Source: kernel/arch/i386/kernel/acpi/acpi_x86.c and kernel/kernel/acpi/acpi.c.

    The BIOS area is byte memory, mapped at 0xC0000000; [literal] is the address
    of the string "RSD PTR " in the kernel image. *)
From S2P Require Import Prelude CString.

Definition ACPI_VIRTUAL_BASE : Z := 0xC0000000.
Definition ACPI_1_RSDP_LEN : Z := 20.

Definition acpi_virtual_base : Z := ACPI_VIRTUAL_BASE.

Definition search_body (m : mem) (literal offset : Z) : res (ctl Z Z) :=
  if offset <? 0x000FFFFF then
    let rsdp := offset + ACPI_VIRTUAL_BASE in
    r ← Mem.memcmp m rsdp literal 8;
    if r =? 0 then Ok (Break rsdp) else Ok (Continue (offset + 16))
  else Ok (Break 0).

(** [rsdp_desc] after the search, 0 for NULL. *)
Definition acpi_early_init (m : mem) (literal : Z) : res Z := while (Z.to_nat 8193) (search_body m literal) 0x000E0000.

Definition acpi_get_rsdp (rsdp_desc : Z) : Z := rsdp_desc.

Inductive acpi_msg : Type :=
  | Acpi1 (rsdt_address : Z)
  | InvalidChecksum
  | Acpi2 (rsdp : Z).

Definition acpi1_init (m : mem) (rsdp : Z) : res (list acpi_msg) :=
  rsdt_address ← load32 m (rsdp + 16);
  checksum ← for_up (Z.to_nat ACPI_1_RSDP_LEN) 0 (λ i checksum, b ← load8 m (rsdp + i); Ok (u8 (checksum + b))) 0;
  Ok (Acpi1 rsdt_address :: if negb (checksum =? 0) then [InvalidChecksum] else []).

Definition acpi2_init (rsdp : Z) : list acpi_msg := [Acpi2 rsdp].

Definition acpi_init (m : mem) (rsdp_desc : Z) : res (list acpi_msg) :=
  let acpi_rsdp := acpi_get_rsdp rsdp_desc in
  if acpi_rsdp =? 0 then Fault NullDeref
  else
    revision ← load8 m (acpi_rsdp + 15);
    if revision =? 0 then acpi1_init m acpi_rsdp else Ok (acpi2_init acpi_rsdp).

(** ** The structure of acpi.h *)

Record rsdp_desc_t : Type := Rsdp {
  rsdp_signature : list Z;
  rsdp_checksum : Z;
  rsdp_oemid : list Z;
  rsdp_revision : Z;
  rsdt_address : Z;
}.

(** Its 20 bytes: the structure is packed. *)
Definition encode_rsdp (d : rsdp_desc_t) : list Z :=
  rsdp_signature d ++ le_put 1 (rsdp_checksum d) ++ rsdp_oemid d ++ le_put 1 (rsdp_revision d) ++ le_put 4 (rsdt_address d).

Record rsdp_ok (d : rsdp_desc_t) : Prop := {
  rk_signature : length (rsdp_signature d) = 8%nat ∧ Forall is_byte (rsdp_signature d);
  rk_checksum : is_byte (rsdp_checksum d);
  rk_oemid : length (rsdp_oemid d) = 6%nat ∧ Forall is_byte (rsdp_oemid d);
  rk_revision : is_byte (rsdp_revision d);
  rk_address : 0 ≤ rsdt_address d < 4294967296;
}.

(** ** The search *)

Definition signature : list Z := [82; 83; 68; 32; 80; 84; 82; 32].

(** The signature is at [a]. *)
Definition signed (m : mem) (a : Z) : Prop := Mem.bytes_at m a signature.

Lemma bytes_of_mapped m p n :
  mapped m p (Z.of_nat n) → ∃ l, length l = n ∧ Mem.bytes_at m p l.
Proof.
  revert p. induction n as [|n IH]; intros p Hm.
  - exists []. split; [done|]. intros [|i] x; done.
  - destruct (Hm 0) as [b Hb]; [lia|]. rewrite Z.add_0_r in Hb. destruct (IH (p + 1)) as (l & Hl & Hat).
    { eapply mapped_sub; [exact Hm|lia|lia]. }
    exists (b :: l). split; [cbn; lia|]. intros [|i] x; cbn [lookup list_lookup].
    + intros [= <-]. by replace (p + Z.of_nat 0) with p by lia.
    + intros Hx. replace (p + Z.of_nat (S i)) with (p + 1 + Z.of_nat i) by lia. by apply Hat.
Qed.

Lemma bytes_at_inj m a l l' : length l = length l' → Mem.bytes_at m a l → Mem.bytes_at m a l' → l = l'.
Proof.
  intros Hl H1 H2. apply list_eq_same_length with (length l); [done|done|]. intros i x y Hi Hx Hy.
  pose proof (H1 i x Hx) as E1. pose proof (H2 i y Hy) as E2. congruence.
Qed.

Lemma bytes_cmp_zero l l' : length l = length l' → Mem.bytes_cmp l l' = 0 ↔ l = l'.
Proof.
  revert l'. induction l as [|x l IH]; intros [|y l'] Hl; try done. cbn in *.
  destruct (Z.ltb_spec x y); [split; [done|intros [= ? ?]; lia]|].
  destruct (Z.ltb_spec y x); [split; [done|intros [= ? ?]; lia]|].
  rewrite IH by lia. split; [intros ->; f_equal; lia|by intros [= _ ->]].
Qed.

(** One comparison. *)
Lemma compare_ok m literal a :
  mapped m a 8 → Mem.bytes_at m literal signature →
  ∃ r, Mem.memcmp m a literal 8 = Ok r ∧ (r = 0 ↔ signed m a).
Proof.
  intros Hm Hlit. destruct (bytes_of_mapped m a 8 Hm) as (l & Hl & Hat).
  pose proof (Mem.memcmp_lexicographic m a literal l signature) as Hc. rewrite Hl in Hc.
  exists (Mem.bytes_cmp l signature). split; [by apply Hc|]. rewrite bytes_cmp_zero by done. split.
  - by intros ->.
  - intros Hs. by eapply bytes_at_inj.
Qed.

Definition candidates : list Z := map (λ k, 0xC00E0000 + 16 * k) (seqZ 0 8192).

Lemma search_from m literal fuel k :
  mapped m 0xC00E0000 0x20000 → Mem.bytes_at m literal signature → 0 ≤ k ≤ 8192 → (Z.to_nat (8192 - k) < fuel)%nat →
  ∃ p, while fuel (search_body m literal) (0x000E0000 + 16 * k) = Ok p ∧
    ((p = 0 ∧ ∀ j, k ≤ j < 8192 → ¬ signed m (0xC00E0000 + 16 * j)) ∨
     ∃ j, k ≤ j < 8192 ∧ p = 0xC00E0000 + 16 * j ∧ signed m p ∧ ∀ i, k ≤ i < j → ¬ signed m (0xC00E0000 + 16 * i)).
Proof.
  intros Hm Hlit. revert k. induction fuel as [|fuel IH]; intros k Hk Hf; [lia|]. cbn [while].
  destruct (decide (k = 8192)) as [->|].
  { exists 0. split; [done|]. left. split; [done|lia]. }
  destruct (compare_ok m literal (0xC00E0000 + 16 * k)) as (r & Hr & Hs); [|done|].
  { eapply mapped_sub; [exact Hm|lia|lia]. }
  assert (Hbody : search_body m literal (0x000E0000 + 16 * k)
    = if r =? 0 then Ok (Break (0xC00E0000 + 16 * k)) else Ok (Continue (0x000E0000 + 16 * (k + 1)))).
  { unfold search_body. rewrite (proj2 (Z.ltb_lt _ _)) by lia. cbv zeta. unfold ACPI_VIRTUAL_BASE.
    replace (917504 + 16 * k + 3221225472) with (3222142976 + 16 * k) by lia. rewrite Hr. cbn [mbind res_bind].
    by replace (917504 + 16 * k + 16) with (917504 + 16 * (k + 1)) by lia. }
  rewrite Hbody. destruct (Z.eqb_spec r 0) as [E|E]; cbn [mbind res_bind].
  - exists (0xC00E0000 + 16 * k). split; [done|]. right. exists k. split; [lia|]. split; [done|]. split; [by apply Hs|lia].
  - destruct (IH (k + 1)) as (p & -> & Hp); [lia|lia|]. exists p. split; [done|].
    assert (Hk' : ¬ signed m (0xC00E0000 + 16 * k)) by tauto.
    destruct Hp as [[-> Hp]|(j & Hj & -> & Hsj & Hp)]; [left|right].
    + split; [done|]. intros j Hj. destruct (decide (j = k)) as [->|]; [done|]. apply Hp. lia.
    + exists j. split; [lia|]. split; [done|]. split; [done|]. intros i Hi. destruct (decide (i = k)) as [->|]; [done|]. apply Hp. lia.
Qed.

(** ** The report *)

Definition sum_bytes (l : list Z) : Z := foldr Z.add 0 l.

Lemma checksum_ok m p l i c :
  Mem.bytes_at m (p + i) l → 0 ≤ c < 256 →
  for_up (length l) i (λ i checksum, b ← load8 m (p + i); Ok (u8 (checksum + b))) c = Ok (u8 (c + sum_bytes l)).
Proof.
  revert i c. induction l as [|x l IH]; intros i c Hat Hc; cbn [length for_up sum_bytes foldr].
  - by rewrite Z.add_0_r, u8_small.
  - pose proof (Hat 0%nat x eq_refl) as Hx. rewrite Z.add_0_r in Hx. rewrite (proj2 (load8_Ok _ _ _) Hx). cbn [mbind res_bind].
    rewrite IH; [|rewrite Z.add_assoc; by eapply Mem.bytes_at_tail|apply u8_range]. f_equal. unfold u8, sum_bytes. 
    rewrite Zplus_mod_idemp_l. f_equal. lia.
Qed.

Ltac by_bytes := repeat (apply Forall_cons; split; [done|]); by apply Forall_nil.

(** Any 20 bytes are a structure. *)
Lemma decode_rsdp l : length l = 20%nat → Forall is_byte l → ∃ d, rsdp_ok d ∧ encode_rsdp d = l.
Proof.
  intros Hl Hb. do 20 (destruct l as [|? l]; [done|]). destruct l; [|done]. repeat (apply Forall_cons in Hb as [? Hb]).
  match goal with |- context [encode_rsdp _ = [?x0; ?x1; ?x2; ?x3; ?x4; ?x5; ?x6; ?x7; ?c; ?o0; ?o1; ?o2; ?o3; ?o4; ?o5; ?r; ?a0; ?a1; ?a2; ?a3]] =>
    exists (Rsdp [x0; x1; x2; x3; x4; x5; x6; x7] c [o0; o1; o2; o3; o4; o5] r (le_get [a0; a1; a2; a3]));
    assert (Ha : le_put 4 (le_get [a0; a1; a2; a3]) = [a0; a1; a2; a3]) by (apply (le_put_get [a0; a1; a2; a3]); by_bytes)
  end.
  split.
  - split; cbn [rsdp_signature rsdp_checksum rsdp_oemid rsdp_revision rsdt_address le_get];
      [split; [done|by_bytes]|done|split; [done|by_bytes]|done|unfold is_byte in *; lia].
  - unfold encode_rsdp. cbn [rsdp_signature rsdp_checksum rsdp_oemid rsdp_revision rsdt_address]. rewrite Ha.
    cbn [le_put app]. unfold is_byte in *. by rewrite !Z.mod_small.
Qed.

(** Its fields, read where the code reads them. *)
Lemma rsdp_fields m p d :
  Mem.bytes_at m p (encode_rsdp d) → rsdp_ok d →
  load8 m (p + 15) = Ok (rsdp_revision d) ∧ load32 m (p + 16) = Ok (rsdt_address d) ∧ length (encode_rsdp d) = 20%nat.
Proof.
  intros Hat [[Hs _] _ [Ho _] Hr Ha]. unfold encode_rsdp in *. destruct d as [sg c o r a]. cbn [rsdp_signature rsdp_checksum rsdp_oemid rsdp_revision rsdt_address] in *.
  do 8 (destruct sg as [|? sg]; [done|]). destruct sg; [|done]. do 6 (destruct o as [|? o]; [done|]). destruct o; [|done].
  cbn [le_put app] in *. unfold is_byte in Hr.
  pose proof (λ i x Hi, proj2 (load8_Ok m _ x) (Hat i x Hi)) as Hb.
  split; [|split; [|done]].
  - change (p + 15) with (p + Z.of_nat 15). rewrite (Hb 15%nat (r mod 256) eq_refl). by rewrite Z.mod_small.
  - unfold load32. pose proof (Hb 16%nat _ eq_refl) as B0. pose proof (Hb 17%nat _ eq_refl) as B1.
    pose proof (Hb 18%nat _ eq_refl) as B2. pose proof (Hb 19%nat _ eq_refl) as B3.
    replace (p + 16 + 1) with (p + Z.of_nat 17) by lia. replace (p + 16 + 2) with (p + Z.of_nat 18) by lia.
    replace (p + 16 + 3) with (p + Z.of_nat 19) by lia. change 16 with (Z.of_nat 16). rewrite B0, B1, B2, B3. cbn [mbind res_bind].
    f_equal. pose proof (le_get_put 4 a) as E. cbn [le_put] in E. rewrite E. apply Z.mod_small. exact Ha.
Qed.

(** The report of a structure in memory. *)
Lemma acpi_init_ok m p d :
  p ≠ 0 → Mem.bytes_at m p (encode_rsdp d) → rsdp_ok d →
  acpi_init m p = Ok (if rsdp_revision d =? 0
                      then Acpi1 (rsdt_address d) :: (if sum_bytes (encode_rsdp d) mod 256 =? 0 then [] else [InvalidChecksum])
                      else [Acpi2 p]).
Proof.
  intros Hp Hat Hd. destruct (rsdp_fields m p d Hat Hd) as (Hrev & Haddr & Hl).
  unfold acpi_init, acpi_get_rsdp. cbv zeta. rewrite (proj2 (Z.eqb_neq p 0)) by done. rewrite Hrev. cbn [mbind res_bind].
  destruct (rsdp_revision d =? 0); [|done]. unfold acpi1_init. rewrite Haddr. cbn [mbind res_bind].
  change (Z.to_nat ACPI_1_RSDP_LEN) with 20%nat. rewrite <- Hl, (checksum_ok m p _ 0 0) by (done || (rewrite ?Z.add_0_r; done)).
  cbn [mbind res_bind]. unfold u8. rewrite Z.add_0_l. by destruct (sum_bytes _ mod 256 =? 0).
Qed.

(** ** Properties *)

(** C30: The search through the BIOS area ends with the lowest 16-byte aligned
    address that holds the signature, or NULL when there is none.  What lies there is
    a structure of acpi.h, and [acpi_init] reports its table, with a warning exactly
    when the 20 bytes of an ACPI 1.0 structure do not sum to 0 modulo 256.  Without a
    table it reads through the NULL pointer. *)
Theorem acpi_finds_root_pointer m literal :
  mapped m 0xC00E0000 0x20000 → mapped m 0xC0100000 32 → (∀ a b, m !! a = Some b → is_byte b) → Mem.bytes_at m literal signature →
  ∃ p, acpi_early_init m literal = Ok p ∧
    ((p = 0 ∧ (∀ j, 0 ≤ j < 8192 → ¬ signed m (0xC00E0000 + 16 * j)) ∧ acpi_init m p = Fault NullDeref) ∨
     ∃ j d, 0 ≤ j < 8192 ∧ p = 0xC00E0000 + 16 * j ∧ (∀ i, 0 ≤ i < j → ¬ signed m (0xC00E0000 + 16 * i)) ∧
       rsdp_ok d ∧ rsdp_signature d = signature ∧ Mem.bytes_at m p (encode_rsdp d) ∧
       acpi_init m p = Ok (if rsdp_revision d =? 0
                           then Acpi1 (rsdt_address d) :: (if sum_bytes (encode_rsdp d) mod 256 =? 0 then [] else [InvalidChecksum])
                           else [Acpi2 p])).
Proof.
  intros Hm Hm2 Hbyte Hlit. destruct (search_from m literal (Z.to_nat 8193) 0 Hm Hlit) as (p & Hp & Hcase); [lia|lia|].
  exists p. split; [exact Hp|]. destruct Hcase as [[-> Hn]|(j & Hj & Ep & Hs & Hfirst)]; [left; done|right].
  assert (Hmp : mapped m p 20).
  { intros i Hi. destruct (decide (p + i < 0xC0100000)).
    - replace (p + i) with (0xC00E0000 + (p + i - 0xC00E0000)) by lia. apply Hm. lia.
    - replace (p + i) with (0xC0100000 + (p + i - 0xC0100000)) by lia. apply Hm2. lia. }
  destruct (bytes_of_mapped m p 20 Hmp) as (l & Hl & Hat).
  destruct (decode_rsdp l Hl) as (d & Hd & <-).
  { apply Forall_lookup. intros i x Hx. eapply Hbyte. by apply Hat. }
  exists j, d. do 4 (split; [done|]). split; [|split; [done|by apply acpi_init_ok; [lia|..]]].
  pose proof (rk_signature d Hd) as [H8 _]. apply list_eq_same_length with 8%nat; [done|done|].
  intros i x y Hi Hx Hy. assert (Hx' : encode_rsdp d !! i = Some x) by (by apply lookup_app_l_Some).
  apply Hat in Hx'. apply Hs in Hy. congruence.
Qed.

(** A BIOS area of zeros with the structure of an ACPI 1.0 machine at 0xF5AD0. *)
Definition ex_rsdp : list Z := signature ++ [0x9C; 66; 79; 67; 72; 83; 32; 0; 0xE4; 0x14; 0xFE; 0x07].
Definition ex_area : mem := gset_to_gmap 0 (list_to_set (seqZ 0xC00E0000 0x20020)).
Definition ex_put (a : Z) (l : list Z) (m : mem) : mem := foldr (λ ib m, <[ib.1 := ib.2]> m) m (zip (seqZ a (Z.of_nat (length l))) l).
Definition ex_bios : mem := ex_put 0xC0200000 signature (ex_put 0xC00F5AD0 ex_rsdp ex_area).

Lemma ex_put_mapped a l m p n : mapped m p n → mapped (ex_put a l m) p n.
Proof.
  intros Hm. unfold ex_put. induction (zip _ l) as [|[i b] q IH]; [done|]. cbn [foldr]. by apply mapped_insert.
Qed.

Lemma ex_area_mapped : mapped ex_area 0xC00E0000 0x20020.
Proof.
  intros i Hi. exists 0. unfold ex_area. apply lookup_gset_to_gmap_Some. split; [|done].
  apply elem_of_list_to_set, elem_of_seqZ. lia.
Qed.

Lemma ex_put_at a l m : Mem.bytes_at (ex_put a l m) a l.
Proof.
  revert a. induction l as [|x l IH]; intros a i y Hy; [done|].
  assert (E : ex_put a (x :: l) m = <[a := x]> (ex_put (a + 1) l m)).
  { unfold ex_put. cbn [length]. rewrite Nat2Z.inj_succ, seqZ_cons by lia. cbn [zip foldr].
    by rewrite Z.add_1_r, Z.pred_succ. }
  rewrite E. destruct i as [|i]; cbn in Hy.
  - injection Hy as ->. replace (a + Z.of_nat 0) with a by lia. apply lookup_insert_eq.
  - rewrite lookup_insert_ne by lia. replace (a + Z.of_nat (S i)) with (a + 1 + Z.of_nat i) by lia. by apply IH.
Qed.

Lemma ex_put_byte a l m : Forall is_byte l → (∀ x b, m !! x = Some b → is_byte b) → ∀ x b, ex_put a l m !! x = Some b → is_byte b.
Proof.
  intros Hl Hm. unfold ex_put. assert (Hz : Forall (λ ib, is_byte ib.2) (zip (seqZ a (Z.of_nat (length l))) l)).
  { generalize (seqZ a (Z.of_nat (length l))). intros q. revert q. induction Hl as [|y l Hy Hl IH]; intros [|z q]; cbn [zip]; [apply Forall_nil; exact I..|].
    apply Forall_cons. split; [done|apply IH]. }
  induction Hz as [|[i y] q Hy Hz IH]; [done|]. cbn [foldr fst snd]. intros x b. destruct (decide (i = x)) as [->|].
  - rewrite lookup_insert_eq. by intros [= <-].
  - rewrite lookup_insert_ne by done. apply IH.
Qed.

Lemma ex_area_byte (X : gset Z) x b : gset_to_gmap 0 X !! x = Some b → is_byte b.
Proof. intros [_ <-]%lookup_gset_to_gmap_Some. unfold is_byte. lia. Qed.

(** What the kernel of the example prints: the table, and no warning. *)
Lemma acpi_finds_root_pointer_witness :
  ∃ p, acpi_early_init ex_bios 0xC0200000 = Ok p ∧ (p ≠ 0 →
     ∃ j d, 0 ≤ j < 8192 ∧ p = 0xC00E0000 + 16 * j ∧ rsdp_signature d = signature ∧
       acpi_init ex_bios p = Ok (if rsdp_revision d =? 0
                           then Acpi1 (rsdt_address d) :: (if sum_bytes (encode_rsdp d) mod 256 =? 0 then [] else [InvalidChecksum])
                           else [Acpi2 p])).
Proof.
  destruct (acpi_finds_root_pointer ex_bios 0xC0200000) as (p & Hp & [[-> _]|(j & d & Hj & Ep & _ & _ & Hs & _ & Hi)]).
  - do 2 apply ex_put_mapped. eapply mapped_sub; [exact ex_area_mapped|lia|lia].
  - do 2 apply ex_put_mapped. eapply mapped_sub; [exact ex_area_mapped|lia|lia].
  - apply ex_put_byte; [repeat constructor; unfold is_byte; lia|]. apply ex_put_byte; [repeat constructor; unfold is_byte; lia|].
    unfold ex_area. exact (ex_area_byte _).
  - apply ex_put_at.
  - exists 0. split; [exact Hp|]. intros Hn. by destruct Hn.
  - exists p. split; [exact Hp|]. intros _. exists j, d. split; [exact Hj|]. split; [exact Ep|]. split; [exact Hs|exact Hi].
Defined.
