(* ===== verification/Interrupts.v ===== *)
(** Interrupts: the pair of interrupt controllers, the interrupt descriptor table
    and the dispatch of interrupts to their handlers.

    Source: kernel/arch/i386/include/kernel/irq/pic.h, kernel/arch/i386/kernel/irq/pic.c
    and irq.c.

    The controllers are reached through the class [Ports]; [pics] is the device
    that the 8259A data sheet documents, as far as the kernel drives it, and an
    instance of that class.  The entry stubs of irq.c, which call
    [irqfunc], [intfunc] or [intfunc_err] with their number, are in IrqStubs.v;
    here their addresses are parameters. *)
From S2P Require Import Prelude Ports.

Definition PIC1 : Z := 0x20.
Definition PIC2 : Z := 0xA0.
Definition PIC1_COMMAND : Z := PIC1.
Definition PIC1_DATA : Z := PIC1 + 1.
Definition PIC2_COMMAND : Z := PIC2.
Definition PIC2_DATA : Z := PIC2 + 1.
Definition PIC_EOI : Z := 0x20.
Definition ICW1_ICW4 : Z := 0x01.
Definition ICW1_INIT : Z := 0x10.
Definition ICW4_8086 : Z := 0x01.

Section pic.
Context {P : Type} `{Ports P}.

Definition pic_init (pic1 pic2 : Z) (s : P) : P :=
  let s := outb_p PIC1_COMMAND (ICW1_INIT + ICW1_ICW4) s in
  let s := outb_p PIC2_COMMAND (ICW1_INIT + ICW1_ICW4) s in
  let s := outb_p PIC1_DATA pic1 s in
  let s := outb_p PIC2_DATA pic2 s in
  let s := outb_p PIC1_DATA 4 s in
  let s := outb_p PIC2_DATA 2 s in
  let s := outb_p PIC1_DATA ICW4_8086 s in
  outb_p PIC2_DATA ICW4_8086 s.

Definition pic_eoi (irq : Z) (s : P) : P :=
  let s := if 8 <=? irq then outb_p PIC2_COMMAND PIC_EOI s else s in
  outb_p PIC1_COMMAND PIC_EOI s.

Definition pic_eoi_spurious (irq : Z) (s : P) : P := s.

(** [1 << irq], which C defines for the shifts from 0 to 30. *)
Definition bit (irq : Z) : res Z :=
  if irq <? 31 then Ok (Z.shiftl 1 irq) else Fault SignedOverflow.

Definition pic_setirqmask (irq : Z) (s : P) : res P :=
  let '(port, irq) := if irq <? 8 then (PIC1_DATA, irq) else (PIC2_DATA, irq - 8) in
  let '(v, s) := inb_p port s in
  b ← bit irq;
  let value := u8 (Z.lor v b) in
  Ok (outb_p port value s).

Definition pic_clrirqmask (irq : Z) (s : P) : res P :=
  let '(port, irq) := if irq <? 8 then (PIC1_DATA, irq) else (PIC2_DATA, irq - 8) in
  let '(v, s) := inb_p port s in
  b ← bit irq;
  let value := u16 (Z.land v (Z.lnot b)) in
  Ok (outb_p port (u8 value) s).

End pic.

(** ** The handlers *)

Inductive irq_handler : Set := timer_handler | keyboard_handler | serial_handler.

(** The handlers of the exceptions and of the system call; each returns NULL. *)
Inductive int_handler : Set :=
  | div0_handler | debug_handler | nmi_handler | int3_handler | int4_handler
  | bounds_handler | invalid_opcode_handler | nofpu_handler | fpuseg_handler | fpuerr_handler
  | double_fault_handler | invalid_tss_handler | segnp_handler | stackflt_handler | gpf_handler
  | pauge_fault_handler | syscall_handler.

Definition run_int {K : Type} (h : int_handler) (k : K) : Z * K := (0, k).

(** ** The tables *)

(** A gate, as the structure of irq.c. *)
Record idt_entry : Type := IdtEntry {
  base_lo : Z;
  selector : Z;
  zero : Z;
  type : Z;
  base_hi : Z;
}.

(** The packed structure as the 64-bit word of the table. *)
Definition idt_word (e : idt_entry) : Z :=
  base_lo e + 65536 * (selector e + 65536 * (zero e + 256 * (type e + 256 * base_hi e))).

Record tables : Type := Tables {
  idt : list Z;
  irqfuncs : list (option irq_handler);
  intfuncs : list (option int_handler);
  intfuncs_err : list (option int_handler);
  idtr : Z * Z;
}.

Definition idt_fill (idt : list Z) (i sel offset ty prv_level : Z) : res (list Z) :=
  aset idt i (idt_word (IdtEntry (Z.land offset 0x0000FFFF) sel 0 0x8e (Z.shiftr (Z.land offset 0xFFFF0000) 16))).

Section dispatch.
(** The machine with its devices, and what the three real handlers do to it. *)
Context {K : Type} `{Ports K}.
Variable run : irq_handler → K → res (Z * K).

Definition taskswitch (stack : Z) (k : K) : K := k.

Definition irqfunc (t : tables) (irqnum : Z) (k : K) : res K :=
  if negb (irqnum =? 7) then
    f ← aget (irqfuncs t) irqnum;
    '(stack, k) ← (match f with Some h => run h k | None => Ok (0, k) end);
    let k := pic_eoi irqnum k in
    Ok (if negb (stack =? 0) then taskswitch stack k else k)
  else Ok (pic_eoi_spurious irqnum k).

Definition intfunc (t : tables) (intnum : Z) (k : K) : res K :=
  f ← aget (intfuncs t) intnum;
  let '(stack, k) := match f with Some h => run_int h k | None => (0, k) end in
  Ok (if negb (stack =? 0) then taskswitch stack k else k).

Definition intfunc_err (t : tables) (intnum : Z) (errcode : Z) (k : K) : res K :=
  f ← aget (intfuncs_err t) intnum;
  let '(stack, k) := match f with Some h => run_int h k | None => (0, k) end in
  Ok (if negb (stack =? 0) then taskswitch stack k else k).

End dispatch.

(** ** Initialisation *)

Section init.
(** The addresses of the entry stubs, and of the table. *)
Variables irq_stub int_stub : Z → Z.
Variable idt_address : Z.

Definition fill_gate (stub : Z → Z) (base prv : Z) (n : Z) (idt : list Z) : res (list Z) :=
  idt_fill idt (base + n) 8 (stub n) 0xe prv.

(** The exceptions with a stub. *)
Definition exceptions : list Z := [0; 1; 2; 3; 4; 5; 6; 7; 8; 9; 10; 11; 12; 13; 14; 16].

Fixpoint fill_gates (stub : Z → Z) (base prv : Z) (ns : list Z) (idt : list Z) : res (list Z) :=
  match ns with
  | [] => Ok idt
  | n :: ns => idt ← fill_gate stub base prv n idt; fill_gates stub base prv ns idt
  end.

Definition set_handler {H : Type} (n : nat) (h : H) (fs : list (option H)) : list (option H) := <[n := Some h]> fs.

(** [memset] clears the 256, 16, 32 and 256 entries, whatever they were. *)
Definition irq_init (t : tables) : res tables :=
  let intfuncs := replicate 256 None in
  let irqfuncs := replicate 16 None in
  let intfuncs_err := replicate 32 None in
  let idt := replicate 256 0 in
  let irqfuncs := set_handler 0 timer_handler irqfuncs in
  let irqfuncs := set_handler 1 keyboard_handler irqfuncs in
  let irqfuncs := set_handler 4 serial_handler irqfuncs in
  let intfuncs := set_handler 0 div0_handler intfuncs in
  let intfuncs := set_handler 1 debug_handler intfuncs in
  let intfuncs := set_handler 2 nmi_handler intfuncs in
  let intfuncs := set_handler 3 int3_handler intfuncs in
  let intfuncs := set_handler 4 int4_handler intfuncs in
  let intfuncs := set_handler 5 bounds_handler intfuncs in
  let intfuncs := set_handler 6 invalid_opcode_handler intfuncs in
  let intfuncs := set_handler 7 nofpu_handler intfuncs in
  let intfuncs := set_handler 9 fpuseg_handler intfuncs in
  let intfuncs := set_handler 16 fpuerr_handler intfuncs in
  let intfuncs_err := set_handler 8 double_fault_handler intfuncs_err in
  let intfuncs_err := set_handler 10 invalid_tss_handler intfuncs_err in
  let intfuncs_err := set_handler 11 segnp_handler intfuncs_err in
  let intfuncs_err := set_handler 12 stackflt_handler intfuncs_err in
  let intfuncs_err := set_handler 13 gpf_handler intfuncs_err in
  let intfuncs_err := set_handler 14 pauge_fault_handler intfuncs_err in
  let intfuncs := set_handler 0x80 syscall_handler intfuncs in
  idt ← fill_gates irq_stub 32 0 (seqZ 0 16) idt;
  idt ← fill_gates int_stub 0 0 exceptions idt;
  idt ← fill_gates int_stub 0 3 [0x80] idt;
  Ok (Tables idt irqfuncs intfuncs intfuncs_err (2048, idt_address)).

End init.

(** ** The controllers *)

(** One 8259A: what it expects at its data port, the base of its vectors, its
    mask and the interrupts in service, one bit each. *)
Inductive pic_step : Set := Ready | Icw2 | Icw3 | Icw4.

Record pic8259 : Set := Pic8259 { step : pic_step; vector : Z; imr : Z; isr : Z }.

(** The command port: ICW1 (bit 4) starts the initialisation and clears the
    mask; the non-specific end of interrupt clears the in-service bit of the
    highest priority, the lowest bit. *)
Definition pic_command (v : Z) (c : pic8259) : pic8259 :=
  if Z.testbit v 4 then Pic8259 Icw2 (vector c) 0 0
  else if v =? 0x20 then Pic8259 (step c) (vector c) (imr c) (Z.land (isr c) (isr c - 1))
  else c.

(** The data port: the rest of the initialisation, or the mask. *)
Definition pic_data (v : Z) (c : pic8259) : pic8259 :=
  match step c with
  | Ready => Pic8259 Ready (vector c) v (isr c)
  | Icw2 => Pic8259 Icw3 (Z.land v 0xF8) (imr c) (isr c)
  | Icw3 => Pic8259 Icw4 (vector c) (imr c) (isr c)
  | Icw4 => Pic8259 Ready (vector c) (imr c) (isr c)
  end.

(** The pair, the slave at input 2 of the master. *)
Record pics : Set := Pics { master : pic8259; slave : pic8259 }.

Definition pics_out (port v : Z) (s : pics) : pics :=
  if port =? 0x20 then Pics (pic_command v (master s)) (slave s)
  else if port =? 0x21 then Pics (pic_data v (master s)) (slave s)
  else if port =? 0xA0 then Pics (master s) (pic_command v (slave s))
  else if port =? 0xA1 then Pics (master s) (pic_data v (slave s))
  else s.

Definition pics_in (port : Z) (s : pics) : Z * pics :=
  (if port =? 0x21 then imr (master s) else if port =? 0xA1 then imr (slave s) else 0, s).

(** The kernel drives the controllers with byte accesses only. *)
#[export] Instance pics_ports : Ports pics := {|
  outb := pics_out; outw := λ _ _ s, s; outl := λ _ _ s, s;
  inb := pics_in; inw := λ _ s, (0, s); inl := λ _ s, (0, s);
|}.

(** The vector of an interrupt request, and the state after the processor
    accepts it. *)
Definition irq_vector (s : pics) (n : Z) : Z :=
  if n <? 8 then vector (master s) + n else vector (slave s) + (n - 8).

Definition in_service (n : Z) (c : pic8259) : pic8259 := Pic8259 (step c) (vector c) (imr c) (Z.lor (isr c) (2 ^ n)).

Definition pics_accept (n : Z) (s : pics) : pics :=
  if n <? 8 then Pics (in_service n (master s)) (slave s)
  else Pics (in_service 2 (master s)) (in_service (n - 8) (slave s)).

(** No interrupt of the same or a higher priority is in service. *)
Definition idle_at (n : Z) (c : pic8259) : Prop := ∀ j, 0 ≤ j ≤ n → Z.testbit (isr c) j = false.

(** The controllers can deliver request [n]. *)
Definition acceptable (n : Z) (s : pics) : Prop :=
  if n <? 8 then idle_at n (master s) else idle_at 2 (master s) ∧ idle_at (n - 8) (slave s).

(** How the processor reads a gate. *)
Definition gate_offset (w : Z) : Z := w mod 65536 + 65536 * (w / 281474976710656 mod 65536).
Definition gate_selector (w : Z) : Z := w / 65536 mod 65536.
Definition gate_kind (w : Z) : Z := w / 1099511627776 mod 16.
Definition gate_dpl (w : Z) : Z := w / 35184372088832 mod 4.
Definition gate_present (w : Z) : bool := Z.testbit w 47.

(** ** End of interrupt *)

Lemma idle_shift n y :
  0 ≤ n → (∀ j, 0 ≤ j ≤ n → Z.testbit y j = false) → y = Z.shiftl (Z.shiftr y (n + 1)) (n + 1).
Proof.
  intros Hn Hy. apply Z.bits_inj'. intros j Hj. rewrite Z.shiftl_spec by lia.
  destruct (decide (j ≤ n)) as [Hle|Hgt]; [rewrite (Z.testbit_neg_r _ (j - (n + 1))) by lia; apply Hy; lia|].
  rewrite Z.shiftr_spec by lia. f_equal. lia.
Qed.

(** Clearing the lowest bit of [y] with bit [n] added below all others. *)
Lemma clear_lowest n y :
  0 ≤ n → (∀ j, 0 ≤ j ≤ n → Z.testbit y j = false) → Z.land (Z.lor y (2 ^ n)) (Z.lor y (2 ^ n) - 1) = y.
Proof.
  intros Hn Hy. pose proof (idle_shift n y Hn Hy) as He. set (q := Z.shiftr y (n + 1)) in *.
  rewrite Z.shiftl_mul_pow2 in He by lia.
  assert (Hp : 0 < 2 ^ n) by (apply Z.pow_pos_nonneg; lia).
  assert (Hp1 : 2 ^ (n + 1) = 2 * 2 ^ n) by (rewrite Z.pow_add_r by lia; lia).
  assert (Ha : Z.lor y (2 ^ n) = y + 2 ^ n) by (rewrite He; apply lor_low; lia).
  assert (Hb : y + 2 ^ n - 1 = Z.lor y (Z.ones n)).
  { rewrite Z.ones_equiv, He, lor_low by lia. lia. }
  rewrite Ha, Hb, <- Ha. apply Z.bits_inj'. intros j Hj. rewrite Z.land_spec, !Z.lor_spec, Z.pow2_bits_eqb by lia.
  destruct (decide (n ≤ j)) as [Hle|Hlt].
  - rewrite (Z.ones_spec_high n j) by lia. destruct (Z.eqb_spec n j) as [<-|]; [rewrite (Hy n) by lia; done|]. by destruct (Z.testbit y j).
  - rewrite (Hy j) by lia. by rewrite (proj2 (Z.eqb_neq n j)) by lia.
Qed.

Lemma eoi_in_service n c : 0 ≤ n → idle_at n c → pic_command 0x20 (in_service n c) = c.
Proof.
  intros Hn Hi. unfold pic_command, in_service. change (Z.testbit 0x20 4) with false. change (0x20 =? 0x20) with true.
  cbn [step vector imr isr]. rewrite clear_lowest by done. by destruct c.
Qed.

Lemma pic_eoi_accept n (s : pics) : 0 ≤ n < 16 → acceptable n s → pic_eoi n (pics_accept n s) = s.
Proof.
  intros Hn. unfold acceptable, pics_accept, pic_eoi.
  destruct (Z.ltb_spec n 8) as [Hlt|Hge]; destruct (Z.leb_spec 8 n); try lia.
  - intros Hi. change (Pics (pic_command 0x20 (in_service n (master s))) (slave s) = s).
    rewrite eoi_in_service by (done || lia). by destruct s.
  - intros [Hm Hs]. change (Pics (pic_command 0x20 (in_service 2 (master s))) (pic_command 0x20 (in_service (n - 8) (slave s))) = s).
    rewrite (eoi_in_service 2), (eoi_in_service (n - 8)) by (done || lia). by destruct s.
Qed.

(** The machine of a controller pair and other devices. *)
#[export] Instance fst_ports {P D : Type} `{Ports P} : Ports (P * D) := {|
  outb := λ port v k, (outb port v k.1, k.2); outw := λ port v k, (outw port v k.1, k.2);
  outl := λ port v k, (outl port v k.1, k.2);
  inb := λ port k, let '(v, p) := inb port k.1 in (v, (p, k.2));
  inw := λ port k, let '(v, p) := inw port k.1 in (v, (p, k.2));
  inl := λ port k, let '(v, p) := inl port k.1 in (v, (p, k.2));
|}.

Lemma pic_eoi_fst {D : Type} n (p : pics) (d : D) : pic_eoi n (p, d) = (pic_eoi n p, d).
Proof. unfold pic_eoi. by destruct (8 <=? n). Qed.

(** ** Gates *)

Definition gate_word (a : Z) : Z :=
  idt_word (IdtEntry (Z.land a 0x0000FFFF) 8 0 0x8e (Z.shiftr (Z.land a 0xFFFF0000) 16)).

Lemma gate_word_eq a :
  0 ≤ a < 4294967296 → gate_word a = a mod 65536 + 65536 * (8 + 65536 * (256 * (142 + 256 * (a / 65536)))).
Proof.
  intros Ha. unfold gate_word, idt_word. cbn [base_lo selector zero type base_hi].
  change 0x0000FFFF with (Z.ones 16). rewrite Z.land_ones by lia. change (2 ^ 16) with 65536.
  assert (Z.shiftr (Z.land a 0xFFFF0000) 16 = a / 65536) as ->.
  { change 0xFFFF0000 with (Z.shiftl (Z.ones 16) 16). rewrite Z.shiftr_land, Z.shiftr_shiftl_l by lia.
    rewrite Z.sub_diag, Z.shiftl_0_r, Z.land_ones, Z.shiftr_div_pow2 by lia.
    change (2 ^ 16) with 65536. apply Z.mod_small. mlia. }
  lia.
Qed.

(** The processor reads back the address, the code segment, and an interrupt gate
    of privilege level 0. *)
Lemma gate_word_fields a :
  0 ≤ a < 4294967296 →
  gate_offset (gate_word a) = a ∧ gate_selector (gate_word a) = 8 ∧ gate_kind (gate_word a) = 14 ∧
  gate_dpl (gate_word a) = 0 ∧ gate_present (gate_word a) = true.
Proof.
  intros Ha. unfold gate_offset, gate_selector, gate_kind, gate_dpl, gate_present. rewrite gate_word_eq by done.
  set (hi := a / 65536). set (lo := a mod 65536).
  assert (Hlo : 0 ≤ lo < 65536) by (unfold lo; mlia). assert (Hhi : 0 ≤ hi < 65536) by (unfold hi; mlia).
  assert (Hao : a = lo + 65536 * hi) by (unfold lo, hi; mlia). clearbody lo hi.
  split_and!; [mlia|mlia|mlia|mlia|].
  rewrite Z.testbit_eqb by lia. change (2 ^ 47) with 140737488355328. apply Z.eqb_eq. mlia.
Qed.

Section init_proofs.
Variables irq_stub int_stub : Z → Z.

Lemma fill_gates_ok stub base prv ns l :
  length l = 256%nat → Forall (λ n, 0 ≤ base + n < 256) ns →
  ∃ l', fill_gates stub base prv ns l = Ok l' ∧ length l' = 256%nat ∧
    ∀ v, 0 ≤ v < 256 → l' !! Z.to_nat v = if decide (v - base ∈ ns) then Some (gate_word (stub (v - base))) else l !! Z.to_nat v.
Proof.
  revert l. induction ns as [|n ns IH]; intros l Hl Hns; cbn [fill_gates].
  { exists l. split; [done|]. split; [done|]. intros v Hv. by rewrite decide_False by apply not_elem_of_nil. }
  apply Forall_cons in Hns as [Hn Hns]. unfold fill_gate, idt_fill. fold (gate_word (stub n)).
  rewrite aset_ok by lia. cbn [mbind res_bind].
  destruct (IH (<[Z.to_nat (base + n) := gate_word (stub n)]> l)) as (l' & -> & Hl' & Hv'); [by rewrite length_insert|done|].
  exists l'. split; [done|]. split; [done|]. intros v Hv. rewrite Hv' by done.
  destruct (decide (v - base ∈ ns)) as [Hin|Hin]; [by rewrite decide_True by (by apply elem_of_cons; right)|].
  destruct (decide (v - base = n)) as [<-|Hne].
  - rewrite decide_True by (apply elem_of_cons; by left). replace (base + (v - base)) with v by lia.
    apply list_lookup_insert_eq. lia.
  - rewrite decide_False by (rewrite elem_of_cons; tauto). apply list_lookup_insert_ne. lia.
Qed.

(** The vectors with a gate, and the stub behind each. *)
Definition stub_of (v : Z) : option Z :=
  if (32 <=? v) && (v <? 48) then Some (irq_stub (v - 32))
  else if bool_decide (v ∈ exceptions) || (v =? 0x80) then Some (int_stub v) else None.

Lemma irq_init_ok addr t :
  ∃ t', irq_init irq_stub int_stub addr t = Ok t' ∧ length (idt t') = 256%nat ∧ idtr t' = (2048, addr) ∧
    (∀ v, 0 ≤ v < 256 → idt t' !! Z.to_nat v = Some (from_option gate_word 0 (stub_of v))) ∧
    irqfuncs t' = [Some timer_handler; Some keyboard_handler; None; None; Some serial_handler;
                   None; None; None; None; None; None; None; None; None; None; None].
Proof.
  unfold irq_init. cbv zeta.
  destruct (fill_gates_ok irq_stub 32 0 (seqZ 0 16) (replicate 256 0)) as (l1 & -> & L1 & H1).
  { apply length_replicate. } { rewrite Forall_forall. intros n Hn. apply elem_of_seqZ in Hn. lia. }
  cbn [mbind res_bind].
  destruct (fill_gates_ok int_stub 0 0 exceptions l1 L1) as (l2 & -> & L2 & H2).
  { rewrite Forall_forall. unfold exceptions. intros n. rewrite !elem_of_cons, elem_of_nil. lia. }
  cbn [mbind res_bind].
  destruct (fill_gates_ok int_stub 0 3 [0x80] l2 L2) as (l3 & -> & L3 & H3).
  { apply Forall_singleton. lia. }
  cbn [mbind res_bind]. eexists. split; [reflexivity|]. cbn [idt idtr irqfuncs]. split; [done|]. split; [done|].
  split; [|reflexivity]. intros v Hv. rewrite H3, H2, H1 by done. rewrite !Z.sub_0_r. unfold stub_of.
  rewrite lookup_replicate_2 by lia.
  destruct (Z.leb_spec 32 v), (Z.ltb_spec v 48); cbn [andb].
  - rewrite (decide_False (P := v ∈ [0x80])) by (rewrite list_elem_of_singleton; lia).
    rewrite (decide_False (P := v ∈ exceptions)).
    + by rewrite decide_True by (apply elem_of_seqZ; lia).
    + unfold exceptions. rewrite !elem_of_cons, elem_of_nil. lia.
  - rewrite (decide_False (P := v - 32 ∈ seqZ 0 16)) by (rewrite elem_of_seqZ; lia).
    destruct (Z.eqb_spec v 128) as [->|]; [reflexivity|].
    rewrite (decide_False (P := v ∈ [0x80])) by (rewrite list_elem_of_singleton; lia).
    destruct (decide (v ∈ exceptions)); [by rewrite bool_decide_true|by rewrite bool_decide_false].
  - rewrite (decide_False (P := v - 32 ∈ seqZ 0 16)) by (rewrite elem_of_seqZ; lia).
    rewrite (proj2 (Z.eqb_neq v 128)) by lia.
    rewrite (decide_False (P := v ∈ [0x80])) by (rewrite list_elem_of_singleton; lia).
    destruct (decide (v ∈ exceptions)); [by rewrite bool_decide_true|by rewrite bool_decide_false].
  - lia.
Qed.

End init_proofs.

(** [pic_init] programs both controllers, whatever they were doing. *)
Lemma pic_init_ok v1 v2 (s : pics) :
  0 ≤ v1 < 256 → v1 mod 8 = 0 → 0 ≤ v2 < 256 → v2 mod 8 = 0 →
  pic_init v1 v2 s = Pics (Pic8259 Ready v1 0 0) (Pic8259 Ready v2 0 0).
Proof.
  intros H1 M1 H2 M2. change (pic_init v1 v2 s) with
    (Pics (Pic8259 Ready (Z.land v1 0xF8) 0 0) (Pic8259 Ready (Z.land v2 0xF8) 0 0)).
  assert (Hl : ∀ v, 0 ≤ v < 256 → v mod 8 = 0 → Z.land v 0xF8 = v).
  { intros v Hv Hm. change 0xF8 with (Z.shiftl (Z.ones 5) 3).
    replace v with (Z.shiftl (v / 8) 3) at 1 by (rewrite Z.shiftl_mul_pow2 by lia; change (2 ^ 3) with 8; mlia).
    rewrite <- Z.shiftl_land, Z.land_ones, Z.mod_small by mlia. rewrite Z.shiftl_mul_pow2 by lia.
    change (2 ^ 3) with 8. mlia. }
  by rewrite !Hl.
Qed.

(** The bases that the kernel chooses. *)
Lemma pic_init_kernel (s : pics) : pic_init 0x20 0x28 s = Pics (Pic8259 Ready 0x20 0 0) (Pic8259 Ready 0x28 0 0).
Proof. apply pic_init_ok; (lia || reflexivity). Qed.

(** ** Properties *)

(** C25: after [pic_init(0x20, 0x28)] and [irq_init] every hardware interrupt
    reaches its own entry stub: the controllers raise for request n the vector
    whose gate holds the address of stub n.  The other gates of the table are
    those of the exceptions 0-14 and 16 and of vector 0x80; all are 32-bit
    interrupt gates for segment 8 at privilege level 0, also the one of the
    system call, for which the code asks for level 3; every other vector is not
    present. *)
Theorem interrupts_reach_stubs (irq_stub int_stub : Z → Z) addr t (s : pics) :
  (∀ n, 0 ≤ irq_stub n < 4294967296) → (∀ n, 0 ≤ int_stub n < 4294967296) →
  ∃ t', irq_init irq_stub int_stub addr t = Ok t' ∧
    (∀ n, 0 ≤ n < 16 → ∃ w, idt t' !! Z.to_nat (irq_vector (pic_init 0x20 0x28 s) n) = Some w ∧
       gate_present w = true ∧ gate_offset w = irq_stub n) ∧
    (∀ v, 0 ≤ v < 256 → ∃ w, idt t' !! Z.to_nat v = Some w ∧
       match stub_of irq_stub int_stub v with
       | Some a => gate_offset w = a ∧ gate_selector w = 8 ∧ gate_kind w = 14 ∧ gate_dpl w = 0 ∧ gate_present w = true
       | None => gate_present w = false
       end).
Proof.
  intros Hq Hn. destruct (irq_init_ok irq_stub int_stub addr t) as (t' & Ht & _ & _ & Hv & _).
  exists t'. split; [done|].
  assert (Hr : ∀ v a, stub_of irq_stub int_stub v = Some a → 0 ≤ a < 4294967296).
  { unfold stub_of. intros v a. repeat case_match; intros [= <-]; auto. }
  split.
  - intros n Hr'. rewrite pic_init_kernel. unfold irq_vector. cbn [master slave vector].
    replace (if n <? 8 then 32 + n else 40 + (n - 8)) with (32 + n) by (destruct (Z.ltb_spec n 8); lia).
    assert (Es : stub_of irq_stub int_stub (32 + n) = Some (irq_stub n)).
    { unfold stub_of. replace (32 + n - 32) with n by lia.
      rewrite (proj2 (Z.leb_le _ _)), (proj2 (Z.ltb_lt _ _)) by lia. done. }
    eexists. split; [apply Hv; lia|]. rewrite Es. cbn [from_option]. 
    destruct (gate_word_fields (irq_stub n) (Hq n)) as (Ho & _ & _ & _ & Hp). split; [exact Hp|exact Ho].
  - intros v Hv'. eexists. split; [by apply Hv|]. destruct (stub_of irq_stub int_stub v) as [a|] eqn:Es; cbn [from_option].
    + apply gate_word_fields. by eapply Hr.
    + reflexivity.
Qed.

Lemma interrupts_reach_stubs_witness :
  ∃ t', irq_init (λ n, 0xC0100000 + 16 * (n mod 256)) (λ n, 0xC0102000 + 16 * (n mod 256)) 0xC0200000 (Tables [] [] [] [] (0, 0)) = Ok t' ∧
    (∀ n, 0 ≤ n < 16 →
       ∃ w, idt t' !! Z.to_nat (irq_vector (pic_init 0x20 0x28 (Pics (Pic8259 Icw3 0 5 9) (Pic8259 Ready 0 0 0))) n) = Some w ∧
         gate_present w = true ∧ gate_offset w = 0xC0100000 + 16 * (n mod 256)) ∧
    (∀ v, 0 ≤ v < 256 → ∃ w, idt t' !! Z.to_nat v = Some w ∧
       match stub_of (λ n, 0xC0100000 + 16 * (n mod 256)) (λ n, 0xC0102000 + 16 * (n mod 256)) v with
       | Some a => gate_offset w = a ∧ gate_selector w = 8 ∧ gate_kind w = 14 ∧ gate_dpl w = 0 ∧ gate_present w = true
       | None => gate_present w = false
       end).
Proof. apply interrupts_reach_stubs; intros n; mlia. Defined.

(** C13: for every hardware interrupt but 7 that the controllers can deliver,
    [irqfunc] ends, runs the registered handler and acknowledges exactly this
    interrupt: the controllers are as before its arrival, also when interrupts
    of lower priority are being serviced.  Interrupt 7 is never acknowledged: it
    stays in service, and the controllers deliver no second one. *)
Theorem irq_dispatch_acknowledges {D : Type} (run : irq_handler → pics * D → res (Z * (pics * D))) t (s : pics) (d : D) n :
  (∀ h k, ∃ k', run h k = Ok (0, k') ∧ k'.1 = k.1) →
  length (irqfuncs t) = 16%nat → 0 ≤ n < 16 → acceptable n s →
  if n =? 7 then
    irqfunc run t n (pics_accept n s, d) = Ok (pics_accept n s, d) ∧ ¬ acceptable n (pics_accept n s)
  else
    ∃ d', irqfunc run t n (pics_accept n s, d) = Ok (s, d') ∧
      match irqfuncs t !! Z.to_nat n with
      | Some (Some h) => run h (pics_accept n s, d) = Ok (0, (pics_accept n s, d'))
      | _ => d' = d
      end.
Proof.
  intros Hrun Hl Hn Ha. destruct (Z.eqb_spec n 7) as [->|Hne].
  - split; [done|]. intros Hi. specialize (Hi 7 ltac:(lia)).
    change (Z.testbit (Z.lor (isr (master s)) 128) 7 = false) in Hi. rewrite Z.lor_spec in Hi.
    by rewrite orb_true_r in Hi.
  - unfold irqfunc. rewrite (proj2 (Z.eqb_neq n 7)) by done. cbn [negb].
    destruct (lookup_lt_is_Some_2 (irqfuncs t) (Z.to_nat n)) as [f Hf]; [lia|]. rewrite Hf.
    assert (aget (irqfuncs t) n = Ok f) as -> by (apply aget_Ok; split; [lia|done]). cbn [mbind res_bind].
    destruct f as [h|].
    + destruct (Hrun h (pics_accept n s, d)) as ([p' d'] & Hr & Hp). cbn in Hp. subst p'. rewrite Hr. cbn [mbind res_bind Z.eqb negb].
      exists d'. by rewrite pic_eoi_fst, pic_eoi_accept by (done || lia).
    + cbn [mbind res_bind Z.eqb negb]. exists d. by rewrite pic_eoi_fst, pic_eoi_accept by (done || lia).
Qed.

(** The timer interrupts a service of the keyboard. *)
Lemma irq_dispatch_acknowledges_witness :
  ∃ d', irqfunc (λ h k, Ok (0, (k.1, k.2 + match h with timer_handler => 1 | _ => 0 end)))
      (Tables [] [Some timer_handler; None; None; None; None; None; None; None; None; None; None; None; None; None; None; None] [] [] (0, 0))
      0 (pics_accept 0 (Pics (Pic8259 Ready 32 0 2) (Pic8259 Ready 40 0 0)), 41)
    = Ok (Pics (Pic8259 Ready 32 0 2) (Pic8259 Ready 40 0 0), d') ∧
    (Ok (0, (pics_accept 0 (Pics (Pic8259 Ready 32 0 2) (Pic8259 Ready 40 0 0)), 41 + 1)) : res (Z * (pics * Z)))
    = Ok (0, (pics_accept 0 (Pics (Pic8259 Ready 32 0 2) (Pic8259 Ready 40 0 0)), d')).
Proof.
  apply (irq_dispatch_acknowledges (λ h k, Ok (0, (k.1, k.2 + match h with timer_handler => 1 | _ => 0 end)))
      (Tables [] [Some timer_handler; None; None; None; None; None; None; None; None; None; None; None; None; None; None; None] [] [] (0, 0))
      (Pics (Pic8259 Ready 32 0 2) (Pic8259 Ready 40 0 0)) 41 0); [eauto|done|lia|].
  intros j Hj. assert (j = 0) as -> by lia. reflexivity.
Defined.
