(* ===== verification/IrqStubs.v ===== *)
(** The entry stubs of the interrupts.

    Source: the macros DEFIRQWRAPPER, DEFINTWRAPPER and DEFINTWRAPPER_ERR of
    kernel/arch/i386/kernel/irq/irq.c, whose [asm] statements are the lists of
    instructions here; the operands "a" and "b" of a statement are loads before
    it.  The code begins at the label startofISR, which the gates of the
    descriptor table hold (Interrupts.v). *)
From S2P Require Import Prelude I386.

(** [func] is the address of irqfunc or intfunc. *)
Definition save_registers : list instr := [Pusha; Push (Reg EBP); Mov (Reg ESP) (Reg EBP); Cld].

Definition call_handler : list instr :=
  [PushSeg DS; PushSeg ES; Movw 16 ECX; MovSeg ECX DS; MovSeg ECX ES;
   Push (Reg EBP); Add (Imm 4) (At 0 ESP); Push (Reg EBX); Call EAX; Add (Imm 8) (Reg ESP)].

Definition restore_registers : list instr := [PopSeg ES; PopSeg DS; Leave; Popa; Iret].

Definition wrapper (func num : Z) : list instr :=
  save_registers ++ [Mov (Imm func) (Reg EAX); Mov (Imm num) (Reg EBX)] ++ call_handler ++ restore_registers.

Definition DEFIRQWRAPPER (irqfunc irqnum : Z) : list instr := wrapper irqfunc irqnum.
Definition DEFINTWRAPPER (intfunc intnum : Z) : list instr := wrapper intfunc intnum.

(** The words from the registers down move up over the error code. *)
Definition drop_error_code : list instr :=
  [Pusha; Push (Reg EBP); Mov (Reg ESP) (Reg EBP); PushSeg DS; PushSeg ES; Movw 16 ECX; MovSeg ECX DS; MovSeg ECX ES;
   Mov (At 36 EBP) (Reg EDX); Mov (Reg EBP) (Reg ESI); Add (Imm 32) (Reg ESI); Mov (Reg ESI) (Reg EDI); Add (Imm 4) (Reg EDI);
   Mov (Imm 11) (Reg ECX); Std; RepMovsl; Add (Imm 4) (Reg ESP); Cld].

Definition call_handler_err : list instr :=
  [Push (Reg EDX); Push (Reg EBP); Add (Imm 8) (At 0 ESP); Push (Reg EBX); Call EAX; Add (Imm 12) (Reg ESP)].

Definition DEFINTWRAPPER_ERR (intfunc_err intnum : Z) : list instr :=
  drop_error_code ++ [Mov (Imm intfunc_err) (Reg EAX); Mov (Imm intnum) (Reg EBX)] ++ call_handler_err ++ restore_registers.

(** The stubs, by the number that they pass on. *)
Definition irq_wrappers (irqfunc : Z) : list (Z * list instr) :=
  map (λ n, (n, DEFIRQWRAPPER irqfunc n)) [0; 1; 2; 3; 4; 5; 6; 7; 8; 9; 10; 11; 12; 13; 14; 15].
Definition int_wrappers (intfunc : Z) : list (Z * list instr) :=
  map (λ n, (n, DEFINTWRAPPER intfunc n)) [0; 1; 2; 3; 4; 5; 6; 7; 9; 16; 0x80].
Definition int_err_wrappers (intfunc_err : Z) : list (Z * list instr) :=
  map (λ n, (n, DEFINTWRAPPER_ERR intfunc_err n)) [8; 10; 11; 12; 13; 14].

(** The state in which a stub is entered, from [c]. *)
Definition interrupted (callee : Z → cpu → res cpu) (ra selector offset : Z) (err : option Z) (stub : list instr) (c : cpu) : res cpu :=
  c ← deliver selector offset err c; run callee ra stub c.

(** ** The stack in a stub *)

(** One instruction that pushes. *)
Ltac push_step H :=
  reg_step; edestruct push_cpu as (? & -> & H'); [exact H|words|words|]; clear H; rename H' into H; reduce.

Section stubs.
Variable callee : Z → cpu → res cpu.
Variable ra : Z.
Context (Hra : word ra).

(** The words that a stub has on the stack when it calls: the two arguments, the
    selectors, EBP, the registers, and what the processor pushed. *)
Definition call_frame (c : cpu) (num : Z) : list Z :=
  let g := regs c in
  [num; esp g - 44; es c; ds c; ebp g; edi g; esi g; ebp g; esp g - 12; ebx g; edx g; ecx g; eax g; eip c; cs c; eflags c].

Lemma deliver_ok c selector offset :
  wf_cpu c → 68 ≤ esp (regs c) → mapped (memory c) (esp (regs c) - 68) 68 →
  ∃ m, deliver selector offset None c
    = Ok (Cpu (set ESP (esp (regs c) - 12) (regs c)) offset selector (gate_flags (eflags c)) (ds c) (es c) (cr0 c) (cr3 c) m) ∧
    stk (memory c) m (esp (regs c) - 68) (esp (regs c)) (esp (regs c) - 12) [eip c; cs c; eflags c].
Proof.
  intros Hc Hsp Hm. destruct Hc. unfold deliver. cbn [app].
  destruct (push_all_ok (memory c) (esp (regs c) - 68) (esp (regs c)) [eflags c; cs c; eip c] c []) as (m & -> & Hs).
  - apply stk_start; [lia|words|]. by replace (esp (regs c) - (esp (regs c) - 68)) with 68 by lia.
  - cbn [length]. lia.
  - repeat constructor; words.
  - exists m. cbn [mbind res_bind]. split; [by destruct c as [[] ? ? ? ? ? ? ? ?]|exact Hs].
Qed.

Definition before_call (func num : Z) : list instr :=
  save_registers ++ [Mov (Imm func) (Reg EAX); Mov (Imm num) (Reg EBX)] ++ take 8 call_handler.

Lemma to_call c selector offset func num :
  wf_cpu c → 68 ≤ esp (regs c) → mapped (memory c) (esp (regs c) - 68) 68 → word func → word num →
  ∃ m fl cx, (c ← deliver selector offset None c; run callee ra (before_call func num) c)
    = Ok (Cpu (Gpr func cx (edx (regs c)) num (esp (regs c) - 64) (esp (regs c) - 48) (esi (regs c)) (edi (regs c)))
              offset selector fl 16 16 (cr0 c) (cr3 c) m) ∧
    stk (memory c) m (esp (regs c) - 68) (esp (regs c)) (esp (regs c) - 64) (call_frame c num) ∧
    Z.testbit fl DF = false ∧ Z.testbit fl IF = false.
Proof.
  intros Hc Hsp Hm Hfu Hnu. destruct (deliver_ok c selector offset Hc Hsp Hm) as (m0 & -> & Hs). cbn [mbind res_bind].
  destruct c as [[a cx d b sp bp si di] ip s fl dsg esg c0 c3 m]. destruct Hc.
  cbn [regs set esp eip cs eflags ds es cr0 cr3 memory eax ecx edx ebx ebp esi edi] in *.
  unfold before_call, save_registers, call_handler. cbn [app take].
  rewrite run_cons. edestruct pusha_cpu as (m1 & -> & Hs1); [exact Hs|lia|repeat constructor; words|]. clear Hs.
  reduce. push_step Hs1. do 4 reg_step.
  rewrite (u32_small func), (u32_small num) by words. do 2 push_step Hs1. do 3 reg_step. push_step Hs1. reg_step.
  rewrite Z.add_0_r, (u32_small (sp - 12 - 32 - 4 - 4 - 4 - 4)) by words.
  destruct (stk_pop _ _ _ _ _ _ _ Hs1) as [-> _]. reduce.
  destruct (stk_store _ _ _ _ _ _ 0 (u32 (sp - 12 - 32 - 4 + u32 4)) (sp - 12 - 32 - 4 - 4 - 4 - 4) Hs1)
    as (m3 & -> & Hs3 & _); [cbn; lia|apply u32_range|lia|]. clear Hs1. reduce. cbn [list_insert insert] in Hs3.
  push_step Hs3. rewrite run_nil.
  replace (u16 (cx - u16 cx + u16 16)) with 16 by (unfold u16; mlia).
  replace (sp - 12 - 32 - 4 - 4 - 4 - 4 - 4) with (sp - 64) in * by lia.
  replace (sp - 12 - 32 - 4) with (sp - 48) in * by lia.
  eexists _, _, _. split; [reflexivity|]. rewrite !add_flags_control by set_solver. split_and!.
  - replace (u32 (sp - 48 + u32 4)) with (sp - 44) in Hs3 by (rewrite (u32_small 4), u32_small by words; lia). exact Hs3.
  - apply Z.clearbit_eq.
  - rewrite Z.clearbit_neq by done. apply gate_flags_off.
Qed.



Definition after_call : list instr := [Add (Imm 8) (Reg ESP)] ++ restore_registers.

Ltac pop_one H := edestruct pop_cpu as [-> H']; [exact H|]; clear H; rename H' into H; reduce.
Ltac pop_step H := reg_step; pop_one H.

(** From the return of the handler to the interrupted code. *)
Lemma from_call c c2 num :
  wf_cpu c → cs c = KERNEL_CS → 68 ≤ esp (regs c) → ebp (regs c2) = esp (regs c) - 48 → esp (regs c2) = esp (regs c) - 64 →
  cr0 c2 = cr0 c ∧ cr3 c2 = cr3 c →
  stk (memory c2) (memory c2) (esp (regs c) - 68) (esp (regs c)) (esp (regs c) - 56) (drop 2 (call_frame c num)) →
  run callee ra after_call c2 = Ok (set_memory c (memory c2)).
Proof.
  intros Hc Hcs Hsp Hbp Hsp2 [H0 H3] Hs. destruct Hc.
  destruct c as [[a cx d b sp bp si di] ip s fl dsg esg c0 c3 m].
  destruct c2 as [[a2 cx2 d2 b2 sp2 bp2 si2 di2] ip2 s2 fl2 ds2 es2 c02 c32 m2].
  cbn [call_frame regs esp eip cs eflags ds es cr0 cr3 memory eax ecx edx ebx ebp esi edi drop] in *. subst.
  unfold after_call, restore_registers. cbn [app].
  reg_step. replace (u32 (sp - 64 + u32 8)) with (sp - 56) by (rewrite (u32_small 8), u32_small by words; lia).
  do 2 pop_step Hs. rewrite !u16_small by words.
  replace (sp - 56 + 4 + 4) with (sp - 48) in Hs by lia. pop_step Hs.
  rewrite run_cons. edestruct popa_cpu as [-> Hs']; [exact Hs|]. clear Hs. reduce.
  reg_step. do 3 pop_one Hs'. change (u16 KERNEL_CS =? KERNEL_CS) with true. reduce. rewrite run_nil. destruct wf_flags as [_ ->].
  unfold set_memory. cbn. do 3 f_equal. lia.
Qed.

(** What the handler finds behind its pointer: the registers of the interrupted
    code, of ESP the value after the processor pushed [pushed] bytes, and where it
    goes on. *)
Definition context (pushed : Z) (c : cpu) : list Z :=
  let g := regs c in
  [edi g; esi g; ebp g; esp g - pushed; ebx g; edx g; ecx g; eax g; eip c; cs c; eflags c].

Definition context_at (m : mem) (p pushed : Z) (c : cpu) : Prop :=
  ∀ i w, context pushed c !! i = Some w → load32 m (p + 4 * Z.of_nat i) = Ok w.

(** The handler is called with its arguments, the second of which points to the
    context; interrupts are off and the kernel's data segment is loaded. *)
Record called_with (c c1 : cpu) (pushed : Z) (args : list Z) : Prop := {
  called_args : ∀ i w, args !! i = Some w → load32 (memory c1) (esp (regs c1) + 4 + 4 * Z.of_nat i) = Ok w;
  called_ctx : args !! 1%nat = Some (esp (regs c) - 44);
  called_context : context_at (memory c1) (esp (regs c) - 44) pushed c;
  called_kernel : ds c1 = 16 ∧ es c1 = 16;
  called_off : Z.testbit (eflags c1) IF = false;
  called_frame : ∀ x, x < esp (regs c) - 76 ∨ esp (regs c) ≤ x → memory c1 !! x = memory c !! x;
}.

Lemma wrapper_ok c selector offset func num :
  wf_cpu c → cs c = KERNEL_CS → 68 ≤ esp (regs c) → mapped (memory c) (esp (regs c) - 68) 68 → word func → word num →
  c_function callee func 2 56 →
  ∃ c1 c2, callee func c1 = Ok c2 ∧ called_with c c1 12 [num; esp (regs c) - 44] ∧
    interrupted callee ra selector offset None (wrapper func num) c = Ok (set_memory c (memory c2)).
Proof.
  intros Hc Hcs Hsp Hm Hfu Hnu Hcall.
  destruct (to_call c selector offset func num) as (m & fl & cx & Hrun & Hs & Hdf & Hif); [done..|].
  destruct (push_cpu _ _ _ func cx (edx (regs c)) num (esp (regs c) - 64) (esp (regs c) - 48) (esi (regs c)) (edi (regs c))
              offset selector fl 16 16 (cr0 c) (cr3 c) m _ ra Hs) as (m1 & Hp & Hs1); [lia|done|].
  set (c1 := Cpu _ _ _ _ _ _ _ _ m1) in Hp.
  destruct (Hcall c1) as (c2 & Hc2 & Hcd); [|done|].
  { eapply mapped_sub; [apply Hs1|cbn; lia|cbn; lia]. }
  exists c1, c2. split; [done|]. split.
  - split; cbn [c1 memory regs esp ds es eflags]; [|done| |done|done|intros x Hx; apply Hs1; lia].
    + intros i w Hi. apply (stk_load _ _ _ _ _ _ (1 + i) w _ Hs1); [|lia]. by destruct i as [|[|]].
    + intros i w Hi. apply (stk_load _ _ _ _ _ _ (6 + i) w _ Hs1); [done|lia].
  - unfold interrupted, wrapper.
    change (save_registers ++ [Mov (Imm func) (Reg EAX); Mov (Imm num) (Reg EBX)] ++ call_handler ++ restore_registers)
      with (before_call func num ++ Call EAX :: after_call).
    destruct (deliver selector offset None c) as [c0|]; [|done]. cbn [mbind res_bind] in Hrun |- *.
    rewrite run_app, Hrun. cbn [mbind res_bind]. rewrite run_cons. unfold exec. rewrite Hp. cbn [mbind res_bind get regs eax].
    rewrite Hc2. cbn [mbind res_bind]. destruct Hcd. cbn [c1 regs ebp esp cr0 cr3 memory] in *.
    apply (from_call c c2 num); [done|done|done|done|lia|done|].
    replace (esp (regs c) - 56) with (esp (regs c) - 64 - 4 + 4 * Z.of_nat 3) by lia.
    apply (stk_after _ _ _ _ _ _ (ra :: call_frame c num) 3 Hs1); [cbn; lia|done|].
    intros x Hx. apply cdecl_frame. lia.
Qed.

(** *** With an error code *)

(** The words at the call: the three arguments, then as above, without the error
    code. *)
Definition call_frame_err (c : cpu) (num err : Z) : list Z :=
  let g := regs c in
  [num; esp g - 44; err; es c; ds c; ebp g] ++ context 16 c.

Lemma deliver_err_ok c selector offset err :
  wf_cpu c → 76 ≤ esp (regs c) → mapped (memory c) (esp (regs c) - 76) 76 → word err →
  ∃ m, deliver selector offset (Some err) c
    = Ok (Cpu (set ESP (esp (regs c) - 16) (regs c)) offset selector (gate_flags (eflags c)) (ds c) (es c) (cr0 c) (cr3 c) m) ∧
    stk (memory c) m (esp (regs c) - 76) (esp (regs c)) (esp (regs c) - 16) [err; eip c; cs c; eflags c].
Proof.
  intros Hc Hsp Hm He. destruct Hc. unfold deliver. cbn [app].
  destruct (push_all_ok (memory c) (esp (regs c) - 76) (esp (regs c)) [eflags c; cs c; eip c; err] c []) as (m & -> & Hs).
  - apply stk_start; [lia|words|]. by replace (esp (regs c) - (esp (regs c) - 76)) with 76 by lia.
  - cbn [length]. lia.
  - repeat constructor; words.
  - exists m. cbn [mbind res_bind]. split; [by destruct c as [[] ? ? ? ? ? ? ? ?]|exact Hs].
Qed.

(** The error code is in EDX, and the words have moved over it: EBP points to the
    selector of DS now, the saved EBP is the word above. *)
Lemma drop_error_code_ok c selector offset err :
  wf_cpu c → 84 ≤ esp (regs c) → mapped (memory c) (esp (regs c) - 76) 76 → word err →
  ∃ m fl cx si di, (c ← deliver selector offset (Some err) c; run callee ra drop_error_code c)
    = Ok (Cpu (Gpr (eax (regs c)) cx err (ebx (regs c)) (esp (regs c) - 56) (esp (regs c) - 52) si di)
              offset selector fl 16 16 (cr0 c) (cr3 c) m) ∧
    stk (memory c) m (esp (regs c) - 76) (esp (regs c)) (esp (regs c) - 56) (drop 3 (call_frame_err c 0 err)) ∧
    Z.testbit fl DF = false ∧ Z.testbit fl IF = false.
Proof.
  intros Hc Hsp Hm He. destruct (deliver_err_ok c selector offset err Hc) as (m0 & -> & Hs); [lia|done|done|].
  cbn [mbind res_bind].
  destruct c as [[a cx d b sp bp si di] ip s fl dsg esg c0 c3 m]. destruct Hc.
  cbn [regs set esp eip cs eflags ds es cr0 cr3 memory eax ecx edx ebx ebp esi edi] in *.
  unfold drop_error_code.
  rewrite run_cons. edestruct pusha_cpu as (m1 & -> & Hs1); [exact Hs|lia|repeat constructor; words|]. clear Hs.
  reduce. push_step Hs1. reg_step. do 2 push_step Hs1. do 3 reg_step.
  replace (u16 (cx - u16 cx + u16 16)) with 16 by (unfold u16; mlia).
  replace (sp - 16 - 32 - 4 - 4 - 4) with (sp - 60) in * by lia. replace (sp - 16 - 32 - 4) with (sp - 52) in * by lia.
  reg_step. rewrite (u32_small (sp - 52 + 36)) by words.
  rewrite (stk_load _ _ _ _ _ _ 11 err (sp - 52 + 36) Hs1) by (done || lia). reduce.
  do 6 reg_step. rewrite run_cons. unfold exec at 1. cbn [regs ecx].
  change (Z.to_nat (u32 11)) with 11%nat. change (u32 11) with (Z.of_nat 11).
  replace (u32 (u32 (sp - 52 + u32 32) + u32 4)) with (sp - 60 + 4 * Z.of_nat 10 + 4)
    by (change (u32 32) with 32; change (u32 4) with 4; rewrite !u32_small by (rewrite ?u32_small by words; words); lia).
  replace (u32 (sp - 52 + u32 32)) with (sp - 60 + 4 * Z.of_nat 10) by (change (u32 32) with 32; rewrite u32_small by words; lia).
  edestruct (rep_movsl_up m (sp - 76) sp 11 10) as (m2 & cx' & si' & di' & -> & Hs2);
    [exact Hs1|repeat constructor; words|lia|cbn; lia|lia|apply Z.setbit_eq; unfold DF; lia|]. clear Hs1.
  reduce. cbn [shift_up insert list_insert lookup list_lookup default Nat.sub] in Hs2.
  destruct (stk_pop _ _ _ _ _ _ _ Hs2) as [_ Hs3]. clear Hs2. do 2 reg_step. rewrite run_nil.
  replace (u32 (sp - 60 + u32 4)) with (sp - 56) by (change (u32 4) with 4; rewrite u32_small by words; lia).
  replace (sp - 60 + 4) with (sp - 56) in Hs3 by lia.
  eexists _, _, _, _, _. split; [reflexivity|]. split; [exact Hs3|]. split; [apply Z.clearbit_eq|].
  rewrite Z.clearbit_neq, add_flags_control, Z.setbit_neq, !add_flags_control by (done || set_solver).
  apply gate_flags_off.
Qed.

Definition call_err (func num : Z) : list instr :=
  [Mov (Imm func) (Reg EAX); Mov (Imm num) (Reg EBX)] ++ take 4 call_handler_err.

Lemma to_call_err c selector offset func num err :
  wf_cpu c → 84 ≤ esp (regs c) → mapped (memory c) (esp (regs c) - 76) 76 → word func → word num → word err →
  ∃ m fl cx si di, (c ← deliver selector offset (Some err) c; run callee ra (drop_error_code ++ call_err func num) c)
    = Ok (Cpu (Gpr func cx err num (esp (regs c) - 68) (esp (regs c) - 52) si di)
              offset selector fl 16 16 (cr0 c) (cr3 c) m) ∧
    stk (memory c) m (esp (regs c) - 76) (esp (regs c)) (esp (regs c) - 68) (call_frame_err c num err) ∧
    Z.testbit fl DF = false ∧ Z.testbit fl IF = false.
Proof.
  intros Hc Hsp Hm Hfu Hnu He.
  destruct (drop_error_code_ok c selector offset err) as (m & fl & cx & si & di & Hrun & Hs & Hdf & Hif); [done..|].
  destruct (deliver _ _ _ _) as [c1|]; [|done]. cbn [mbind res_bind] in Hrun |- *. rewrite run_app, Hrun. cbn [mbind res_bind].
  destruct c as [[a cx0 d b sp bp si0 di0] ip s fl0 dsg esg c0 c3 m0]. destruct Hc.
  cbn [regs esp eip cs eflags ds es cr0 cr3 memory eax ecx edx ebx ebp esi edi] in *.
  unfold call_err, call_handler_err. cbn [app take]. do 2 reg_step. rewrite (u32_small func), (u32_small num) by words.
  cbv [call_frame_err context app drop regs esp eip cs eflags ds es eax ecx edx ebx ebp esi edi] in Hs |- *.
  do 2 push_step Hs. reg_step.
  rewrite Z.add_0_r, (u32_small (sp - 56 - 4 - 4)) by words.
  destruct (stk_pop _ _ _ _ _ _ _ Hs) as [-> _]. reduce.
  destruct (stk_store _ _ _ _ _ _ 0 (u32 (sp - 52 + u32 8)) (sp - 56 - 4 - 4) Hs)
    as (m3 & -> & Hs3 & _); [cbn; lia|apply u32_range|lia|]. clear Hs. reduce. cbn [list_insert insert] in Hs3.
  push_step Hs3. rewrite run_nil. replace (sp - 56 - 4 - 4 - 4) with (sp - 68) in * by lia.
  eexists _, _, _, _, _. split; [reflexivity|]. rewrite !add_flags_control by set_solver. split; [|done].
  replace (u32 (sp - 52 + u32 8)) with (sp - 44) in Hs3 by (change (u32 8) with 8; rewrite u32_small by words; lia). exact Hs3.
Qed.

Definition after_call_err : list instr := [Add (Imm 12) (Reg ESP)] ++ restore_registers.

(** Where the stub goes: everything is one word off, so [iret] takes the old EIP
    for the code selector. *)
Definition after_error (c : cpu) (m : mem) : res cpu :=
  let g := regs c in
  if negb (u16 (eip c) =? KERNEL_CS) then Fault GeneralProtection
  else Ok (Cpu (Gpr (ecx g) (edx g) (ebx g) (esp g - 16) (esp g - 4) (esi g) (edi g) (ebp g))
      (eax g) KERNEL_CS (iret_flags (cs c)) (ds c) (es c) (cr0 c) (cr3 c) m).

Lemma from_call_err c c2 num err :
  wf_cpu c → 84 ≤ esp (regs c) → ebp (regs c2) = esp (regs c) - 52 → esp (regs c2) = esp (regs c) - 68 →
  cr0 c2 = cr0 c ∧ cr3 c2 = cr3 c →
  stk (memory c2) (memory c2) (esp (regs c) - 76) (esp (regs c)) (esp (regs c) - 56) (drop 3 (call_frame_err c num err)) →
  run callee ra after_call_err c2 = after_error c (memory c2).
Proof.
  intros Hc Hsp Hbp Hsp2 [H0 H3] Hs. destruct Hc.
  destruct c as [[a cx d b sp bp si di] ip s fl dsg esg c0 c3 m].
  destruct c2 as [[a2 cx2 d2 b2 sp2 bp2 si2 di2] ip2 s2 fl2 ds2 es2 c02 c32 m2].
  cbn [call_frame_err context app regs esp eip cs eflags ds es cr0 cr3 memory eax ecx edx ebx ebp esi edi drop] in *. subst.
  unfold after_call_err, restore_registers. cbn [app].
  reg_step. replace (u32 (sp - 68 + u32 12)) with (sp - 56) by (change (u32 12) with 12; rewrite u32_small by words; lia).
  destruct (stk_pop _ _ _ _ _ _ _ Hs) as [_ Hs1]. replace (sp - 56 + 4) with (sp - 52) in Hs1 by lia.
  do 2 pop_step Hs. rewrite !u16_small by words. clear Hs.
  pop_step Hs1. rewrite run_cons. edestruct popa_cpu as [-> Hs']; [exact Hs1|]. clear Hs1. reduce.
  reg_step. do 3 pop_one Hs'. unfold after_error. cbn [regs eip cs].
  destruct (Z.eqb_spec (u16 ip) KERNEL_CS) as [->|]; [|done]. reduce. rewrite run_nil. cbn. do 3 f_equal. lia.
Qed.

Lemma wrapper_err_ok c selector offset func num err :
  wf_cpu c → 84 ≤ esp (regs c) → mapped (memory c) (esp (regs c) - 76) 76 → word func → word num → word err →
  c_function callee func 3 56 →
  ∃ c1 c2, callee func c1 = Ok c2 ∧ called_with c c1 16 [num; esp (regs c) - 44; err] ∧
    interrupted callee ra selector offset (Some err) (DEFINTWRAPPER_ERR func num) c = after_error c (memory c2).
Proof.
  intros Hc Hsp Hm Hfu Hnu He Hcall.
  destruct (to_call_err c selector offset func num err) as (m & fl & cx & si & di & Hrun & Hs & Hdf & Hif); [done..|].
  destruct (push_cpu _ _ _ func cx err num (esp (regs c) - 68) (esp (regs c) - 52) si di
              offset selector fl 16 16 (cr0 c) (cr3 c) m _ ra Hs) as (m1 & Hp & Hs1); [lia|done|].
  set (c1 := Cpu _ _ _ _ _ _ _ _ m1) in Hp.
  destruct (Hcall c1) as (c2 & Hc2 & Hcd); [|done|].
  { eapply mapped_sub; [apply Hs1|cbn; lia|cbn; lia]. }
  exists c1, c2. split; [done|]. split.
  - split; cbn [c1 memory regs esp ds es eflags]; [|done| |done|done|intros x Hx; apply Hs1; lia].
    + intros i w Hi. apply (stk_load _ _ _ _ _ _ (1 + i) w _ Hs1); [|lia]. by destruct i as [|[|[|]]].
    + intros i w Hi. apply (stk_load _ _ _ _ _ _ (7 + i) w _ Hs1); [done|lia].
  - unfold interrupted, DEFINTWRAPPER_ERR.
    change (drop_error_code ++ [Mov (Imm func) (Reg EAX); Mov (Imm num) (Reg EBX)] ++ call_handler_err ++ restore_registers)
      with ((drop_error_code ++ call_err func num) ++ Call EAX :: after_call_err).
    destruct (deliver selector offset (Some err) c) as [c0|]; [|done]. cbn [mbind res_bind] in Hrun |- *.
    rewrite run_app, Hrun. cbn [mbind res_bind]. rewrite run_cons. unfold exec. rewrite Hp. cbn [mbind res_bind get regs eax].
    rewrite Hc2. cbn [mbind res_bind]. destruct Hcd. cbn [c1 regs ebp esp cr0 cr3 memory] in *.
    apply (from_call_err c c2 num err); [done|done|done|lia|done|].
    replace (esp (regs c) - 56) with (esp (regs c) - 68 - 4 + 4 * Z.of_nat 4) by lia.
    apply (stk_after _ _ _ _ _ _ (ra :: call_frame_err c num err) 4 Hs1); [cbn; lia|done|].
    intros x Hx. apply cdecl_frame. lia.
Qed.


End stubs.

(** ** An example *)

(** A handler that spoils what it may: the registers that are not preserved, the
    flags, and one of its arguments. *)
Definition demo_callee (f : Z) (c : cpu) : res cpu :=
  let g := regs c in
  m ← store32 (memory c) (esp g + 4) 7;
  Ok (Cpu (Gpr 1 2 3 (ebx g) (esp g + 4) (ebp g) (esi g) (edi g)) (eip c) (cs c) 0 (ds c) (es c) (cr0 c) (cr3 c) m).

Definition demo_cpu : cpu := Cpu (Gpr 11 12 13 14 1200 15 16 17) 5000 8 0x202 16 16 0 0 (zeros 512 1000).

Lemma demo_c_function f args frame : 1 ≤ args → c_function demo_callee f args frame.
Proof.
  intros Ha c Hm _. unfold demo_callee.
  destruct (store32_spec (memory c) (esp (regs c) + 4) 7) as (m & -> & Hf & Hmap & _); [eapply mapped_sub; [done|lia..]|].
  eexists. split; [done|]. split; cbn [regs eip cs eflags ds es cr0 cr3 memory eax ecx edx ebx esp ebp esi edi]; try done.
  intros x Hx. apply Hf. lia.
Qed.

Lemma demo_wf : wf_cpu demo_cpu.
Proof.
  split; cbn [demo_cpu regs eip cs eflags ds es eax ecx edx ebx esp ebp esi edi]; first [words | split; [words|reflexivity] | idtac].
Qed.

(** ** Theorems *)

Lemma wrappers_wrapper func num stub :
  (num, stub) ∈ irq_wrappers func ++ int_wrappers func → stub = wrapper func num ∧ word num.
Proof.
  rewrite elem_of_app. unfold irq_wrappers, int_wrappers. rewrite !list_elem_of_fmap.
  intros [(n & E & Hn)|(n & E & Hn)]; injection E as -> ->; (split; [done|]); revert n Hn; apply Forall_forall;
    repeat constructor; words.
Qed.

(** C35: an interrupt that enters through a stub of DEFIRQWRAPPER or DEFINTWRAPPER is
    transparent: the handler is called with the stub's number and a pointer to the
    saved context, with interrupts off and the kernel's segments; and when it keeps
    to the calling convention, the interrupted code goes on with every register,
    flag and selector as it was, in the memory that the handler left. *)
Theorem stub_transparent callee ra c selector offset func num stub :
  word ra → wf_cpu c → cs c = KERNEL_CS → 68 ≤ esp (regs c) → mapped (memory c) (esp (regs c) - 68) 68 → word func →
  c_function callee func 2 56 → (num, stub) ∈ irq_wrappers func ++ int_wrappers func →
  ∃ c1 c2, callee func c1 = Ok c2 ∧ called_with c c1 12 [num; esp (regs c) - 44] ∧
    interrupted callee ra selector offset None stub c = Ok (set_memory c (memory c2)).
Proof. intros ??????? Hin. apply wrappers_wrapper in Hin as [-> Hn]. by apply wrapper_ok. Qed.

Lemma stub_transparent_witness :
  ∃ m, interrupted demo_callee 9999 8 7000 None (DEFIRQWRAPPER 3000 4) demo_cpu = Ok (set_memory demo_cpu m).
Proof.
  destruct (stub_transparent demo_callee 9999 demo_cpu 8 7000 3000 4 (DEFIRQWRAPPER 3000 4)) as (c1 & c2 & _ & _ & H);
    [words|exact demo_wf|done|cbn [demo_cpu regs esp]; lia| |words|by apply demo_c_function| |].
  - eapply mapped_sub; [apply (zeros_mapped 512 1000)|cbn [demo_cpu regs esp]; lia|cbn [demo_cpu regs esp]; lia].
  - do 4 right. left.
  - eauto.
Defined.

(** C36: the stub of an exception with an error code (DEFINTWRAPPER_ERR) calls its
    handler with the number, the context and the error code, but does not find the
    way back: [leave] reloads ESP from EBP, which was not moved with the words, so
    the registers are restored from one word below their places and [iret] takes
    the value of EAX for the address and the address of the interrupted
    instruction for the code selector.  It raises a general protection exception,
    unless the lower half of that address happens to be the kernel's selector 8;
    then the stub goes on at the value of EAX with the registers mixed up. *)
Theorem stub_err_faults_at_iret callee ra c selector offset func num stub err :
  word ra → wf_cpu c → 84 ≤ esp (regs c) → mapped (memory c) (esp (regs c) - 76) 76 → word func → word err →
  c_function callee func 3 56 → (num, stub) ∈ int_err_wrappers func →
  ∃ c1 c2, callee func c1 = Ok c2 ∧ called_with c c1 16 [num; esp (regs c) - 44; err] ∧
    let g := regs c in
    interrupted callee ra selector offset (Some err) stub c
    = if u16 (eip c) =? 8
      then Ok (Cpu (Gpr (ecx g) (edx g) (ebx g) (esp g - 16) (esp g - 4) (esi g) (edi g) (ebp g))
                   (eax g) 8 (iret_flags (cs c)) (ds c) (es c) (cr0 c) (cr3 c) (memory c2))
      else Fault GeneralProtection.
Proof.
  intros ??????? Hin. unfold int_err_wrappers in Hin. rewrite list_elem_of_fmap in Hin. destruct Hin as (n & E & Hn). injection E as -> ->.
  destruct (wrapper_err_ok callee ra ltac:(done) c selector offset func n err) as (c1 & c2 & Hc & Hw & Hr); try done.
  { revert n Hn. apply Forall_forall. repeat constructor; words. }
  exists c1, c2. split; [done|]. split; [done|]. rewrite Hr. unfold after_error, KERNEL_CS. by destruct (u16 (eip c) =? 8).
Qed.

(** A page fault at 5000 faults again in the stub; one at 0x30008 goes on at 11, the
    value of EAX. *)
Lemma stub_err_faults_at_iret_witness :
  interrupted demo_callee 9999 8 7000 (Some 2) (DEFINTWRAPPER_ERR 3000 14) demo_cpu = Fault GeneralProtection ∧
  ∃ c, interrupted demo_callee 9999 8 7000 (Some 2) (DEFINTWRAPPER_ERR 3000 14) (set_eip demo_cpu 0x30008) = Ok c ∧
    eip c = 11 ∧ ebp (regs c) = 16.
Proof.
  assert (Hm : mapped (memory demo_cpu) (1200 - 76) 76) by (eapply mapped_sub; [apply (zeros_mapped 512 1000)|lia..]).
  split.
  - destruct (stub_err_faults_at_iret demo_callee 9999 demo_cpu 8 7000 3000 14 (DEFINTWRAPPER_ERR 3000 14) 2) as (c1 & c2 & _ & _ & H);
      [words|exact demo_wf|cbn [demo_cpu regs esp]; lia|exact Hm|words|words|by apply demo_c_function|do 5 right; left|exact H].
  - destruct (stub_err_faults_at_iret demo_callee 9999 (set_eip demo_cpu 0x30008) 8 7000 3000 14 (DEFINTWRAPPER_ERR 3000 14) 2)
      as (c1 & c2 & _ & _ & H);
      [words|by destruct demo_wf; split; try done; words|cbn [set_eip demo_cpu regs esp]; lia|exact Hm|words|words
      |by apply demo_c_function|do 5 right; left|].
    eexists. split; [exact H|]. repeat split.
Defined.
