(* ===== verification/Sched.v ===== *)
(** Tasks, wait queues, the scheduler and the timer tick.

    Sources: kernel/kernel/scheduler/scheduler.c, kernel/kernel/scheduler/wait.c,
    kernel/include/kernel/scheduler/{task,wait,scheduler}.h,
    kernel/arch/i386/kernel/scheduler/task.c, kernel/arch/i386/kernel/irq/timer.c.

    Tasks and wait queue entries are objects that point to each other, so they
    live in stores indexed by address; 0 is NULL.  The spin locks, with
    interrupts off, make each operation atomic.  [task_switch], which
    saves and loads the registers, is in TaskSwitch.v; here a switch is the change
    of [running_task]. *)
From S2P Require Import Prelude Linked.

Definition TASK_RUNNING : Z := 0.
Definition TASK_INTERRUPTIBLE : Z := 1.
Definition TASK_UNINTERRUPTIBLE : Z := 2.
Definition HZ : Z := 200.

Record registers_t : Type := Regs {
  eax : Z; ebx : Z; ecx : Z; edx : Z; esi : Z; edi : Z;
  esp : Z; ebp : Z; eip : Z; eflags : Z; cr3 : Z;
}.

Record task_t : Type := Task { regs : registers_t; next : Z; name : Z; state : Z }.

Record wait_queue_t : Type := Wq { wq_next : Z; wq_task : Z }.

Record t : Type := Sched {
  task_store : gmap Z task_t;
  wait_store : gmap Z wait_queue_t;
  queue_heads : gmap Z Z;
  tasks : Z;
  tasks_tail : Z;
  running_task : Z;
  jiffies : Z;
}.

Definition set_tasks (s : t) (m : gmap Z task_t) : t :=
  Sched m (wait_store s) (queue_heads s) (tasks s) (tasks_tail s) (running_task s) (jiffies s).
Definition set_waits (s : t) (m : gmap Z wait_queue_t) : t :=
  Sched (task_store s) m (queue_heads s) (tasks s) (tasks_tail s) (running_task s) (jiffies s).
Definition set_heads (s : t) (m : gmap Z Z) : t :=
  Sched (task_store s) (wait_store s) m (tasks s) (tasks_tail s) (running_task s) (jiffies s).
Definition set_list (s : t) (hd tl : Z) : t :=
  Sched (task_store s) (wait_store s) (queue_heads s) hd tl (running_task s) (jiffies s).
Definition set_running (s : t) (p : Z) : t :=
  Sched (task_store s) (wait_store s) (queue_heads s) (tasks s) (tasks_tail s) p (jiffies s).
Definition set_jiffies (s : t) (j : Z) : t :=
  Sched (task_store s) (wait_store s) (queue_heads s) (tasks s) (tasks_tail s) (running_task s) j.

(** Dereferencing a pointer. *)
Definition deref {A} (m : gmap Z A) (p : Z) : res A :=
  match m !! p with Some x => Ok x | None => Fault NullDeref end.

Definition get_next (s : t) (p : Z) : res Z := tk ← deref (task_store s) p; Ok (next tk).
Definition get_state (s : t) (p : Z) : res Z := tk ← deref (task_store s) p; Ok (state tk).

Definition task_set_next (s : t) (p v : Z) : res t :=
  tk ← deref (task_store s) p;
  Ok (set_tasks s (<[p := Task (regs tk) v (name tk) (state tk)]> (task_store s))).

(** ** task.c *)

Definition task_set_state (s : t) (p st : Z) : res t :=
  tk ← deref (task_store s) p;
  Ok (set_tasks s (<[p := Task (regs tk) (next tk) (name tk) st]> (task_store s))).

Definition task_signal_pending (s : t) (p : Z) : bool := false.

(** The first task: zeroed but for the two registers that are read. *)
Definition task_wrap (c3 flags : Z) : task_t :=
  Task (Regs 0 0 0 0 0 0 0 0 0 flags c3) 0 0 TASK_RUNNING.

(** [junk] is what [malloc] left in [ebp], which is not initialised. *)
Definition task_inherit (c3 flags junk nm entry_point stack : Z) : task_t :=
  Task (Regs 0 0 0 0 0 0 stack junk entry_point flags c3) 0 nm TASK_RUNNING.

Definition task_create (junk nm entry_point flags page_dir stack : Z) : task_t :=
  Task (Regs 0 0 0 0 0 0 stack junk entry_point flags page_dir) 0 nm TASK_RUNNING.

(** ** wait.c *)

Definition get_head (s : t) (q : Z) : res Z := deref (queue_heads s) q.
Definition set_head (s : t) (q v : Z) : t := set_heads s (<[q := v]> (queue_heads s)).

Definition wait_queue_init (s : t) (q : Z) : t := set_head s q 0.

Definition wait_init (s : t) (wq : Z) : t := set_waits s (<[wq := Wq 0 (running_task s)]> (wait_store s)).

Definition wait_add_to_queue (s : t) (q wq : Z) : res t :=
  e ← deref (wait_store s) wq;
  h ← get_head s q;
  Ok (set_head (set_waits s (<[wq := Wq h (wq_task e)]> (wait_store s))) q wq).

Definition wait_prepare_to_wait (s : t) (q wq st : Z) : res t :=
  s ← task_set_state s (running_task s) st; wait_add_to_queue s q wq.

(** The loop as written: [curr] and [prev] are not advanced. *)
Definition remove_body (s : t) (q wq : Z) (pc : Z * Z) : res (ctl (Z * Z) t) :=
  let '(prev, curr) := pc in
  if negb (curr =? 0) then
    if curr =? wq then
      e ← deref (wait_store s) curr;
      if negb (prev =? 0) then
        p ← deref (wait_store s) prev;
        Ok (Break (set_waits s (<[prev := Wq (wq_next e) (wq_task p)]> (wait_store s))))
      else Ok (Break (set_head s q (wq_next e)))
    else Ok (Continue (prev, curr))
  else Ok (Break s).

Definition wait_remove_from_queue (fuel : nat) (s : t) (q wq : Z) : res t :=
  curr ← get_head s q;
  while fuel (remove_body s q wq) (0, curr).

Definition wait_finish (fuel : nat) (s : t) (q wq : Z) : res t :=
  s ← task_set_state s (running_task s) TASK_RUNNING; wait_remove_from_queue fuel s q wq.

Definition wake_body (q : Z) (sw : t * Z) : res (ctl (t * Z) t) :=
  let '(s, wq) := sw in
  if negb (wq =? 0) then
    e ← deref (wait_store s) wq;
    s ← task_set_state s (wq_task e) TASK_RUNNING;
    (* [wq->next] is read after the state change, which does not touch it *)
    let s := set_head s q (wq_next e) in
    wq ← get_head s q;
    Ok (Continue (s, wq))
  else Ok (Break s).

Definition wait_wake_up_interruptible (fuel : nat) (s : t) (q : Z) : res t :=
  wq ← get_head s q; while fuel (wake_body q) (s, wq).

(** ** scheduler.c *)

(** The address of [timer_queue]. *)
Definition timer_queue : Z := 1.

(** [p] is the address of the wrapped task. *)
Definition scheduler_initialize (s : t) (p c3 flags : Z) : res t :=
  let s := wait_queue_init s timer_queue in
  let s := set_tasks s (<[p := task_wrap c3 flags]> (task_store s)) in
  let s := set_list s p p in
  s ← task_set_next s p p;
  Ok (set_running s p).

Definition scheduler_timer (fuel : nat) (s : t) : res t := wait_wake_up_interruptible fuel s timer_queue.

Definition scheduler_next_running_task (fuel : nat) (s : t) (task : Z) : res Z :=
  curr ← get_next s task;
  while fuel
    (λ curr, if negb (curr =? 0) then
               st ← get_state s curr;
               if negb (st =? TASK_RUNNING) && negb (curr =? task) then
                 n ← get_next s curr; Ok (Continue n)
               else Ok (Break curr)
             else Ok (Break curr)) curr.

Definition scheduler_yield (fuel : nat) (s : t) : res t :=
  next ← scheduler_next_running_task fuel s (running_task s);
  if next =? running_task s then Ok s else Ok (set_running s next).

Definition ticks_to_ms (ticks : Z) : Z := u64 (ticks * 1000) / HZ.

Definition timer_range_to_ms (ticks_start ticks_end : Z) : Z := ticks_to_ms (u64 (ticks_end - ticks_start)).

(** The condition [scheduler_sleep] waits for. *)
Definition sleep_over (s : t) (sleep_start ms : Z) : bool :=
  ms <=? timer_range_to_ms sleep_start (jiffies s).

Definition tasks_insert (s : t) (task : Z) : res t :=
  s ← task_set_next s task (tasks s);
  s ← task_set_next s (tasks_tail s) task;
  Ok (set_list s (tasks s) task).

Definition tasks_remove (fuel : nat) (s : t) (task : Z) : res t :=
  if task =? tasks s then
    n ← get_next s task;
    s ← task_set_next s (tasks_tail s) n;
    n ← get_next s task;
    Ok (set_list s n (tasks_tail s))
  else
    curr ← get_next s (tasks s);
    '(prev, curr) ← while fuel
      (λ pc : Z * Z, let '(prev, curr) := pc in
         if negb (curr =? tasks_tail s) && negb (curr =? task)
         then n ← get_next s curr; Ok (Continue (curr, n))
         else Ok (Break (prev, curr))) (tasks s, curr);
    if curr =? task then
      n ← get_next s curr;
      s ← task_set_next s prev n;
      if curr =? tasks_tail s then Ok (set_list s (tasks s) prev) else Ok s
    else Ok s.

(** Not called by anything. *)
Definition scheduler_remove_task (fuel : nat) (s : t) (task : Z) : res t :=
  let prev := tasks_tail s in
  let curr := tasks s in
  s ← (if task =? tasks s then
         n ← get_next s task; s ← task_set_next s (tasks_tail s) n; Ok (set_list s task (tasks_tail s))
       else Ok s);
  while fuel
    (λ st : t * Z * Z, let '(s, prev, curr) := st in
       if negb (curr =? tasks_tail s) then
         if curr =? task then
           n ← get_next s curr;
           s ← task_set_next s prev n;
           if curr =? tasks s then Ok (Break (set_list s prev (tasks_tail s)))
           else n ← get_next s curr; Ok (Continue (s, curr, n))
         else n ← get_next s curr; Ok (Continue (s, curr, n))
       else Ok (Break s)) (s, prev, curr).

(** The switch is to the next task of the ring, in whatever state it is. *)
Definition scheduler_exit (fuel : nat) (s : t) : res t :=
  n ← get_next s (running_task s);
  if (n =? 0) || (n =? running_task s) then Fault Panicked
  else
    let from := running_task s in
    let s := set_running s n in
    tasks_remove fuel s from.

(** [p] is the address that malloc returned for the new task, [stack] that of its
    4096-byte stack.  The task is filled in without a test for NULL. *)
Definition scheduler_create_thread (s : t) (p nm entry_point stack junk c3 flags : Z) : res t :=
  if p =? 0 then Fault Unmapped
  else
    let s := set_tasks s (<[p := task_inherit c3 flags junk nm entry_point (stack + 4096)]> (task_store s)) in
    tasks_insert s p.

(** ** The macros of wait.h *)

(** One turn of the [for(;;)] of __WAIT_EVENT_INTERRUPTIBLE with a condition
    that has the value [condition]: [true] when the wait is over. *)
Definition wait_event_turn (fuel : nat) (s : t) (q wq : Z) (condition : bool) : res (bool * t) :=
  s ← wait_prepare_to_wait s q wq TASK_INTERRUPTIBLE;
  if condition then s ← wait_finish fuel s q wq; Ok (true, s)
  else
    if negb (task_signal_pending s (running_task s)) then
      s ← scheduler_yield fuel s; Ok (false, s)
    else Ok (false, s).

(** ** timer.c *)

Definition timer_handler (fuel : nat) (s : t) : res t :=
  let s := set_jiffies s (u32 (jiffies s + 1)) in
  scheduler_timer fuel s.

(** ** The ring of tasks *)

Definition next_of (m : gmap Z task_t) (p : Z) : option Z := next <$> m !! p.

Lemma path_task m ts q a : path (next_of m) ts q → a ∈ ts → is_Some (m !! a).
Proof. intros Hp Ha. destruct (path_mem _ _ _ _ Hp Ha) as [n Hn]. unfold next_of in Hn. destruct (m !! a); [eauto|done]. Qed.

(** The tasks [ts] form the ring. *)
Record ring (m : gmap Z task_t) (ts : list Z) : Prop := {
  ring_path : path (next_of m) ts (hd 0 ts);
  ring_nodup : NoDup ts;
  ring_null : 0 ∉ ts;
}.

Lemma ring_rotate m a ts : ring m (a :: ts) → ring m (ts ++ [a]).
Proof.
  intros [Hp Hn H0]. split.
  - cbn in Hp. destruct Hp as [Ha Hp]. apply path_app.
    assert (hd 0 (ts ++ [a]) = hd a ts) as -> by by destruct ts. cbn. split; [done|]. split; [done|done].
  - rewrite Permutation_app_comm. exact Hn.
  - rewrite elem_of_app, list_elem_of_singleton. rewrite elem_of_cons in H0. tauto.
Qed.

Definition is_running (m : gmap Z task_t) (p : Z) : bool :=
  match m !! p with Some tk => state tk =? TASK_RUNNING | None => false end.

(** The first running task after [t0] in the ring [t0 :: r]; [t0] without one. *)
Definition next_spec (m : gmap Z task_t) (t0 : Z) (r : list Z) : Z :=
  default t0 (head (filter (λ p, is_running m p = true) r)).

Lemma get_next_ok s p n : next_of (task_store s) p = Some n → get_next s p = Ok n.
Proof.
  unfold next_of, get_next, deref. destruct (task_store s !! p); cbn; [|done]. by intros [= ->].
Qed.

Lemma get_state_ok s p tk : task_store s !! p = Some tk → get_state s p = Ok (state tk).
Proof. intros H. unfold get_state, deref. by rewrite H. Qed.

Lemma next_running_ok fuel s t0 r :
  ring (task_store s) (t0 :: r) → (length r < fuel)%nat →
  scheduler_next_running_task fuel s t0 = Ok (next_spec (task_store s) t0 r).
Proof.
  intros [Hp Hn H0] Hf. unfold scheduler_next_running_task.
  destruct (path_task _ _ _ t0 Hp) as [tk0 Htk0]; [by left|].
  destruct Hp as [Ht Hp]. cbn [hd] in *.
  rewrite (get_next_ok _ _ _ Ht). cbn [mbind res_bind].
  apply NoDup_cons in Hn as [Ht0 _]. apply not_elem_of_cons in H0 as [Ht00 H0]. clear Ht.
  unfold next_spec.
  revert fuel Hf. induction r as [|a r IH]; intros fuel Hf; (destruct fuel as [|fuel]; [cbn in Hf; lia|]); cbn [hd while].
  - rewrite (proj2 (Z.eqb_neq t0 0)) by done. rewrite (get_state_ok _ _ _ Htk0). cbn [mbind res_bind negb].
    by rewrite Z.eqb_refl, andb_false_r.
  - apply not_elem_of_cons in H0 as [Ha0 H0]. apply not_elem_of_cons in Ht0 as [Hat Ht0].
    destruct (path_task _ _ _ a Hp) as [tk Htk]; [by left|]. destruct Hp as [Ha Hp].
    rewrite (proj2 (Z.eqb_neq a 0)) by done. rewrite (get_state_ok _ _ _ Htk). cbn [mbind res_bind negb].
    assert (Hrun : is_running (task_store s) a = (state tk =? TASK_RUNNING))
      by (unfold is_running; by rewrite Htk).
    rewrite filter_cons. rewrite (proj2 (Z.eqb_neq a t0)) by done. rewrite andb_true_r.
    destruct (state tk =? TASK_RUNNING); cbn [negb]; [by rewrite decide_True|].
    rewrite decide_False by congruence. rewrite (get_next_ok _ _ _ Ha). cbn [mbind res_bind].
    apply IH; [done|done|done|cbn in Hf; lia].
Qed.

(** One [scheduler_yield]: the next running task of the ring gets the processor. *)
Lemma yield_ok fuel s r :
  ring (task_store s) (running_task s :: r) → (length r < fuel)%nat →
  scheduler_yield fuel s = Ok (set_running s (next_spec (task_store s) (running_task s) r)).
Proof.
  intros Hr Hf. unfold scheduler_yield. rewrite (next_running_ok _ _ _ r) by done.
  cbn [mbind res_bind]. case_test; [|done]. rewrite Heqb. by destruct s.
Qed.

Fixpoint yields (fuel n : nat) (s : t) : res t :=
  match n with O => Ok s | S n => s ← scheduler_yield fuel s; yields fuel n s end.

Lemma set_running_twice s p q : set_running (set_running s p) q = set_running s q.
Proof. done. Qed.

Lemma next_spec_all m t0 r :
  Forall (λ p, is_running m p = true) r → next_spec m t0 r = hd t0 r.
Proof.
  unfold next_spec. destruct 1 as [|a r Ha Hr]; [done|]. by rewrite filter_cons, decide_True.
Qed.

Lemma yields_ok fuel n s r :
  ring (task_store s) (running_task s :: r) →
  Forall (λ p, is_running (task_store s) p = true) (running_task s :: r) →
  (length r < fuel)%nat →
  ∃ p, yields fuel n s = Ok (set_running s p) ∧
       (running_task s :: r) !! (n mod S (length r))%nat = Some p.
Proof.
  revert s r. induction n as [|n IH]; intros s r Hr Ha Hf; cbn [yields].
  - exists (running_task s). rewrite Nat.Div0.mod_0_l. split; [by destruct s|done].
  - rewrite (yield_ok fuel s r) by done. cbn [mbind res_bind].
    apply Forall_cons in Ha as [Ha0 Ha]. rewrite next_spec_all by done.
    destruct r as [|b r]; cbn [hd].
    + destruct (IH (set_running s (running_task s)) []) as (p & Hp & Hl); [by destruct s|by constructor|done|].
      exists p. rewrite Hp. split; [done|]. cbn [length] in *. rewrite Nat.mod_1_r in *. done.
    + destruct (IH (set_running s b) (r ++ [running_task s])) as (p & Hp & Hl).
      * apply (ring_rotate _ _ _ Hr).
      * cbn. apply Forall_cons in Ha as [Hb Ha]. constructor; [done|]. apply Forall_app. by repeat constructor.
      * rewrite length_app. cbn in *. lia.
      * exists p. rewrite Hp. split; [done|]. rewrite <- Hl. cbn [set_running running_task].
        rewrite length_app. cbn [length]. rewrite Nat.add_1_r.
        set (k := length r) in *.
        assert (Hnm : (n mod S (S k) < S (S k))%nat) by (apply Nat.mod_upper_bound; lia).
        assert (HS : (S n mod S (S k) = if decide (n mod S (S k) = S k) then 0 else S (n mod S (S k)))%nat).
        { rewrite <- (Nat.add_1_r n), <- Nat.Div0.add_mod_idemp_l. case_decide as Hd.
          - rewrite Hd, Nat.add_1_r. apply Nat.Div0.mod_same.
          - rewrite Nat.mod_small by lia. lia. }
        rewrite HS. case_decide as Hd.
        -- rewrite Hd. assert ((r ++ [running_task s]) !! k = Some (running_task s)) as Hk
             by by apply list_lookup_middle.
           symmetry. exact Hk.
        -- destruct (n mod S (S k))%nat as [|i] eqn:Ei; [done|].
           assert ((r ++ [running_task s]) !! i = r !! i) as Hk
             by (apply lookup_app_l; unfold k in *; lia).
           symmetry. exact Hk.
Qed.

(** ** Inserting and removing tasks *)

(** The list behind [tasks] and [tasks_tail]. *)
Definition task_list (s : t) (ts : list Z) : Prop :=
  ring (task_store s) ts ∧ tasks s = hd 0 ts ∧ last ts = Some (tasks_tail s).

#[local] Arguments next_of : simpl never.

Definition upd_next (m : gmap Z task_t) (p v : Z) : gmap Z task_t :=
  alter (λ tk, Task (regs tk) v (name tk) (state tk)) p m.

Arguments upd_next : simpl never.

Lemma next_of_upd m p v a :
  next_of (upd_next m p v) a = if decide (a = p) then (λ _, v) <$> m !! p else next_of m a.
Proof.
  unfold next_of, upd_next. case_decide as Hd.
  - subst. rewrite lookup_alter_eq. by destruct (m !! p).
  - by rewrite lookup_alter_ne.
Qed.

Lemma store_next_ok s p v :
  is_Some (task_store s !! p) → task_set_next s p v = Ok (set_tasks s (upd_next (task_store s) p v)).
Proof.
  intros [tk Htk]. unfold task_set_next, deref, upd_next. rewrite Htk. cbn [mbind res_bind].
  do 2 f_equal. apply map_eq. intros q. destruct (decide (p = q)) as [->|].
  - by rewrite lookup_insert_eq, lookup_alter_eq, Htk.
  - by rewrite lookup_insert_ne, lookup_alter_ne.
Qed.

Lemma path_upd_other m p v ts q : p ∉ ts → path (next_of m) ts q → path (next_of (upd_next m p v)) ts q.
Proof.
  intros Hp. apply path_frame. intros a Ha. rewrite next_of_upd, decide_False; [done|]. by intros ->.
Qed.

(** Redirecting the last link. *)
Lemma path_upd_last m ts z q q' :
  NoDup ts → last ts = Some z → path (next_of m) ts q → path (next_of (upd_next m z q')) ts q'.
Proof.
  intros Hn Hl Hp. eapply path_redirect_last; [done|done| | |done].
  - intros a _ Ha. by rewrite next_of_upd, decide_False.
  - destruct (path_mem _ _ _ z Hp) as [n Hz]; [by apply last_Some_elem_of|].
    rewrite next_of_upd, decide_True by done. unfold next_of in Hz. by destruct (m !! z).
Qed.

Lemma tail_in_list s ts : task_list s ts → tasks_tail s ∈ ts.
Proof. intros (_ & _ & Hl). by apply last_Some_elem_of. Qed.

Lemma insert_ok s ts p :
  task_list s ts → p ∉ ts → p ≠ 0 → is_Some (task_store s !! p) →
  ∃ s', tasks_insert s p = Ok s' ∧ task_list s' (ts ++ [p]) ∧
    running_task s' = running_task s ∧ wait_store s' = wait_store s ∧ queue_heads s' = queue_heads s.
Proof.
  intros Hl Hp Hp0 Hs. pose proof Hl as ([Hpath Hnd H0] & Ht & Htl).
  pose proof (tail_in_list s ts Hl) as Htail.
  unfold tasks_insert. rewrite store_next_ok by done. cbn [mbind res_bind].
  rewrite store_next_ok.
  2:{ cbn. destruct (path_task _ _ _ _ Hpath Htail) as [tk Htk]. unfold upd_next.
      rewrite lookup_alter_ne by (intros ->; done). rewrite Htk. eauto. }
  cbn [mbind res_bind]. eexists. split; [done|]. split; [|done]. split; [split|].
  - cbn. apply path_app. cbn [hd path]. split.
    + eapply path_upd_last; [done|done|]. by apply path_upd_other.
    + split; [|done]. rewrite next_of_upd, decide_False by (intros ->; done).
      rewrite next_of_upd, decide_True by done. destruct Hs as [tk ->]. cbn. f_equal.
      rewrite Ht. destruct ts; [done|done].
  - apply NoDup_app. split; [done|]. split; [|by apply NoDup_singleton].
    intros a Ha. rewrite list_elem_of_singleton. by intros ->.
  - rewrite elem_of_app, list_elem_of_singleton. naive_solver.
  - cbn. split; [|apply last_snoc]. rewrite Ht. destruct ts; [done|done].
Qed.

(** The search for the predecessor of [a] in the tail of the list. *)
Lemma remove_walk fuel s l1 a prev :
  (∀ x, x ∈ l1 → x ≠ tasks_tail s ∧ x ≠ a) →
  path (next_of (task_store s)) l1 a → (length l1 < fuel)%nat →
  while fuel
    (λ pc : Z * Z, let '(prev, curr) := pc in
       if negb (curr =? tasks_tail s) && negb (curr =? a)
       then n ← get_next s curr; Ok (Continue (curr, n))
       else Ok (Break (prev, curr))) (prev, hd a l1) = Ok (default prev (last l1), a).
Proof.
  revert prev fuel. induction l1 as [|b l1 IH]; intros prev fuel Hne Hp Hf;
    (destruct fuel as [|fuel]; [cbn in Hf; lia|]); cbn [hd while].
  - rewrite Z.eqb_refl, andb_false_r. done.
  - destruct (Hne b) as [H1 H2]; [by left|]. destruct Hp as [Hb Hp].
    rewrite (proj2 (Z.eqb_neq _ _)) by done. rewrite (proj2 (Z.eqb_neq b a)) by done. cbn [negb andb].
    rewrite (get_next_ok _ _ _ Hb). cbn [mbind res_bind].
    rewrite IH; [|intros x Hx; apply Hne; by right|done|cbn in Hf; lia].
    rewrite last_cons. by destruct (last l1).
Qed.

Lemma remove_head_ok fuel s a r :
  task_list s (a :: r) → r ≠ [] →
  ∃ s', tasks_remove fuel s a = Ok s' ∧ task_list s' r ∧ running_task s' = running_task s.
Proof.
  intros Hl Hr. pose proof Hl as ([Hpath Hnd H0] & Ht & Htl). destruct r as [|b r]; [done|].
  rewrite last_cons_cons in Htl. apply NoDup_cons in Hnd as [Ha Hnd].
  assert (Hne : a ≠ tasks_tail s) by (intros ->; apply Ha; by apply last_Some_elem_of).
  destruct Hpath as [Hna Hpath]. cbn [hd] in *.
  unfold tasks_remove. rewrite (proj2 (Z.eqb_eq _ _)) by done.
  rewrite (get_next_ok _ _ _ Hna). cbn [mbind res_bind].
  rewrite store_next_ok by (apply (path_task _ _ _ _ Hpath); by apply last_Some_elem_of).
  cbn [mbind res_bind]. rewrite (get_next_ok _ _ b).
  2:{ cbn. by rewrite next_of_upd, decide_False. }
  cbn [mbind res_bind]. eexists. split; [done|]. split; [|done]. split; [split|done].
  - by apply (path_upd_last (task_store s) (b :: r) (tasks_tail s) a b).
  - done.
  - rewrite elem_of_cons in H0. tauto.
Qed.

Lemma remove_later_ok fuel s h l1 a l2 :
  task_list s (h :: l1 ++ a :: l2) → (length l1 < fuel)%nat →
  ∃ s', tasks_remove fuel s a = Ok s' ∧ task_list s' (h :: l1 ++ l2) ∧ running_task s' = running_task s.
Proof.
  intros Hl Hf. pose proof Hl as ([Hpath Hnd H0] & Ht & Htl).
  change (h :: l1 ++ a :: l2) with ((h :: l1) ++ a :: l2) in *.
  pose proof Hnd as (Hnd1 & Hnd12 & [Ha2 Hnd2]%NoDup_cons)%NoDup_app.
  apply path_app in Hpath as [Hp1 Hp2]. cbn [hd] in *.
  assert (Hha : a ≠ h) by (intros ->; apply (Hnd12 h); [by left|by left]).
  destruct Hp1 as [Hh Hp1]. destruct Hp2 as [Hna Hp2].
  unfold tasks_remove. rewrite Ht. cbn [hd app]. rewrite (proj2 (Z.eqb_neq a h)) by done.
  rewrite (get_next_ok _ _ _ Hh). cbn [mbind res_bind].
  rewrite remove_walk; [| |done|done].
  2:{ intros x Hx. split; intros ->.
      - apply (Hnd12 (tasks_tail s)); [by right|]. apply last_Some_elem_of. by rewrite last_app_cons in Htl.
      - apply (Hnd12 a); [by right|by left]. }
  cbn [mbind res_bind]. rewrite Z.eqb_refl. rewrite (get_next_ok _ _ _ Hna). cbn [mbind res_bind].
  set (pv := default h (last l1)).
  assert (Hpv : last (h :: l1) = Some pv) by (unfold pv; rewrite last_cons; by destruct (last l1)).
  assert (Hpath1 : path (next_of (task_store s)) (h :: l1) a) by (split; done).
  assert (Hpvin : pv ∈ h :: l1) by by apply last_Some_elem_of.
  rewrite store_next_ok by (by eapply path_task).
  cbn [mbind res_bind].
  assert (Hring : ring (upd_next (task_store s) pv (hd h l2)) ((h :: l1) ++ l2)).
  { split.
    - apply path_app. cbn [hd app]. split; [by eapply path_upd_last|].
      apply path_upd_other; [|done]. intros Hin. apply (Hnd12 pv); [done|]. by right.
    - apply NoDup_app. split; [done|]. split; [|done]. intros x Hx Hx2. apply (Hnd12 x); [done|]. by right.
    - set_solver. }
  rewrite last_app_cons in Htl. cbn [tasks_tail set_tasks].
  destruct l2 as [|b l2].
  - injection Htl as <-. rewrite Z.eqb_refl. eexists. split; [done|]. split; [|done].
    rewrite app_nil_r in *. split; [done|]. split; done.
  - rewrite (proj2 (Z.eqb_neq a _)).
    2:{ intros ->. apply Ha2. rewrite last_cons_cons in Htl. by apply last_Some_elem_of. }
    eexists. split; [done|]. split; [|done]. split; [done|]. split; [done|].
    cbn [tasks_tail set_tasks]. rewrite last_cons_cons in Htl.
    change (h :: l1 ++ b :: l2) with ((h :: l1) ++ b :: l2). by rewrite last_app_cons.
Qed.

(** ** Wait queues *)

(** The queue from entry [p] on consists of the entries [qs]. *)
Fixpoint queue (m : gmap Z wait_queue_t) (p : Z) (qs : list Z) : Prop :=
  match qs with
  | [] => p = 0
  | w :: qs => p = w ∧ w ≠ 0 ∧ ∃ e, m !! w = Some e ∧ queue m (wq_next e) qs
  end.

(** The tasks of the entries. *)
Definition waiters (m : gmap Z wait_queue_t) (qs : list Z) : list Z :=
  omap (λ w, wq_task <$> m !! w) qs.

Definition with_state (tk : task_t) (st : Z) : task_t := Task (regs tk) (next tk) (name tk) st.

(** All tasks of [ps] made running. *)
Definition woken (m : gmap Z task_t) (ps : list Z) : gmap Z task_t :=
  foldl (λ m p, alter (λ tk, with_state tk TASK_RUNNING) p m) m ps.

Lemma set_state_ok s p st :
  is_Some (task_store s !! p) →
  task_set_state s p st = Ok (set_tasks s (alter (λ tk, with_state tk st) p (task_store s))).
Proof.
  intros [tk Htk]. unfold task_set_state, deref. rewrite Htk. cbn [mbind res_bind].
  do 2 f_equal. apply map_eq. intros q. destruct (decide (p = q)) as [->|].
  - by rewrite lookup_insert_eq, lookup_alter_eq, Htk.
  - by rewrite lookup_insert_ne, lookup_alter_ne.
Qed.

Lemma wake_body_step q s w e :
  w ≠ 0 → wait_store s !! w = Some e → is_Some (task_store s !! wq_task e) →
  wake_body q (s, w)
  = Ok (Continue (set_head (set_tasks s (alter (λ tk, with_state tk TASK_RUNNING) (wq_task e) (task_store s)))
                    q (wq_next e), wq_next e)).
Proof.
  intros Hw He Ht. unfold wake_body. rewrite (proj2 (Z.eqb_neq w 0)) by done. cbn [negb].
  unfold deref at 1. rewrite He. cbn [mbind res_bind]. rewrite set_state_ok by done. cbn [mbind res_bind].
  unfold get_head, deref. cbn [set_head set_heads set_tasks queue_heads]. by rewrite lookup_insert_eq.
Qed.

Lemma wake_loop fuel q s qs p :
  queue (wait_store s) p qs →
  Forall (λ x, is_Some (task_store s !! x)) (waiters (wait_store s) qs) → (length qs < fuel)%nat →
  queue_heads s !! q = Some p →
  while fuel (wake_body q) (s, p)
  = Ok (set_head (set_tasks s (woken (task_store s) (waiters (wait_store s) qs))) q 0).
Proof.
  revert s p fuel. induction qs as [|w qs IH]; intros s p fuel Hq Ht Hf Hp;
    (destruct fuel as [|fuel]; [cbn in Hf; lia|]); cbn [while].
  - cbn in Hq. subst p. cbn. do 2 f_equal. destruct s. unfold set_head, set_heads, set_tasks. cbn in *.
    by rewrite insert_id.
  - destruct Hq as (-> & Hw & e & He & Hq).
    unfold waiters in Ht. cbn [omap list_omap] in Ht. rewrite He in Ht. cbn in Ht.
    apply Forall_cons in Ht as [Hte Ht]. rewrite (wake_body_step q s w e) by done. cbn [mbind res_bind].
    rewrite IH; cbn; [|done| |cbn in Hf; lia|by rewrite lookup_insert_eq].
    + unfold set_head, set_heads, set_tasks, waiters. cbn. by rewrite insert_insert_eq, He.
    + eapply Forall_impl; [exact Ht|]. intros x [tk Hx]. cbn.
      destruct (decide (wq_task e = x)) as [->|].
      * rewrite lookup_alter_eq, Hx. eauto.
      * rewrite lookup_alter_ne by done. eauto.
Qed.

Lemma woken_lookup m ps x tk :
  m !! x = Some tk →
  woken m ps !! x = Some (if decide (x ∈ ps) then with_state tk TASK_RUNNING else tk).
Proof.
  revert m tk. induction ps as [|p ps IH]; intros m tk Hx; [done|]. cbn [woken foldl].
  fold (woken (alter (λ tk, with_state tk TASK_RUNNING) p m) ps).
  destruct (decide (p = x)) as [->|Hne].
  - rewrite (IH _ (with_state tk TASK_RUNNING)) by (by rewrite lookup_alter_eq, Hx).
    rewrite (decide_True (P := x ∈ x :: ps)) by by left. by case_decide.
  - rewrite (IH _ tk) by (by rewrite lookup_alter_ne). 
    destruct (decide (x ∈ ps)) as [Hin|Hin].
    + by rewrite decide_True by by right.
    + rewrite decide_False; [done|]. rewrite elem_of_cons. naive_solver.
Qed.

(** An entry that is its own successor: the queue a second
    [wait_prepare_to_wait] makes. *)
Lemma wake_self_loop fuel q s w e :
  w ≠ 0 → wait_store s !! w = Some e → wq_next e = w → is_Some (task_store s !! wq_task e) →
  while fuel (wake_body q) (s, w) = Fault OutOfFuel.
Proof.
  intros Hw He Hself Ht.
  apply (while_diverges (λ sw, sw.2 = w ∧ wait_store sw.1 !! w = Some e ∧ is_Some (task_store sw.1 !! wq_task e)));
    [|done].
  intros [s' p] (Hp & He' & Ht'). cbn [fst snd] in *. subst p.
  rewrite (wake_body_step q s' w e) by done. rewrite Hself.
  eexists. split; [done|]. cbn. split; [done|]. split; [done|].
  destruct Ht' as [tk Htk]. rewrite lookup_alter_eq, Htk. eauto.
Qed.

Lemma prepare_ok s q w st e h :
  is_Some (task_store s !! running_task s) → wait_store s !! w = Some e → queue_heads s !! q = Some h →
  wait_prepare_to_wait s q w st
  = Ok (set_head (set_waits (set_tasks s (alter (λ tk, with_state tk st) (running_task s) (task_store s)))
           (<[w := Wq h (wq_task e)]> (wait_store s))) q w).
Proof.
  intros Ht He Hh. unfold wait_prepare_to_wait. rewrite set_state_ok by done. cbn [mbind res_bind].
  unfold wait_add_to_queue, get_head, deref. cbn [set_tasks wait_store queue_heads]. rewrite He, Hh. done.
Qed.

Lemma ring_alter_state m ts p st :
  ring m ts → ring (alter (λ tk, with_state tk st) p m) ts.
Proof.
  intros [Hp Hn H0]. split; [|done..]. eapply path_frame; [|done]. intros a _. unfold next_of.
  destruct (decide (p = a)) as [->|]; [|by rewrite lookup_alter_ne].
  rewrite lookup_alter_eq. by destruct (m !! a).
Qed.

(** The state after [wait_prepare_to_wait] of an entry [w] of the running task. *)
Definition prepared (s : t) (q w h : Z) : t :=
  set_head (set_waits (set_tasks s (alter (λ tk, with_state tk TASK_INTERRUPTIBLE) (running_task s) (task_store s)))
    (<[w := Wq h (running_task s)]> (wait_store s))) q w.

Lemma turn_alone fuel s q w e h r :
  ring (task_store s) (running_task s :: r) →
  Forall (λ p, is_running (task_store s) p = false) r → (length r < fuel)%nat →
  wait_store s !! w = Some e → wq_task e = running_task s → queue_heads s !! q = Some h →
  wait_event_turn fuel s q w false = Ok (false, prepared s q w h) ∧
  ring (task_store (prepared s q w h)) (running_task s :: r) ∧
  Forall (λ p, is_running (task_store (prepared s q w h)) p = false) r.
Proof.
  intros Hr Hn Hf He Het Hh.
  assert (Hr' : ring (task_store (prepared s q w h)) (running_task s :: r)) by by apply ring_alter_state.
  assert (Hn' : Forall (λ p, is_running (task_store (prepared s q w h)) p = false) r).
  { rewrite Forall_forall in Hn |- *. intros p Hp. specialize (Hn p Hp). unfold is_running in *. cbn.
    rewrite lookup_alter_ne; [done|]. intros Heq. apply ring_nodup in Hr.
    apply NoDup_cons in Hr as [Hx _]. by rewrite Heq in Hx. }
  split; [|done]. unfold wait_event_turn.
  destruct (path_task _ _ _ (running_task s) (ring_path _ _ Hr)) as [tk Htk]; [by left|].
  rewrite (prepare_ok s q w TASK_INTERRUPTIBLE e h) by eauto. cbn [mbind res_bind task_signal_pending negb].
  rewrite Het. fold (prepared s q w h). rewrite (yield_ok fuel (prepared s q w h) r) by done.
  cbn [mbind res_bind].
  assert (next_spec (task_store (prepared s q w h)) (running_task (prepared s q w h)) r = running_task s) as ->.
  { unfold next_spec. assert (filter (λ p, is_running (task_store (prepared s q w h)) p = true) r = []) as ->; [|done].
    clear -Hn'. induction Hn' as [|p r Hp Hr IH]; [done|]. by rewrite filter_cons, decide_False by congruence. }
  done.
Qed.

(** ** The properties of the scheduler *)

(** C9: [scheduler_yield] always ends (a ring and more fuel than tasks) and gives
    the processor to the first running task after the current one in the ring;
    with no other running task the current one keeps it.  Nothing else changes. *)
Theorem yield_next_running fuel s r :
  ring (task_store s) (running_task s :: r) → (length r < fuel)%nat →
  scheduler_yield fuel s = Ok (set_running s (next_spec (task_store s) (running_task s) r)) ∧
  (next_spec (task_store s) (running_task s) r = running_task s ∨
   is_running (task_store s) (next_spec (task_store s) (running_task s) r) = true).
Proof.
  intros Hr Hf. split; [by apply yield_ok|]. unfold next_spec.
  destruct (filter _ r) as [|p l] eqn:E; [by left|]. right. cbn.
  assert (Hin : p ∈ filter (λ p, is_running (task_store s) p = true) r) by (rewrite E; by left).
  by apply list_elem_of_filter in Hin as [? _].
Qed.

(** C22: when every task of the ring is running, [n] yields give the processor to
    the task [n] places further in the ring: nobody is skipped, and after one
    round the first task is back. *)
Theorem yield_round_robin fuel n s r :
  ring (task_store s) (running_task s :: r) →
  Forall (λ p, is_running (task_store s) p = true) (running_task s :: r) →
  (length r < fuel)%nat →
  ∃ p, yields fuel n s = Ok (set_running s p) ∧
       (running_task s :: r) !! (n mod S (length r))%nat = Some p.
Proof. apply yields_ok. Qed.

(** [scheduler_create_thread] appends the new task to the task list, as a
    running task that will start at its entry point on top of its stack. *)
Theorem create_thread_appends s ts p nm entry stack junk c3 flags :
  task_list s ts → p ∉ ts → p ≠ 0 →
  ∃ s' tk, scheduler_create_thread s p nm entry stack junk c3 flags = Ok s' ∧
    task_list s' (ts ++ [p]) ∧ running_task s' = running_task s ∧
    task_store s' !! p = Some tk ∧ state tk = TASK_RUNNING ∧
    eip (regs tk) = entry ∧ esp (regs tk) = stack + 4096.
Proof.
  intros Hl Hp Hp0. unfold scheduler_create_thread. test_false (p =? 0).
  set (tk0 := task_inherit c3 flags junk nm entry (stack + 4096)).
  set (s1 := set_tasks s (<[p := tk0]> (task_store s))).
  assert (Hl1 : task_list s1 ts).
  { destruct Hl as ([Hpath Hn H0] & Ht & Htl). split; [|done]. split; [|done..].
    eapply path_frame; [|done]. intros a Ha. unfold next_of. cbn.
    by rewrite lookup_insert_ne by (intros ->; done). }
  destruct (insert_ok s1 ts p Hl1 Hp Hp0) as (s' & Hs' & Hl' & Hr & _); [cbn; rewrite lookup_insert_eq; eauto|].
  pose proof (tail_in_list _ _ Hl1) as Htl.
  assert (Hstore : task_store s' !! p = Some (Task (regs tk0) (tasks s) (name tk0) (state tk0))).
  { unfold tasks_insert in Hs'. rewrite store_next_ok in Hs' by (cbn; rewrite lookup_insert_eq; eauto).
    cbn [mbind res_bind] in Hs'. rewrite store_next_ok in Hs'.
    - cbn [mbind res_bind] in Hs'. injection Hs' as <-. cbn. unfold upd_next.
      rewrite lookup_alter_ne by (intros Heq; cbn in Htl; congruence).
      by rewrite lookup_alter_eq, lookup_insert_eq.
    - cbn. unfold upd_next. cbn in Htl. rewrite lookup_alter_ne by (intros Heq; congruence).
      apply (path_task _ ts (hd 0 ts)); [apply Hl1|done]. }
  exists s', (Task (regs tk0) (tasks s) (name tk0) (state tk0)). split_and!; done.
Qed.

(** [scheduler_exit] of a task that is not alone passes the processor to its
    successor in the ring and removes it, wherever it is in the list (head,
    middle or tail). *)
Theorem exit_removes_task fuel s l1 l2 b r :
  task_list s (l1 ++ running_task s :: l2) → l2 ++ l1 = b :: r →
  (length l1 < fuel)%nat →
  ∃ s', scheduler_exit fuel s = Ok s' ∧ task_list s' (l1 ++ l2) ∧ running_task s' = b.
Proof.
  intros Hl Hb Hf. pose proof Hl as ([Hpath Hnd H0] & Ht & Htl).
  set (a := running_task s) in *.
  assert (Hnext : next_of (task_store s) a = Some b).
  { apply path_app in Hpath as [_ Hpath]. destruct Hpath as [Ha _]. rewrite Ha. f_equal.
    destruct l2; cbn in Hb; [destruct l1; simplify_eq; done|simplify_eq; done]. }
  assert (Hbin : b ∈ l2 ++ l1) by (rewrite Hb; by left).
  assert (b ≠ 0 ∧ b ≠ a) as [Hb0 Hba].
  { split; intros ->; [set_solver|]. apply NoDup_app in Hnd as (_ & H12 & [H2 _]%NoDup_cons). set_solver. }
  unfold scheduler_exit. fold a. rewrite (get_next_ok _ _ _ Hnext). cbn [mbind res_bind].
  rewrite !(proj2 (Z.eqb_neq _ _)) by done. cbn [orb].
  assert (Hl' : task_list (set_running s b) (l1 ++ a :: l2)) by done.
  destruct l1 as [|h l1].
  - cbn [app] in *. destruct (remove_head_ok fuel _ a l2 Hl') as (s' & Hs & Hls & Hr).
    + intros ->. done.
    + exists s'. done.
  - destruct (remove_later_ok fuel _ h l1 a l2 Hl') as (s' & Hs & Hls & Hr); [cbn in Hf; lia|].
    exists s'. done.
Qed.

(** C23: [wait_wake_up_interruptible] on a well-formed queue ends, empties the
    queue and makes exactly the tasks of its entries running. *)
Theorem wake_up_wakes_all fuel s q p qs :
  queue_heads s !! q = Some p → queue (wait_store s) p qs →
  Forall (λ x, is_Some (task_store s !! x)) (waiters (wait_store s) qs) → (length qs < fuel)%nat →
  ∃ s', wait_wake_up_interruptible fuel s q = Ok s' ∧ queue_heads s' !! q = Some 0 ∧
    ∀ x tk, task_store s !! x = Some tk →
      task_store s' !! x = Some (if decide (x ∈ waiters (wait_store s) qs)
                                 then with_state tk TASK_RUNNING else tk).
Proof.
  intros Hp Hq Ht Hf. unfold wait_wake_up_interruptible, get_head, deref. rewrite Hp. cbn [mbind res_bind].
  rewrite (wake_loop fuel q s qs p) by done. eexists. split; [done|]. cbn.
  split; [by rewrite lookup_insert_eq|]. intros x tk Hx. by apply woken_lookup.
Qed.

(** [wait_remove_from_queue] ends at once when the queue is empty or the entry
    is its first one, and never otherwise: the loop does not advance. *)
Theorem wait_remove_only_head fuel s q w h :
  queue_heads s !! q = Some h → h ≠ 0 → h ≠ w →
  wait_remove_from_queue fuel s q w = Fault OutOfFuel.
Proof.
  intros Hh H0 Hw. unfold wait_remove_from_queue, get_head, deref. rewrite Hh. cbn [mbind res_bind].
  apply (while_diverges (λ pc, pc = (0, h))); [|done]. intros [prev curr] [= -> ->].
  unfold remove_body. rewrite (proj2 (Z.eqb_neq h 0)), (proj2 (Z.eqb_neq h w)) by done. cbn [negb]. eauto.
Qed.

(** A task that waits while no other task is running comes back from
    [scheduler_yield] at once and puts its entry on the queue a second time; the
    entry is then its own successor, and the next wake-up of that queue (for
    [timer_queue], the next timer interrupt) never ends. *)
Theorem lone_waiter_hangs fuel fuel' s q w e r :
  ring (task_store s) (running_task s :: r) →
  Forall (λ p, is_running (task_store s) p = false) r → (length r < fuel)%nat →
  w ≠ 0 → wait_store s !! w = Some e → wq_task e = running_task s → queue_heads s !! q = Some 0 →
  ∃ s1 s2, wait_event_turn fuel s q w false = Ok (false, s1) ∧
    wait_event_turn fuel s1 q w false = Ok (false, s2) ∧
    wait_wake_up_interruptible fuel' s2 q = Fault OutOfFuel.
Proof.
  intros Hr Hn Hf Hw He Het Hh.
  destruct (turn_alone fuel s q w e 0 r) as (H1 & Hr1 & Hn1); [done..|].
  exists (prepared s q w 0), (prepared (prepared s q w 0) q w w). split; [done|].
  destruct (turn_alone fuel (prepared s q w 0) q w (Wq 0 (running_task s)) w r) as (H2 & Hr2 & Hn2);
    [done|done|done|cbn; by rewrite lookup_insert_eq|done|cbn; by rewrite lookup_insert_eq|].
  split; [done|]. unfold wait_wake_up_interruptible, get_head, deref. cbn [prepared set_head set_heads queue_heads].
  rewrite lookup_insert_eq. cbn [mbind res_bind].
  apply (wake_self_loop _ _ _ w (Wq w (running_task s))); [done| |done|].
  - cbn. by rewrite lookup_insert_eq.
  - apply (path_task _ _ _ _ (ring_path _ _ Hr2)). by left.
Qed.

(** ** Examples: two tasks at 8 and 16, one queue at 1 *)

Definition demo_regs : registers_t := Regs 0 0 0 0 0 0 0 0 0 0 0.
Definition demo_sched (st1 st2 : Z) : t :=
  Sched {[8 := Task demo_regs 16 0 st1; 16 := Task demo_regs 8 0 st2]}
        {[32 := Wq 0 8]} {[1 := 0]} 8 16 8 0.

Lemma demo_ring st1 st2 : ring (task_store (demo_sched st1 st2)) [8; 16].
Proof. split; [done|by repeat (constructor; [set_solver|]); constructor|set_solver]. Qed.

Lemma demo_task_list : task_list (demo_sched 0 0) [8; 16].
Proof. split; [apply demo_ring|done]. Qed.

Lemma yield_next_running_witness :
  scheduler_yield 5 (demo_sched 0 0) = Ok (set_running (demo_sched 0 0) 16).
Proof. apply (yield_next_running 5 (demo_sched 0 0) [16]); [apply demo_ring|cbn; lia]. Defined.

Lemma yield_round_robin_witness :
  ∃ p, yields 5 3 (demo_sched 0 0) = Ok (set_running (demo_sched 0 0) p) ∧ p = 16.
Proof.
  destruct (yield_round_robin 5 3 (demo_sched 0 0) [16]) as (p & Hp & Hl);
    [apply demo_ring|by repeat constructor|cbn; lia|].
  exists p. split; [exact Hp|]. cbn in Hl. congruence.
Defined.

Lemma create_thread_appends_witness :
  ∃ s', scheduler_create_thread (demo_sched 0 0) 24 7 1000 4096 0 0 0 = Ok s' ∧ task_list s' [8; 16; 24].
Proof.
  destruct (create_thread_appends (demo_sched 0 0) [8; 16] 24 7 1000 4096 0 0 0) as (s' & tk & H & Hl & _);
    [exact demo_task_list|set_solver|lia|].
  exists s'. split; [exact H|exact Hl].
Defined.

Lemma exit_removes_task_witness :
  ∃ s', scheduler_exit 5 (demo_sched 0 0) = Ok s' ∧ task_list s' [16] ∧ running_task s' = 16.
Proof.
  destruct (exit_removes_task 5 (demo_sched 0 0) [] [16] 16 []) as (s' & H);
    [exact demo_task_list|reflexivity|cbn; lia|].
  exists s'. exact H.
Defined.

Definition demo_waiting : t := set_head (demo_sched 1 0) 1 32.

Lemma wake_up_wakes_all_witness :
  ∃ s', wait_wake_up_interruptible 5 demo_waiting 1 = Ok s' ∧ queue_heads s' !! 1 = Some 0.
Proof.
  destruct (wake_up_wakes_all 5 demo_waiting 1 32 [32]) as (s' & H & Hh & _);
    [reflexivity
    |split; [reflexivity|split; [lia|exists (Wq 0 8); split; reflexivity]]
    |repeat constructor; eexists; reflexivity|cbn; lia|].
  exists s'. split; [exact H|exact Hh].
Defined.

Lemma wait_remove_only_head_witness :
  wait_remove_from_queue 1000 demo_waiting 1 40 = Fault OutOfFuel.
Proof. apply (wait_remove_only_head 1000 demo_waiting 1 40 32); [reflexivity|lia|lia]. Defined.

Lemma lone_waiter_hangs_witness :
  ∃ s1 s2, wait_event_turn 5 (demo_sched 0 1) 1 32 false = Ok (false, s1) ∧
    wait_event_turn 5 s1 1 32 false = Ok (false, s2) ∧
    wait_wake_up_interruptible 1000 s2 1 = Fault OutOfFuel.
Proof.
  apply (lone_waiter_hangs 5 1000 (demo_sched 0 1) 1 32 (Wq 0 8) [16]);
    [apply demo_ring|by repeat constructor|cbn; lia|lia|reflexivity|reflexivity|reflexivity].
Defined.
