(* ===== verification/SchedMachine.v ===== *)
(** The scheduler as a state machine.

    Every call of another part of the kernel that touches tasks or wait queues
    (Sched.v) is a step.  The ring of tasks is an invariant of all reachable
    states, so that the next yield ends and the processor always has a task. *)
From S2P Require Import Prelude Linked Sched.

(** The same ring, the same running task. *)
Record keeps (s s' : Sched.t) : Prop := {
  keeps_tasks : tasks s' = tasks s;
  keeps_tail : tasks_tail s' = tasks_tail s;
  keeps_running : running_task s' = running_task s;
  keeps_next : ∀ p, next_of (task_store s') p = next_of (task_store s) p;
}.

#[export] Instance keeps_preorder : PreOrder keeps.
Proof.
  split; [by split|]. intros s1 s2 s3 [A1 B1 C1 D1] [A2 B2 C2 D2]. split; [congruence..|]. intros p. by rewrite D2, D1.
Qed.

(** Whatever [r] ends with keeps the ring of [s]. *)
Definition kept (s : Sched.t) (r : res Sched.t) : Prop := post (keeps s) (λ _, True) r.

Lemma kept_bind s r k : kept s r → (∀ s', keeps s s' → kept s' (k s')) → kept s (r ≫= k).
Proof.
  intros Hr Hk. eapply post_bind; [exact Hr|]. intros s' Hs'. eapply post_mono; [by apply Hk| |done].
  intros s'' Hs''. by etrans.
Qed.

Lemma kept_read {A} s (r : res A) k : (∀ x, kept s (k x)) → kept s (r ≫= k).
Proof. intros Hk. eapply (post_bind (λ _, True)); [by destruct r|]. intros x _. apply Hk. Qed.

Create HintDb kept.

Lemma set_state_kept s p st : kept s (task_set_state s p st).
Proof.
  unfold task_set_state, deref. destruct (task_store s !! p) as [tk|] eqn:E; [|done]. split; [done..|].
  intros q. unfold next_of. cbn. destruct (decide (p = q)) as [<-|]; [by rewrite lookup_insert_eq, E|by rewrite lookup_insert_ne].
Qed.
#[export] Hint Resolve set_state_kept : kept.

Lemma waits_kept s m : kept s (Ok (set_waits s m)).
Proof. by split. Qed.
#[export] Hint Resolve waits_kept : kept.

Lemma heads_kept s q v : kept s (Ok (set_head s q v)).
Proof. by split. Qed.
#[export] Hint Resolve heads_kept : kept.

Lemma add_kept s q wq : kept s (wait_add_to_queue s q wq).
Proof. unfold wait_add_to_queue. do 2 (apply kept_read; intros). by split. Qed.
#[export] Hint Resolve add_kept : kept.

Lemma prepare_kept s q wq st : kept s (wait_prepare_to_wait s q wq st).
Proof. unfold wait_prepare_to_wait. apply kept_bind; auto with kept. Qed.

Lemma remove_kept fuel s q wq : kept s (wait_remove_from_queue fuel s q wq).
Proof.
  unfold wait_remove_from_queue. apply kept_read. intros curr. apply (while_partial (λ _, True)); [|done].
  intros [prev c] _. unfold remove_body, deref. repeat case_match; cbn; try done; repeat case_match; cbn; try done; by split.
Qed.
#[export] Hint Resolve remove_kept : kept.

Lemma finish_kept fuel s q wq : kept s (wait_finish fuel s q wq).
Proof. unfold wait_finish. apply kept_bind; auto with kept. Qed.

Lemma wake_kept fuel s q : kept s (wait_wake_up_interruptible fuel s q).
Proof.
  unfold wait_wake_up_interruptible. apply kept_read. intros wq. apply (while_partial (λ sw, keeps s sw.1)); [|cbn; reflexivity].
  intros [s1 w] Hs. cbn [fst] in Hs. unfold wake_body. destruct (negb _); [|exact Hs].
  eapply (post_bind (λ _, True)); [by destruct (deref _ _)|]. intros e _.
  eapply (post_bind (keeps s1)); [apply set_state_kept|]. intros s2 Hs2.
  eapply (post_bind (λ _, True)); [by destruct (get_head _ _)|]. intros h _. cbn. do 2 (etrans; [eassumption|]). by split.
Qed.

Lemma tick_kept fuel s : kept s (timer_handler fuel s).
Proof.
  unfold timer_handler, scheduler_timer. cbv zeta. eapply post_mono; [apply wake_kept| |done]. intros s' Hs. etrans; [|exact Hs]. by split.
Qed.

(** ** Steps *)

Section machine.
Variable fuel : nat.

Inductive sched_step : Sched.t → Sched.t → Prop :=
  | do_create s s' p nm entry stack junk c3 flags :
      task_store s !! p = None → scheduler_create_thread s p nm entry stack junk c3 flags = Ok s' → sched_step s s'
  | do_yield s s' : scheduler_yield fuel s = Ok s' → sched_step s s'
  | do_exit s s' : scheduler_exit fuel s = Ok s' → sched_step s s'
  | do_queue_init s q : sched_step s (wait_queue_init s q)
  | do_init s wq : sched_step s (wait_init s wq)
  | do_prepare s s' q wq st : wait_prepare_to_wait s q wq st = Ok s' → sched_step s s'
  | do_finish s s' q wq : wait_finish fuel s q wq = Ok s' → sched_step s s'
  | do_wake s s' q : wait_wake_up_interruptible fuel s q = Ok s' → sched_step s s'
  | do_tick s s' : timer_handler fuel s = Ok s' → sched_step s s'.

(** The states after [scheduler_initialize]. *)
Inductive reachable : Sched.t → Prop :=
  | reach_init s p c3 flags s' : p ≠ 0 → scheduler_initialize s p c3 flags = Ok s' → reachable s'
  | reach_step s s' : reachable s → sched_step s s' → reachable s'.

(** The running task is in the ring. *)
Definition sched_ok (s : Sched.t) : Prop := ∃ l1 l2, task_list s (l1 ++ running_task s :: l2).

Lemma sched_ok_keeps s s' : keeps s s' → sched_ok s → sched_ok s'.
Proof.
  intros [Ht Htl Hr Hn] (l1 & l2 & [Hp Hnd H0] & Hh & Hl). exists l1, l2. rewrite Hr. split; [|by rewrite Ht, Htl].
  split; [|done..]. eapply path_frame; [|done]. intros a _. apply Hn.
Qed.

Lemma ring_rotate_app m l1 l2 : ring m (l1 ++ l2) → ring m (l2 ++ l1).
Proof.
  revert l2. induction l1 as [|a l1 IH]; intros l2 Hr; [by rewrite app_nil_r|].
  cbn [app] in Hr. apply ring_rotate in Hr. rewrite <- (assoc_L (++)) in Hr. apply IH in Hr. by rewrite <- (assoc_L (++)) in Hr.
Qed.

Lemma task_list_ring s l1 l2 : task_list s (l1 ++ running_task s :: l2) → ring (task_store s) (running_task s :: l2 ++ l1).
Proof. intros [Hr _]. by apply ring_rotate_app in Hr. Qed.

(** The next running task is in the ring. *)
Lemma next_spec_in m a r : next_spec m a r ∈ a :: r.
Proof.
  unfold next_spec. destruct (filter _ r) as [|p l] eqn:E; cbn; [by left|]. right.
  assert (p ∈ filter (λ p, is_running m p = true) r) as Hp by (rewrite E; by left). by apply list_elem_of_filter in Hp as [_ ?].
Qed.

Lemma next_running_fuel f f' s a x :
  scheduler_next_running_task f s a = Ok x → (f ≤ f')%nat → scheduler_next_running_task f' s a = Ok x.
Proof.
  unfold scheduler_next_running_task. destruct (get_next s a); [|done]. cbn [mbind res_bind]. apply while_fuel_mono.
Qed.

Lemma yield_running_ok f s s' : sched_ok s → scheduler_yield f s = Ok s' → sched_ok s'.
Proof.
  intros (l1 & l2 & Hl) Hy. pose proof (task_list_ring s l1 l2 Hl) as Hring. unfold scheduler_yield in Hy.
  destruct (scheduler_next_running_task f s (running_task s)) as [x|] eqn:Ex; [|done]. cbn [mbind res_bind] in Hy.
  pose proof (next_running_fuel _ (f + S (length (l2 ++ l1))) _ _ _ Ex ltac:(lia)) as Ex'.
  rewrite (next_running_ok _ _ _ (l2 ++ l1)) in Ex' by (done || lia). injection Ex' as <-.
  destruct (_ =? _); injection Hy as <-; [by exists l1, l2|].
  assert (Hin : next_spec (task_store s) (running_task s) (l2 ++ l1) ∈ l1 ++ running_task s :: l2).
  { pose proof (next_spec_in (task_store s) (running_task s) (l2 ++ l1)) as Hin. set_solver. }
  apply list_elem_of_split in Hin as (k1 & k2 & Hk). exists k1, k2. cbn [running_task set_running]. rewrite <- Hk. exact Hl.
Qed.

Lemma remove_fuel f f' s a s' : tasks_remove f s a = Ok s' → (f ≤ f')%nat → tasks_remove f' s a = Ok s'.
Proof.
  unfold tasks_remove. intros Hs Hf. destruct (a =? tasks s); [done|].
  destruct (get_next s (tasks s)) as [c|]; [|done]. cbn [mbind res_bind] in *.
  destruct (while f _ _) as [pc|] eqn:Ew; [|done]. rewrite (while_fuel_mono _ f f' _ pc) by done. exact Hs.
Qed.

(** The task that exits is removed; its successor is in the ring. *)
Lemma exit_ok f s l1 l2 s' :
  task_list s (l1 ++ running_task s :: l2) → scheduler_exit f s = Ok s' → task_list s' (l1 ++ l2) ∧ running_task s' ∈ l1 ++ l2.
Proof.
  intros Hl Hs. pose proof (task_list_ring s l1 l2 Hl) as [[Hnext Hpath] Hnd H0].
  unfold scheduler_exit in Hs. rewrite (get_next_ok _ _ _ Hnext) in Hs. cbn [mbind res_bind] in Hs.
  set (a := running_task s) in *. cbn [hd] in *.
  destruct (l2 ++ l1) as [|b r] eqn:Eb.
  { cbn [hd] in Hs. rewrite Z.eqb_refl, orb_true_r in Hs. done. }
  cbn [hd] in *. destruct (_ || _); [done|]. cbv zeta in Hs.
  assert (Hb : b ∈ l1 ++ l2) by (assert (b ∈ l2 ++ l1) by (rewrite Eb; by left); set_solver).
  assert (Hl' : task_list (set_running s b) (l1 ++ a :: l2)) by done.
  apply (remove_fuel _ (f + S (length l1))) in Hs; [|lia]. destruct l1 as [|h l1]; cbn [app] in *.
  - destruct (remove_head_ok (f + S (length (@nil Z))) _ a l2 Hl') as (s2 & Hs2 & Hls & Hr); [by intros ->|].
    rewrite Hs2 in Hs. injection Hs as <-. by rewrite Hr.
  - destruct (remove_later_ok (f + S (length (h :: l1))) _ h l1 a l2 Hl') as (s2 & Hs2 & Hls & Hr); [cbn; lia|].
    rewrite Hs2 in Hs. injection Hs as <-. by rewrite Hr.
Qed.

Lemma exit_succeeds f s l1 l2 :
  task_list s (l1 ++ running_task s :: l2) → l1 ++ l2 ≠ [] → (length l1 < f)%nat → ∃ s', scheduler_exit f s = Ok s'.
Proof.
  intros Hl Hne Hf. pose proof (task_list_ring s l1 l2 Hl) as [[Hnext Hpath] Hnd H0].
  set (a := running_task s) in *. apply NoDup_cons in Hnd as [Ha Hnd]. apply not_elem_of_cons in H0 as [_ H0].
  unfold scheduler_exit. fold a. rewrite (get_next_ok _ _ _ Hnext). cbn [mbind res_bind].
  destruct (l2 ++ l1) as [|b r] eqn:Eb.
  { apply app_nil in Eb as [-> ->]. done. }
  cbn [hd]. apply not_elem_of_cons in H0 as [Hb0 _]. apply not_elem_of_cons in Ha as [Hab _].
  rewrite !(proj2 (Z.eqb_neq _ _)) by done. cbn [orb]. cbv zeta.
  assert (Hl' : task_list (set_running s b) (l1 ++ a :: l2)) by done. destruct l1 as [|h l1]; cbn [app] in *.
  - destruct (remove_head_ok f _ a l2 Hl') as (s2 & -> & _); [by intros ->|eauto].
  - destruct (remove_later_ok f _ h l1 a l2 Hl') as (s2 & -> & _); [cbn in Hf; lia|eauto].
Qed.

Lemma is_running_upd m a v q : is_running (upd_next m a v) q = is_running m q.
Proof.
  unfold is_running, upd_next. destruct (decide (a = q)) as [->|]; [|by rewrite lookup_alter_ne].
  rewrite lookup_alter_eq. by destruct (m !! q).
Qed.

Lemma set_next_running s p v s' q :
  task_set_next s p v = Ok s' → is_running (task_store s') q = is_running (task_store s) q.
Proof.
  unfold task_set_next, deref. destruct (task_store s !! p) as [tk|] eqn:E; [|done]. intros [= <-]. cbn. unfold is_running.
  destruct (decide (p = q)) as [<-|]; [by rewrite lookup_insert_eq, E|by rewrite lookup_insert_ne].
Qed.

(** An exit changes the state of no task. *)
Lemma exit_running f s s' q : scheduler_exit f s = Ok s' → is_running (task_store s') q = is_running (task_store s) q.
Proof.
  unfold scheduler_exit, tasks_remove. intros Hs. apply bind_ok in Hs as (n & _ & Hs).
  destruct (_ || _); [done|]. cbv zeta in Hs. destruct (_ =? _).
  - apply bind_ok in Hs as (n2 & _ & Hs). apply bind_ok in Hs as (s1 & Hs1 & Hs). apply bind_ok in Hs as (n3 & _ & Hs).
    injection Hs as <-. cbn. by rewrite (set_next_running _ _ _ _ q Hs1).
  - apply bind_ok in Hs as (c & _ & Hs). apply bind_ok in Hs as ([prev curr] & _ & Hs). destruct (_ =? _); [|by injection Hs as <-].
    apply bind_ok in Hs as (n2 & _ & Hs). apply bind_ok in Hs as (s1 & Hs1 & Hs).
    destruct (_ =? _); injection Hs as <-; cbn; by rewrite (set_next_running _ _ _ _ q Hs1).
Qed.

(** A new task joins the ring at its end, running; the others are as before. *)
Lemma create_ok s ts p nm entry stack junk c3 flags :
  task_list s ts → p ∉ ts → p ≠ 0 →
  ∃ s', scheduler_create_thread s p nm entry stack junk c3 flags = Ok s' ∧ task_list s' (ts ++ [p]) ∧
    running_task s' = running_task s ∧ is_running (task_store s') p = true ∧
    ∀ q, q ≠ p → is_running (task_store s') q = is_running (task_store s) q.
Proof.
  intros Hl Hp Hp0. unfold scheduler_create_thread. test_false (p =? 0). set (tk0 := task_inherit _ _ _ _ _ _).
  set (s1 := set_tasks s (<[p := tk0]> (task_store s))).
  assert (Hl1 : task_list s1 ts).
  { destruct Hl as ([Hpath Hn H0] & Ht & Htl). split; [|done]. split; [|done..].
    eapply path_frame; [|done]. intros a Ha. unfold next_of. cbn. by rewrite lookup_insert_ne by (intros ->; done). }
  destruct (insert_ok s1 ts p Hl1 Hp Hp0) as (s' & Hs' & Hl' & Hr & _); [cbn; rewrite lookup_insert_eq; eauto|].
  exists s'. split; [done|]. split; [done|]. split; [done|].
  assert (Hsame : ∀ q, is_running (task_store s') q = is_running (task_store s1) q).
  { unfold tasks_insert in Hs'. rewrite store_next_ok in Hs' by (cbn; rewrite lookup_insert_eq; eauto). cbn [mbind res_bind] in Hs'.
    rewrite store_next_ok in Hs'.
    2:{ cbn. unfold upd_next. apply lookup_alter_is_Some. apply (path_task _ ts (hd 0 ts)); [apply Hl1|]. by eapply tail_in_list. }
    cbn [mbind res_bind] in Hs'. injection Hs' as <-. intros q. cbn. by rewrite !is_running_upd. }
  split; [|intros q Hq]; rewrite Hsame; unfold is_running, s1; cbn; [by rewrite lookup_insert_eq|by rewrite lookup_insert_ne].
Qed.

End machine.

Lemma sched_init_ok s p c3 flags s' :
  p ≠ 0 → scheduler_initialize s p c3 flags = Ok s' → task_list s' [p] ∧ running_task s' = p.
Proof.
  intros Hp Hs. unfold scheduler_initialize in Hs. cbv zeta in Hs. rewrite store_next_ok in Hs by (cbn; rewrite lookup_insert_eq; eauto).
  cbn [mbind res_bind] in Hs. injection Hs as <-. split; [|done]. split; [|done]. split; [|by apply NoDup_singleton|set_solver].
  split; [|done]. cbn [hd]. change (task_store (set_running ?x _)) with (task_store x). cbn [set_tasks task_store].
  rewrite next_of_upd, decide_True by done. cbn. by rewrite lookup_insert_eq.
Qed.

Lemma initialize_succeeds s p c3 flags : ∃ s', scheduler_initialize s p c3 flags = Ok s'.
Proof.
  unfold scheduler_initialize. cbv zeta. rewrite store_next_ok by (cbn; rewrite lookup_insert_eq; eauto). cbn [mbind res_bind]. eauto.
Qed.

Lemma fresh_not_in s ts p : task_list s ts → task_store s !! p = None → p ∉ ts.
Proof. intros [[Hp _ _] _] Hs Hin. destruct (path_task _ _ _ p Hp Hin) as [tk Htk]. congruence. Qed.

Lemma create_at s p nm entry stack junk c3 flags s' :
  scheduler_create_thread s p nm entry stack junk c3 flags = Ok s' → p ≠ 0.
Proof. intros H ->. discriminate H. Qed.

Lemma step_ok fuel s s' : sched_ok s → sched_step fuel s s' → sched_ok s'.
Proof.
  intros Hok Hstep.
  assert (Hkept : ∀ r, kept s r → r = Ok s' → sched_ok s').
  { intros r Hr ->. by eapply sched_ok_keeps. }
  inversion Hstep as [? ? p nm entry stack junk c3 flags Hf Hs|? ? Hs|? ? Hs| | |? ? q wq st Hs|? ? q wq Hs|? ? q Hs|? ? Hs]; subst.
  - destruct Hok as (l1 & l2 & Hl). destruct (create_ok s _ p nm entry stack junk c3 flags Hl (fresh_not_in _ _ _ Hl Hf) (create_at _ _ _ _ _ _ _ _ _ Hs)) as (s2 & Hs2 & Hl2 & Hr & _).
    rewrite Hs in Hs2. injection Hs2 as <-. exists l1, (l2 ++ [p]). rewrite Hr. by rewrite <- (assoc_L (++)) in Hl2.
  - by eapply yield_running_ok.
  - destruct Hok as (l1 & l2 & Hl). destruct (exit_ok fuel s l1 l2 s' Hl Hs) as [Hl' Hin].
    apply list_elem_of_split in Hin as (k1 & k2 & Hk). exists k1, k2. by rewrite <- Hk.
  - eapply sched_ok_keeps; [|done]. by split.
  - eapply sched_ok_keeps; [|done]. by split.
  - by eapply Hkept; [apply prepare_kept|].
  - by eapply Hkept; [apply finish_kept|].
  - by eapply Hkept; [apply wake_kept|].
  - by eapply Hkept; [apply tick_kept|].
Qed.

Lemma reachable_ok fuel s : reachable fuel s → sched_ok s.
Proof.
  induction 1 as [s p c3 flags s' Hp Hs|s s' _ IH Hs]; [|by eapply step_ok].
  destruct (sched_init_ok _ _ _ _ _ Hp Hs) as [Hl Hr]. exists [], []. by rewrite Hr.
Qed.

(** ** Property *)

(** C8: In every state that the kernel can reach through the operations of the
    scheduler, in any order, the tasks form one ring with the running task in it:
    the next yield ends and picks a task of the ring; an exit either removes
    exactly the running task, or panics, and it panics exactly when this is the
    last task; and a new task is appended to the ring whenever malloc has memory for
    it, that is, returns an address that is not NULL and not in use.  Wake-ups, waits and timer
    interrupts never touch the ring. *)
Theorem scheduler_ring_invariant fuel s :
  reachable fuel s → ∃ l1 l2, task_list s (l1 ++ running_task s :: l2) ∧
    (∃ x, scheduler_yield (S (length (l1 ++ l2))) s = Ok (set_running s x) ∧ x ∈ l1 ++ running_task s :: l2) ∧
    (l1 ++ l2 = [] → scheduler_exit (S (length l1)) s = Fault Panicked) ∧
    (l1 ++ l2 ≠ [] → ∃ s', scheduler_exit (S (length l1)) s = Ok s' ∧ task_list s' (l1 ++ l2) ∧ running_task s' ∈ l1 ++ l2) ∧
    (∀ p nm entry stack junk c3 flags, task_store s !! p = None → p ≠ 0 →
       ∃ s', scheduler_create_thread s p nm entry stack junk c3 flags = Ok s' ∧ task_list s' (l1 ++ running_task s :: l2 ++ [p])).
Proof.
  intros Hreach. destruct (reachable_ok fuel s Hreach) as (l1 & l2 & Hl). exists l1, l2. split; [exact Hl|].
  pose proof (task_list_ring s l1 l2 Hl) as Hring. split; [|split; [|split]].
  - eexists. rewrite (yield_ok _ _ (l2 ++ l1)) by (rewrite ?length_app; done || lia). split; [done|].
    pose proof (next_spec_in (task_store s) (running_task s) (l2 ++ l1)). set_solver.
  - intros [-> ->]%app_nil. unfold scheduler_exit. destruct Hring as [[Hn _] _ _]. rewrite (get_next_ok _ _ _ Hn).
    cbn [mbind res_bind hd app]. by rewrite Z.eqb_refl, orb_true_r.
  - intros Hne. destruct (exit_succeeds (S (length l1)) s l1 l2 Hl Hne) as (s' & Hs'); [lia|]. exists s'.
    split; [done|]. by eapply exit_ok.
  - intros p nm entry stack junk c3 flags Hf Hp.
    destruct (create_ok s _ p nm entry stack junk c3 flags Hl (fresh_not_in _ _ _ Hl Hf) Hp) as (s' & Hs' & Hl' & _).
    exists s'. split; [done|]. by rewrite <- (assoc_L (++)) in Hl'.
Qed.

Lemma scheduler_ring_invariant_witness :
  ∃ s, reachable 5 s ∧ task_list s [8; 16] ∧ running_task s = 16 ∧
    ∃ l1 l2, task_list s (l1 ++ running_task s :: l2) ∧
      (∃ x, scheduler_yield (S (length (l1 ++ l2))) s = Ok (set_running s x) ∧ x ∈ l1 ++ running_task s :: l2).
Proof.
  set (s0 := Sched.Sched ∅ ∅ ∅ 0 0 0 0).
  destruct (scheduler_initialize s0 8 0 0) as [s1|] eqn:E1; [|discriminate E1].
  destruct (sched_init_ok s0 8 0 0 s1 ltac:(lia) E1) as [L1 R1].
  destruct (create_ok s1 [8] 16 0 0 4096 0 0 0 L1) as (s2 & E2 & L2 & R2 & I2 & _); [set_solver|lia|].
  assert (E3 : scheduler_yield 5 s2 = Ok (set_running s2 16)).
  { rewrite (yield_ok 5 s2 [16]); [|rewrite R2, R1; apply L2|cbn; lia]. unfold next_spec. rewrite filter_cons_True by exact I2. done. }
  assert (Hreach : reachable 5 (set_running s2 16)).
  { eapply reach_step; [eapply reach_step; [apply (reach_init 5 s0 8 0 0 s1); [lia|exact E1]|]|].
    - apply (do_create 5 s1 s2 16 0 0 4096 0 0 0); [|exact E2]. vm_compute in E1. injection E1 as <-. vm_compute. reflexivity.
    - apply do_yield. exact E3. }
  exists (set_running s2 16). split; [exact Hreach|]. split; [exact L2|]. split; [reflexivity|].
  destruct (scheduler_ring_invariant 5 (set_running s2 16) Hreach) as (l1 & l2 & H1 & H2 & _). exists l1, l2. split; [exact H1|exact H2].
Defined.
