(* ===== verification/TaskSwitch.v ===== *)
(** The switch from one task to another.

    Source: kernel/arch/i386/kernel/scheduler/task_switch.S, with the layout of
    registers_t (scheduler/registers.h).  In the scheduler (Sched.v) a switch is the
    change of the running task; here is what it does to the processor.  Memory is
    the kernel's, which every page directory maps alike, so that a new CR3 does not
    change it. *)
From S2P Require Import Prelude Sched I386.

Definition task_switch : list instr :=
  [Pusha; Pushf; MovCr3 EAX; Push (Reg EAX);
   Mov (At 44 ESP) (Reg EAX);
   Mov (Reg EBX) (At 4 EAX); Mov (Reg ECX) (At 8 EAX); Mov (Reg EDX) (At 12 EAX);
   Mov (Reg ESI) (At 16 EAX); Mov (Reg EDI) (At 20 EAX);
   Mov (At 36 ESP) (Reg EBX); Mov (At 40 ESP) (Reg ECX); Mov (At 20 ESP) (Reg EDX); Add (Imm 4) (Reg EDX);
   Mov (At 16 ESP) (Reg ESI); Mov (At 4 ESP) (Reg EDI);
   Mov (Reg EBX) (At 0 EAX); Mov (Reg EDX) (At 24 EAX); Mov (Reg ESI) (At 28 EAX);
   Mov (Reg ECX) (At 32 EAX); Mov (Reg EDI) (At 36 EAX);
   Pop EBX; Mov (Reg EBX) (At 40 EAX); Push (Reg EBX);
   Mov (At 48 ESP) (Reg EAX);
   Mov (At 4 EAX) (Reg EBX); Mov (At 8 EAX) (Reg ECX); Mov (At 12 EAX) (Reg EDX);
   Mov (At 16 EAX) (Reg ESI); Mov (At 20 EAX) (Reg EDI); Mov (At 28 EAX) (Reg EBP);
   Push (Reg EAX); Mov (At 36 EAX) (Reg EAX); Push (Reg EAX); Popf; Pop EAX;
   Mov (At 24 EAX) (Reg ESP);
   Push (Reg EAX); Mov (At 40 EAX) (Reg EAX); SetCr3 EAX; Pop EAX;
   Push (Reg EAX); Mov (At 32 EAX) (Reg EAX); Xchg EAX (At 0 ESP); Mov (At 0 EAX) (Reg EAX);
   Ret].

(** The words of a registers_t. *)
Definition registers (r : registers_t) : list Z :=
  [Sched.eax r; Sched.ebx r; Sched.ecx r; Sched.edx r; Sched.esi r; Sched.edi r;
   Sched.esp r; Sched.ebp r; Sched.eip r; Sched.eflags r; Sched.cr3 r].

(** What is saved of a processor that goes on at [ret] behind the call. *)
Definition saved (c : cpu) (ret : Z) : registers_t :=
  let g := I386.regs c in
  Regs (eax g) (ebx g) (ecx g) (edx g) (esi g) (edi g) (esp g + 4) (ebp g) ret (Z.clearbit (eflags c) RF) (cr3 c).

(** The processor that goes on from a registers_t. *)
Definition resumed (c : cpu) (r : registers_t) (m : mem) : cpu :=
  Cpu (Gpr (Sched.eax r) (Sched.ecx r) (Sched.edx r) (Sched.ebx r) (Sched.esp r) (Sched.ebp r) (Sched.esi r) (Sched.edi r))
      (Sched.eip r) (cs c) (popf_flags (Sched.eflags r)) (ds c) (es c) (cr0 c) (Sched.cr3 r) m.

(** The four blocks of a switch: the stack that is left, with twelve free words
    below the return address and the two arguments; the two structures; and the
    word below the stack that is entered. *)
Definition switch_blocks (c : cpu) (free : list Z) (ret from to : Z) (old : list Z) (r : registers_t) (j : Z) : list (Z * list Z) :=
  [(esp (I386.regs c) - 48, free ++ [ret; from; to]); (from, old); (to, registers r); (Sched.esp r - 4, [j])].

(** A processor at the first instruction of task_switch(from, to). *)
Record switching (c : cpu) (ret from to : Z) (r : registers_t) : Prop := {
  sw_cpu : wf_cpu c;
  sw_cr3 : word (cr3 c);
  sw_regs : Forall word (registers r);
  sw_words : word ret ∧ word from ∧ word to;
  sw_room : 48 ≤ esp (I386.regs c) ∧ esp (I386.regs c) + 12 < 4294967296 ∧ from + 44 < 4294967296 ∧ to + 44 < 4294967296 ∧
            4 ≤ Sched.esp r;
  sw_memory : ∃ free old j, length free = 12%nat ∧ length old = 11%nat ∧
    blocks (memory c) (memory c) (switch_blocks c free ret from to old r j);
}.

Lemma task_switch_ok callee ra c ret from to r :
  switching c ret from to r →
  ∃ m free, run callee ra task_switch c = Ok (resumed c r m) ∧ length free = 12%nat ∧
    blocks (memory c) m (switch_blocks c free ret from to (registers (saved c ret)) r (Sched.eip r)).
Proof.
  intros [Hc Hcr Hrs (Hret & Hfr & Hto) (Hsp & Hsp2 & Hf44 & Ht44 & Hsp4) (free & old & j & Hfree & Hold & Hb)].
  do 12 (destruct free as [|? free]; [done|]). destruct free; [|done].
  do 11 (destruct old as [|? old]; [done|]). destruct old; [|done]. clear Hold Hfree.
  destruct r as [a b cx d si di sp bp ip fl pd]. unfold switch_blocks in Hb.
  cbn [app registers Sched.eax Sched.ebx Sched.ecx Sched.edx Sched.esi Sched.edi Sched.esp Sched.ebp Sched.eip Sched.eflags Sched.cr3] in *.
  repeat (apply Forall_cons in Hrs as [? Hrs]). clear Hrs.
  cbn [Sched.eax Sched.ebx Sched.ecx Sched.edx Sched.esi Sched.edi Sched.esp Sched.ebp Sched.eip Sched.eflags Sched.cr3] in *.
  destruct c as [[a0 cx0 d0 b0 s bp0 si0 di0] ip0 cs0 fl0 ds0 es0 c0 c3 m]. destruct Hc.
  cbn [I386.regs esp eip cs eflags ds es cr0 cr3 memory eax ecx edx ebx ebp esi edi] in *.
  assert (Hflag : word (Z.clearbit fl0 RF)) by (apply word_clearbit; [apply wf_flags|done]).
  unfold task_switch.
  mem_step. store_word Hb 0%nat 11%nat. store_word Hb 0%nat 10%nat. store_word Hb 0%nat 9%nat. store_word Hb 0%nat 8%nat.
  store_word Hb 0%nat 7%nat. store_word Hb 0%nat 6%nat. store_word Hb 0%nat 5%nat. store_word Hb 0%nat 4%nat.
  mem_step. store_word Hb 0%nat 3%nat. mem_step. mem_step. store_word Hb 0%nat 2%nat.
  mem_step. load_word Hb 0%nat 13%nat.
  mem_step. store_word Hb 1%nat 1%nat. mem_step. store_word Hb 1%nat 2%nat. mem_step. store_word Hb 1%nat 3%nat. mem_step. store_word Hb 1%nat 4%nat. mem_step. store_word Hb 1%nat 5%nat.
  mem_step. load_word Hb 0%nat 11%nat. mem_step. load_word Hb 0%nat 12%nat. mem_step. load_word Hb 0%nat 7%nat. mem_step. mem_step. load_word Hb 0%nat 6%nat. mem_step. load_word Hb 0%nat 3%nat.
  mem_step. store_word Hb 1%nat 0%nat. mem_step. store_word Hb 1%nat 6%nat. mem_step. store_word Hb 1%nat 7%nat. mem_step. store_word Hb 1%nat 8%nat. mem_step. store_word Hb 1%nat 9%nat.
  mem_step. load_word Hb 0%nat 2%nat. mem_step. store_word Hb 1%nat 10%nat. mem_step. store_word Hb 0%nat 2%nat.
  mem_step. load_word Hb 0%nat 14%nat. mem_step. load_word Hb 2%nat 1%nat. mem_step. load_word Hb 2%nat 2%nat. mem_step. load_word Hb 2%nat 3%nat. mem_step. load_word Hb 2%nat 4%nat. mem_step. load_word Hb 2%nat 5%nat. mem_step. load_word Hb 2%nat 7%nat.
  mem_step. store_word Hb 0%nat 1%nat. mem_step. load_word Hb 2%nat 9%nat. mem_step. store_word Hb 0%nat 0%nat. mem_step. load_word Hb 0%nat 0%nat. mem_step. load_word Hb 0%nat 1%nat.
  mem_step. load_word Hb 2%nat 6%nat. mem_step. store_word Hb 3%nat 0%nat. mem_step. load_word Hb 2%nat 10%nat. mem_step. mem_step. load_word Hb 3%nat 0%nat. mem_step. store_word Hb 3%nat 0%nat.
  mem_step. load_word Hb 2%nat 8%nat. mem_step. load_word Hb 3%nat 0%nat. store_word Hb 3%nat 0%nat. mem_step. load_word Hb 2%nat 0%nat. mem_step. load_word Hb 3%nat 0%nat. rewrite run_nil.
  eexists _, [_; _; _; _; _; _; _; _; _; _; _; _]. split; [|split; [done|]].
  - unfold resumed. cbn. do 4 f_equal. lia.
  - unfold switch_blocks, saved, registers. exact Hb.
Qed.

(** ** Lemmas *)

Lemma popf_saved fl : iret_flags fl = fl → popf_flags (Z.clearbit fl RF) = Z.clearbit fl RF.
Proof.
  intros <-. unfold popf_flags, iret_flags. rewrite !Z.clearbit_spec'. change (2 ^ RF) with 65536.
  replace 0x247FD5 with (Z.ldiff 0x257FD5 65536) by done.
  assert (H2 : Z.ldiff 2 65536 = 2) by done.
  apply Z.bits_inj'. intros n Hn. apply (f_equal (λ z, Z.testbit z n)) in H2.
  rewrite Z.ldiff_spec in H2. rewrite !Z.lor_spec, !Z.land_spec, !Z.ldiff_spec, !Z.lor_spec, !Z.land_spec.
  by destruct (Z.testbit fl n), (Z.testbit 0x257FD5 n), (Z.testbit 65536 n), (Z.testbit 2 n).
Qed.

Lemma registers_inj r r' : registers r = registers r' → r = r'.
Proof. destruct r, r'. intros [=]. by subst. Qed.

Lemma switching_to c ret from to r : switching c ret from to r → words_at (memory c) to (registers r).
Proof. intros [_ _ _ _ _ (free & old & j & _ & _ & Hb)]. by apply (bl_words _ _ _ Hb 2). Qed.

(** A task that has not run yet starts at its entry point, on its stack, in its
    address space. *)
Lemma new_task_starts callee ra c ret from to junk nm entry flags pd stack :
  switching c ret from to (Sched.regs (task_create junk nm entry flags pd stack)) →
  ∃ m, run callee ra task_switch c
    = Ok (Cpu (Gpr 0 0 0 0 stack junk 0 0) entry (cs c) (popf_flags flags) (ds c) (es c) (cr0 c) pd m).
Proof. intros Hs. destruct (task_switch_ok callee ra _ _ _ _ _ Hs) as (m & _ & Hrun & _). by exists m. Qed.

(** ** Theorems *)

(** C37: task_switch(from, to) goes on from *to, with its stack, flags and page
    directory, and leaves in *from the processor as the caller has it behind the
    call; of the memory only *from, twelve words below the stack that is left and
    one below the stack that is entered change.  When a task that switched away is
    switched back to, no matter what ran in between, it goes on behind its call with
    every register, its flags and its page directory as before, as long as its
    registers_t was left alone. *)
Theorem task_switch_round_trip callee ra c ret from to r :
  switching c ret from to r →
  ∃ m free, run callee ra task_switch c = Ok (resumed c r m) ∧ length free = 12%nat ∧
    blocks (memory c) m (switch_blocks c free ret from to (registers (saved c ret)) r (Sched.eip r)) ∧
    ∀ c1 ret1 from1 r1, switching c1 ret1 from1 from r1 →
      (∀ x, from ≤ x < from + 44 → memory c1 !! x = m !! x) →
      ∃ m1, run callee ra task_switch c1
        = Ok (Cpu (set ESP (esp (I386.regs c) + 4) (I386.regs c)) ret (cs c1) (Z.clearbit (eflags c) RF)
                  (ds c1) (es c1) (cr0 c1) (cr3 c) m1).
Proof.
  intros Hs. destruct (task_switch_ok callee ra _ _ _ _ _ Hs) as (m & free & Hrun & Hfree & Hb).
  exists m, free. split_and!; [done..|]. intros c1 ret1 from1 r1 H1 Heq.
  assert (r1 = saved c ret) as ->.
  { symmetry. apply registers_inj.
    eapply words_at_inj; [exact (bl_words _ _ _ Hb 1%nat _ _ eq_refl)|exact (switching_to _ _ _ _ _ H1)|done|exact Heq]. }
  destruct (task_switch_ok callee ra _ _ _ _ _ H1) as (m1 & _ & Hrun1 & _). exists m1. rewrite Hrun1.
  unfold resumed, saved. cbn [Sched.eax Sched.ebx Sched.ecx Sched.edx Sched.esi Sched.edi Sched.esp Sched.ebp Sched.eip Sched.eflags Sched.cr3].
  rewrite popf_saved by apply Hs. by destruct c as [[] ? ? ? ? ? ? ? ?].
Qed.

(** ** A witness: two tasks *)

Definition demo_to : registers_t := Regs 1 2 3 4 5 6 1396 7 9000 0x202 8192.

(** The running task at 1100, the other at 1150; stacks up to 1400 and at 1396. *)
Definition demo_mem : mem := poke 1288 [6000; 1100; 1150] (poke 1150 (registers demo_to) (zeros 512 1000)).
Definition demo_cpu : cpu := Cpu (Gpr 11 12 13 14 1288 15 16 17) 5000 8 0x202 16 16 0 4096 demo_mem.

(** The other task switches back at once. *)
Definition demo_back : cpu :=
  match run (λ _ c, Ok c) 0 task_switch demo_cpu with
  | Ok c => set_memory (set_reg ESP 1384 c) (poke 1384 [9100; 1150; 1100] (memory c))
  | Fault _ => demo_cpu
  end.

Lemma demo_switching : switching demo_cpu 6000 1100 1150 demo_to.
Proof.
  split.
  - split; unfold word; by_eval.
  - unfold word. by_eval.
  - unfold word. by_eval.
  - unfold word. by_eval.
  - by_eval.
  - exists (replicate 12 0), (replicate 11 0), 0. split_and!; [done..|]. unfold switch_blocks. by_blocks.
Qed.

Lemma demo_switching_back : switching demo_back 9100 1150 1100 (saved demo_cpu 6000).
Proof.
  split.
  - split; unfold word; by_eval.
  - unfold word. by_eval.
  - unfold word. by_eval.
  - unfold word. by_eval.
  - by_eval.
  - exists (peek (memory demo_back) 1336 12), (peek (memory demo_back) 1150 11), 6000. split_and!; [done..|]. unfold switch_blocks. by_blocks.
Qed.

Lemma task_switch_round_trip_witness :
  ∃ m m1, run (λ _ c, Ok c) 0 task_switch demo_cpu = Ok (resumed demo_cpu demo_to m) ∧
    run (λ _ c, Ok c) 0 task_switch demo_back = Ok (Cpu (Gpr 11 12 13 14 1292 15 16 17) 6000 8 0x202 16 16 0 4096 m1).
Proof.
  destruct (task_switch_round_trip (λ _ c, Ok c) 0 demo_cpu 6000 1100 1150 demo_to demo_switching) as (m & free & Hrun & _ & _ & H).
  destruct (H demo_back 9100 1150 (saved demo_cpu 6000) demo_switching_back) as (m1 & Hm1); [|exists m, m1; split; [exact Hrun|exact Hm1]].
  intros x Hx. unfold demo_back. rewrite Hrun. apply poke_else. cbn [length]. lia.
Defined.
