(* ===== verification/InitX86.v ===== *)
(** The start of the processor: segment descriptors, the task state segment and
    the calibration of the delay loop.

    Source: kernel/arch/i386/include/kernel/boot/gdt.h, idt.h,
    kernel/arch/i386/include/kernel/scheduler/tss.h and
    kernel/arch/i386/kernel/boot/initx86.c and
    kernel/arch/i386/kernel/delay.c. *)
From S2P Require Import Prelude I386 Ports Sched Interrupts.

(** ** gdt.h *)

Record gdt_t : Type := Gdt { gbase : Z; glimit : Z; gtype : Z }.

(** The eight bytes of a descriptor. *)
Definition gdt_encode (source : gdt_t) : res (list Z) :=
  if (65536 <? glimit source) && negb (Z.land (glimit source) 0xFFF =? 0xFFF) then Fault Panicked
  else
    let '(limit, t6) := if 65536 <? glimit source then (Z.shiftr (glimit source) 12, 0xC0) else (glimit source, 0x40) in
    Ok [Z.land limit 0xFF;
        Z.land (Z.shiftr limit 8) 0xFF;
        Z.land (gbase source) 0xFF;
        Z.land (Z.shiftr (gbase source) 8) 0xFF;
        Z.land (Z.shiftr (gbase source) 16) 0xFF;
        gtype source;
        Z.lor t6 (Z.land (Z.shiftr limit 16) 0xF);
        Z.land (Z.shiftr (gbase source) 24) 0xFF].

(** ** idt.h *)

Record idt_t : Type := Idt { base_lower : Z; iselector : Z; ist : Z; itype : Z; base_higher : Z }.

Definition idt_encode (base selector type : Z) : idt_t :=
  Idt (Z.land base 0xFFFF) selector 0 type (Z.shiftr (Z.land base 0xFFFF0000) 16).

(** ** tss.h *)

Record tss_t : Type := Tss {
  back_link : Z; esp0 : Z; ss0 : Z; esp1 : Z; ss1 : Z; esp2 : Z; ss2 : Z; tcr3 : Z; teip : Z; teflags : Z;
  teax : Z; tecx : Z; tedx : Z; tebx : Z; tesp : Z; tebp : Z; tesi : Z; tedi : Z;
  tes : Z; tcs : Z; tss : Z; tds : Z; tfs : Z; tgs : Z; tldt : Z; trace : Z; tbitmap : Z;
}.

(** [sizeof(tss_t)]: 25 fields of four bytes and two of two. *)
Definition sizeof_tss : Z := 104.

(** ** initx86.c *)

Record gdt_state : Type := GdtState { the_tss : tss_t; _gdt : list (list Z); gdt_desc : Z * Z }.

(** [tss_addr] and [gdt_addr] are the addresses of the static objects. *)
Definition init_gdt (tss_addr gdt_addr : Z) : res gdt_state :=
  let tss := Tss 0 0 0 0 0 0 0 0 0 0 0 0 0 0 0 0 0 0 0 0 0x10 0 0 0 0 sizeof_tss 0 in
  let gdt := [Gdt 0 0 0; Gdt 0 0xffffffff 0x9a; Gdt 0 0xffffffff 0x92; Gdt tss_addr sizeof_tss 0x89] in
  table ← for_up 4 0
    (λ i t, g ← aget gdt i; e ← gdt_encode g; aset t i e)
    (replicate 10 (replicate 8 0));
  Ok (GdtState tss table (79, gdt_addr)).

(** The calibration of [__delay].  [longer n] tells whether [jiffies] moves during
    [__delay(n)] started at a tick; the waits for a tick do not count. *)
Section calibrate.
Variable longer : Z → bool.

(** [while((loops_per_jiffy <<= 1) != 0)]: the loop doubles until a delay spans a
    tick or the word overflows. *)
Definition calibrate_turn (lpj : Z) : res (ctl Z Z) :=
  let lpj := u32 (Z.shiftl lpj 1) in
  if negb (lpj =? 0) then if longer lpj then Ok (Break lpj) else Ok (Continue lpj)
  else Ok (Break lpj).

Definition calibrate_up : Z → res Z := while 32 calibrate_turn.

(** [while(lps_precision-- && (loopbit >>= 1))]. *)
Fixpoint calibrate_down (lps_precision : nat) (loopbit lpj : Z) : Z :=
  match lps_precision with
  | O => lpj
  | S n =>
      let loopbit := Z.shiftr loopbit 1 in
      if negb (loopbit =? 0) then
        let lpj := Z.lor lpj loopbit in
        calibrate_down n loopbit (if longer lpj then Z.land lpj (Z.lnot loopbit) else lpj)
      else lpj
  end.

Definition calibrate : res Z :=
  lpj ← calibrate_up (Z.shiftl 1 12);
  let lpj := Z.shiftr lpj 1 in
  Ok (calibrate_down 8 lpj lpj).

End calibrate.

(** [acpi] and [timer] are [acpi_early_init] and [timer_init]; they act on the
    machine [K] too. *)
Section init_x86.
Context {K : Type} `{Ports K}.
Variable longer : Z → bool.
Variables acpi timer : K → K.

Record x86_state : Type := X86 { segments : gdt_state; interrupts : tables; loops_per_jiffy : Z }.

Definition init_x86 (tss_addr gdt_addr idt_addr : Z) (irq_stub int_stub : Z → Z) (t : tables) (k : K) :
    res (x86_state * K) :=
  g ← init_gdt tss_addr gdt_addr;
  let k := pic_init 0x20 0x28 k in
  t ← irq_init irq_stub int_stub idt_addr t;
  let k := acpi k in
  let k := timer k in
  let k := outb PIC1_DATA 0xFE k in
  let k := outb PIC2_DATA 0xFF k in
  lpj ← calibrate longer;
  let k := outb PIC1_DATA 0xFC k in
  let k := outb PIC2_DATA 0xFF k in
  Ok (X86 g t lpj, k).

End init_x86.

(** ** delay.c *)

(** The argument of [__delay], which counts it down to 0: the turns of its loop. *)
Definition __const_udelay (lpj xloops : Z) : Z :=
  let xloops := u32 (xloops * 4) in
  let xloops := xloops * u32 (lpj * (HZ / 4)) / 4294967296 in
  u32 (xloops + 1).

Definition udelay (lpj usecs : Z) : Z := __const_udelay lpj (u32 (usecs * 0x000010c7)).

(** How the processor reads a descriptor. *)
Definition byte_of (d : list Z) (i : nat) : Z := default 0 (d !! i).
Definition descriptor_base (d : list Z) : Z :=
  byte_of d 2 + 256 * byte_of d 3 + 65536 * byte_of d 4 + 16777216 * byte_of d 7.
Definition descriptor_limit (d : list Z) : Z :=
  let l := byte_of d 0 + 256 * byte_of d 1 + 65536 * (byte_of d 6 mod 16) in
  if Z.testbit (byte_of d 6) 7 then 4096 * l + 4095 else l.

(** Whether [iret] at level 0 takes a selector for the code segment: it names an
    entry of the table below its limit, whose type byte describes a code segment,
    present, of the level that the selector requests. *)
Definition iret_takes (limit sel type : Z) : bool :=
  let dpl := Z.shiftr type 5 mod 4 in
  negb (sel / 8 =? 0) && negb (Z.testbit sel 2) && (8 * (sel / 8) + 7 <=? limit) &&
  Z.testbit type 7 && Z.testbit type 4 && Z.testbit type 3 &&
  (if Z.testbit type 2 then dpl <=? sel mod 4 else dpl =? sel mod 4).

Definition iret_accepts (table : list (list Z)) (limit sel : Z) : bool :=
  iret_takes limit sel (byte_of (default [] (table !! Z.to_nat (sel / 8))) 5).

(** ** Segment descriptors *)

Lemma land_ff a : Z.land a 0xFF = a mod 256.
Proof. change 0xFF with (Z.ones 8). by rewrite Z.land_ones by lia. Qed.

Lemma land_fff a : Z.land a 0xFFF = a mod 4096.
Proof. change 0xFFF with (Z.ones 12). by rewrite Z.land_ones by lia. Qed.

Lemma land_f a : Z.land a 0xF = a mod 16.
Proof. change 0xF with (Z.ones 4). by rewrite Z.land_ones by lia. Qed.

Lemma base_bytes b :
  0 ≤ b < 4294967296 →
  b mod 256 + 256 * (Z.shiftr b 8 mod 256) + 65536 * (Z.shiftr b 16 mod 256) + 16777216 * (Z.shiftr b 24 mod 256) = b.
Proof.
  intros Hb. rewrite !Z.shiftr_div_pow2 by lia. change (2 ^ 8) with 256. change (2 ^ 16) with 65536.
  change (2 ^ 24) with 16777216. mlia.
Qed.

Lemma limit_bytes l : 0 ≤ l < 1048576 → l mod 256 + 256 * (Z.shiftr l 8 mod 256) + 65536 * (Z.shiftr l 16 mod 16) = l.
Proof.
  intros Hl. rewrite !Z.shiftr_div_pow2 by lia. change (2 ^ 8) with 256. change (2 ^ 16) with 65536. mlia.
Qed.

Lemma flags_byte t6 x : 0 ≤ x < 16 → (t6 = 0xC0 ∨ t6 = 0x40) →
  Z.lor t6 x mod 16 = x ∧ Z.testbit (Z.lor t6 x) 7 = (t6 =? 0xC0).
Proof.
  intros Hx Ht. assert (Hl : Z.lor t6 x = t6 + x).
  { replace t6 with (t6 / 16 * 2 ^ 4) by (destruct Ht as [-> | ->]; done). apply lor_low; lia. }
  split; [rewrite Hl; destruct Ht as [-> | ->]; mlia|].
  rewrite Z.lor_spec. assert (Z.testbit x 7 = false) as ->.
  { rewrite Z.testbit_eqb by lia. apply Z.eqb_neq. change (2 ^ 7) with 128. mlia. }
  rewrite orb_false_r. by destruct Ht as [-> | ->].
Qed.

Lemma gdt_encode_ok g :
  0 ≤ gbase g < 4294967296 → 0 ≤ glimit g < 4294967296 →
  (glimit g ≤ 65536 ∨ glimit g mod 4096 = 4095) →
  ∃ d, gdt_encode g = Ok d ∧ length d = 8%nat ∧ descriptor_base d = gbase g ∧ descriptor_limit d = glimit g ∧
    byte_of d 5 = gtype g.
Proof.
  intros Hb Hl Hg. unfold gdt_encode. rewrite !land_ff, !land_fff.
  assert ((65536 <? glimit g) && negb (glimit g mod 4096 =? 4095) = false) as ->.
  { destruct (Z.ltb_spec 65536 (glimit g)); [|done]. by rewrite (proj2 (Z.eqb_eq _ _)) by lia. }
  destruct (Z.ltb_spec 65536 (glimit g)) as [Hbig|Hsmall]; eexists; (split; [reflexivity|]); (split; [done|]);
    unfold descriptor_base, descriptor_limit, byte_of; cbn [lookup list_lookup default id]; rewrite !land_ff, !land_f;
    (split; [by apply base_bytes|]); (split; [|done]).
  - set (l := Z.shiftr (glimit g) 12). assert (Hlr : l = glimit g / 4096) by (unfold l; by rewrite Z.shiftr_div_pow2 by lia).
    destruct (flags_byte 0xC0 (Z.shiftr l 16 mod 16)) as [-> ->]; [mlia|by left|]. rewrite limit_bytes by mlia.
    change (0xC0 =? 0xC0) with true. cbn iota. rewrite Hlr. mlia.
  - destruct (flags_byte 0x40 (Z.shiftr (glimit g) 16 mod 16)) as [-> ->]; [mlia|by right|]. by rewrite limit_bytes by lia.
Qed.

(** ** Calibration *)

Lemma set_clear x j : 0 ≤ j → Z.testbit x j = false → Z.land (Z.lor x (2 ^ j)) (Z.lnot (2 ^ j)) = x.
Proof.
  intros Hj Hx. apply Z.bits_inj'. intros n Hn. rewrite Z.land_spec, Z.lnot_spec, Z.lor_spec, !Z.pow2_bits_eqb by lia.
  destruct (Z.eqb_spec j n) as [<-|]; [by rewrite Hx|]. cbn. by rewrite orb_false_r, andb_true_r.
Qed.

Section threshold.
(** A delay spans a tick from [T] loops on. *)
Variable T : Z.
Definition threshold (n : Z) : bool := T <=? n.

(** The up loop from [2^k]. *)
Lemma calibrate_up_from f k :
  12 ≤ k ≤ 31 → (32 - Z.to_nat k ≤ f)%nat →
  ∃ r, while f (calibrate_turn threshold) (2 ^ k) = Ok r ∧
    ((∃ k', k < k' ≤ 31 ∧ r = 2 ^ k' ∧ T ≤ 2 ^ k' ∧ ∀ m, k < m < k' → 2 ^ m < T) ∨
     (r = 0 ∧ ∀ m, k < m ≤ 31 → 2 ^ m < T)).
Proof.
  revert k. induction f as [|f IH]; intros k Hk Hf; [lia|]. cbn [while].
  assert (Et : calibrate_turn threshold (2 ^ k) =
    (if negb (u32 (2 ^ (k + 1)) =? 0) then
       if T <=? u32 (2 ^ (k + 1)) then Ok (Break (u32 (2 ^ (k + 1)))) else Ok (Continue (u32 (2 ^ (k + 1))))
     else Ok (Break (u32 (2 ^ (k + 1)))))).
  { unfold calibrate_turn. by rewrite Z.shiftl_mul_pow2, <- Z.pow_add_r by lia. }
  rewrite Et. clear Et. destruct (decide (k = 31)) as [->|Hne].
  { change (u32 (2 ^ (31 + 1))) with 0. cbn [Z.eqb negb mbind res_bind]. exists 0. split; [done|]. right. split; [done|lia]. }
  assert (Hp : 0 < 2 ^ (k + 1) ≤ 2 ^ 31) by (split; [apply Z.pow_pos_nonneg; lia|apply Z.pow_le_mono_r; lia]).
  rewrite u32_small by lia. rewrite (proj2 (Z.eqb_neq (2 ^ (k + 1)) 0)) by lia. cbn [negb].
  destruct (Z.leb_spec T (2 ^ (k + 1))) as [Hle|Hgt]; cbn [mbind res_bind].
  - exists (2 ^ (k + 1)). split; [done|]. left. exists (k + 1). repeat split; try lia.
  - destruct (IH (k + 1)) as (r & -> & Hr); [lia|lia|]. exists r. split; [done|].
    assert (Hm : ∀ m, k < m → 2 ^ m < T ∨ k + 1 < m) by (intros m Hm; destruct (decide (m = k + 1)) as [->|]; [by left|right; lia]).
    destruct Hr as [(k' & Hk' & -> & Ht & Hall)|[-> Hall]]; [left|right].
    + exists k'. repeat split; try lia. intros m Hmr. destruct (Hm m); [lia|done|]. apply Hall. lia.
    + split; [done|]. intros m Hmr. destruct (Hm m); [lia|done|]. apply Hall. lia.
Qed.

(** The down loop: [n] more bits below [2^j]. *)
Lemma calibrate_down_ok n j x :
  (Z.of_nat n ≤ j) → (∀ i, 0 ≤ i < j → Z.testbit x i = false) → x < T ≤ x + 2 ^ j →
  let r := calibrate_down threshold n (2 ^ j) x in x ≤ r < T ∧ T ≤ r + 2 ^ (j - Z.of_nat n).
Proof.
  revert j x. induction n as [|n IH]; intros j x Hj Hx Ht; cbv zeta; cbn [calibrate_down].
  { rewrite Z.sub_0_r. lia. }
  rewrite Z.shiftr_div_pow2, <- Z.pow_sub_r by lia.
  assert (Hp : 2 ^ j = 2 * 2 ^ (j - 1)) by (replace j with (j - 1 + 1) at 1 by lia; rewrite Z.pow_add_r by lia; lia).
  assert (Hp0 : 0 < 2 ^ (j - 1)) by (apply Z.pow_pos_nonneg; lia).
  rewrite (proj2 (Z.eqb_neq (2 ^ (j - 1)) 0)) by lia. cbn [negb].
  assert (Hlow : Z.testbit x (j - 1) = false) by (apply Hx; lia).
  rewrite set_clear by (done || lia).
  assert (Hor : Z.lor x (2 ^ (j - 1)) = x + 2 ^ (j - 1)).
  { replace x with (x / 2 ^ j * 2 ^ j) by (apply Z.bits_inj'; intros i Hi;
      destruct (decide (i < j)); [rewrite Z.mul_pow2_bits_low, Hx by lia; done|
      rewrite Z.mul_pow2_bits, Z.div_pow2_bits by lia; f_equal; lia]).
    rewrite lor_low by lia. done. }
  replace (j - Z.of_nat (S n)) with (j - 1 - Z.of_nat n) by lia.
  change (threshold (Z.lor x (2 ^ (j - 1)))) with (T <=? Z.lor x (2 ^ (j - 1))).
  destruct (Z.leb_spec T (Z.lor x (2 ^ (j - 1)))) as [Hle|Hgt]; rewrite Hor in *.
  - apply IH; [lia| |lia]. intros i Hi. apply Hx. lia.
  - destruct (IH (j - 1) (x + 2 ^ (j - 1))) as [Hr1 Hr2]; [lia| |lia|lia].
    intros i Hi. rewrite <- Hor, Z.lor_spec, Hx, Z.pow2_bits_eqb by lia. apply Z.eqb_neq. lia.
Qed.

(** With a threshold at 4096 or below every trial is too long. *)
Lemma calibrate_down_low n j x : Z.of_nat n ≤ j → (∀ i, 0 ≤ i < j → Z.testbit x i = false) → 0 ≤ x → T ≤ x →
  calibrate_down threshold n (2 ^ j) x = x.
Proof.
  revert j. induction n as [|n IH]; intros j Hj Hx Hx0 Ht; [done|]. cbn [calibrate_down].
  rewrite Z.shiftr_div_pow2, <- Z.pow_sub_r by lia.
  assert (Hp0 : 0 < 2 ^ (j - 1)) by (apply Z.pow_pos_nonneg; lia).
  rewrite (proj2 (Z.eqb_neq (2 ^ (j - 1)) 0)) by lia. cbn [negb].
  rewrite set_clear by (lia || apply Hx; lia).
  change (threshold (Z.lor x (2 ^ (j - 1)))) with (T <=? Z.lor x (2 ^ (j - 1))).
  rewrite (proj2 (Z.leb_le _ _)).
  - apply IH; [lia| |done|done]. intros i Hi. apply Hx. lia.
  - assert (Z.lor x (2 ^ (j - 1)) = x + Z.ldiff (2 ^ (j - 1)) x) as ->.
    { rewrite Z.add_nocarry_lxor.
      - apply Z.bits_inj'. intros i Hi. rewrite Z.lor_spec, Z.lxor_spec, Z.ldiff_spec.
        by destruct (Z.testbit x i), (Z.testbit (2 ^ (j - 1)) i).
      - apply Z.bits_inj'. intros i Hi. rewrite Z.land_spec, Z.ldiff_spec, Z.bits_0. by destruct (Z.testbit x i), (Z.testbit (2 ^ (j - 1)) i). }
    assert (0 ≤ Z.ldiff (2 ^ (j - 1)) x) by (apply Z.ldiff_nonneg; lia). lia.
Qed.

End threshold.

Lemma pow2_low k i : 0 ≤ i < k → Z.testbit (2 ^ k) i = false.
Proof. intros Hi. rewrite Z.pow2_bits_eqb by lia. apply Z.eqb_neq. lia. Qed.

Lemma calibrate_ok T :
  ∃ r, calibrate (threshold T) = Ok r ∧
    (4096 < T ≤ 2 ^ 31 → 4096 ≤ r < T ∧ T ≤ r + r / 256) ∧
    (T ≤ 4096 → r = 4096) ∧ (2 ^ 31 < T → r = 0).
Proof.
  unfold calibrate, calibrate_up. change (Z.shiftl 1 12) with (2 ^ 12).
  destruct (calibrate_up_from T 32 12) as (r & -> & Hr); [lia|lia|]. cbn [mbind res_bind]. eexists. split; [reflexivity|].
  destruct Hr as [(k & Hk & -> & Ht & Hall)|[-> Hall]].
  2:{ assert (2 ^ 31 < T) by (apply Hall; lia). split_and!; [lia| |done]. intros Hs. lia. }
  assert (2 ^ k ≤ 2 ^ 31) by (apply Z.pow_le_mono_r; lia).
  rewrite Z.shiftr_div_pow2, <- Z.pow_sub_r by lia.
  assert (H12 : 2 ^ 12 ≤ 2 ^ (k - 1)) by (apply Z.pow_le_mono_r; lia). change (2 ^ 12) with 4096 in H12.
  assert (Hp : 2 ^ k = 2 * 2 ^ (k - 1)) by (replace k with (k - 1 + 1) at 1 by lia; rewrite Z.pow_add_r by lia; lia).
  split_and!.
  - intros HT. destruct (calibrate_down_ok T 8 (k - 1) (2 ^ (k - 1))) as [R1 R2].
    + lia.
    + intros i Hi. apply pow2_low. lia.
    + destruct (decide (k = 13)) as [->|]; [change (2 ^ (13 - 1)) with 4096; change (2 ^ 13) with 8192 in *; lia|].
      specialize (Hall (k - 1) ltac:(lia)). lia.
    + cbv zeta in R1, R2. set (r := calibrate_down _ _ _ _) in *. split; [lia|].
      assert (Hd : 2 ^ (k - 1) = 256 * 2 ^ (k - 1 - Z.of_nat 8)).
      { replace (k - 1) with (8 + (k - 1 - Z.of_nat 8)) at 1 by lia. rewrite Z.pow_add_r by lia. done. }
      mlia.
  - intros HT. assert (k = 13) as ->.
    { destruct (decide (k = 13)); [done|]. specialize (Hall 13 ltac:(lia)). change (2 ^ 13) with 8192 in Hall. lia. }
    apply (calibrate_down_low T 8 12 (2 ^ 12)); [lia|intros i Hi; apply pow2_low; lia|done|done].
  - lia.
Qed.

Lemma init_gdt_ok tss_addr gdt_addr :
  0 ≤ tss_addr < 4294967296 →
  ∃ g code data task, init_gdt tss_addr gdt_addr = Ok g ∧ gdt_desc g = (79, gdt_addr) ∧
    _gdt g !! 1%nat = Some code ∧ _gdt g !! 2%nat = Some data ∧ _gdt g !! 3%nat = Some task ∧
    (descriptor_base code = 0 ∧ descriptor_limit code = 0xffffffff ∧ byte_of code 5 = 0x9a) ∧
    (descriptor_base data = 0 ∧ descriptor_limit data = 0xffffffff ∧ byte_of data 5 = 0x92) ∧
    (descriptor_base task = tss_addr ∧ descriptor_limit task = sizeof_tss ∧ byte_of task 5 = 0x89) ∧
    (∀ i, (4 ≤ i < 10)%nat → _gdt g !! i = Some (replicate 8 0)).
Proof.
  intros Ha. destruct (gdt_encode_ok (Gdt tss_addr sizeof_tss 0x89)) as (d & Hd & _ & D1 & D2 & D3);
    cbn [gbase glimit gtype] in *; [done|done|left; done|].
  assert (E : init_gdt tss_addr gdt_addr =
    (e ← gdt_encode (Gdt tss_addr sizeof_tss 0x89);
     Ok (GdtState (Tss 0 0 0 0 0 0 0 0 0 0 0 0 0 0 0 0 0 0 0 0 0x10 0 0 0 0 sizeof_tss 0)
           ([0; 0; 0; 0; 0; 0; 0x40; 0] :: [0xff; 0xff; 0; 0; 0; 0x9a; 0xcf; 0] :: [0xff; 0xff; 0; 0; 0; 0x92; 0xcf; 0] :: e ::
            replicate 6 (replicate 8 0)) (79, gdt_addr)))) by reflexivity.
  rewrite E, Hd. cbn [mbind res_bind]. do 4 eexists. split; [reflexivity|]. cbn [gdt_desc _gdt lookup list_lookup].
  split; [done|]. split; [done|]. split; [done|]. split; [done|]. split_and!; try done.
  intros i Hi. do 10 (destruct i as [|i]; [try lia; done|]). lia.
Qed.

(** The table has one code segment: [KERNEL_CS] is its selector, and no other
    selector does for [iret]. *)
Lemma iret_selector tss_addr gdt_addr g sel :
  0 ≤ tss_addr < 4294967296 → init_gdt tss_addr gdt_addr = Ok g → 0 ≤ sel < 65536 →
  iret_accepts (_gdt g) (gdt_desc g).1 sel = (sel =? KERNEL_CS).
Proof.
  intros Ht Hg Hs. destruct (init_gdt_ok tss_addr gdt_addr Ht) as (g' & code & data & task & Hg' & Hd & G1 & G2 & G3 & C & D & T & E).
  rewrite Hg in Hg'. injection Hg' as <-. rewrite Hd. cbn [fst]. unfold iret_accepts, KERNEL_CS.
  set (type := default 0 ([0; 0x9a; 0x92; 0x89] !! Z.to_nat (sel / 8))).
  assert (Hty : sel / 8 = 0 ∨ 79 < 8 * (sel / 8) + 7 ∨ byte_of (default [] (_gdt g !! Z.to_nat (sel / 8))) 5 = type).
  { destruct (decide (sel / 8 = 0)) as [|Hz]; [by left|right].
    destruct (decide (79 < 8 * (sel / 8) + 7)); [by left|right]. subst type.
    assert (Hn : (0 < Z.to_nat (sel / 8) < 10)%nat) by mlia. revert Hn. generalize (Z.to_nat (sel / 8)). clear - G1 G2 G3 C D T E.
    intros k Hk. destruct k as [|[|[|[|k]]]]; [lia|rewrite G1; apply C|rewrite G2; apply D|rewrite G3; apply T|].
    rewrite E by lia. done. }
  assert (Hall : forallb (λ n, eqb (iret_takes 79 n (default 0 ([0; 0x9a; 0x92; 0x89] !! Z.to_nat (n / 8)))) (n =? 8)) (seqZ 0 80) = true)
    by by vm_compute.
  destruct Hty as [Hz|[Hz|Hty]].
  - unfold iret_takes. rewrite Hz. cbn. symmetry. apply Z.eqb_neq. mlia.
  - unfold iret_takes. rewrite (proj2 (Z.leb_gt (8 * (sel / 8) + 7) 79)) by lia. rewrite andb_false_r. symmetry. apply Z.eqb_neq. mlia.
  - rewrite Hty. destruct (decide (sel < 80)) as [Hlt|Hge].
    + rewrite forallb_forall in Hall. apply eqb_prop, Hall, list_elem_of_In, elem_of_seqZ. lia.
    + unfold iret_takes. rewrite (proj2 (Z.leb_gt (8 * (sel / 8) + 7) 79)) by mlia. rewrite andb_false_r. symmetry. apply Z.eqb_neq. lia.
Qed.

(** ** Properties *)

(** C27: a segment descriptor is either encoded so that the processor reads back
    base, limit and type, or refused by a panic: exactly when its limit exceeds
    65536 and is no multiple of 4096 less one. *)
Theorem gdt_encode_exact_or_panic g :
  0 ≤ gbase g < 4294967296 → 0 ≤ glimit g < 4294967296 →
  if (65536 <? glimit g) && negb (glimit g mod 4096 =? 4095) then gdt_encode g = Fault Panicked
  else ∃ d, gdt_encode g = Ok d ∧ length d = 8%nat ∧ descriptor_base d = gbase g ∧ descriptor_limit d = glimit g ∧
         byte_of d 5 = gtype g.
Proof.
  intros Hb Hl. destruct ((65536 <? glimit g) && negb (glimit g mod 4096 =? 4095)) eqn:E.
  - unfold gdt_encode. by rewrite land_fff, E.
  - apply gdt_encode_ok; [done|done|]. apply andb_false_iff in E as [E|E]; [left; lia|right].
    apply negb_false_iff, Z.eqb_eq in E. done.
Qed.

Lemma gdt_encode_exact_or_panic_witness :
  (∃ d, gdt_encode (Gdt 0xC0201230 104 0x89) = Ok d ∧ length d = 8%nat ∧ descriptor_base d = 0xC0201230 ∧
     descriptor_limit d = 104 ∧ byte_of d 5 = 0x89) ∧ gdt_encode (Gdt 0 0x12345 0x92) = Fault Panicked.
Proof.
  split.
  - apply (gdt_encode_exact_or_panic (Gdt 0xC0201230 104 0x89)); cbn; lia.
  - apply (gdt_encode_exact_or_panic (Gdt 0 0x12345 0x92)); cbn; lia.
Defined.

(** C28: when delays of [T] loops and more span a timer tick, the calibration
    of the delay loop ends with the largest number below [T] up to one part in
    256, provided 4096 < T <= 2^31; on a slower machine it gives 4096, and on one
    so fast that the loop counter overflows it gives 0. *)
Theorem calibrate_binary_search T :
  ∃ r, calibrate (threshold T) = Ok r ∧
    (4096 < T ≤ 2 ^ 31 → 4096 ≤ r < T ∧ T ≤ r + r / 256) ∧
    (T ≤ 4096 → r = 4096) ∧ (2 ^ 31 < T → r = 0).
Proof. apply calibrate_ok. Qed.

(** C29: [udelay] of up to 249998 microseconds turns the delay loop at least
    as often as it turns in this time, and less than 1/100000 plus one turn more;
    one microsecond more wraps around to a delay of almost nothing. *)
Theorem udelay_long_enough lpj usecs :
  0 ≤ lpj → lpj * 50 < 4294967296 → 0 ≤ usecs →
  (usecs ≤ 249998 → usecs * (lpj * HZ) ≤ udelay lpj usecs * 1000000 ∧
     (udelay lpj usecs - 1) * 1000000 * 100000 ≤ usecs * (lpj * HZ) * 100001) ∧
  (usecs = 249999 → udelay lpj usecs ≤ lpj / 5000 + 1).
Proof.
  intros Hl Hb Hu. unfold udelay, __const_udelay, HZ. change (200 / 4) with 50. cbv zeta.
  rewrite (u32_small (lpj * 50)) by lia. split.
  - intros Hm. rewrite (u32_small (usecs * 4295)), (u32_small (usecs * 4295 * 4)) by lia.
    set (w := lpj * 50) in *. assert (E : lpj * 200 = 4 * w) by (unfold w; lia). rewrite E.
    assert (Hx : 0 ≤ usecs * 4295 * 4 * w / 4294967296 < 4294967295).
    { assert (0 ≤ usecs * 4295 * 4 * w ≤ 4294965640 * 4294967295) by nia. mlia. }
    rewrite u32_small by lia. set (q := usecs * 4295 * 4 * w / 4294967296) in *.
    assert (Hq : q * 4294967296 ≤ usecs * w * 17180 < q * 4294967296 + 4294967296) by (unfold q; mlia).
    assert (0 ≤ usecs * w) by nia. clearbody q. clear - Hq H. nia.
  - intros ->. change (u32 (u32 (249999 * 4295) * 4)) with 15524. 
    set (w := lpj * 50) in *. assert (Hx : 0 ≤ 15524 * w / 4294967296 < 4294967295) by mlia.
    rewrite u32_small by lia. mlia.
Qed.

Lemma udelay_long_enough_witness :
  (10 ≤ 249998 → 10 * (4990000 * HZ) ≤ udelay 4990000 10 * 1000000 ∧
     (udelay 4990000 10 - 1) * 1000000 * 100000 ≤ 10 * (4990000 * HZ) * 100001) ∧
  (10 = 249999 → udelay 4990000 10 ≤ 4990000 / 5000 + 1).
Proof. apply (udelay_long_enough 4990000 10); lia. Defined.

(** C26: [init_x86] ends: flat code and data segments and the task state
    segment are described, every hardware interrupt raised by the controllers
    finds a present gate with its stub, the loop is calibrated, and only the timer
    and the keyboard are unmasked. *)
Theorem init_x86_sets_up {D : Type} T (acpi timer : pics * D → pics * D) tss_addr gdt_addr idt_addr irq_stub int_stub t (s : pics) (d : D) :
  (∀ k, (acpi k).1 = k.1) → (∀ k, (timer k).1 = k.1) → 0 ≤ tss_addr < 4294967296 →
  (∀ n, 0 ≤ irq_stub n < 4294967296) →
  ∃ x d' code data task,
    init_x86 (threshold T) acpi timer tss_addr gdt_addr idt_addr irq_stub int_stub t (s, d)
    = Ok (x, (Pics (Pic8259 Ready 0x20 0xFC 0) (Pic8259 Ready 0x28 0xFF 0), d')) ∧
    _gdt (segments x) !! 1%nat = Some code ∧ _gdt (segments x) !! 2%nat = Some data ∧ _gdt (segments x) !! 3%nat = Some task ∧
    (descriptor_base code = 0 ∧ descriptor_limit code = 0xffffffff ∧ byte_of code 5 = 0x9a) ∧
    (descriptor_base data = 0 ∧ descriptor_limit data = 0xffffffff ∧ byte_of data 5 = 0x92) ∧
    (descriptor_base task = tss_addr ∧ descriptor_limit task = sizeof_tss ∧ byte_of task 5 = 0x89) ∧
    (∀ n, 0 ≤ n < 16 → idt (interrupts x) !! Z.to_nat (0x20 + n) = Some (gate_word (irq_stub n))) ∧
    (4096 < T ≤ 2 ^ 31 → loops_per_jiffy x < T ≤ loops_per_jiffy x + loops_per_jiffy x / 256).
Proof.
  intros Hacpi Htimer Ha Hq. destruct (init_gdt_ok tss_addr gdt_addr Ha) as (g & code & data & task & Hg & _ & G1 & G2 & G3 & C & Da & Ta & _).
  destruct (irq_init_ok irq_stub int_stub idt_addr t) as (t' & Ht & _ & _ & Hv & _).
  destruct (calibrate_ok T) as (r & Hr & R & _).
  unfold init_x86. rewrite Hg. cbn [mbind res_bind]. rewrite Ht. cbn [mbind res_bind]. cbv zeta. rewrite Hr. cbn [mbind res_bind].
  assert (Hp : pic_init 0x20 0x28 (s, d) = (Pics (Pic8259 Ready 32 0 0) (Pic8259 Ready 40 0 0), d)).
  { transitivity (pic_init 0x20 0x28 s, d); [reflexivity|]. by rewrite pic_init_kernel. }
  rewrite Hp.
  set (p0 := Pics (Pic8259 Ready 32 0 0) (Pic8259 Ready 40 0 0)).
  assert (E : (timer (acpi (p0, d))).1 = p0) by (by rewrite Htimer, Hacpi).
  destruct (timer (acpi (p0, d))) as [p d']. cbn in E. subst p.
  exists (X86 g t' r), d', code, data, task. split; [reflexivity|]. cbn [segments interrupts loops_per_jiffy].
  split; [exact G1|]. split; [exact G2|]. split; [exact G3|]. split; [exact C|]. split; [exact Da|]. split; [exact Ta|]. split.
  - intros n Hn. rewrite Hv by lia. unfold stub_of. rewrite (proj2 (Z.leb_le _ _)), (proj2 (Z.ltb_lt _ _)) by lia.
    cbn [andb from_option]. do 3 f_equal. lia.
  - intros HT. destruct (R HT). lia.
Qed.

Lemma init_x86_sets_up_witness :
  ∃ x d' code data task,
    init_x86 (threshold 5000000) (λ k, k) (λ k, (k.1, k.2 + 1)) 0xC0201230 0xC0201300 0xC0200000
      (λ n, 0xC0100000 + 16 * (n mod 256)) (λ n, 0xC0102000 + 16 * (n mod 256)) (Tables [] [] [] [] (0, 0))
      (Pics (Pic8259 Ready 8 0 0) (Pic8259 Ready 0x70 0 0), 0)
    = Ok (x, (Pics (Pic8259 Ready 0x20 0xFC 0) (Pic8259 Ready 0x28 0xFF 0), d')) ∧
    _gdt (segments x) !! 1%nat = Some code ∧ _gdt (segments x) !! 2%nat = Some data ∧ _gdt (segments x) !! 3%nat = Some task ∧
    (descriptor_base code = 0 ∧ descriptor_limit code = 0xffffffff ∧ byte_of code 5 = 0x9a) ∧
    (descriptor_base data = 0 ∧ descriptor_limit data = 0xffffffff ∧ byte_of data 5 = 0x92) ∧
    (descriptor_base task = 0xC0201230 ∧ descriptor_limit task = sizeof_tss ∧ byte_of task 5 = 0x89) ∧
    (∀ n, 0 ≤ n < 16 → idt (interrupts x) !! Z.to_nat (0x20 + n) = Some (gate_word (0xC0100000 + 16 * (n mod 256)))) ∧
    (4096 < 5000000 ≤ 2 ^ 31 → loops_per_jiffy x < 5000000 ≤ loops_per_jiffy x + loops_per_jiffy x / 256).
Proof.
  apply (init_x86_sets_up 5000000 (λ k, k) (λ k, (k.1, k.2 + 1)) 0xC0201230 0xC0201300 0xC0200000
    (λ n, 0xC0100000 + 16 * (n mod 256)) (λ n, 0xC0102000 + 16 * (n mod 256)) (Tables [] [] [] [] (0, 0))
    (Pics (Pic8259 Ready 8 0 0) (Pic8259 Ready 0x70 0 0)) 0); [done|done|lia|intros n; mlia].
Defined.
