(* ===== verification/Heap.v ===== *)
(** The kernel heap: [malloc] and [free].

    Source: libc/stdlib/malloc.c, compiled for the kernel (libk) with
    CONFIG_DEBUG_MALLOC, so that a block header is three words: [next], [size]
    and [checksum], padded to 16 bytes.

    The heap works in byte memory: the headers are words of that memory, the
    free list is a linked list through it.  Page frames come from a
    [PageSource]; what a fresh frame holds is a parameter.  The two spin locks
    protect the two halves of [malloc] against other processors and have no
    effect on the state. *)
From S2P Require Import Prelude PageSource.

Definition PAGE_SIZE : Z := 4096.
Definition MALLOC_ALIGN_BYTES : Z := 16.
Definition sizeof_freelist : Z := 12.

Definition header_size : Z :=
  if negb (sizeof_freelist mod MALLOC_ALIGN_BYTES =? 0)
  then sizeof_freelist + (MALLOC_ALIGN_BYTES - sizeof_freelist mod MALLOC_ALIGN_BYTES)
  else sizeof_freelist.

(** The rounding of a request, in [uintptr_t]. *)
Definition aligned (num_bytes : Z) : Z :=
  if negb (num_bytes mod MALLOC_ALIGN_BYTES =? 0)
  then u32 (num_bytes + (MALLOC_ALIGN_BYTES - num_bytes mod MALLOC_ALIGN_BYTES))
  else num_bytes.

(** The fields of a header at address [p]. *)
Definition get_next (m : mem) (p : Z) : res Z := load32 m p.
Definition get_size (m : mem) (p : Z) : res Z := load32 m (p + 4).
Definition get_checksum (m : mem) (p : Z) : res Z := load32 m (p + 8).
Definition set_next (m : mem) (p v : Z) : res mem := store32 m p v.
Definition set_size (m : mem) (p v : Z) : res mem := store32 m (p + 4) v.
Definition set_checksum (m : mem) (p v : Z) : res mem := store32 m (p + 8) v.

Definition COMPUTE_CHECKSUM (m : mem) (p : Z) : res Z :=
  n ← get_next m p; s ← get_size m p; Ok (Z.lxor n s).

(** [freelist->checksum = COMPUTE_CHECKSUM(freelist)] *)
Definition update_checksum (m : mem) (p : Z) : res mem :=
  c ← COMPUTE_CHECKSUM m p; set_checksum m p c.

(** A page appears at virtual address [v] with the bytes [f 0], [f 1], ... *)
Fixpoint map_bytes (n : nat) (m : mem) (v : Z) (f : Z → Z) (i : Z) : mem :=
  match n with
  | O => m
  | S n => <[v + i := u8 (f i)]> (map_bytes n m v f (i + 1))
  end.

Record t (A : Type) : Type := Heap {
  memory : mem;
  frames : A;
  kernel_heap_start : Z;
  kernel_heap_end : Z;
  kernel_heap : Z;
  kernel_malloc_freelist : Z;
}.
Arguments Heap {A}.
Arguments memory {A}.
Arguments frames {A}.
Arguments kernel_heap_start {A}.
Arguments kernel_heap_end {A}.
Arguments kernel_heap {A}.
Arguments kernel_malloc_freelist {A}.

Section heap.
Context {A : Type} `{PS : PageSource A}.
(** The bytes of a fresh page frame. *)
Variable content : Z → Z → Z.
(** The bound on the length of the walks over the free list. *)
Variable fuel : nat.

Definition set_memory (s : t A) (m : mem) : t A :=
  Heap m (frames s) (kernel_heap_start s) (kernel_heap_end s) (kernel_heap s) (kernel_malloc_freelist s).
Definition set_freelist (s : t A) (p : Z) : t A :=
  Heap (memory s) (frames s) (kernel_heap_start s) (kernel_heap_end s) (kernel_heap s) p.

Definition malloc_init (m : mem) (fr : A) (kernel_end : Z) : t A :=
  let start := if negb (kernel_end mod PAGE_SIZE =? 0)
               then u32 (kernel_end + (PAGE_SIZE - kernel_end mod PAGE_SIZE)) else kernel_end in
  Heap m fr start start start 0.

(** Returns the error code of the frame allocator, 0 for success. *)
Definition heap_grow (s : t A) : res (Z * t A) :=
  '(err, pout, fr) ← ps_alloc (frames s);
  if negb (err =? 0)
  then Ok (err, Heap (memory s) fr (kernel_heap_start s) (kernel_heap_end s) (kernel_heap s) (kernel_malloc_freelist s))
  else
    let page := default 0 pout in
    let m := map_bytes (Z.to_nat PAGE_SIZE) (memory s) (kernel_heap_end s) (content page) 0 in
    Ok (0, Heap m fr (kernel_heap_start s) (u32 (kernel_heap_end s + PAGE_SIZE)) (kernel_heap s) (kernel_malloc_freelist s)).

(** [while(kernel_heap_end - kernel_heap < size)]: [false] when no page is left. *)
Definition grow_body (size : Z) (s : t A) : res (ctl (t A) (bool * t A)) :=
  if u32 (kernel_heap_end s - kernel_heap s) <? size then
    '(err, s) ← heap_grow s;
    if negb (err =? 0) then Ok (Break (false, s)) else Ok (Continue s)
  else Ok (Break (true, s)).

Definition grow_fuel (size : Z) : nat := Z.to_nat (size / PAGE_SIZE + 2).

Definition grow (size : Z) (s : t A) : res (bool * t A) :=
  while (grow_fuel size) (grow_body size) s.

(** "Need to get memory from the heap": 0 stands for [NULL]. *)
Definition malloc_fresh (s : t A) (num_bytes_aligned : Z) : res (Z * t A) :=
  let size := u32 (header_size + num_bytes_aligned) in
  '(ok, s) ← grow size s;
  if negb ok then Ok (0, s)
  else
    let freelist := kernel_heap s in
    let heap' := u32 (kernel_heap s + size) in
    m ← set_next (memory s) freelist 0;
    m ← set_size m freelist num_bytes_aligned;
    m ← update_checksum m freelist;
    Ok (freelist + header_size,
        Heap m (frames s) (kernel_heap_start s) (kernel_heap_end s) heap' (kernel_malloc_freelist s)).

(** A block with enough space, split when more than 16 bytes would be left. *)
Definition malloc_reuse (s : t A) (num_bytes_aligned freelist_prev freelist size : Z) : res (Z * t A) :=
  if 16 <? size - num_bytes_aligned then
    let freelist_next := u32 (freelist + size) in
    n ← get_next (memory s) freelist;
    m ← set_next (memory s) freelist_next n;
    m ← set_size m freelist_next (size - num_bytes_aligned - MALLOC_ALIGN_BYTES);
    m ← set_size m freelist num_bytes_aligned;
    m ← update_checksum m freelist;
    if negb (freelist_prev =? 0)
    then m ← set_next m freelist_prev freelist_next; Ok (u32 (freelist + header_size), set_memory s m)
    else Ok (u32 (freelist + header_size), set_freelist (set_memory s m) freelist_next)
  else
    m ← (if negb (freelist_prev =? 0)
         then n ← get_next (memory s) freelist; set_next (memory s) freelist_prev n
         else Ok (memory s));
    m ← set_size m freelist num_bytes_aligned;
    m ← update_checksum m freelist;
    Ok (u32 (freelist + header_size), set_memory s m).

(** The first block of the free list that is large enough:
    [(freelist_prev, freelist, size)]. *)
Definition search_body (m : mem) (num_bytes_aligned : Z) (pf : Z * Z) :
    res (ctl (Z * Z) (option (Z * Z * Z))) :=
  let '(freelist_prev, freelist) := pf in
  if freelist =? 0 then Ok (Break None)
  else
    s ← get_size m freelist;
    let size := Z.lxor s 15 in
    if num_bytes_aligned <=? size then Ok (Break (Some (freelist_prev, freelist, size)))
    else n ← get_next m freelist; Ok (Continue (freelist, n)).

Definition malloc (s : t A) (num_bytes : Z) : res (Z * t A) :=
  let num_bytes_aligned := aligned num_bytes in
  found ← while fuel (search_body (memory s) num_bytes_aligned) (0, kernel_malloc_freelist s);
  match found with
  | Some (freelist_prev, freelist, size) => malloc_reuse s num_bytes_aligned freelist_prev freelist size
  | None => malloc_fresh s num_bytes_aligned
  end.

(** The loop of [free]: [Some s'] when the block was merged with a neighbour. *)
Definition free_body (s : t A) (freelist : Z) (po : Z * Z) : res (ctl (Z * Z) (option (t A))) :=
  let '(prev, other) := po in
  if other =? 0 then Ok (Break None)
  else
    fsize ← get_size (memory s) freelist;
    osize ← get_size (memory s) other;
    let freelist_end := u32 (freelist + fsize + header_size) in
    let other_end := u32 (other + osize + header_size) in
    if freelist_end =? other then
      m ← set_size (memory s) freelist (u32 (fsize + (header_size + osize)));
      n ← get_next m other;
      m ← set_next m freelist n;
      if prev =? 0 then Ok (Break (Some (set_freelist (set_memory s m) freelist)))
      else m ← set_next m prev freelist; Ok (Break (Some (set_memory s m)))
    else if freelist =? other_end then
      m ← set_size (memory s) other (u32 (osize + (header_size + fsize)));
      Ok (Break (Some (set_memory s m)))
    else n ← get_next (memory s) other; Ok (Continue (other, n)).

Definition free (s : t A) (p : Z) : res (t A) :=
  let freelist := u32 (p - header_size) in
  c ← get_checksum (memory s) freelist;
  c' ← COMPUTE_CHECKSUM (memory s) freelist;
  if negb (c =? c') then Fault Panicked
  else
    size ← get_size (memory s) freelist;
    if negb (Z.land size 15 =? 0) then Ok s
    else
      merged ← while fuel (free_body s freelist) (0, kernel_malloc_freelist s);
      match merged with
      | Some s' => Ok s'
      | None =>
          m ← set_next (memory s) freelist (kernel_malloc_freelist s);
          Ok (set_freelist (set_memory s m) freelist)
      end.

(** ** Invariant *)

(** The free list from [p] on visits exactly the blocks [fr], in order. *)
Fixpoint chain (m : mem) (p : Z) (fr : list Z) : Prop :=
  match fr with
  | [] => p = 0
  | a :: fr => p = a ∧ ∃ n, get_next m a = Ok n ∧ chain m n fr
  end.

(** The heap consists of disjoint aligned blocks [bl] (address to payload size);
    those on the free list are [fr], the others are allocated and carry a valid
    checksum. *)
Record inv (s : t A) (bl : gmap Z Z) (fr : list Z) : Prop := {
  inv_bounds : 0 < kernel_heap_start s ∧ kernel_heap_start s ≤ kernel_heap s ∧
    kernel_heap s ≤ kernel_heap_end s ∧ kernel_heap_end s < 4294967296;
  inv_align : kernel_heap_end s mod 4096 = 0 ∧ kernel_heap s mod 16 = 0;
  inv_mapped : mapped (memory s) (kernel_heap_start s) (kernel_heap_end s - kernel_heap_start s);
  inv_frames : ps_inv (frames s);
  inv_block : ∀ a n, bl !! a = Some n →
    kernel_heap_start s ≤ a ∧ a mod 16 = 0 ∧ 0 ≤ n ∧ n mod 16 = 0 ∧
    a + 16 + n ≤ kernel_heap s ∧ get_size (memory s) a = Ok n;
  inv_sep : ∀ a n b k, bl !! a = Some n → bl !! b = Some k → a < b → a + 16 + n ≤ b;
  inv_chain : chain (memory s) (kernel_malloc_freelist s) fr;
  inv_nodup : NoDup fr;
  inv_free : ∀ a, a ∈ fr → is_Some (bl !! a);
  inv_check : ∀ a n, bl !! a = Some n → a ∉ fr →
    ∃ nx, get_next (memory s) a = Ok nx ∧ get_checksum (memory s) a = Ok (Z.lxor nx n);
}.

(** [m'] differs from [m] at most in the 12 bytes of the header at [a]. *)
Definition header_only (m m' : mem) (a : Z) : Prop :=
  (∀ x, x < a ∨ a + 12 ≤ x → m' !! x = m !! x) ∧
  (∀ p n, mapped m p n → mapped m' p n).

Lemma header_only_trans m1 m2 m3 a : header_only m1 m2 a → header_only m2 m3 a → header_only m1 m3 a.
Proof. intros [H1 H2] [H3 H4]. split; [|eauto]. intros x Hx. by rewrite H3, H1. Qed.

Lemma header_only_refl m a : header_only m m a.
Proof. by split. Qed.

(** The headers of other blocks are not touched. *)
Lemma header_other m m' a b :
  header_only m m' a → b + 12 ≤ a ∨ a + 12 ≤ b →
  get_next m' b = get_next m b ∧ get_size m' b = get_size m b ∧ get_checksum m' b = get_checksum m b.
Proof.
  intros [Hf _] Hb. unfold get_next, get_size, get_checksum.
  split_and!; apply load32_frame; intros i Hi; apply Hf; lia.
Qed.

(** Writing one field of a header. *)
Lemma set_field m a off v :
  mapped m a 12 → off ∈ [0; 4; 8] → 0 ≤ v < 4294967296 →
  ∃ m', store32 m (a + off) v = Ok m' ∧ header_only m m' a ∧
    load32 m' (a + off) = Ok v ∧
    (∀ off', off' ∈ [0; 4; 8] → off' ≠ off → load32 m' (a + off') = load32 m (a + off')).
Proof.
  intros Hm Hoff Hv.
  assert (0 ≤ off ≤ 8) by (rewrite !elem_of_cons, elem_of_nil in Hoff; lia).
  destruct (store32_spec m (a + off) v) as (m' & Hs & Hf & Hmap & Hl).
  { eapply mapped_sub; [done|lia..]. }
  exists m'. split; [done|]. split; [split; [|done]; intros; apply Hf; lia|].
  split; [by apply Hl|]. intros off' Hoff' Hne. apply load32_frame. intros i Hi. apply Hf.
  rewrite !elem_of_cons, elem_of_nil in *. lia.
Qed.

Lemma lxor_u32 a b : 0 ≤ a < 4294967296 → 0 ≤ b < 4294967296 → 0 ≤ Z.lxor a b < 4294967296.
Proof.
  intros Ha Hb. split; [apply Z.lxor_nonneg; lia|].
  destruct (decide (Z.lxor a b = 0)) as [->|Hne]; [lia|].
  apply (Z.log2_lt_pow2 _ 32); [pose proof (proj2 (Z.lxor_nonneg a b)); lia|].
  eapply Z.le_lt_trans; [apply Z.log2_lxor; lia|].
  assert (∀ z, 0 ≤ z < 4294967296 → Z.log2 z < 32) as Hlog.
  { intros z Hz. destruct (decide (z = 0)) as [->|]; [cbn; lia|].
    apply Z.log2_lt_pow2; [lia|]. cbn. lia. }
  pose proof (Hlog a Ha). pose proof (Hlog b Hb). lia.
Qed.

Lemma set_next_ok m a v :
  mapped m a 12 → 0 ≤ v < 4294967296 →
  ∃ m', set_next m a v = Ok m' ∧ header_only m m' a ∧ get_next m' a = Ok v ∧
    get_size m' a = get_size m a ∧ get_checksum m' a = get_checksum m a.
Proof.
  intros Hm Hv. destruct (set_field m a 0 v) as (m' & Hs & Ho & Hl & Hr); [done|set_solver|done|].
  rewrite Z.add_0_r in *. exists m'. unfold get_size, get_checksum.
  rewrite !Hr by (set_solver || lia). done.
Qed.

Lemma set_size_ok m a v :
  mapped m a 12 → 0 ≤ v < 4294967296 →
  ∃ m', set_size m a v = Ok m' ∧ header_only m m' a ∧ get_size m' a = Ok v ∧
    get_next m' a = get_next m a ∧ get_checksum m' a = get_checksum m a.
Proof.
  intros Hm Hv. destruct (set_field m a 4 v) as (m' & Hs & Ho & Hl & Hr); [done|set_solver|done|].
  exists m'. unfold get_next, get_checksum. rewrite (Hr 8) by (set_solver || lia).
  pose proof (Hr 0) as H0. rewrite !Z.add_0_r in H0. rewrite H0 by (set_solver || lia). done.
Qed.

Lemma update_checksum_ok m a n k :
  mapped m a 12 → get_next m a = Ok n → get_size m a = Ok k →
  0 ≤ n < 4294967296 → 0 ≤ k < 4294967296 →
  ∃ m', update_checksum m a = Ok m' ∧ header_only m m' a ∧ get_checksum m' a = Ok (Z.lxor n k) ∧
    get_next m' a = Ok n ∧ get_size m' a = Ok k.
Proof.
  intros Hm Hn Hk Hnr Hkr.
  destruct (set_field m a 8 (Z.lxor n k)) as (m' & Hs & Ho & Hl & Hr);
    [done|set_solver|by apply lxor_u32|].
  exists m'. unfold update_checksum, COMPUTE_CHECKSUM, set_checksum. rewrite Hn, Hk. cbn.
  split; [done|]. split; [done|]. split; [done|].
  unfold get_next, get_size in *. rewrite (Hr 4) by (set_solver || lia).
  pose proof (Hr 0) as H0. rewrite !Z.add_0_r in H0. rewrite H0 by (set_solver || lia). done.
Qed.

Lemma chain_frame m m' p fr :
  (∀ a, a ∈ fr → get_next m' a = get_next m a) → chain m p fr → chain m' p fr.
Proof.
  revert p. induction fr as [|a fr IH]; intros p Hf Hc; [done|].
  destruct Hc as (-> & n & Hn & Hc). split; [done|]. exists n.
  rewrite Hf by set_solver. split; [done|]. apply IH; [|done]. intros. apply Hf. set_solver.
Qed.

(** ** Growing the heap *)

Lemma map_bytes_out n m v f i x :
  x < v + i ∨ v + i + Z.of_nat n ≤ x → map_bytes n m v f i !! x = m !! x.
Proof.
  revert i. induction n as [|n IH]; intros i Hx; [done|]. cbn [map_bytes].
  rewrite lookup_insert_ne by lia. apply IH. lia.
Qed.

Lemma map_bytes_in n m v f i x :
  v + i ≤ x < v + i + Z.of_nat n → map_bytes n m v f i !! x = Some (u8 (f (x - v))).
Proof.
  revert i. induction n as [|n IH]; intros i Hx; [lia|]. cbn [map_bytes].
  destruct (decide (x = v + i)) as [->|].
  - rewrite lookup_insert_eq. by replace (v + i - v) with i by lia.
  - rewrite lookup_insert_ne by lia. apply IH. lia.
Qed.

(** [s'] is [s] with more memory at the end of the heap. *)
Definition extends (s s' : t A) : Prop :=
  kernel_heap_start s' = kernel_heap_start s ∧ kernel_heap s' = kernel_heap s ∧
  kernel_malloc_freelist s' = kernel_malloc_freelist s ∧
  kernel_heap_end s ≤ kernel_heap_end s' ∧
  ∀ x, x < kernel_heap_end s → memory s' !! x = memory s !! x.

Lemma extends_trans s1 s2 s3 : extends s1 s2 → extends s2 s3 → extends s1 s3.
Proof.
  intros (H1 & H2 & H3 & H4 & H5) (K1 & K2 & K3 & K4 & K5).
  split_and!; [congruence..|lia|]. intros x Hx. rewrite K5, H5; [done|lia..].
Qed.

Lemma block_fields s bl fr m' a n :
  inv s bl fr → bl !! a = Some n →
  (∀ x, x < kernel_heap_end s → m' !! x = memory s !! x) →
  get_next m' a = get_next (memory s) a ∧ get_size m' a = get_size (memory s) a ∧
  get_checksum m' a = get_checksum (memory s) a.
Proof.
  intros Hi Ha Hm. pose proof (inv_bounds _ _ _ Hi). pose proof (inv_block _ _ _ Hi a n Ha) as Hb.
  unfold get_next, get_size, get_checksum.
  split_and!; apply load32_frame; intros i Hr; apply Hm; lia.
Qed.

Lemma inv_extends s s' bl fr :
  inv s bl fr → extends s s' → kernel_heap_end s' mod 4096 = 0 → kernel_heap_end s' < 4294967296 →
  mapped (memory s') (kernel_heap_start s') (kernel_heap_end s' - kernel_heap_start s') →
  ps_inv (frames s') → inv s' bl fr.
Proof.
  intros Hi (E1 & E2 & E3 & E4 & E5) Hal Hlt Hmap Hfr.
  pose proof (λ a n Ha, block_fields s bl fr (memory s') a n Hi Ha E5) as Hf.
  destruct Hi. split; rewrite ?E1, ?E2, ?E3 in *; try done; try lia.
  - intros a n Ha. destruct (Hf a n Ha) as (_ & -> & _). eauto.
  - eapply chain_frame; [|done]. intros a Ha. destruct (inv_free0 a Ha) as [n Hn]. by eapply Hf.
  - intros a n Ha Hna. destruct (Hf a n Ha) as (-> & _ & ->). eauto.
Qed.

Lemma heap_grow_ok s bl fr :
  inv s bl fr → kernel_heap_end s + 4096 < 4294967296 →
  ∃ err s', heap_grow s = Ok (err, s') ∧ inv s' bl fr ∧ extends s s' ∧
    (err ≠ 0 → kernel_heap_end s' = kernel_heap_end s ∧ ps_alloc (frames s) = Ok (err, None, frames s)) ∧
    (err = 0 → kernel_heap_end s' = kernel_heap_end s + 4096 ∧
       ∃ page, ps_alloc (frames s) = Ok (0, Some page, frames s')).
Proof.
  intros Hi Hlt. unfold heap_grow.
  destruct (ps_alloc_spec (frames s) (inv_frames _ _ _ Hi)) as (code & pout & fr' & Ha & Hfr & Hspec).
  rewrite Ha. cbn [mbind res_bind]. pose proof (inv_bounds _ _ _ Hi) as Hb.
  pose proof (inv_align _ _ _ Hi) as Hal.
  case_test.
  - destruct pout as [page|]; [by destruct Hspec|]. destruct Hspec as [_ ->].
    eexists _, _. split; [done|]. assert (extends s (Heap (memory s) (frames s) (kernel_heap_start s)
      (kernel_heap_end s) (kernel_heap s) (kernel_malloc_freelist s))) as Hext by (split_and!; cbn; done).
    split; [|by split_and!]. destruct Hi. by eapply inv_extends; cbn; try done; lia.
  - eexists _, _. split; [done|].
    match goal with |- inv ?s0 _ _ ∧ _ => set (s' := s0) end. subst code.
    destruct pout as [page|]; [|by destruct Hspec].
    assert (kernel_heap_end s' = kernel_heap_end s + 4096) as He by (cbn; by rewrite u32_small by (unfold PAGE_SIZE; lia)).
    assert (extends s s') as Hext.
    { split_and!; [done..|lia|]. intros x Hx. cbn [s' memory]. rewrite map_bytes_out by lia. done. }
    split; [|split_and!; [done|done|intros _; split; [done|by exists page]]].
    eapply inv_extends; [done..|rewrite He; mlia|lia| |done].
    intros i Hr. cbn [s' memory kernel_heap_start] in *. rewrite He in Hr.
    destruct (decide (kernel_heap_start s + i < kernel_heap_end s)).
    + rewrite map_bytes_out by lia. apply (inv_mapped _ _ _ Hi). lia.
    + rewrite map_bytes_in; [eauto|]. unfold PAGE_SIZE. lia.
Qed.

(** The page frames that [grow] needs. *)
Definition missing_pages (s : t A) (size : Z) : nat :=
  Z.to_nat ((size + 4095 - (kernel_heap_end s - kernel_heap s)) / 4096).

Lemma grow_loop s bl fr size f :
  inv s bl fr → 0 ≤ size → kernel_heap_end s + 4096 * Z.of_nat (missing_pages s size) < 4294967296 →
  (missing_pages s size < f)%nat →
  ∃ ok s', while f (grow_body size) s = Ok (ok, s') ∧ inv s' bl fr ∧ extends s s' ∧
    (ok = true → kernel_heap s' + size ≤ kernel_heap_end s') ∧
    (ok = true ↔ supply (missing_pages s size) (frames s)).
Proof.
  intros Hi Hsz. revert f. remember (missing_pages s size) as k eqn:Ek. revert s Hi Ek.
  induction k as [|k IH]; intros s Hi Ek [|f] Hlt Hf; try lia; pose proof (inv_bounds _ _ _ Hi) as Hb;
    unfold missing_pages in Ek; cbn [while].
  - assert (Eb : grow_body size s = Ok (Break (true, s))); [|rewrite Eb; clear Eb].
    { unfold grow_body. rewrite u32_small by lia. by rewrite (proj2 (Z.ltb_ge _ _)) by mlia. }
    cbn [mbind res_bind].
    eexists true, s. split; [done|]. split; [done|]. split; [by split_and!|]. split; [mlia|done].
  - assert (Eb : grow_body size s = ('(err, s) ← heap_grow s; if negb (err =? 0) then Ok (Break (false, s)) else Ok (Continue s)))
      by (unfold grow_body; by rewrite u32_small, (proj2 (Z.ltb_lt _ _)) by mlia).
    rewrite Eb. clear Eb. destruct (heap_grow_ok s bl fr Hi) as (err & s1 & -> & Hi1 & He1 & Hne & Heq); [lia|]. cbn [mbind res_bind].
    destruct (Z.eqb_spec err 0) as [He|He]; cbn [negb mbind res_bind].
    + destruct (Heq He) as [Hend (page & Hal)]. pose proof He1 as (Y1 & Y2 & _).
      destruct (IH s1 Hi1) with (f := f) as (ok & s' & Hw & Hi' & He' & Hr & Hs); [unfold missing_pages; mlia|lia|lia|].
      exists ok, s'. split; [done|]. split; [done|]. split; [by eapply extends_trans|]. split; [done|].
      rewrite Hs. cbn [supply]. split; [by eauto|]. intros (page' & a' & Hal' & Hs'). congruence.
    + destruct (Hne He) as [Hend Hal]. exists false, s1. split; [done|]. split; [done|]. split; [done|]. split; [done|].
      split; [done|]. intros (page & a' & Hal' & _). congruence.
Qed.

Lemma grow_ok s bl fr size :
  inv s bl fr → 0 ≤ size → kernel_heap_end s + size + 8192 < 4294967296 →
  ∃ ok s', grow size s = Ok (ok, s') ∧ inv s' bl fr ∧ extends s s' ∧
    (ok = true → kernel_heap s' + size ≤ kernel_heap_end s') ∧
    (ok = true ↔ supply (missing_pages s size) (frames s)).
Proof.
  intros Hi Hsz Hlt. pose proof (inv_bounds _ _ _ Hi).
  apply grow_loop; [done|done|unfold missing_pages; mlia|unfold missing_pages, grow_fuel, PAGE_SIZE; mlia].
Qed.

(** ** Searching the free list *)

(** A block of [bl] that is too small for the request, by the test of the code. *)
Definition too_small (bl : gmap Z Z) (na a : Z) : Prop :=
  ∀ k, bl !! a = Some k → Z.lxor k 15 < na.

Lemma search_body_small m na prev a k n :
  a ≠ 0 → get_size m a = Ok k → Z.lxor k 15 < na → get_next m a = Ok n →
  search_body m na (prev, a) = Ok (Continue (a, n)).
Proof.
  intros Ha Hk Hna Hn. unfold search_body. rewrite (proj2 (Z.eqb_neq a 0)) by done.
  rewrite Hk. cbn [mbind res_bind]. rewrite (proj2 (Z.leb_gt _ _)) by done. by rewrite Hn.
Qed.

Lemma search_body_fits m na prev a k :
  a ≠ 0 → get_size m a = Ok k → na ≤ Z.lxor k 15 →
  search_body m na (prev, a) = Ok (Break (Some (prev, a, Z.lxor k 15))).
Proof.
  intros Ha Hk Hna. unfold search_body. rewrite (proj2 (Z.eqb_neq a 0)) by done.
  rewrite Hk. cbn [mbind res_bind]. by rewrite (proj2 (Z.leb_le _ _)) by done.
Qed.

Lemma search_skip s bl fr na fr1 fr2 prev p f :
  inv s bl fr → fr1 ⊆ fr → Forall (too_small bl na) fr1 →
  chain (memory s) p (fr1 ++ fr2) →
  ∃ p', chain (memory s) p' fr2 ∧
    while (length fr1 + f) (search_body (memory s) na) (prev, p)
    = while f (search_body (memory s) na) (default prev (last fr1), p').
Proof.
  intros Hi. revert prev p. induction fr1 as [|a fr1 IH]; intros prev p Hsub Hsmall Hc.
  { exists p. by split. }
  destruct Hc as (-> & n & Hn & Hc). inversion_clear Hsmall as [|? ? Ha Hs].
  destruct (inv_free _ _ _ Hi a ltac:(set_solver)) as [k Hk].
  pose proof (inv_block _ _ _ Hi a k Hk) as (Hb & _ & _ & _ & _ & Hsz).
  pose proof (inv_bounds _ _ _ Hi).
  destruct (IH a n) as (p' & Hp' & Hw); [set_solver|done|done|].
  exists p'. split; [done|]. cbn [length Nat.add while].
  rewrite (search_body_small _ _ _ _ k n) by (done || lia || by apply Ha).
  cbn [mbind res_bind]. rewrite Hw. rewrite last_cons. by destruct (last fr1).
Qed.

Lemma search_none s bl fr na :
  inv s bl fr → Forall (too_small bl na) fr → (length fr < fuel)%nat →
  while fuel (search_body (memory s) na) (0, kernel_malloc_freelist s) = Ok None.
Proof.
  intros Hi Hs Hf. destruct (search_skip s bl fr na fr [] 0 (kernel_malloc_freelist s)
    (fuel - length fr)) as (p' & -> & Hw); [done..|rewrite app_nil_r; by apply Hi|].
  replace (length fr + (fuel - length fr))%nat with fuel in Hw by lia. rewrite Hw.
  by replace (fuel - length fr)%nat with (S (fuel - length fr - 1)) by lia.
Qed.

Lemma search_some s bl fr1 a fr2 na k :
  inv s bl (fr1 ++ a :: fr2) → Forall (too_small bl na) fr1 →
  bl !! a = Some k → na ≤ Z.lxor k 15 → (length fr1 < fuel)%nat →
  while fuel (search_body (memory s) na) (0, kernel_malloc_freelist s)
  = Ok (Some (default 0 (last fr1), a, Z.lxor k 15)).
Proof.
  intros Hi Hs Hk Hna Hf.
  destruct (search_skip s bl (fr1 ++ a :: fr2) na fr1 (a :: fr2) 0 (kernel_malloc_freelist s)
    (fuel - length fr1)) as (p' & (-> & n & Hn & Hc) & Hw);
    [done|set_solver|done|by apply Hi|].
  replace (length fr1 + (fuel - length fr1))%nat with fuel in Hw by lia. rewrite Hw.
  replace (fuel - length fr1)%nat with (S (fuel - length fr1 - 1)) by lia.
  pose proof (inv_block _ _ _ Hi a k Hk) as (Hb & _ & _ & _ & _ & Hsz).
  pose proof (inv_bounds _ _ _ Hi).
  cbn [while]. by rewrite (search_body_fits _ _ _ _ k) by (done || lia).
Qed.

(** ** A fresh block *)

Lemma aligned_ok n : 0 ≤ n ≤ 4294967280 →
  n ≤ aligned n < n + 16 ∧ aligned n mod 16 = 0 ∧ aligned n ≤ 4294967280.
Proof.
  intros Hn. unfold aligned, MALLOC_ALIGN_BYTES. case_test; [|lia].
  rewrite u32_small by mlia. mlia.
Qed.

(** The three writes that make [a] the header of a block. *)
Lemma write_header_ok m a nx k :
  mapped m a 12 → 0 ≤ nx < 4294967296 → 0 ≤ k < 4294967296 →
  ∃ m1 m2 m3, set_next m a nx = Ok m1 ∧ set_size m1 a k = Ok m2 ∧ update_checksum m2 a = Ok m3 ∧
    header_only m m3 a ∧ get_next m3 a = Ok nx ∧ get_size m3 a = Ok k ∧
    get_checksum m3 a = Ok (Z.lxor nx k).
Proof.
  intros Hm Hn Hk.
  destruct (set_next_ok m a nx) as (m1 & H1 & Ho1 & N1 & _); [done..|].
  destruct (set_size_ok m1 a k) as (m2 & H2 & Ho2 & S2 & N2 & _); [by apply Ho1|done|].
  rewrite N1 in N2.
  destruct (update_checksum_ok m2 a nx k) as (m3 & H3 & Ho3 & C3 & N3 & S3);
    [by apply Ho2, Ho1|done..|].
  exists m1, m2, m3. split_and!; try done. eauto using header_only_trans.
Qed.

Lemma inv_new_block s bl fr m a k :
  inv s bl fr → a = kernel_heap s → 0 ≤ k → k mod 16 = 0 →
  a + 16 + k ≤ kernel_heap_end s →
  header_only (memory s) m a → get_size m a = Ok k →
  (∃ nx, get_next m a = Ok nx ∧ get_checksum m a = Ok (Z.lxor nx k)) →
  inv (Heap m (frames s) (kernel_heap_start s) (kernel_heap_end s) (a + 16 + k)
            (kernel_malloc_freelist s)) (<[a := k]> bl) fr.
Proof.
  intros Hi -> Hk0 Hk Hend Ho Hsz Hck. set (a := kernel_heap s) in *.
  pose proof (inv_bounds _ _ _ Hi) as Hb.
  assert (Hlt : ∀ b n, bl !! b = Some n → b + 16 + n ≤ a ∧ 0 ≤ n).
  { intros b n Hbn. pose proof (inv_block _ _ _ Hi b n Hbn). unfold a. lia. }
  assert (Ha : bl !! a = None).
  { destruct (bl !! a) eqn:E; [|done]. destruct (Hlt _ _ E). lia. }
  assert (Hot : ∀ b n, bl !! b = Some n → get_next m b = get_next (memory s) b ∧
     get_size m b = get_size (memory s) b ∧ get_checksum m b = get_checksum (memory s) b).
  { intros b n Hbn. apply (header_other _ _ a); [done|]. destruct (Hlt _ _ Hbn). lia. }
  split; cbn; try apply Hi; try lia.
  - pose proof (inv_align _ _ _ Hi). fold a in H. mlia.
  - apply Ho. apply Hi.
  - intros b n. rewrite lookup_insert_Some. intros [(<- & <-)|(Hne & Hbn)].
    + pose proof (inv_align _ _ _ Hi). split_and!; try done; unfold a in *; lia.
    + pose proof (inv_block _ _ _ Hi b n Hbn) as Hblk. destruct (Hot _ _ Hbn) as (_ & -> & _).
      split_and!; try apply Hblk. unfold a in *. lia.
  - intros b n c l. rewrite !lookup_insert_Some.
    intros [(<- & <-)|(Hne & Hbn)] [(<- & <-)|(Hne' & Hcl)] Hlt'; try lia.
    + destruct (Hlt _ _ Hcl). lia.
    + destruct (Hlt _ _ Hbn). lia.
    + by eapply (inv_sep _ _ _ Hi).
  - eapply chain_frame; [|apply Hi]. intros b Hbf.
    destruct (inv_free _ _ _ Hi b Hbf) as [n Hn]. by eapply Hot.
  - intros b Hbf. destruct (inv_free _ _ _ Hi b Hbf) as [n Hn].
    rewrite lookup_insert_ne by congruence. eauto.
  - intros b n. rewrite lookup_insert_Some. intros [(<- & <-)|(Hne & Hbn)] Hnf; [done|].
    destruct (Hot _ _ Hbn) as (-> & _ & ->). by apply (inv_check _ _ _ Hi).
Qed.

(** What the owner of an allocated block relies on: its bytes stay. *)
Definition keeps (bl : gmap Z Z) (m m' : mem) : Prop :=
  ∀ a k x, bl !! a = Some k → a ≤ x < a + 16 + k → m' !! x = m !! x.

Lemma malloc_fresh_ok s bl fr n :
  inv s bl fr → 0 ≤ aligned n → aligned n mod 16 = 0 →
  kernel_heap_end s + aligned n + 8224 < 4294967296 →
  Forall (too_small bl (aligned n)) fr → (length fr < fuel)%nat →
  ∃ p s', malloc s n = Ok (p, s') ∧ keeps bl (memory s) (memory s') ∧
    (∀ x, x < kernel_heap s → memory s' !! x = memory s !! x) ∧ kernel_heap_start s' = kernel_heap_start s ∧
    ((p = 0 ∧ ¬ supply (missing_pages s (16 + aligned n)) (frames s) ∧ inv s' bl fr) ∨
     (p = kernel_heap s + 16 ∧ supply (missing_pages s (16 + aligned n)) (frames s) ∧ p mod 16 = 0 ∧ bl !! (p - 16) = None ∧
      (∀ a k, bl !! a = Some k → a + 16 + k ≤ p - 16) ∧
      p + aligned n ≤ kernel_heap_end s' ∧ mapped (memory s') p (aligned n) ∧
      inv s' (<[p - 16 := aligned n]> bl) fr)).
Proof.
  intros Hi Hal Hal16 Hend Hsmall Hf.
  unfold malloc. rewrite (search_none s bl fr) by done. cbn [mbind res_bind].
  unfold malloc_fresh. change header_size with 16.
  pose proof (inv_bounds _ _ _ Hi) as Hb.
  rewrite u32_small by lia.
  destruct (grow_ok s bl fr (16 + aligned n)) as (ok & s1 & Hg & Hi1 & He1 & Hok & Hsup); [done|lia..|].
  rewrite Hg. cbn [mbind res_bind]. pose proof He1 as (E1 & E2 & E3 & E4 & E5).
  assert (Hkeep : keeps bl (memory s) (memory s1)).
  { intros a k x Hk Hx. apply E5. pose proof (inv_block _ _ _ Hi a k Hk). lia. }
  destruct ok; cbn [negb].
  2:{ eexists _, _. split; [done|]. split; [done|]. split; [intros x Hx; apply E5; lia|]. split; [done|].
      left. split; [done|]. split; [|done]. by rewrite <- Hsup. }
  specialize (Hok eq_refl) as Hroom. specialize (proj1 Hsup eq_refl) as Hfr. pose proof (inv_bounds _ _ _ Hi1) as Hb1.
  pose proof (inv_align _ _ _ Hi1) as Ha1.
  destruct (write_header_ok (memory s1) (kernel_heap s1) 0 (aligned n))
    as (m1 & m2 & m3 & -> & H2 & H3 & Ho & N3 & S3 & C3); [|lia..|].
  { eapply mapped_sub; [apply Hi1|lia..]. }
  cbn [mbind res_bind]. rewrite H2. cbn [mbind res_bind]. rewrite H3. cbn [mbind res_bind].
  assert (Hlt : ∀ a k, bl !! a = Some k → a + 16 + k ≤ kernel_heap s1).
  { intros a k Hk. pose proof (inv_block _ _ _ Hi1 a k Hk). lia. }
  eexists _, _. split; [done|]. split.
  { intros a k x Hk Hx. cbn [memory]. rewrite (proj1 Ho) by (specialize (Hlt _ _ Hk); lia).
    by eapply Hkeep. }
  split; [intros x Hx; cbn [memory]; rewrite (proj1 Ho) by lia; apply E5; lia|]. split; [done|].
  right. replace (kernel_heap s1 + 16 - 16) with (kernel_heap s1) by lia.
  split_and!; [lia|done|mlia| |done|cbn; lia| |].
  - destruct (bl !! kernel_heap s1) eqn:E; [|done].
    pose proof (inv_block _ _ _ Hi1 _ _ E). specialize (Hlt _ _ E). lia.
  - cbn [memory]. apply Ho. eapply mapped_sub; [apply Hi1|lia..].
  - rewrite u32_small by lia. rewrite Z.add_assoc.
    apply inv_new_block; try done; try lia. eauto.
Qed.

(** ** Freeing *)

(** The layout part of the invariant. *)
Definition shape (s : t A) (bl : gmap Z Z) : Prop :=
  (∀ a n, bl !! a = Some n → kernel_heap_start s ≤ a ∧ a mod 16 = 0 ∧ 0 ≤ n ∧ n mod 16 = 0 ∧
     a + 16 + n ≤ kernel_heap s) ∧
  (∀ a n b k, bl !! a = Some n → bl !! b = Some k → a < b → a + 16 + n ≤ b).

Lemma inv_shape s bl fr : inv s bl fr → shape s bl.
Proof.
  intros Hi. split; [|apply Hi]. intros a n Ha. pose proof (inv_block _ _ _ Hi a n Ha). naive_solver.
Qed.

(** Two neighbours become one block. *)
Definition merge (bl : gmap Z Z) (x kx y ky : Z) : gmap Z Z := <[x := kx + 16 + ky]> (delete y bl).

Lemma merge_lookup bl x kx y ky b n :
  x ≠ y → (merge bl x kx y ky !! b = Some n) ↔
  (b = x ∧ n = kx + 16 + ky) ∨ (b ≠ x ∧ b ≠ y ∧ bl !! b = Some n).
Proof.
  intros Hxy. unfold merge. rewrite lookup_insert_Some, lookup_delete_Some. naive_solver.
Qed.

Lemma merge_shape s bl x kx y ky :
  shape s bl → bl !! x = Some kx → bl !! y = Some ky → x + 16 + kx = y →
  shape s (merge bl x kx y ky).
Proof.
  intros [Hb Hs] Hx Hy Hxy. pose proof (Hb _ _ Hx). pose proof (Hb _ _ Hy).
  assert (x ≠ y) by lia. split.
  - intros a n. rewrite merge_lookup by done. intros [(-> & ->)|(_ & _ & Ha)]; [mlia|by apply Hb].
  - intros a n b k. rewrite !merge_lookup by done.
    intros [(-> & ->)|(Ha1 & Ha2 & Ha)] [(-> & ->)|(Hb1 & Hb2 & Hbk)] Hlt.
    + lia.
    + pose proof (Hs _ _ _ _ Hx Hbk Hlt). destruct (decide (y < b)) as [Hyb|].
      * pose proof (Hs _ _ _ _ Hy Hbk Hyb). lia.
      * pose proof (Hs _ _ _ _ Hbk Hy). pose proof (Hb _ _ Hbk). lia.
    + by eapply Hs.
    + by eapply Hs.
Qed.

Lemma inv_rebuild s bl fr s' bl' fr' :
  inv s bl fr → shape s bl' →
  kernel_heap_start s' = kernel_heap_start s → kernel_heap_end s' = kernel_heap_end s →
  kernel_heap s' = kernel_heap s → frames s' = frames s →
  (∀ p n, mapped (memory s) p n → mapped (memory s') p n) →
  (∀ b n, bl' !! b = Some n → get_size (memory s') b = Ok n) →
  (∀ b n, bl' !! b = Some n → b ∉ fr' → ∃ nx,
     get_next (memory s') b = Ok nx ∧ get_checksum (memory s') b = Ok (Z.lxor nx n)) →
  chain (memory s') (kernel_malloc_freelist s') fr' → NoDup fr' →
  (∀ b, b ∈ fr' → is_Some (bl' !! b)) → inv s' bl' fr'.
Proof.
  intros Hi [Hsh1 Hsh2] E1 E2 E3 E4 Hm Hsz Hal Hc Hnd Hfr.
  split; rewrite ?E1, ?E2, ?E3, ?E4; try done; try apply Hi.
  - apply Hm. apply Hi.
  - intros a n Ha. pose proof (Hsh1 _ _ Ha) as Hx. split_and!; try apply Hx. by apply Hsz.
Qed.

(** The blocks that stay allocated keep their headers. *)
Lemma inv_reshape s bl fr s' bl' fr' :
  inv s bl fr → shape s bl' →
  kernel_heap_start s' = kernel_heap_start s → kernel_heap_end s' = kernel_heap_end s →
  kernel_heap s' = kernel_heap s → frames s' = frames s →
  (∀ p n, mapped (memory s) p n → mapped (memory s') p n) →
  (∀ b n, bl' !! b = Some n → get_size (memory s') b = Ok n) →
  (∀ b n, bl' !! b = Some n → b ∉ fr' → (bl !! b = Some n) ∧ (b ∉ fr) ∧
     get_next (memory s') b = get_next (memory s) b ∧
     get_checksum (memory s') b = get_checksum (memory s) b) →
  chain (memory s') (kernel_malloc_freelist s') fr' → NoDup fr' →
  (∀ b, b ∈ fr' → is_Some (bl' !! b)) → inv s' bl' fr'.
Proof.
  intros Hi Hsh E1 E2 E3 E4 Hm Hsz Hal. eapply inv_rebuild; try done.
  intros a n Ha Hnf. destruct (Hal a n Ha Hnf) as (Ha' & Hnf' & -> & ->).
  by apply (inv_check _ _ _ Hi).
Qed.

Lemma chain_next_range s bl fr fr' m p :
  inv s bl fr → fr' ⊆ fr → chain m p fr' → 0 ≤ p < 4294967296.
Proof.
  intros Hi Hsub Hc. pose proof (inv_bounds _ _ _ Hi). destruct fr' as [|a fr']; cbn in Hc; [lia|].
  destruct Hc as (-> & _). destruct (inv_free _ _ _ Hi a) as [k Hk]; [set_solver|].
  pose proof (inv_block _ _ _ Hi a k Hk). lia.
Qed.

Lemma chain_mid m p fr1 fr2 : chain m p (fr1 ++ fr2) → ∃ q, chain m q fr2.
Proof.
  revert p. induction fr1 as [|a fr1 IH]; intros p Hc; [by exists p|].
  destruct Hc as (_ & n & _ & Hc). by eapply IH.
Qed.

(** Replacing the tail of the list by writing the [next] of its predecessor. *)
Lemma chain_splice m m' p fr1 tl tl' q :
  NoDup fr1 → chain m p (fr1 ++ tl) → chain m' q tl' →
  (∀ b, b ∈ fr1 → last fr1 ≠ Some b → get_next m' b = get_next m b) →
  (∀ b, last fr1 = Some b → get_next m' b = Ok q) →
  chain m' (match fr1 with [] => q | _ => p end) (fr1 ++ tl').
Proof.
  revert p. induction fr1 as [|a fr1 IH]; intros p Hnd Hc Hq Hsame Hlast; [done|].
  destruct Hc as (-> & n & Hn & Hc). inversion_clear Hnd as [|? ? Hna Hnd'].
  cbn [app chain]. split; [done|]. rewrite last_cons in Hsame, Hlast.
  destruct fr1 as [|b fr1].
  - exists q. split; [by apply Hlast|done].
  - exists n. split.
    + rewrite Hsame; [done|set_solver|]. intros Heq. destruct (last (b :: fr1)) eqn:El;
        [|by apply last_None in El].
      injection Heq as ->. apply Hna. by apply last_Some_elem_of.
    + apply (IH n); try done.
      * intros c Hc' Hl. apply Hsame; [set_solver|].
        destruct (last (b :: fr1)) eqn:El; [done|by apply last_None in El].
      * intros c Hl. apply Hlast. by rewrite Hl.
Qed.

(** [o] is the block just after or just before [a]. *)
Definition adjacent (bl : gmap Z Z) (a ka o : Z) : Prop :=
  a + 16 + ka = o ∨ o + 16 + default 0 (bl !! o) = a.

#[local] Instance adjacent_dec bl a ka o : Decision (adjacent bl a ka o).
Proof. unfold adjacent. apply _. Defined.

Lemma free_skip s bl fr a ka fr1 fr2 prev p f :
  inv s bl fr → bl !! a = Some ka → fr1 ⊆ fr → Forall (λ o, ¬ adjacent bl a ka o) fr1 →
  chain (memory s) p (fr1 ++ fr2) →
  ∃ p', chain (memory s) p' fr2 ∧
    while (length fr1 + f) (free_body s a) (prev, p)
    = while f (free_body s a) (default prev (last fr1), p').
Proof.
  intros Hi Ha. revert prev p. induction fr1 as [|o fr1 IH]; intros prev p Hsub Hnadj Hc.
  { exists p. by split. }
  destruct Hc as (-> & n & Hn & Hc). inversion_clear Hnadj as [|? ? Ho Hs].
  destruct (inv_free _ _ _ Hi o ltac:(set_solver)) as [k Hk].
  pose proof (inv_block _ _ _ Hi o k Hk) as (Hb & _ & Hk0 & _ & Hke & Hsz).
  pose proof (inv_block _ _ _ Hi a ka Ha) as (Hba & _ & Hka0 & _ & Hkae & Hsza).
  pose proof (inv_bounds _ _ _ Hi).
  destruct (IH o n) as (p' & Hp' & Hw); [set_solver|done|done|].
  exists p'. split; [done|]. cbn [length Nat.add while].
  assert (free_body s a (prev, o) = Ok (Continue (o, n))) as ->.
  { unfold adjacent in Ho. rewrite Hk in Ho. cbn in Ho. unfold free_body. test_false (o =? 0).
    rewrite Hsza. cbn [mbind res_bind]. rewrite Hsz. cbn [mbind res_bind].
    change header_size with 16.
    rewrite (u32_small (a + ka + 16)), (u32_small (o + k + 16)) by lia.
    rewrite !(proj2 (Z.eqb_neq _ _)) by lia. by rewrite Hn. }
  cbn [mbind res_bind]. rewrite Hw. rewrite last_cons. by destruct (last fr1).
Qed.

(** Which blocks there are after [free] of [a]: the first block of the free list next
    to [a] is merged with it, in its place of the list; without one, [a] is the new
    head of the list. *)
Definition coalesced (bl bl' : gmap Z Z) (fr fr' : list Z) (a ka : Z) : Prop :=
  (Forall (λ o, ¬ adjacent bl a ka o) fr ∧ bl' = bl ∧ fr' = a :: fr) ∨
  ∃ fr1 o ko fr2, fr = fr1 ++ o :: fr2 ∧ bl !! o = Some ko ∧ Forall (λ o, ¬ adjacent bl a ka o) fr1 ∧
    ((a + 16 + ka = o ∧ bl' = merge bl a ka o ko ∧ fr' = fr1 ++ a :: fr2) ∨
     (o + 16 + ko = a ∧ bl' = merge bl o ko a ka ∧ fr' = fr)).

(** The result of [free]: what it means for the owners of the heap. *)
Definition freed (s s' : t A) (bl bl' : gmap Z Z) (fr fr' : list Z) (a : Z) : Prop :=
  inv s' bl' fr' ∧
  (* the allocated blocks are those that were, without [a] *)
  (∀ b k, (bl' !! b = Some k ∧ (b ∉ fr')) ↔ (bl !! b = Some k ∧ (b ∉ fr) ∧ b ≠ a)) ∧
  (* their bytes have not changed *)
  (∀ b k x, bl !! b = Some k → (b ∉ fr) → b ≠ a → b ≤ x < b + 16 + k → memory s' !! x = memory s !! x) ∧
  (* [a] and what was free lie in free blocks *)
  (∀ b k, bl !! b = Some k → b ∈ fr ∨ b = a →
     ∃ c l, c ∈ fr' ∧ bl' !! c = Some l ∧ c ≤ b ∧ b + 16 + k ≤ c + 16 + l).

Lemma other_block s bl fr m0 m a k b l :
  inv s bl fr → bl !! a = Some k → bl !! b = Some l → b ≠ a → header_only m0 m a →
  (get_next m b = get_next m0 b ∧ get_size m b = get_size m0 b ∧
   get_checksum m b = get_checksum m0 b) ∧
  ∀ x, b ≤ x < b + 16 + l → m !! x = m0 !! x.
Proof.
  intros Hi Ha Hb Hne Ho. pose proof (inv_sep _ _ _ Hi a k b l Ha Hb).
  pose proof (inv_sep _ _ _ Hi b l a k Hb Ha).
  pose proof (inv_block _ _ _ Hi a k Ha). pose proof (inv_block _ _ _ Hi b l Hb).
  split; [apply (header_other _ _ a); [done|lia]|]. intros x Hx. apply Ho. lia.
Qed.

Lemma free_push s bl fr a k m :
  inv s bl fr → bl !! a = Some k → a ∉ fr → header_only (memory s) m a →
  get_next m a = Ok (kernel_malloc_freelist s) → get_size m a = Ok k →
  freed s (set_freelist (set_memory s m) a) bl bl fr (a :: fr) a.
Proof.
  intros Hi Ha Hnf Ho Hn Hs.
  pose proof (λ b l Hb Hne, other_block s bl fr (memory s) m a k b l Hi Ha Hb Hne Ho) as Hother.
  split_and!.
  - eapply inv_reshape; try done; [by eapply inv_shape|apply Ho|..].
    + intros b n Hb. destruct (decide (b = a)) as [->|Hne]; [cbn; congruence|].
      cbn. destruct (Hother _ _ Hb Hne) as ((_ & -> & _) & _). by eapply (inv_block _ _ _ Hi).
    + intros b n Hb Hni. apply not_elem_of_cons in Hni as [Hne Hni].
      destruct (Hother _ _ Hb Hne) as ((? & _ & ?) & _). done.
    + cbn. split; [done|]. exists (kernel_malloc_freelist s). split; [done|].
      eapply chain_frame; [|by apply Hi]. intros b Hb.
      destruct (inv_free _ _ _ Hi b Hb) as [l Hl]. eapply Hother; [done|]. by intros ->.
    + constructor; [done|by apply Hi].
    + intros b [->|Hb]%elem_of_cons; [by rewrite Ha|by apply (inv_free _ _ _ Hi)].
  - intros b l. rewrite not_elem_of_cons. naive_solver.
  - intros b l x Hb _ Hne Hx. cbn. by eapply Hother.
  - intros b l Hb Hor. exists b, l. split; [|split_and!; done || lia].
    rewrite elem_of_cons. tauto.
Qed.

(** [a] is absorbed by the free block [o] just below it. *)
Lemma free_absorb s bl fr a k o ko m :
  inv s bl fr → bl !! a = Some k → a ∉ fr → bl !! o = Some ko → o ∈ fr → o + 16 + ko = a →
  header_only (memory s) m o → get_next m o = get_next (memory s) o →
  get_size m o = Ok (ko + 16 + k) →
  freed s (set_memory s m) bl (merge bl o ko a k) fr fr a.
Proof.
  intros Hi Ha Hnf Hko Hof Hadj Ho Hn Hs.
  pose proof (λ b l Hb Hne, other_block s bl fr (memory s) m o ko b l Hi Hko Hb Hne Ho) as Hother.
  pose proof (inv_block _ _ _ Hi _ _ Hko) as Hbo.
  assert (o ≠ a) by congruence.
  pose proof (λ b n, merge_lookup bl o ko a k b n ltac:(done)) as Hml.
  split_and!.
  - eapply inv_reshape; try done; [eapply merge_shape; eauto using inv_shape|apply Ho|..].
    + intros b n. rewrite Hml. intros [(-> & ->)|(? & ? & Hb)]; cbn; [done|].
      destruct (Hother _ _ Hb) as ((_ & -> & _) & _); [done|]. by eapply (inv_block _ _ _ Hi).
    + intros b n. rewrite Hml. intros [(-> & ->)|(? & ? & Hb)] Hni; [done|].
      destruct (Hother _ _ Hb) as ((? & _ & ?) & _); done.
    + eapply chain_frame; [|by apply Hi]. intros b Hb.
      destruct (decide (b = o)) as [->|]; [done|].
      destruct (inv_free _ _ _ Hi b Hb) as [l Hl]. by eapply Hother.
    + apply Hi.
    + intros b Hb. destruct (inv_free _ _ _ Hi b Hb) as [l Hl].
      destruct (decide (b = o)) as [->|]; [exists (ko + 16 + k)|exists l]; apply Hml; [tauto|].
      right. split_and!; try done. congruence.
  - intros b l. rewrite Hml. split; [|naive_solver]. intros [[(-> & _)|(? & ? & ?)] ?]; done.
  - intros b l x Hb Hnb Hne Hx. cbn. eapply Hother; try done. by intros ->.
  - intros b l Hb Hor. destruct (decide (b = o ∨ b = a)) as [Hoa|Hno].
    + exists o, (ko + 16 + k). split; [done|]. split; [apply Hml; tauto|].
      destruct Hoa as [-> | ->]; [|rewrite Ha in Hb]; [rewrite Hko in Hb|];
        injection Hb as <-; pose proof (inv_block _ _ _ Hi _ _ Ha); lia.
    + exists b, l. split; [tauto|]. split; [apply Hml; tauto|]. lia.
Qed.

(** The memory after the freed block [a] has taken over its upper neighbour:
    [m] has the new header, [m'] also the link from the predecessor. *)
Definition relinked (m m' : mem) (fr1 : list Z) (a : Z) : Prop :=
  (fr1 = [] ∧ m' = m) ∨
  ∃ pv, last fr1 = Some pv ∧ header_only m m' pv ∧ get_next m' pv = Ok a ∧
        get_size m' pv = get_size m pv.

Lemma relinked_fields s bl fr1 fr a ka m m' :
  inv s bl fr → bl !! a = Some ka → a ∉ fr → fr1 ⊆ fr →
  header_only (memory s) m a → relinked m m' fr1 a →
  (∀ p n, mapped (memory s) p n → mapped m' p n) ∧
  (get_next m' a = get_next m a ∧ get_size m' a = get_size m a) ∧
  (∀ b l, bl !! b = Some l → b ≠ a → get_size m' b = Ok l) ∧
  (∀ b l, bl !! b = Some l → b ≠ a → last fr1 ≠ Some b →
     get_next m' b = get_next (memory s) b ∧ get_checksum m' b = get_checksum (memory s) b ∧
     ∀ x, b ≤ x < b + 16 + l → m' !! x = memory s !! x).
Proof.
  intros Hi Ha Hnf Hsub Ho Hre.
  pose proof (λ b l Hb Hne, other_block s bl fr (memory s) m a ka b l Hi Ha Hb Hne Ho) as Hother.
  assert (Hsz : ∀ b l, bl !! b = Some l → b ≠ a → get_size m b = Ok l).
  { intros b l Hb Hne. destruct (Hother _ _ Hb Hne) as ((_ & -> & _) & _).
    by eapply (inv_block _ _ _ Hi). }
  destruct Hre as [[-> ->]|(pv & Hpv & Hop & Hnp & Hsp)].
  { split; [apply Ho|]. split; [done|]. split; [done|]. intros b l Hb Hne _.
    destruct (Hother _ _ Hb Hne) as ((? & _ & ?) & ?). done. }
  assert (pv ∈ fr) as Hpf by (apply Hsub; by apply last_Some_elem_of).
  destruct (inv_free _ _ _ Hi pv Hpf) as [kp Hkp].
  assert (pv ≠ a) by (by intros ->).
  assert (Hpo : ∀ b l, bl !! b = Some l → b ≠ pv →
    (get_next m' b = get_next m b ∧ get_size m' b = get_size m b ∧ get_checksum m' b = get_checksum m b) ∧
    ∀ x, b ≤ x < b + 16 + l → m' !! x = m !! x).
  { intros b l Hb Hne. exact (other_block _ _ _ _ _ _ _ _ _ Hi Hkp Hb Hne Hop). }
  split; [intros; by apply Hop, Ho|].
  split; [destruct (Hpo _ _ Ha) as ((? & ? & _) & _); [congruence|done]|].
  split.
  - intros b l Hb Hne. destruct (decide (b = pv)) as [->|Hnp'].
    + rewrite Hsp. by apply Hsz.
    + destruct (Hpo _ _ Hb Hnp') as ((_ & -> & _) & _). by apply Hsz.
  - intros b l Hb Hne Hlast. destruct (Hother _ _ Hb Hne) as ((Hn & _ & Hc) & Hx).
    destruct (Hpo _ _ Hb) as ((Hn' & _ & Hc') & Hx'); [congruence|].
    split_and!; [congruence..|]. intros x Hr. rewrite Hx', Hx; done.
Qed.

Lemma free_before s bl fr1 o fr2 a ka ko n m m' p' :
  inv s bl (fr1 ++ o :: fr2) → bl !! a = Some ka → a ∉ fr1 ++ o :: fr2 →
  bl !! o = Some ko → a + 16 + ka = o → chain (memory s) n fr2 →
  header_only (memory s) m a → get_next m a = Ok n → get_size m a = Ok (ka + 16 + ko) →
  relinked m m' fr1 a →
  p' = match fr1 with [] => a | _ => kernel_malloc_freelist s end →
  freed s (set_freelist (set_memory s m') p') bl (merge bl a ka o ko)
    (fr1 ++ o :: fr2) (fr1 ++ a :: fr2) a.
Proof.
  intros Hi Ha Hnf Hko Hadj Hc2 Ho Hn Hs Hre ->.
  destruct (relinked_fields s bl fr1 _ a ka m m' Hi Ha Hnf) as (Hmap & (Hna & Hsa) & Hsz & Hrest);
    [set_solver|done..|].
  pose proof (inv_block _ _ _ Hi _ _ Ha) as Hba. pose proof (inv_nodup _ _ _ Hi) as Hnd.
  apply NoDup_app in Hnd as (Hnd1 & Hnd12 & [Hno2 Hnd2]%NoDup_cons).
  assert (o ≠ a) by (intros ->; set_solver).
  pose proof (λ b n, merge_lookup bl a ka o ko b n ltac:(done)) as Hml.
  assert (Hfr : ∀ b, b ∈ fr1 ∨ b ∈ fr2 → ∃ l, bl !! b = Some l ∧ b ≠ a ∧ b ≠ o).
  { intros b Hb. destruct (inv_free _ _ _ Hi b) as [l Hl]; [set_solver|]. exists l.
    split; [done|]. split; intros ->; [set_solver|]. destruct Hb; [|done]. set_solver. }
  assert (Hnl : ∀ b, b ∉ fr1 → last fr1 ≠ Some b).
  { intros b Hb Hl. by apply last_Some_elem_of in Hl. }
  split_and!.
  - eapply inv_reshape; try done; [eapply merge_shape; eauto using inv_shape|..].
    + intros b l. rewrite Hml. cbn. intros [(-> & ->)|(? & ? & Hb)]; [congruence|by apply Hsz].
    + intros b l. rewrite Hml. intros [(-> & _)|(? & ? & Hb)] Hni; [set_solver|].
      cbn. destruct (Hrest b l Hb) as (? & ? & _); [done|apply Hnl; set_solver|].
      split_and!; try done. set_solver.
    + cbn [set_freelist set_memory memory kernel_malloc_freelist].
      eapply chain_splice; [done|by apply Hi|..].
      * split; [done|]. exists n. split; [congruence|].
        eapply chain_frame; [|done]. intros b Hb. destruct (Hfr b (or_intror Hb)) as (l & Hl & ? & ?).
        eapply Hrest; [done..|]. apply Hnl. intros Hb1. apply (Hnd12 b); [done|]. by right.
      * intros b Hb Hl. destruct (Hfr b (or_introl Hb)) as (l & Hbl & ? & ?). by eapply Hrest.
      * intros b Hl. destruct Hre as [[-> _]|(pv & Hpv & _ & Hnp & _)]; [done|]. congruence.
    + apply NoDup_app. split; [done|]. split.
      * intros b Hb. rewrite elem_of_cons. intros [->|Hb2]; [set_solver|].
        apply (Hnd12 b); [done|]. by right.
      * constructor; [set_solver|done].
    + intros b Hb. destruct (decide (b = a)) as [->|Hne].
      * exists (ka + 16 + ko). apply Hml. tauto.
      * destruct (Hfr b) as (l & Hl & ? & ?); [set_solver|]. exists l. apply Hml. tauto.
  - intros b l. rewrite Hml. split.
    + intros [[(-> & _)|(? & ? & ?)] ?]; [set_solver|]. split_and!; try done. set_solver.
    + intros (Hb & Hni & Hne). split; [|set_solver]. right. split_and!; try done. set_solver.
  - intros b l x Hb Hnb Hne Hx. cbn. eapply Hrest; [done..| |done]. apply Hnl. set_solver.
  - intros b l Hb Hor. destruct (decide (b = o ∨ b = a)) as [Hoa|Hno].
    + exists a, (ka + 16 + ko). split; [set_solver|]. split; [apply Hml; tauto|].
      pose proof (inv_block _ _ _ Hi _ _ Hko). destruct Hoa; simplify_eq; lia.
    + exists b, l. split; [set_solver|]. split; [apply Hml; tauto|]. lia.
Qed.

Lemma header_mapped s bl fr a k : inv s bl fr → bl !! a = Some k → mapped (memory s) a 12.
Proof.
  intros Hi Ha. pose proof (inv_block _ _ _ Hi _ _ Ha). pose proof (inv_bounds _ _ _ Hi).
  eapply mapped_sub; [apply Hi|lia..].
Qed.

(** The loop body at the block after the freed one ... *)
Lemma free_body_before s bl fr1 o fr2 a ka ko :
  inv s bl (fr1 ++ o :: fr2) → bl !! a = Some ka → a ∉ fr1 ++ o :: fr2 →
  bl !! o = Some ko → a + 16 + ka = o → chain (memory s) o (o :: fr2) →
  ∃ s', free_body s a (default 0 (last fr1), o) = Ok (Break (Some s')) ∧
    freed s s' bl (merge bl a ka o ko) (fr1 ++ o :: fr2) (fr1 ++ a :: fr2) a.
Proof.
  intros Hi Ha Hnf Hko Hadj (_ & n & Hn & Hc).
  pose proof (inv_block _ _ _ Hi _ _ Ha) as (Ba & _ & Bk & _ & Be & Bs).
  pose proof (inv_block _ _ _ Hi _ _ Hko) as (Bo & _ & Bok & _ & Boe & Bos).
  pose proof (inv_bounds _ _ _ Hi) as Hb.
  pose proof (header_mapped _ _ _ _ _ Hi Ha) as Hma.
  unfold free_body. test_false (o =? 0). rewrite Bs. cbn [mbind res_bind]. rewrite Bos.
  cbn [mbind res_bind]. change header_size with 16.
  rewrite (u32_small (a + ka + 16)), (u32_small (ka + (16 + ko))) by lia.
  rewrite (proj2 (Z.eqb_eq _ _)) by lia.
  destruct (set_size_ok (memory s) a (ka + (16 + ko))) as (m1 & -> & Ho1 & S1 & _ & _); [done|lia|].
  cbn [mbind res_bind].
  destruct (header_other _ _ _ o Ho1) as (Hno & _ & _); [lia|]. rewrite Hno, Hn.
  cbn [mbind res_bind].
  assert (0 ≤ n < 4294967296) by (eapply chain_next_range; [done| |done]; set_solver).
  destruct (set_next_ok m1 a n) as (m2 & -> & Ho2 & N2 & S2 & _); [by apply Ho1|done|].
  cbn [mbind res_bind]. rewrite S1 in S2. replace (ka + (16 + ko)) with (ka + 16 + ko) in S2 by lia.
  assert (Ho : header_only (memory s) m2 a) by eauto using header_only_trans.
  destruct (last fr1) as [pv|] eqn:El; cbn [default].
  - assert (pv ∈ fr1) as Hpf by (by apply last_Some_elem_of).
    destruct (inv_free _ _ _ Hi pv) as [kp Hkp]; [set_solver|].
    pose proof (inv_block _ _ _ Hi _ _ Hkp) as (Bp & _).
    cbn [from_option id]. rewrite (proj2 (Z.eqb_neq pv 0)) by lia.
    pose proof (header_mapped _ _ _ _ _ Hi Hkp) as Hmp.
    destruct (set_next_ok m2 pv a) as (m3 & -> & Ho3 & N3 & S3 & _); [by apply Ho|lia|].
    cbn [mbind res_bind]. eexists. split; [done|].
    replace (set_memory s m3) with (set_freelist (set_memory s m3) (kernel_malloc_freelist s)) by done.
    apply (free_before s bl fr1 o fr2 a ka ko n m2 m3); try done.
    + right. by exists pv.
    + by destruct fr1.
  - apply last_None in El as ->. eexists. split; [done|].
    apply (free_before s bl [] o fr2 a ka ko n m2 m2); try done. by left.
Qed.

(** ... and at the block before it. *)
Lemma free_body_after s bl fr a ka o ko prev :
  inv s bl fr → bl !! a = Some ka → a ∉ fr → o ∈ fr → bl !! o = Some ko → o + 16 + ko = a →
  ∃ s', free_body s a (prev, o) = Ok (Break (Some s')) ∧ freed s s' bl (merge bl o ko a ka) fr fr a.
Proof.
  intros Hi Ha Hnf Hof Hko Hadj.
  pose proof (inv_block _ _ _ Hi _ _ Ha) as (Ba & _ & Bk & _ & Be & Bs).
  pose proof (inv_block _ _ _ Hi _ _ Hko) as (Bo & _ & Bok & _ & Boe & Bos).
  pose proof (inv_bounds _ _ _ Hi) as Hb.
  unfold free_body. test_false (o =? 0). rewrite Bs. cbn [mbind res_bind]. rewrite Bos.
  cbn [mbind res_bind]. change header_size with 16.
  rewrite (u32_small (a + ka + 16)), (u32_small (o + ko + 16)), (u32_small (ko + (16 + ka))) by lia.
  rewrite (proj2 (Z.eqb_neq _ _)), (proj2 (Z.eqb_eq _ _)) by lia.
  destruct (set_size_ok (memory s) o (ko + (16 + ka))) as (m1 & -> & Ho1 & S1 & N1 & _);
    [by eapply header_mapped|lia|].
  cbn [mbind res_bind]. eexists. split; [done|].
  apply (free_absorb s bl fr a ka o ko); try done. by rewrite S1, Z.add_assoc.
Qed.

Lemma free_checks s bl fr a ka :
  inv s bl fr → bl !! a = Some ka → a ∉ fr →
  u32 (a + 16 - header_size) = a ∧ ∃ c, get_checksum (memory s) a = Ok c ∧
    COMPUTE_CHECKSUM (memory s) a = Ok c ∧ get_size (memory s) a = Ok ka ∧ Z.land ka 15 = 0.
Proof.
  intros Hi Ha Hnf. pose proof (inv_block _ _ _ Hi _ _ Ha) as (Ba & _ & Bk & B16 & Be & Bs).
  pose proof (inv_bounds _ _ _ Hi). split; [change header_size with 16; rewrite u32_small; lia|].
  destruct (inv_check _ _ _ Hi _ _ Ha Hnf) as (nx & Hn & Hc).
  exists (Z.lxor nx ka). unfold COMPUTE_CHECKSUM. rewrite Hn. cbn [mbind res_bind]. rewrite Bs.
  split_and!; try done. change 15 with (Z.ones 4). by rewrite Z.land_ones by lia.
Qed.

Lemma free_ok s bl fr a ka :
  inv s bl fr → bl !! a = Some ka → a ∉ fr → (length fr < fuel)%nat →
  ∃ s' bl' fr', free s (a + 16) = Ok s' ∧ coalesced bl bl' fr fr' a ka ∧ freed s s' bl bl' fr fr' a.
Proof.
  intros Hi Ha Hnf Hfuel.
  destruct (free_checks s bl fr a ka) as (Hp & c & Hc & Hcc & Hsz & Hl); [done..|].
  unfold free. rewrite Hp, Hc. cbn [mbind res_bind]. rewrite Hcc. cbn [mbind res_bind].
  rewrite Z.eqb_refl. cbn [negb]. rewrite Hsz. cbn [mbind res_bind]. rewrite Hl. cbn [negb Z.eqb].
  destruct (first_such (adjacent bl a ka) fr) as [Hnone|(fr1 & o & fr2 & Hfr & Hn1 & Ho)].
  - destruct (free_skip s bl fr a ka fr [] 0 (kernel_malloc_freelist s) (fuel - length fr))
      as (p' & -> & Hw); [done..|by rewrite app_nil_r; apply Hi|].
    replace (length fr + (fuel - length fr))%nat with fuel in Hw by lia. rewrite Hw.
    replace (fuel - length fr)%nat with (S (fuel - length fr - 1)) by lia. cbn [while].
    unfold free_body. cbn [Z.eqb mbind res_bind].
    destruct (set_next_ok (memory s) a (kernel_malloc_freelist s)) as (m & -> & Hom & N & S & _);
      [by eapply header_mapped|by eapply chain_next_range; [done| |by apply Hi]|].
    cbn [mbind res_bind]. do 3 eexists. split; [done|]. split; [by left|].
    eapply free_push; try done. congruence.
  - subst fr. destruct (free_skip s bl (fr1 ++ o :: fr2) a ka fr1 (o :: fr2) 0
      (kernel_malloc_freelist s) (fuel - length fr1)) as (p' & Hch & Hw);
      [done..|set_solver|done|by apply Hi|].
    rewrite length_app in Hfuel. cbn in Hfuel.
    replace (length fr1 + (fuel - length fr1))%nat with fuel in Hw by lia. rewrite Hw.
    replace (fuel - length fr1)%nat with (S (fuel - length fr1 - 1)) by lia. cbn [while].
    pose proof Hch as [-> _]. destruct (inv_free _ _ _ Hi o) as [ko Hko]; [set_solver|].
    unfold adjacent in Ho. rewrite Hko in Ho. cbn [default from_option id] in Ho.
    destruct Ho as [Ho|Ho].
    + destruct (free_body_before s bl fr1 o fr2 a ka ko) as (s' & -> & Hf); [done..|].
      cbn [mbind res_bind]. do 3 eexists. split; [done|]. split; [|done]. right. exists fr1, o, ko, fr2. split_and!; [done..|by left].
    + destruct (free_body_after s bl (fr1 ++ o :: fr2) a ka o ko (default 0 (last fr1)))
        as (s' & -> & Hf); [done|done|done|set_solver|done|done|].
      cbn [mbind res_bind]. do 3 eexists. split; [done|]. split; [|done]. right. exists fr1, o, ko, fr2. split_and!; [done..|by right].
Qed.

(** ** Reusing a block *)

Lemma lxor_15 k : k mod 16 = 0 → Z.lxor k 15 = k + 15.
Proof.
  intros Hk. symmetry. apply Z.add_nocarry_lxor. change 15 with (Z.ones 4).
  by rewrite Z.land_ones by lia.
Qed.

(** The memory after the exact fit [a] behind [pv] has been unlinked. *)
Definition unlinked (s : t A) (bl : gmap Z Z) (m : mem) (pv a nx k : Z) : Prop :=
  (∀ p n, mapped (memory s) p n → mapped m p n) ∧
  get_next m a = Ok nx ∧ get_size m a = Ok k ∧ get_checksum m a = Ok (Z.lxor nx k) ∧
  get_next m pv = Ok nx ∧ get_size m pv = get_size (memory s) pv ∧
  ∀ b l, bl !! b = Some l → b ≠ a → b ≠ pv →
    (get_next m b = get_next (memory s) b ∧ get_size m b = get_size (memory s) b ∧
     get_checksum m b = get_checksum (memory s) b) ∧
    ∀ x, b ≤ x < b + 16 + l → m !! x = memory s !! x.

Lemma malloc_reuse_exact s bl fr pv kp a nx k :
  inv s bl fr → bl !! pv = Some kp → bl !! a = Some k → pv ≠ a →
  get_next (memory s) a = Ok nx → 0 ≤ nx < 4294967296 →
  ∃ m, malloc_reuse s k pv a (k + 15) = Ok (a + 16, set_memory s m) ∧ unlinked s bl m pv a nx k.
Proof.
  intros Hi Hkp Hk Hne Hnx Hr.
  pose proof (inv_block _ _ _ Hi _ _ Hk) as (Ba & _ & Bk & B16 & Be & Bs).
  pose proof (inv_block _ _ _ Hi _ _ Hkp) as (Bp & _). pose proof (inv_bounds _ _ _ Hi) as Hb.
  unfold malloc_reuse. rewrite (proj2 (Z.ltb_ge _ _)) by lia.
  rewrite (proj2 (Z.eqb_neq pv 0)) by lia. cbn [negb]. rewrite Hnx. cbn [mbind res_bind].
  destruct (set_next_ok (memory s) pv nx) as (m1 & -> & Ho1 & N1 & S1 & _);
    [by eapply header_mapped|done|].
  cbn [mbind res_bind].
  pose proof (λ b l Hbl Hnb, other_block _ _ _ _ _ _ _ b l Hi Hkp Hbl Hnb Ho1) as Hp1.
  destruct (Hp1 _ _ Hk) as ((Na1 & Sa1 & _) & _); [done|].
  destruct (set_size_ok m1 a k) as (m2 & -> & Ho2 & S2 & N2 & _);
    [by apply Ho1; eapply header_mapped|lia|].
  cbn [mbind res_bind].
  destruct (update_checksum_ok m2 a nx k) as (m3 & -> & Ho3 & C3 & N3 & S3);
    [by apply Ho2, Ho1; eapply header_mapped|congruence|done|done|lia|].
  cbn [mbind res_bind]. change header_size with 16. rewrite u32_small by lia.
  eexists. split; [done|].
  assert (Ho : header_only m1 m3 a) by eauto using header_only_trans.
  pose proof (λ b l Hbl Hnb, other_block _ _ _ _ _ _ _ b l Hi Hk Hbl Hnb Ho) as Hp3.
  destruct (Hp3 _ _ Hkp Hne) as ((Np & Sp & _) & _).
  split_and!; try congruence; [intros; by apply Ho, Ho1|].
  intros b l Hbl Hnb Hnp. destruct (Hp3 _ _ Hbl Hnb) as ((-> & -> & ->) & Hx).
  destruct (Hp1 _ _ Hbl Hnp) as (Hf & Hx'). split; [done|]. intros x Hxr. by rewrite Hx, Hx'.
Qed.

Lemma inv_unlinked s bl fr1 pv a fr2 m nx k :
  inv s bl (fr1 ++ pv :: a :: fr2) → bl !! a = Some k → pv ≠ a → pv ∉ fr1 → pv ∉ fr2 →
  a ∉ fr1 → chain (memory s) nx fr2 → unlinked s bl m pv a nx k →
  inv (set_memory s m) bl (fr1 ++ pv :: fr2).
Proof.
  intros Hi Hk Hne Hp1 Hp2 Ha1 Hc (Hmap & Na & Sa & Ca & Np & Sp & Hoth).
  pose proof (inv_nodup _ _ _ Hi) as Hnd.
  assert (a ∉ fr2) as Ha2.
  { apply NoDup_app in Hnd as (_ & _ & [_ [Hx _]%NoDup_cons]%NoDup_cons). done. }
  assert (Hfree : ∀ b, b ∈ fr1 ++ pv :: a :: fr2 → b ≠ a → b ≠ pv →
            get_next m b = get_next (memory s) b).
  { intros b Hbf Hn1 Hn2. destruct (inv_free _ _ _ Hi b Hbf) as [l Hl]. by eapply Hoth. }
  eapply inv_rebuild; try done; [by eapply inv_shape|..].
  - intros b l Hbl. cbn. destruct (decide (b = a)) as [->|Hn1]; [congruence|].
    destruct (decide (b = pv)) as [->|Hn2]; [rewrite Sp; by eapply (inv_block _ _ _ Hi)|].
    destruct (Hoth _ _ Hbl Hn1 Hn2) as ((_ & -> & _) & _). by eapply (inv_block _ _ _ Hi).
  - intros b l Hbl Hni. cbn. destruct (decide (b = a)) as [->|Hn1]; [exists nx; split; congruence|].
    destruct (Hoth b l Hbl) as ((-> & _ & ->) & _); [done|set_solver|].
    apply (inv_check _ _ _ Hi); [done|set_solver].
  - cbn. change (fr1 ++ pv :: fr2) with (fr1 ++ [pv] ++ fr2). rewrite (assoc_L (++)).
    replace (kernel_malloc_freelist s) with
      (match fr1 ++ [pv] with [] => nx | _ => kernel_malloc_freelist s end) by by destruct fr1.
    eapply (chain_splice (memory s) m _ _ (a :: fr2)); [| |eapply chain_frame; [|done]|..].
    + apply NoDup_app in Hnd as (Hx & _). apply NoDup_app. split; [done|].
      split; [set_solver|apply NoDup_singleton].
    + rewrite <- (assoc_L (++)). by apply Hi.
    + intros b Hbf. apply Hfree; [set_solver|by intros ->|by intros ->].
    + intros b Hbf Hl. rewrite last_snoc in Hl. apply Hfree; [set_solver| |congruence].
      intros ->. set_solver.
    + intros b. rewrite last_snoc. by intros [= <-].
  - apply NoDup_app in Hnd as (H1 & H12 & [_ [_ H2]%NoDup_cons]%NoDup_cons).
    apply NoDup_app. split; [done|]. split; [|by constructor].
    intros b Hbf Hb2. apply (H12 b); [done|]. set_solver.
  - intros b Hbf. apply (inv_free _ _ _ Hi). set_solver.
Qed.

(** The exact fit that is not the first of the list is unlinked. *)
Lemma malloc_reuse_unlinks s bl fr1 pv a fr2 n k :
  inv s bl (fr1 ++ pv :: a :: fr2) → Forall (too_small bl (aligned n)) (fr1 ++ [pv]) →
  bl !! a = Some k → aligned n = k → (length fr1 + 1 < fuel)%nat →
  ∃ s', malloc s n = Ok (a + 16, s') ∧ inv s' bl (fr1 ++ pv :: fr2) ∧
    ∀ b l x, bl !! b = Some l → (b ∉ fr1 ++ pv :: a :: fr2) → b ≤ x < b + 16 + l →
      memory s' !! x = memory s !! x.
Proof.
  intros Hi Hsm Hk Hna Hf.
  pose proof (inv_block _ _ _ Hi _ _ Hk) as (_ & _ & Bk & B16 & _).
  destruct (inv_free _ _ _ Hi pv) as [kp Hkp]; [set_solver|].
  assert (Hi' : inv s bl ((fr1 ++ [pv]) ++ a :: fr2)) by by rewrite <- (assoc_L (++)).
  pose proof (inv_nodup _ _ _ Hi) as Hnd.
  apply NoDup_app in Hnd as (_ & Hnd12 & [Hnp Hnd2]%NoDup_cons).
  assert (pv ≠ a) by (intros ->; set_solver).
  destruct (chain_mid _ _ _ _ (inv_chain _ _ _ Hi')) as (q & -> & nx & Hnx & Hc2).
  unfold malloc. rewrite (search_some s bl (fr1 ++ [pv]) a fr2 _ k); try done;
    [|by rewrite lxor_15; [lia|]|rewrite length_app; cbn; lia].
  cbn [mbind res_bind]. rewrite last_snoc. cbn [default from_option id].
  rewrite lxor_15, Hna by done.
  destruct (malloc_reuse_exact s bl (fr1 ++ pv :: a :: fr2) pv kp a nx k) as (m & -> & Hu); try done.
  { eapply (chain_next_range _ _ _ fr2); [exact Hi|set_solver|done]. }
  eexists. split; [done|]. split.
  - eapply inv_unlinked; try done; [|set_solver|]; intros Hx; [by apply (Hnd12 pv); [|left]|].
    by apply (Hnd12 a); [|right; left].
  - intros b l x Hbl Hni Hx. cbn. destruct Hu as (_ & _ & _ & _ & _ & _ & Hoth).
    eapply Hoth; [done|set_solver..|done].
Qed.

(** ** The first block of the list *)

(** An exact fit at the head is handed out and stays on the list. *)
Lemma malloc_head_exact s bl a fr n k :
  inv s bl (a :: fr) → bl !! a = Some k → aligned n = k → (0 < fuel)%nat →
  ∃ s', malloc s n = Ok (a + 16, s') ∧ inv s' bl (a :: fr).
Proof.
  intros Hi Hk Hna Hf.
  pose proof (inv_block _ _ _ Hi _ _ Hk) as (Ba & _ & Bk & B16 & Be & Bs).
  pose proof (inv_bounds _ _ _ Hi) as Hb. pose proof (header_mapped _ _ _ _ _ Hi Hk) as Hm.
  pose proof (inv_chain _ _ _ Hi) as (_ & nx & Hnx & Hc).
  assert (0 ≤ nx < 4294967296) by (eapply (chain_next_range _ _ _ fr); [exact Hi|set_solver|done]).
  unfold malloc. rewrite (search_some s bl [] a fr _ k); try done; [|by rewrite lxor_15; [lia|]].
  cbn [mbind res_bind last default from_option id]. rewrite lxor_15, Hna by done.
  unfold malloc_reuse. rewrite (proj2 (Z.ltb_ge _ _)) by lia. cbn [Z.eqb negb mbind res_bind].
  destruct (set_size_ok (memory s) a k) as (m2 & -> & Ho2 & S2 & N2 & _); [done|lia|].
  cbn [mbind res_bind]. rewrite Hnx in N2.
  destruct (update_checksum_ok m2 a nx k) as (m3 & -> & Ho3 & C3 & N3 & S3);
    [by apply Ho2|done..|lia|].
  cbn [mbind res_bind]. change header_size with 16. rewrite u32_small by lia.
  eexists. split; [done|].
  assert (Ho : header_only (memory s) m3 a) by eauto using header_only_trans.
  pose proof (λ b l Hbl Hnb, other_block _ _ _ _ _ _ _ b l Hi Hk Hbl Hnb Ho) as Hp.
  eapply inv_reshape; try done; [by eapply inv_shape|apply Ho|..].
  - intros b l Hbl. cbn. destruct (decide (b = a)) as [->|Hne]; [congruence|].
    destruct (Hp _ _ Hbl Hne) as ((_ & -> & _) & _). by eapply (inv_block _ _ _ Hi).
  - intros b l Hbl Hni. cbn. destruct (Hp b l Hbl) as ((? & _ & ?) & _); [set_solver|done].
  - eapply chain_frame; [|by apply Hi]. intros b Hbf. cbn.
    destruct (decide (b = a)) as [->|Hne]; [congruence|].
    destruct (inv_free _ _ _ Hi b Hbf) as [l Hl]. by eapply Hp.
  - apply Hi.
  - apply Hi.
Qed.

(** A larger block at the head is split one byte before its upper neighbour. *)
Lemma malloc_head_split s bl a fr n k kb :
  inv s bl (a :: fr) → bl !! a = Some k → 0 ≤ n ≤ 4294967280 → aligned n < k → (0 < fuel)%nat →
  bl !! (a + 16 + k) = Some kb →
  ∃ s', malloc s n = Ok (a + 16, s') ∧
    kernel_malloc_freelist s' = a + k + 15 ∧
    get_size (memory s') (a + k + 15) = Ok (k - aligned n - 1) ∧
    memory s' !! (a + 16 + k + 3) = Some ((k - aligned n - 1) mod 256).
Proof.
  intros Hi Hk Hn Hna Hf Hkb. destruct (aligned_ok n Hn) as (Hal1 & Hal2 & _).
  pose proof (inv_block _ _ _ Hi _ _ Hk) as (Ba & B4 & Bk & B16 & Be & Bs).
  pose proof (inv_block _ _ _ Hi _ _ Hkb) as (_ & _ & Bkb & _ & Bbe & _).
  pose proof (inv_bounds _ _ _ Hi) as Hb. pose proof (header_mapped _ _ _ _ _ Hi Hk) as Hm.
  assert (Hmb : mapped (memory s) (a + k + 15) 12) by (eapply mapped_sub; [apply Hi|lia..]).
  pose proof (inv_chain _ _ _ Hi) as (_ & nx & Hnx & Hc).
  assert (0 ≤ nx < 4294967296) by (eapply (chain_next_range _ _ _ fr); [exact Hi|set_solver|done]).
  unfold malloc. rewrite (search_some s bl [] a fr _ k); try done; [|by rewrite lxor_15; [lia|]].
  cbn [mbind res_bind last default from_option id]. rewrite lxor_15 by done.
  set (na := aligned n) in *. unfold malloc_reuse. rewrite (proj2 (Z.ltb_lt _ _)) by mlia.
  replace (a + (k + 15)) with (a + k + 15) by lia.
  replace (k + 15 - na - MALLOC_ALIGN_BYTES) with (k - na - 1) by (unfold MALLOC_ALIGN_BYTES; lia).
  rewrite (u32_small (a + k + 15)) by lia. rewrite Hnx. cbn [mbind res_bind].
  destruct (set_next_ok (memory s) (a + k + 15) nx) as (m1 & -> & Ho1 & N1 & _); [done..|].
  cbn [mbind res_bind].
  destruct (set_size_ok m1 (a + k + 15) (k - na - 1)) as (m2 & Hset & Ho2 & S2 & _);
    [by apply Ho1|lia|].
  rewrite Hset. cbn [mbind res_bind].
  assert (Ho12 : header_only (memory s) m2 (a + k + 15)) by eauto using header_only_trans.
  destruct (set_size_ok m2 a na) as (m3 & -> & Ho3 & S3 & N3 & _); [by apply Ho12|lia|].
  cbn [mbind res_bind].
  destruct (header_other _ _ _ a Ho12) as (Na & _ & _); [lia|].
  destruct (update_checksum_ok m3 a nx na) as (m4 & -> & Ho4 & _);
    [by apply Ho3, Ho12|congruence|done|done|lia|].
  cbn [mbind res_bind Z.eqb negb]. change header_size with 16. rewrite u32_small by lia.
  assert (Ho34 : header_only m2 m4 a) by eauto using header_only_trans.
  eexists. split; [done|]. split; [done|]. cbn [memory set_freelist set_memory]. split.
  - destruct (header_other _ _ _ (a + k + 15) Ho34) as (_ & -> & _); [lia|done].
  - rewrite (proj1 Ho34) by lia. replace (a + 16 + k + 3) with (a + k + 15 + 4) by lia.
    eapply store32_first; [|exact Hset]. eapply mapped_sub; [by apply Ho1|lia..].
Qed.

(** No block of a well-formed heap starts at an odd address. *)
Lemma inv_freelist_aligned s bl fr : inv s bl fr → kernel_malloc_freelist s mod 16 = 0.
Proof.
  intros Hi. pose proof (inv_chain _ _ _ Hi) as Hc. destruct fr as [|a fr].
  - cbn in Hc. by rewrite Hc.
  - destruct Hc as (-> & _). destruct (inv_free _ _ _ Hi a) as [k Hk]; [set_solver|].
    by apply (inv_block _ _ _ Hi _ _ Hk).
Qed.

(** The heap after [malloc_init]. *)
Lemma inv_malloc_init m fr kernel_end :
  0 < kernel_end ≤ 4294959104 → ps_inv fr → inv (malloc_init m fr kernel_end) ∅ [].
Proof.
  intros Hk Hfr. unfold malloc_init, PAGE_SIZE.
  match goal with |- context [Heap _ _ ?s0 _ _ _] => set (st := s0) end.
  assert (0 < st < 4294967296 ∧ st mod 4096 = 0) as [Hst Hal].
  { unfold st. case_test; [|lia]. rewrite u32_small; mlia. }
  split; cbn; try done; try lia; [mlia|intros i Hi; lia|constructor|intros a Ha; by apply elem_of_nil in Ha].
Qed.

(** ** The properties of the heap *)

(** C7: on a well-formed heap without a large enough free block, [malloc]
    returns.  When the frame allocator can supply the pages that are missing behind
    the last block ([missing_pages]), the result is a 16-byte aligned block directly
    above every existing one, of at least the requested size, whose bytes are
    mapped; it is NULL exactly when the allocator cannot.  No byte of an existing
    block changes and the heap stays well-formed. *)
Theorem malloc_fresh_correct s bl fr n :
  inv s bl fr → 0 ≤ n → kernel_heap_end s + n + 8240 < 4294967296 →
  Forall (too_small bl (aligned n)) fr → (length fr < fuel)%nat →
  ∃ p s', malloc s n = Ok (p, s') ∧ keeps bl (memory s) (memory s') ∧
    ((p = 0 ∧ ¬ supply (missing_pages s (16 + aligned n)) (frames s) ∧ inv s' bl fr) ∨
     (p = kernel_heap s + 16 ∧ supply (missing_pages s (16 + aligned n)) (frames s) ∧
      p mod 16 = 0 ∧ bl !! (p - 16) = None ∧
      (∀ a k, bl !! a = Some k → a + 16 + k ≤ p - 16) ∧
      n ≤ aligned n ∧ mapped (memory s') p n ∧
      inv s' (<[p - 16 := aligned n]> bl) fr)).
Proof.
  intros Hi Hn Hend Hs Hf. pose proof (inv_bounds _ _ _ Hi).
  destruct (aligned_ok n) as (Ha1 & Ha2 & _); [lia|].
  destruct (malloc_fresh_ok s bl fr n) as (p & s' & Hm & Hk & _ & _ & Hr); [done|lia|done|lia|done..|].
  exists p, s'. split; [done|]. split; [done|]. destruct Hr as [(? & ? & ?)|(? & ? & ? & ? & ? & ? & Hmap & ?)]; [by left|].
  right. split_and!; try done; [lia|eapply mapped_sub; [done|lia..]].
Qed.

(** C6: [free] of an allocated block of a well-formed heap returns.  The first
    block of the free list that ends where the freed block begins, or begins where
    it ends, is merged with it ([coalesced]): the two become one free block over
    both, in that place of the list.  Without such a neighbour the block becomes the
    head of the free list.  The other allocated blocks keep their sizes and bytes,
    everything that was free stays free, and the heap stays well-formed. *)
Theorem free_correct s bl fr a ka :
  inv s bl fr → bl !! a = Some ka → a ∉ fr → (length fr < fuel)%nat →
  ∃ s' bl' fr', free s (a + 16) = Ok s' ∧ coalesced bl bl' fr fr' a ka ∧ freed s s' bl bl' fr fr' a.
Proof. apply free_ok. Qed.

(** An exact fit found behind the head of the free list is returned and
    unlinked: it becomes an allocated block again, the rest of the list and the
    bytes of the allocated blocks are unchanged. *)
Theorem malloc_reuses_exact_fit s bl fr1 pv a fr2 n k :
  inv s bl (fr1 ++ pv :: a :: fr2) → Forall (too_small bl (aligned n)) (fr1 ++ [pv]) →
  bl !! a = Some k → aligned n = k → (length fr1 + 1 < fuel)%nat →
  ∃ s', malloc s n = Ok (a + 16, s') ∧ inv s' bl (fr1 ++ pv :: fr2) ∧
    ∀ b l x, bl !! b = Some l → (b ∉ fr1 ++ pv :: a :: fr2) → b ≤ x < b + 16 + l →
      memory s' !! x = memory s !! x.
Proof. apply malloc_reuse_unlinks. Qed.

(** An exact fit at the head of the free list is not unlinked: two requests
    of its size in a row return the same block. *)
Theorem malloc_head_returned_twice s bl a fr n k :
  inv s bl (a :: fr) → bl !! a = Some k → aligned n = k → (0 < fuel)%nat →
  ∃ s1 s2, malloc s n = Ok (a + 16, s1) ∧ malloc s1 n = Ok (a + 16, s2) ∧ inv s2 bl (a :: fr).
Proof.
  intros Hi Hk Hn Hf. destruct (malloc_head_exact s bl a fr n k) as (s1 & Hs1 & Hi1); [done..|].
  destruct (malloc_head_exact s1 bl a fr n k) as (s2 & Hs2 & Hi2); [done..|]. eauto.
Qed.

(** A larger block at the head of the free list is split at an address that
    is not aligned, one byte before the block above it: the header of the rest
    overwrites the [next] field of that block (its byte 3 is shown), and the
    heap is not well-formed any more. *)
Theorem malloc_split_corrupts s bl a fr n k kb :
  inv s bl (a :: fr) → bl !! a = Some k → 0 ≤ n ≤ 4294967280 → aligned n < k → (0 < fuel)%nat →
  bl !! (a + 16 + k) = Some kb →
  ∃ s', malloc s n = Ok (a + 16, s') ∧
    kernel_malloc_freelist s' = a + k + 15 ∧
    memory s' !! (a + 16 + k + 3) = Some ((k - aligned n - 1) mod 256) ∧
    ∀ bl' fr', ¬ inv s' bl' fr'.
Proof.
  intros Hi Hk Hn Hna Hf Hkb.
  destruct (malloc_head_split s bl a fr n k kb) as (s' & Hs & Hl & _ & Hm); [done..|].
  exists s'. split_and!; [done..|]. intros bl' fr' Hi'.
  pose proof (inv_freelist_aligned _ _ _ Hi') as Hal. rewrite Hl in Hal.
  pose proof (inv_block _ _ _ Hi _ _ Hk). mlia.
Qed.

(** The rounding of a request above 2^32 - 16 wraps to 0, and [malloc]
    returns an empty block for it instead of NULL. *)
Theorem malloc_huge_request s bl n :
  inv s bl [] → 4294967280 < n < 4294967296 → kernel_heap_end s + 8224 < 4294967296 →
  kernel_heap s + 16 ≤ kernel_heap_end s → (0 < fuel)%nat →
  ∃ s', malloc s n = Ok (kernel_heap s + 16, s') ∧ inv s' (<[kernel_heap s := 0]> bl) [].
Proof.
  intros Hi Hn Hend Hroom Hf. pose proof (inv_bounds _ _ _ Hi).
  assert (Ha : aligned n = 0).
  { unfold aligned, MALLOC_ALIGN_BYTES, u32. case_test; mlia. }
  destruct (malloc_fresh_ok s bl [] n) as (p & s' & Hm & _ & _ & _ & Hr);
    [done|lia|by rewrite Ha|lia|constructor|done|].
  rewrite Ha in Hr. destruct Hr as [(_ & Hns & _)|(-> & _ & _ & _ & _ & _ & _ & Hi')].
  { destruct Hns. unfold missing_pages. by replace (Z.to_nat _) with 0%nat by mlia. }
  exists s'. split; [done|]. by replace (kernel_heap s + 16 - 16) with (kernel_heap s) in Hi' by lia.
Qed.

End heap.

(** ** Concrete heaps *)

(** A checker of the invariant, to evaluate on examples. *)
Fixpoint chain_b (m : mem) (p : Z) (fr : list Z) : bool :=
  match fr with
  | [] => p =? 0
  | a :: fr => (p =? a) && match get_next m a with Ok n => chain_b m n fr | Fault _ => false end
  end.

Lemma chain_b_ok m p fr : chain_b m p fr = true → chain m p fr.
Proof.
  revert p. induction fr as [|a fr IH]; intros p; cbn; [lia|].
  rewrite andb_true_iff. intros [->%Z.eqb_eq H]. split; [done|].
  destruct (get_next m a) as [n|]; [|done]. eauto.
Qed.

Definition check_b (m : mem) (a n : Z) : bool :=
  match get_next m a with
  | Ok nx => bool_decide (get_checksum m a = Ok (Z.lxor nx n))
  | Fault _ => false
  end.

Definition inv_b {A} (s : t A) (bl : gmap Z Z) (fr : list Z) : bool :=
  bool_decide (0 < kernel_heap_start s ∧ kernel_heap_start s ≤ kernel_heap s ∧
    kernel_heap s ≤ kernel_heap_end s ∧ kernel_heap_end s < 4294967296) &&
  bool_decide (kernel_heap_end s mod 4096 = 0 ∧ kernel_heap s mod 16 = 0) &&
  forallb (λ x, bool_decide (is_Some (memory s !! x)))
    (seqZ (kernel_heap_start s) (kernel_heap_end s - kernel_heap_start s)) &&
  bool_decide (map_Forall (λ a n, kernel_heap_start s ≤ a ∧ a mod 16 = 0 ∧ 0 ≤ n ∧ n mod 16 = 0 ∧
    a + 16 + n ≤ kernel_heap s ∧ get_size (memory s) a = Ok n) bl) &&
  bool_decide (map_Forall (λ a n, map_Forall (λ b k, a < b → a + 16 + n ≤ b) bl) bl) &&
  chain_b (memory s) (kernel_malloc_freelist s) fr &&
  bool_decide (NoDup fr) && bool_decide (Forall (λ a, is_Some (bl !! a)) fr) &&
  bool_decide (map_Forall (λ a n, a ∈ fr ∨ check_b (memory s) a n = true) bl).

Lemma inv_b_ok {A} `{PageSource A} (s : t A) bl fr :
  ps_inv (frames s) → inv_b s bl fr = true → inv s bl fr.
Proof.
  intros Hf. unfold inv_b. rewrite !andb_true_iff, !bool_decide_eq_true, forallb_forall.
  intros [[[[[[[[Hb Ha] Hm] Hbl] Hs] Hc] Hnd] Hfr] Hck].
  split; try done.
  - intros i Hi. specialize (Hm (kernel_heap_start s + i)). rewrite bool_decide_eq_true in Hm.
    apply Hm, list_elem_of_In, elem_of_seqZ. lia.
  - intros a n b k Han Hbk. by apply (Hs a n Han b k Hbk).
  - by apply chain_b_ok.
  - by apply Forall_forall.
  - intros a n Han Hna. destruct (Hck a n Han) as [|Hx]; [done|]. unfold check_b in Hx.
    destruct (get_next (memory s) a) as [nx|]; [|done]. apply bool_decide_eq_true in Hx. eauto.
Qed.

(** A heap at 4096 over three page frames whose bytes are all 204: three blocks
    of 32, 48 and 64 bytes, and one of 16 bytes. *)
Definition junk (page i : Z) : Z := 204.
Definition demo_init : t (Z * nat) := malloc_init ∅ (256, 3%nat) 1000.
Definition demo_malloc (s : t (Z * nat)) (n : Z) : t (Z * nat) :=
  match malloc junk 10 s n with Ok (_, s') => s' | Fault _ => s end.
Definition demo_free (s : t (Z * nat)) (p : Z) : t (Z * nat) :=
  match free 10 s p with Ok s' => s' | Fault _ => s end.
Definition demo_blocks : t (Z * nat) :=
  demo_malloc (demo_malloc (demo_malloc (demo_malloc demo_init 32) 40) 64) 16.
Definition demo_bl : gmap Z Z := {[4096 := 32; 4144 := 48; 4208 := 64; 4288 := 16]}.
(** The first and the third block are free. *)
Definition demo_holes : t (Z * nat) := demo_free (demo_free demo_blocks 4224) 4112.

Lemma demo_blocks_inv : inv demo_blocks demo_bl [].
Proof. apply inv_b_ok; [exact I|vm_compute; reflexivity]. Qed.

Lemma demo_holes_inv : inv demo_holes demo_bl [4096; 4208].
Proof. apply inv_b_ok; [exact I|vm_compute; reflexivity]. Qed.

Ltac check_heap :=
  match goal with |- inv demo_blocks _ _ => exact demo_blocks_inv | |- inv demo_holes _ _ => exact demo_holes_inv end.
Ltac check_small := repeat (constructor; [intros ? ?; vm_compute in *; simplify_eq; reflexivity|]); constructor.

(** Two frames are left: 100 bytes fit behind the last block, 13000 do not. *)
Lemma malloc_fresh_correct_witness :
  (∃ s', malloc junk 10 demo_holes 100 = Ok (4336, s') ∧ mapped (memory s') 4336 100) ∧
  ∃ s', malloc junk 10 demo_holes 13000 = Ok (0, s').
Proof.
  split.
  - destruct (malloc_fresh_correct junk 10 demo_holes demo_bl [4096; 4208] 100) as (p & s' & Hm & _ & [(_ & Hs & _)|H]);
      [check_heap|lia|vm_compute; reflexivity|check_small|cbn; lia| |].
    + destruct Hs. exact I.
    + destruct H as (-> & _ & _ & _ & _ & _ & Hmap & _). exists s'. split; [exact Hm|exact Hmap].
  - destruct (malloc_fresh_correct junk 10 demo_holes demo_bl [4096; 4208] 13000) as (p & s' & Hm & _ & Hr);
      [check_heap|lia|vm_compute; reflexivity|check_small|cbn; lia|].
    destruct Hr as [(Hp & _ & _)|(_ & Hs & _)]; [rewrite Hp in Hm; exists s'; exact Hm|].
    change (missing_pages demo_holes (16 + aligned 13000)) with 3%nat in Hs.
    change (frames demo_holes) with (257, 2%nat) in Hs.
    destruct Hs as (p1 & a1 & H1 & p2 & a2 & H2 & p3 & a3 & H3 & _).
    injection H1 as <- <-. injection H2 as <- <-. discriminate H3.
Defined.

(** The block of 48 bytes between the two free ones joins the lower one, which
    comes first on the list. *)
Lemma free_correct_witness :
  ∃ s' bl', free 10 demo_holes (4144 + 16) = Ok s' ∧ inv s' bl' [4096; 4208] ∧
    bl' = {[4096 := 96; 4208 := 64; 4288 := 16]}.
Proof.
  destruct (free_correct junk 10 demo_holes demo_bl [4096; 4208] 4144 48) as (s' & bl' & fr' & Hf & Hc & Hi & _);
    [check_heap|reflexivity|rewrite !elem_of_cons, elem_of_nil; lia|cbn; lia|].
  exists s', bl'. split; [exact Hf|]. destruct Hc as [(Hn & _ & _)|(fr1 & o & ko & fr2 & E & Ho & Hn & Hc)].
  - apply Forall_cons in Hn as [Hn _]. destruct Hn. right. reflexivity.
  - destruct fr1 as [|x fr1].
    + injection E as <- <-. injection Ho as <-. destruct Hc as [(Hbad & _)|(_ & -> & ->)]; [discriminate Hbad|].
      split; [exact Hi|]. apply (proj1 (bool_decide_eq_true _)). vm_compute. reflexivity.
    + injection E as <- _. apply Forall_cons in Hn as [Hn _]. destruct Hn. right. reflexivity.
Defined.

Lemma malloc_reuses_exact_fit_witness :
  ∃ s', malloc junk 10 demo_holes 60 = Ok (4224, s') ∧ inv s' demo_bl [4096].
Proof.
  destruct (malloc_reuses_exact_fit junk 10 demo_holes demo_bl [] 4096 4208 [] 60 64)
    as (s' & Hm & Hi & _); [check_heap|check_small|reflexivity|reflexivity|cbn; lia|eauto].
Defined.

Lemma malloc_head_returned_twice_witness :
  ∃ s1 s2, malloc junk 10 demo_holes 32 = Ok (4112, s1) ∧ malloc junk 10 s1 32 = Ok (4112, s2).
Proof.
  destruct (malloc_head_returned_twice junk 10 demo_holes demo_bl 4096 [4208] 32 32)
    as (s1 & s2 & H1 & H2 & _); [check_heap|reflexivity|reflexivity|lia|eauto].
Defined.

Lemma malloc_split_corrupts_witness :
  ∃ s', malloc junk 10 demo_holes 16 = Ok (4112, s') ∧ kernel_malloc_freelist s' = 4143.
Proof.
  destruct (malloc_split_corrupts junk 10 demo_holes demo_bl 4096 [4208] 16 32 48)
    as (s' & H1 & H2 & _); [check_heap|reflexivity|lia|reflexivity|lia|reflexivity|eauto].
Defined.

Lemma malloc_huge_request_witness :
  ∃ s', malloc junk 10 demo_blocks 4294967295 = Ok (kernel_heap demo_blocks + 16, s').
Proof.
  destruct (malloc_huge_request junk 10 demo_blocks demo_bl 4294967295) as (s' & H1 & _);
    [check_heap|lia|vm_compute; reflexivity|vm_compute; discriminate|lia|eauto].
Defined.
