(* ===== verification/Asprintf.v ===== *)
(** Formatted output into a fresh block: vasprintf, asprintf.

    Source: libc/stdio/snprintf.c.  The text is measured with an empty buffer,
    [malloc] gives a block of that size, and the text is printed into it.  The
    memory of the arguments is the memory of the heap; [ptr] is the address of the
    caller's pointer.  The block is an array while it is being filled: the
    arguments do not point into it, since it did not exist before. *)
From S2P Require Import Prelude CString Format PageSource Heap.

Fixpoint load_bytes (m : mem) (p : Z) (n : nat) : res (list Z) :=
  match n with
  | O => Ok []
  | S n => b ← load8 m p; l ← load_bytes m (p + 1) n; Ok (b :: l)
  end.

Fixpoint store_bytes (m : mem) (p : Z) (l : list Z) : res mem :=
  match l with
  | [] => Ok m
  | b :: l => m ← store8 m p b; store_bytes m (p + 1) l
  end.

Section asprintf.
Context {A : Type} `{PS : PageSource A}.
Variable content : Z → Z → Z.
Variable walk : nat.
Variable junk : list Z.
Variable fmtfp : Z → out_t → Z → Z → Z → Z → Z → res out_t.
Variable fuel : nat.

(** The result and the heap; [*ptr] is in its memory. *)
Definition vasprintf (s : t A) (ptr : Z) (format : Z → res Z) (ap : list Z) : res (Z * t A) :=
  '(ret, _, m) ← vsnprintf junk fmtfp fuel [] 0 format ap (memory s);
  let s := set_memory s m in
  let ret := u32 ret in
  if u32 (ret + 1) <=? 1 then Ok (s32 ret, s) else
  '(p, s) ← malloc content walk s (u32 (ret + 1));
  m ← store32 (memory s) ptr p;
  let s := set_memory s m in
  if p =? 0 then Ok (-1, s) else
  str ← load_bytes (memory s) p (Z.to_nat (u32 (ret + 1)));
  '(ret, str, m) ← vsnprintf junk fmtfp fuel str (u32 (ret + 1)) format ap (memory s);
  m ← store_bytes m p str;
  Ok (s32 (u32 ret), set_memory s m).

Definition asprintf (s : t A) (ptr : Z) (format : Z → res Z) (ap : list Z) : res (Z * t A) :=
  vasprintf s ptr format ap.

(** ** Lemmas *)

Lemma load_bytes_ok m p n : mapped m p (Z.of_nat n) → ∃ l, load_bytes m p n = Ok l ∧ length l = n.
Proof.
  revert p. induction n as [|n IH]; intros p Hm; [by exists []|]. cbn [load_bytes].
  destruct (Hm 0) as [b Hb]; [lia|]. rewrite Z.add_0_r in Hb. unfold load8 at 1. rewrite Hb. cbn [mbind res_bind].
  destruct (IH (p + 1)) as (l & -> & Hl); [by eapply mapped_sub; [done|lia..]|]. exists (b :: l). cbn. auto.
Qed.

(** The bytes are where they were stored, the others are not touched. *)
Lemma store_bytes_ok m p l :
  mapped m p (Z.of_nat (length l)) →
  ∃ m', store_bytes m p l = Ok m' ∧ (∀ q n, mapped m q n → mapped m' q n) ∧
    (∀ x, x < p ∨ p + Z.of_nat (length l) ≤ x → m' !! x = m !! x) ∧
    (∀ i b, l !! i = Some b → m' !! (p + Z.of_nat i) = Some b).
Proof.
  revert m p. induction l as [|b l IH]; intros m p Hm; [by exists m|]. cbn [store_bytes length] in *.
  rewrite store8_Ok by (rewrite <- (Z.add_0_r p); apply Hm; lia). cbn [mbind res_bind].
  destruct (IH (<[p := b]> m) (p + 1)) as (m' & -> & H1 & H2 & H3).
  { apply mapped_insert. eapply mapped_sub; [done|lia..]. }
  exists m'. split; [done|]. split; [intros q n Hq; by apply H1, mapped_insert|]. split.
  - intros x Hx. rewrite H2 by lia. by rewrite lookup_insert_ne by lia.
  - intros [|i] c Hc; cbn in Hc.
    + injection Hc as <-. rewrite Z.add_0_r, H2 by lia. apply lookup_insert_eq.
    + specialize (H3 _ _ Hc). by replace (p + Z.of_nat (S i)) with (p + 1 + Z.of_nat i) by lia.
Qed.

(** A client that leaves the headers alone leaves the heap well-formed. *)
Lemma inv_client s bl fr m :
  inv s bl fr → (∀ p n, mapped (memory s) p n → mapped m p n) →
  (∀ a n x, bl !! a = Some n → a ≤ x < a + 12 → m !! x = memory s !! x) → inv (set_memory s m) bl fr.
Proof.
  intros Hi Hmap Hh.
  assert (Hw : ∀ a n off, bl !! a = Some n → 0 ≤ off ≤ 8 → load32 m (a + off) = load32 (memory s) (a + off)).
  { intros a n off Ha Ho. apply load32_frame. intros i Hr. eapply Hh; [done|lia]. }
  assert (Hn : ∀ a n, bl !! a = Some n → get_next m a = get_next (memory s) a).
  { intros a n Ha. unfold get_next. rewrite <- (Z.add_0_r a). eapply Hw; [done|lia]. }
  constructor; cbn; try apply Hi.
  - by apply Hmap, Hi.
  - intros a n Ha. destruct (inv_block _ _ _ Hi a n Ha) as (? & ? & ? & ? & ? & Hs). split_and!; try done.
    unfold get_size in *. by erewrite Hw by (done || lia).
  - apply (chain_frame content (memory s)); [|apply (inv_chain _ _ _ Hi)]. intros a Ha. destruct (inv_free _ _ _ Hi a Ha) as [n Hn']. by eapply Hn.
  - intros a n Ha Hfr. destruct (inv_check _ _ _ Hi a n Ha Hfr) as (nx & Hx & Hc). exists nx.
    rewrite (Hn a n Ha). split; [done|]. unfold get_checksum in *. by erewrite Hw by (done || lia).
Qed.

(** Four bytes that the caller may write: below the heap, or in a block. *)
Definition caller_word (s : t A) (bl : gmap Z Z) (ptr : Z) : Prop :=
  mapped (memory s) ptr 4 ∧
  (ptr + 4 ≤ kernel_heap_start s ∨ ∃ a k, bl !! a = Some k ∧ a + 16 ≤ ptr ∧ ptr + 4 ≤ a + 16 + k).

Lemma caller_word_heap s bl fr ptr : inv s bl fr → caller_word s bl ptr → ptr + 4 ≤ kernel_heap s.
Proof.
  intros Hi [_ [?|(a & k & Ha & ?)]]; [pose proof (inv_bounds _ _ _ Hi); lia|].
  pose proof (inv_block _ _ _ Hi a k Ha). lia.
Qed.

(** A payload does not meet a header. *)
Lemma payload_headers s bl fr b k a n x y :
  inv s bl fr → bl !! b = Some k → bl !! a = Some n → b + 16 ≤ x < b + 16 + k → a ≤ y < a + 12 → x ≠ y.
Proof.
  intros Hi Hb Ha Hx Hy. destruct (Z.lt_trichotomy a b) as [Hlt|[->|Hlt]]; [|lia|].
  - pose proof (inv_sep _ _ _ Hi a n b k Ha Hb Hlt). pose proof (inv_block _ _ _ Hi a n Ha). lia.
  - pose proof (inv_sep _ _ _ Hi b k a n Hb Ha Hlt). lia.
Qed.

Lemma caller_word_headers s bl fr ptr a n x :
  inv s bl fr → caller_word s bl ptr → bl !! a = Some n → a ≤ x < a + 12 → x < ptr ∨ ptr + 4 ≤ x.
Proof.
  intros Hi [_ Hp] Ha Hx. pose proof (inv_block _ _ _ Hi a n Ha).
  destruct Hp as [?|(b & k & Hb & ?)]; [lia|].
  destruct (decide (ptr ≤ x < ptr + 4)) as [Hin|]; [|lia].
  exfalso. by eapply (payload_headers s bl fr b k a n x x); try done; lia.
Qed.

(** Storing the address into the caller's word. *)
Lemma store_caller s bl fr ptr p :
  inv s bl fr → caller_word s bl ptr → 0 ≤ p < 4294967296 →
  ∃ m, store32 (memory s) ptr p = Ok m ∧ inv (set_memory s m) bl fr ∧ load32 m ptr = Ok p ∧
    (∀ q n, mapped (memory s) q n → mapped m q n) ∧ (∀ x, x < ptr ∨ ptr + 4 ≤ x → m !! x = memory s !! x).
Proof.
  intros Hi Hc Hp. destruct (store32_spec (memory s) ptr p) as (m & Hs & Hf & Hm & Hl); [apply Hc|].
  exists m. split; [done|]. split; [|by auto].
  apply inv_client; [done..|]. intros a n x Ha Hx. apply Hf. by eapply caller_word_headers.
Qed.

(** Filling the payload of a block. *)
Lemma store_payload s bl fr b k l :
  inv s bl fr → bl !! b = Some k → Z.of_nat (length l) ≤ k → mapped (memory s) (b + 16) (Z.of_nat (length l)) →
  ∃ m, store_bytes (memory s) (b + 16) l = Ok m ∧ inv (set_memory s m) bl fr ∧
    (∀ x, x < b + 16 ∨ b + 16 + Z.of_nat (length l) ≤ x → m !! x = memory s !! x) ∧
    (∀ i c, l !! i = Some c → m !! (b + 16 + Z.of_nat i) = Some c).
Proof.
  intros Hi Hb Hl Hm. destruct (store_bytes_ok (memory s) (b + 16) l Hm) as (m & Hs & H1 & H2 & H3).
  exists m. split; [done|]. split; [|done]. apply inv_client; [done..|]. intros a n x Ha Hx. apply H2.
  destruct (decide (b + 16 ≤ x < b + 16 + Z.of_nat (length l))) as [Hin|]; [|lia].
  exfalso. by eapply (payload_headers s bl fr b k a n x x); try done; lia.
Qed.

Lemma u8_s8 x : 1 ≤ x < 256 → u8 (s8 x) = x.
Proof. intros Hx. unfold u8, s8. rewrite (Z.mod_small x) by lia. case_test; mlia. Qed.

(** What is stored: the text and its terminator. *)
Lemma printed_text pre txt v str :
  Forall (λ x, 1 ≤ x < 256 ∧ x ≠ 37) pre → Forall (λ x, 1 ≤ x < 256 ∧ x ≠ 37) txt → -2147483648 < v < 2147483648 →
  let text := pre ++ dec_text v ++ txt in
  length str = S (length text) →
  printed (Z.of_nat (length text) + 1) str (map s8 pre ++ dec_text v ++ map s8 txt) = text ++ [0].
Proof.
  intros Hp Ht Hv text Hl. destruct (dec_text_chars v ltac:(lia)) as [Hd _].
  assert (Hmap : ∀ l, Forall (λ x, 1 ≤ x < 256 ∧ x ≠ 37) l → map u8 (map s8 l) = l).
  { induction 1 as [|x l Hx _ IH]; [done|]. cbn. by rewrite u8_s8, IH by lia. }
  set (l := map s8 pre ++ dec_text v ++ map s8 txt).
  assert (Hll : length l = length text) by (unfold l, text; by rewrite !length_app, !length_map).
  unfold printed. rewrite Hll, Nat.min_l by lia. rewrite <- Hll, firstn_all, Hll.
  rewrite drop_ge by lia. unfold l, text. rewrite !map_app, !Hmap by done. do 3 f_equal.
  clear -Hd. induction Hd as [|x l Hx _ IH]; [done|]. cbn. by rewrite IH, u8_small by lia.
Qed.

Lemma stored_cstr m p text :
  Forall (λ x, 1 ≤ x < 256) text →
  (∀ i c, (text ++ [0]) !! i = Some c → m !! (p + Z.of_nat i) = Some c) → Str.cstr (load8 m) p text.
Proof.
  intros Ht Hm. split.
  - intros k x Hk. rewrite Forall_lookup in Ht. split; [|by eapply Ht]. unfold load8.
    rewrite (Hm k x); [done|]. by apply lookup_app_l_Some.
  - unfold load8. rewrite (Hm (length text) 0); [done|]. by apply list_lookup_middle.
Qed.

Lemma vasprintf_ok s bl fr ptr pre txt v ap :
  let text := pre ++ dec_text v ++ txt in
  let n := Z.of_nat (length text) in
  length junk = 20%nat → inv s bl fr → caller_word s bl ptr →
  Forall (λ x, 1 ≤ x < 256 ∧ x ≠ 37) pre → Forall (λ x, 1 ≤ x < 256 ∧ x ≠ 37) txt → -2147483648 < v < 2147483648 →
  Z.of_nat (length pre + length txt) < 1073741824 → (length pre + length txt + 8 < fuel)%nat →
  Forall (too_small bl (aligned (n + 1))) fr → (length fr < walk)%nat → kernel_heap_end s + n + 8256 < 4294967296 →
  ∃ ret p s', vasprintf s ptr (Str.lit (pre ++ 37 :: 100 :: txt)) (u32 v :: ap) = Ok (ret, s') ∧
    load32 (memory s') ptr = Ok p ∧
    (∀ a k x, bl !! a = Some k → a ≤ x < a + 16 + k → x < ptr ∨ ptr + 4 ≤ x → memory s' !! x = memory s !! x) ∧
    ((ret = -1 ∧ p = 0 ∧ ¬ supply (missing_pages s (16 + aligned (n + 1))) (frames s) ∧ inv s' bl fr) ∨
     (supply (missing_pages s (16 + aligned (n + 1))) (frames s) ∧ ret = n ∧ p mod 16 = 0 ∧ bl !! (p - 16) = None ∧ Str.cstr (load8 (memory s')) p text ∧
      inv s' (<[p - 16 := aligned (n + 1)]> bl) fr)).
Proof.
  intros text n Hj Hi Hc Hp Ht Hv Hlen Hf Hs Hw Hend. pose proof (inv_bounds _ _ _ Hi).
  pose proof (text_length junk Hj pre txt v Hv Hlen) as Hn.
  assert (Hl : Z.of_nat (length (map s8 pre ++ dec_text v ++ map s8 txt)) = n)
    by (unfold n, text; by rewrite !length_app, !length_map).
  assert (Hn1 : 1 ≤ n).
  { unfold n, text, dec_text. rewrite !length_app, length_map, length_rev. cbn [lsd length]. lia. }
  unfold vasprintf. rewrite vsnprintf_measure by done. cbn [mbind res_bind]. rewrite Hl in *. cbv zeta.
  replace (set_memory s (memory s)) with s by (by destruct s).
  rewrite (u32_small n) by lia. rewrite (u32_small (n + 1)) by lia. test_false (n + 1 <=? 1).
  destruct (aligned_ok content (n + 1)) as (Ha1 & Ha2 & Ha3); [lia|].
  destruct (malloc_fresh_ok content walk s bl fr (n + 1))
    as (p & s1 & -> & Hk & Hlow & Hstart & Hr); [done|lia|done|lia|done..|].
  cbn [mbind res_bind]. pose proof (caller_word_heap _ _ _ _ Hi Hc) as Hptr.
  assert (Hm1 : mapped (memory s1) ptr 4) by (intros i Hx; rewrite Hlow by lia; by apply Hc).
  destruct Hr as [(-> & Hns & Hi1)|(Ep & Hsup & Hp16 & Hnone & Hbelow & Htop & Hmap & Hi1)].
  - destruct (store_caller s1 bl fr ptr 0) as (m2 & -> & Hi2 & Hl2 & _ & Hf2); [done| |lia|].
    { split; [done|]. rewrite Hstart. apply Hc. }
    cbn [mbind res_bind Z.eqb]. eexists _, 0, _. split; [done|]. split; [done|]. split; [|by left].
    intros a k x Ha Hx Ho. cbn [memory set_memory]. rewrite Hf2 by done. by eapply Hk.
  - set (bl1 := <[p - 16 := aligned (n + 1)]> bl) in *.
    pose proof (inv_bounds _ _ _ Hi1).
    destruct (store_caller s1 bl1 fr ptr p) as (m2 & -> & Hi2 & Hl2 & Hmap2 & Hf2); [done| |lia|].
    { split; [done|]. rewrite Hstart. destruct Hc as [_ [?|(a & k & Ha & ?)]]; [by left|right].
      exists a, k. split; [|done]. unfold bl1. rewrite lookup_insert_ne; [done|]. intros <-. congruence. }
    cbn [mbind res_bind]. test_false (p =? 0). cbn [memory set_memory].
    assert (Hmp : mapped m2 p (n + 1)) by (apply Hmap2; eapply mapped_sub; [exact Hmap|lia..]).
    destruct (load_bytes_ok m2 p (Z.to_nat (n + 1))) as (str & -> & Hstr); [by rewrite Z2Nat.id by lia|].
    cbn [mbind res_bind]. rewrite vsnprintf_text by (done || lia). cbn [mbind res_bind]. rewrite Hl.
    pose proof (printed_text pre txt v str Hp Ht Hv ltac:(fold text; lia)) as Hpr. cbv zeta in Hpr. fold text n in Hpr. rewrite Hpr.
    assert (Hlt : Z.of_nat (length (text ++ [0])) = n + 1) by (rewrite length_app; cbn; lia).
    destruct (store_payload (set_memory s1 m2) bl1 fr (p - 16) (aligned (n + 1)) (text ++ [0]))
      as (m3 & Hst & Hi3 & Hf3 & Hb3); [done|apply lookup_insert_eq|lia| |].
    { rewrite Hlt. by replace (p - 16 + 16) with p by lia. }
    replace (p - 16 + 16) with p in * by lia. cbn [memory set_memory] in *. rewrite Hst. cbn [mbind res_bind].
    exists n, p. eexists. split; [by rewrite u32_small, s32_small by lia|]. cbn [memory set_memory]. split.
    { rewrite <- Hl2. apply load32_frame. intros i Hx. apply Hf3. lia. }
    split.
    { intros a k x Ha Hx Ho. pose proof (Hbelow a k Ha). rewrite Hf3, Hf2 by lia. by eapply Hk. }
    right. split_and!; try done. apply stored_cstr; [|done]. destruct (dec_text_chars v ltac:(lia)) as [Hd _].
    unfold text. rewrite !Forall_app. split_and!; [|done|]; (eapply Forall_impl; [done|]; cbn; intros ? [? _]; done).
Qed.

End asprintf.

(** ** Theorems *)

(** C33: asprintf(&p, format, v, ...) with one %d in the format, on a well-formed heap
    whose free blocks are too small, returns the length of the text and sets p to a
    new block of the heap that holds the text with its terminator, or returns -1 and
    sets p to NULL, the latter exactly when the frame allocator cannot supply the
    pages that are missing behind the last block.  No existing block changes, apart from p
    itself if it lies in one, and the heap stays well-formed. *)
Theorem asprintf_allocates_text {A} `{PageSource A} content walk junk fmtfp fuel (s : t A) bl fr ptr pre txt v ap :
  let text := pre ++ dec_text v ++ txt in
  let n := Z.of_nat (length text) in
  length junk = 20%nat → inv s bl fr → caller_word s bl ptr →
  Forall (λ x, 1 ≤ x < 256 ∧ x ≠ 37) pre → Forall (λ x, 1 ≤ x < 256 ∧ x ≠ 37) txt → -2147483648 < v < 2147483648 →
  Z.of_nat (length pre + length txt) < 1073741824 → (length pre + length txt + 8 < fuel)%nat →
  Forall (too_small bl (aligned (n + 1))) fr → (length fr < walk)%nat → kernel_heap_end s + n + 8256 < 4294967296 →
  ∃ ret p s', asprintf content walk junk fmtfp fuel s ptr (Str.lit (pre ++ 37 :: 100 :: txt)) (u32 v :: ap) = Ok (ret, s') ∧
    load32 (memory s') ptr = Ok p ∧
    (∀ a k x, bl !! a = Some k → a ≤ x < a + 16 + k → x < ptr ∨ ptr + 4 ≤ x → memory s' !! x = memory s !! x) ∧
    ((ret = -1 ∧ p = 0 ∧ ¬ supply (missing_pages s (16 + aligned (n + 1))) (frames s) ∧ inv s' bl fr) ∨
     (supply (missing_pages s (16 + aligned (n + 1))) (frames s) ∧ ret = n ∧ p mod 16 = 0 ∧ bl !! (p - 16) = None ∧ Str.cstr (load8 (memory s')) p text ∧
      inv s' (<[p - 16 := aligned (n + 1)]> bl) fr)).
Proof. apply vasprintf_ok. Qed.

Lemma asprintf_allocates_text_witness :
  ∃ p s', asprintf junk 10 (replicate 20 0) (λ _ o _ _ _ _ _, Ok o) 10 demo_blocks 4160
      (Str.lit ([97] ++ 37 :: 100 :: [])) [u32 (-5)] = Ok (3, s') ∧ load32 (memory s') 4160 = Ok p ∧
    Str.cstr (load8 (memory s')) p [97; 45; 53].
Proof.
  destruct (asprintf_allocates_text junk 10 (replicate 20 0) (λ _ o _ _ _ _ _, Ok o) 10 demo_blocks demo_bl [] 4160 [97] [] (-5) [])
    as (ret & p & s' & H1 & H2 & _ & [(_ & _ & Hs & _)|(_ & Hr & _ & _ & Ht & _)]);
    [done|check_heap| |repeat constructor; lia|constructor|lia|cbn; lia|cbn; lia|constructor|cbn; lia|vm_compute; reflexivity| |].
  - split; [|right; exists 4144, 48; split; [reflexivity|lia]].
    intros i Hi. assert (i = 0 ∨ i = 1 ∨ i = 2 ∨ i = 3) as [-> | [-> | [-> | ->]]] by lia; eexists; vm_compute; reflexivity.
  - destruct Hs. exact I.
  - exists p, s'. split; [rewrite Hr in H1; exact H1|]. split; [exact H2|exact Ht].
Defined.

(** The run: the length, and the text "a-5". *)
Example asprintf_run :
  match asprintf junk 10 (replicate 20 0) (λ _ o _ _ _ _ _, Ok o) 10 demo_blocks 4160 (Str.lit [97; 37; 100]) [u32 (-5)] with
  | Ok (ret, s') => (ret, p ← load32 (memory s') 4160; load_bytes (memory s') p 4) = (3, Ok [97; 45; 53; 0])
  | Fault _ => False
  end.
Proof. by vm_compute. Qed.

(** An empty text: the result is 0, and the caller's pointer is not set. *)
Theorem asprintf_empty_leaves_pointer {A} `{PageSource A} content walk junk fmtfp fuel (s : t A) ptr ap :
  asprintf content walk junk fmtfp (S (S fuel)) s ptr (Str.lit []) ap = Ok (0, s).
Proof.
  unfold asprintf, vasprintf.
  assert (vsnprintf junk fmtfp (S (S fuel)) [] 0 (Str.lit []) ap (memory s) = Ok (0, [], memory s)) as -> by reflexivity.
  cbn. by destruct s.
Qed.
