(* ===== verification/KeyboardStart.v ===== *)
(** The keyboard driver in memory.

    Source: kernel/arch/i386/kernel/drivers/keyboard/at_keyboard.c,
    init_at_keyboard.  AtKeyboard.v works on the record [ps2_keyboard_t]; here the
    record is the content of a block of the heap, which the initcall allocates and
    clears. *)
From S2P Require Import Prelude CString PageSource Heap Asprintf AtKeyboard.

(** The bytes of the structure: the pointer [next], the buffer, index and set, and
    two bytes to a multiple of the alignment. *)
Definition sizeof_ps2_keyboard : Z := 24.

Definition encode_ps2 (nxt : Z) (kb : ps2_keyboard_t) (pad : list Z) : list Z :=
  le_put 4 nxt ++ scancode_buffer kb ++ le_put 1 (scancode_index kb) ++ le_put 1 (scancode_set kb) ++ pad.

Section keyboard.
Context {A : Type} `{PS : PageSource A}.
Variable content : Z → Z → Z.
Variable walk : nat.

(** The pointer [keyboards] and the heap. *)
Definition init_at_keyboard (s : Heap.t A) : res (Z * Heap.t A) :=
  '(keyboards, s) ← malloc content walk s sizeof_ps2_keyboard;
  m ← Mem.memset (memory s) keyboards 0 sizeof_ps2_keyboard;
  Ok (keyboards, set_memory s m).

(** Clearing the payload of a block keeps the heap well formed. *)
Lemma clear_payload s bl fr b k n :
  inv s bl fr → bl !! b = Some k → 0 ≤ n ≤ k → mapped (memory s) (b + 16) n →
  ∃ m, Mem.memset (memory s) (b + 16) 0 n = Ok m ∧ inv (set_memory s m) bl fr ∧
    Mem.bytes_at m (b + 16) (replicate (Z.to_nat n) 0) ∧
    (∀ x, x < b + 16 ∨ b + 16 + n ≤ x → m !! x = memory s !! x).
Proof.
  intros Hi Hb Hn Hm. destruct (Mem.memset_fills (memory s) (b + 16) 0 n) as (m & Hs & Hin & Hout); [lia|done|].
  exists m. split; [done|]. split; [|split; [|exact Hout]].
  - apply (inv_client content s bl fr m Hi).
    + intros p l Hp i Hil. destruct (decide (b + 16 ≤ p + i < b + 16 + n)) as [Hx|]; [|rewrite Hout by lia; by apply Hp].
      exists (u8 0). rewrite <- (Hin (p + i - (b + 16))) by lia. f_equal. lia.
    + intros a l x Ha Hx. apply Hout. destruct (decide (b + 16 ≤ x < b + 16 + n)); [|lia].
      exfalso. by eapply (payload_headers s bl fr b k a l x x); try done; lia.
  - intros i x [-> Hx]%lookup_replicate. apply Hin. lia.
Qed.

(** The driver starts with a cleared keyboard in a new block of the heap, and the
    other blocks keep their content; when malloc returns NULL, for want of page
    frames, the initcall writes through it. *)
Theorem init_at_keyboard_clears s bl fr :
  inv s bl fr → memory s !! 0 = None → Forall (too_small bl 32) fr → (length fr < walk)%nat →
  kernel_heap_end s + 8264 < 4294967296 →
  (¬ supply (missing_pages s 48) (frames s) ∧ init_at_keyboard s = Fault Unmapped) ∨
  ∃ p s', supply (missing_pages s 48) (frames s) ∧ init_at_keyboard s = Ok (p, s') ∧ bl !! (p - 16) = None ∧ inv s' (<[p - 16 := 32]> bl) fr ∧
    Mem.bytes_at (memory s') p (encode_ps2 0 init_ps2_keyboard [0; 0]) ∧
    ∀ a k x, bl !! a = Some k → a ≤ x < a + 16 + k → memory s' !! x = memory s !! x.
Proof.
  intros Hi H0 Hs Hw Hend. pose proof (inv_bounds _ _ _ Hi). unfold init_at_keyboard, sizeof_ps2_keyboard.
  destruct (malloc_fresh_ok content walk s bl fr 24) as (p & s1 & -> & Hk & Hlow & _ & Hr);
    [done|done|done|change (aligned 24) with 32; lia|done|done|]. cbn [mbind res_bind].
  change (aligned 24) with 32 in Hr. destruct Hr as [(-> & Hns & _)|(_ & Hsup & _ & Hnone & Hbelow & _ & Hmap & Hi1)]; [left|right].
  - split; [done|]. unfold Mem.memset. change (Z.to_nat 24) with 24%nat. cbn [for_up]. unfold store8.
    change (0 + 0) with 0. rewrite Hlow by lia. by rewrite H0.
  - destruct (clear_payload s1 _ fr (p - 16) 32 24 Hi1) as (m & Hm & Hi2 & Hb & Hout);
      [apply lookup_insert_eq|lia|eapply mapped_sub; [exact Hmap|lia..]|].
    replace (p - 16 + 16) with p in * by lia. rewrite Hm. cbn [mbind res_bind].
    exists p, (set_memory s1 m). split; [done|]. split; [done|]. split; [done|]. split; [done|]. split; [exact Hb|].
    intros a k x Ha Hx. cbn [memory set_memory]. pose proof (Hbelow a k Ha). rewrite Hout by lia. by eapply Hk.
Qed.

End keyboard.

(** On the heap of four blocks: the block begins behind the last one. *)
Lemma init_at_keyboard_clears_witness :
  ∃ p s', init_at_keyboard junk 10 demo_blocks = Ok (p, s') ∧ Mem.bytes_at (memory s') p (encode_ps2 0 init_ps2_keyboard [0; 0]).
Proof.
  destruct (init_at_keyboard_clears junk 10 demo_blocks demo_bl []) as [[Hs _]|(p & s' & _ & H & _ & _ & Hb & _)];
    [check_heap|vm_compute; reflexivity|constructor|cbn; lia|vm_compute; reflexivity|destruct Hs; exact I|exists p, s'; split; [exact H|exact Hb]].
Defined.
