(* ===== verification/Paging.v ===== *)
(** Paging: the page tables, the recursive mapping and the MMIO window.

    Source: kernel/arch/i386/kernel/memory/paging.c, mmio.c and
    kernel/arch/i386/include/kernel/memory/memory_manager.h.

    The code edits page tables through virtual addresses, so the model has the
    hardware's side: physical memory as page frames of 1024 words, the page
    directory base register, and the page walk of the i386 with the write-protect
    bit that boot.S sets.  Translations are not cached: the code invalidates each
    entry that it changes.  Frames come from a [PageSource]. *)
From S2P Require Import Prelude PageSource.

Definition PAGE_SIZE : Z := 4096.
Definition PAGE_SHIFT : Z := 12.

(** ** The machine *)

(** Frame number to the words of the frame. *)
Abbreviation phys := (gmap Z (list Z)).

(** An entry allows an access: present, and writable when the access writes. *)
Definition allows (write : bool) (e : Z) : bool := Z.testbit e 0 && (negb write || Z.testbit e 1).

(** The page walk: from the directory in frame [c] to the frame of [v]. *)
Definition walk (write : bool) (m : phys) (c v : Z) : option Z :=
  pd ← m !! c;
  pde ← pd !! Z.to_nat (v / 4194304);
  if allows write pde then
    pt ← m !! (pde / 4096);
    pte ← pt !! Z.to_nat (v / 4096 mod 1024);
    if allows write pte then Some (pte / 4096) else None
  else None.

(** [pte_at] is the page of an access, [None] for a page fault. *)
Definition translate (m : phys) (c v : Z) : option Z :=
  f ← walk false m c v; Some (f * 4096 + v mod 4096).

Record t (A : Type) : Type := Paging {
  pmem : phys;
  cr3 : Z;
  frames : A;
  messages : list Z;
}.
Arguments Paging {A}.
Arguments pmem {A}.
Arguments cr3 {A}.
Arguments frames {A}.
Arguments messages {A}.

Section paging.
Context {A : Type} `{PageSource A}.

Definition set_pmem (s : t A) (m : phys) : t A := Paging m (cr3 s) (frames s) (messages s).
Definition set_frames (s : t A) (fr : A) : t A := Paging (pmem s) (cr3 s) fr (messages s).

(** Accesses to an aligned word of virtual memory. *)
Definition vload (s : t A) (v : Z) : res Z :=
  match walk false (pmem s) (cr3 s) v with
  | None => Fault Unmapped
  | Some f => match pmem s !! f with None => Fault Unmapped | Some l => aget l (v mod 4096 / 4) end
  end.

Definition vstore (s : t A) (v w : Z) : res (t A) :=
  match walk true (pmem s) (cr3 s) v with
  | None => Fault Unmapped
  | Some f =>
      match pmem s !! f with
      | None => Fault Unmapped
      | Some l => l ← aset l (v mod 4096 / 4) w; Ok (set_pmem s (<[f := l]> (pmem s)))
      end
  end.

(** [memset(v, 0, 4096)] of a page. *)
Definition clear_page (s : t A) (v : Z) : res (t A) :=
  for_up 1024 0 (λ i s, vstore s (v + i * 4) 0) s.

(** ** memory_manager.h *)

Definition mm_load_cr3 (s : t A) (addr : Z) : t A :=
  Paging (pmem s) (addr / 4096) (frames s) (messages s).

Definition mm_get_physaddr (s : t A) (vaddr : Z) : res Z :=
  let pdindex := Z.shiftr vaddr 22 in
  let ptindex := Z.land (Z.shiftr vaddr 12) 0x03FF in
  let pt := 0xFFC00000 + 4 * (0x400 * pdindex) in
  e ← vload s (pt + 4 * ptindex);
  Ok (u32 (Z.land e 0xFFFFF000 + Z.land vaddr 0xFFF)).

(** An entry for a page frame. *)
Definition entry (page flags : Z) : Z := Z.lor (u32 (Z.shiftl page PAGE_SHIFT)) flags.

(** [junk] is the uninitialised [page]. *)
Definition mm_map_page (junk : Z) (s : t A) (paddr vaddr flags : Z) : res (t A) :=
  let pdindex := Z.shiftr vaddr 22 in
  let ptindex := Z.land (Z.shiftr vaddr 12) 0x03FF in
  let pd := 0xFFFFF000 in
  let pt := 0xFFC00000 + 4 * (0x400 * pdindex) in
  e ← vload s (pd + 4 * pdindex);
  s ← (if e =? 0 then
         '(err, pout, fr) ← ps_alloc (frames s);
         let page := default junk pout in
         s ← vstore (set_frames s fr) (pd + 4 * pdindex) (entry page 0x03);
         clear_page s pt
       else Ok s);
  e ← vload s (pt + 4 * ptindex);
  let s := if negb (e =? 0) then Paging (pmem s) (cr3 s) (frames s) (messages s ++ [e]) else s in
  vstore s (pt + 4 * ptindex) (Z.lor (Z.lor paddr (Z.land flags 0xFFF)) 0x01).

(** ** mmio.c *)

Record mmio_t : Type := Mmio {
  space : t A;
  kernel_mmio_start : Z;
  kernel_mmio_limit : Z;
  kernel_mmio_ptr : Z;
}.

Definition mmio_init (s : t A) : mmio_t :=
  Mmio s (0xC0000000 + 0x20000000) (0xFFC00000 - 4096 * 1024) (0xC0000000 + 0x20000000).

(** The bytes reserved for [size] bytes at [phys_addr]. *)
Definition mmio_size (phys_addr size : Z) : Z :=
  let size := u32 (size + phys_addr mod PAGE_SIZE) in
  if negb (size mod PAGE_SIZE =? 0) then u32 (size + (PAGE_SIZE - size mod PAGE_SIZE)) else size.

(** The virtual address, or 0. *)
Definition mmio_map (junk : Z) (s : mmio_t) (phys_addr size : Z) : res (Z * mmio_t) :=
  let offset := phys_addr mod PAGE_SIZE in
  let address := phys_addr - offset in
  let size := mmio_size phys_addr size in
  let num_pages := size / PAGE_SIZE in
  if kernel_mmio_limit s <? u32 (kernel_mmio_ptr s + size) then Ok (0, s)
  else
    let virt_addr := kernel_mmio_ptr s in
    sp ← for_up (Z.to_nat num_pages) 0
           (λ i sp, mm_map_page junk sp (u32 (address + i * PAGE_SIZE)) (u32 (virt_addr + i * PAGE_SIZE)) 0x03)
           (space s);
    Ok (u32 (virt_addr + offset),
        Mmio sp (kernel_mmio_start s) (kernel_mmio_limit s) (u32 (virt_addr + size))).

Definition mmio_unmap (s : mmio_t) (phys_addr size : Z) : mmio_t := s.

(** ** paging.c *)

(** The page tables of the kernel's quarter of the address space. *)
Definition paging_init_kernel_space (s : t A) : res (t A) :=
  for_up 256 768
    (λ start s,
       let offset := u32 (0xFFFFF000 + start * 4) in
       entry_ ← vload s offset;
       if Z.land entry_ 0x01 =? 0 then
         '(err, pout, fr) ← ps_alloc (frames s);
         if negb (err =? 0) then Fault Panicked
         else
           let page := default 0 pout in
           s ← vstore (set_frames s fr) offset (entry page 0x03);
           clear_page s (0xFFC00000 + start * 4096)
       else Ok s) s.

(** The entry of the new page table for page [i]. *)
Definition kernel_entry (page_kernel_start page_kernel_end i : Z) : Z :=
  if i <? page_kernel_start then entry i 0x03
  else if i <? page_kernel_end then entry i 0x03
  else 0.

(** [pagedir], [pagetb1], [kernel_start] and [kernel_end] are the addresses of the
    symbols of boot.S and of the linker script. *)
Definition paging_earlyinit (pagedir pagetb1 kernel_start kernel_end : Z) (s : t A) : res (t A) :=
  let page_kernel_start := Z.shiftr (u32 (kernel_start - 0xC0000000)) PAGE_SHIFT in
  let page_kernel_end := Z.shiftr (u32 (kernel_end - 0xC0000000)) PAGE_SHIFT + 1 in
  '(err, p1, fr) ← ps_alloc (frames s);
  if negb (err =? 0) then Fault Panicked
  else
    let pagedir_page := default 0 p1 in
    '(err, p2, fr) ← ps_alloc fr;
    if negb (err =? 0) then Fault Panicked
    else
      let pagetbx_page := default 0 p2 in
      s ← vstore (set_frames s fr) (pagetb1 + 4 * 1023) (entry pagedir_page 0x03);
      s ← vstore s (pagetb1 + 4 * 1022) (entry pagetbx_page 0x03);
      s ← vstore s (pagedir + 4 * 1023)
            (Z.lor (Z.land (u32 (pagetb1 - 0xC0000000)) 0xFFFFF000) 0x03);
      s ← clear_page s 0xFFFFE000;
      s ← clear_page s 0xFFFFF000;
      s ← vstore s (0xFFFFF000 + 4 * 1023) (entry pagedir_page 0x03);
      s ← vstore s (0xFFFFF000 + 4 * 768) (entry pagetbx_page 0x03);
      s ← for_up 1024 0
            (λ i s, vstore s (0xFFFFE000 + i * 4) (kernel_entry page_kernel_start page_kernel_end i)) s;
      let i := Z.shiftr (u32 (pagedir - 0xC0000000)) PAGE_SHIFT in
      s ← vstore s (0xFFFFE000 + i * 4) (entry i 0x01);
      let s := mm_load_cr3 s (u32 (Z.shiftl pagedir_page PAGE_SHIFT)) in
      paging_init_kernel_space s.

End paging.

(** Run the first step of the goal's program as in [H]. *)
Ltac bind_along H :=
  let a := fresh "a" in let Ha := fresh "Hstep" in
  apply bind_ok in H as (a & Ha & H); rewrite Ha; cbn [mbind res_bind]; clear Ha.

(** ** The recursive mapping *)

Lemma allows_entry w f : allows w (f * 4096 + 3) = true.
Proof.
  unfold allows. change 4096 with (2 ^ 12). rewrite <- lor_low by lia. rewrite !Z.lor_spec.
  change (Z.testbit 3 0) with true. change (Z.testbit 3 1) with true. rewrite !orb_true_r. by destruct w.
Qed.

Lemma entry_frame f : (f * 4096 + 3) / 4096 = f.
Proof. mlia. Qed.

Lemma entry_ok f : 0 ≤ f < 1048576 → entry f 3 = f * 4096 + 3.
Proof.
  intros Hf. unfold entry, PAGE_SHIFT. rewrite Z.shiftl_mul_pow2, u32_small by lia. rewrite lor_low by lia. done.
Qed.

(** The directory [pd] in frame [c] maps itself by its last entry; the other
    entries are empty or lead to different tables. *)
Record rmap (m : phys) (c : Z) (pd : list Z) : Prop := {
  rm_dir : m !! c = Some pd;
  rm_len : length pd = 1024%nat;
  rm_self : pd !! 1023%nat = Some (c * 4096 + 3);
  rm_table : ∀ i e, (i < 1023)%nat → pd !! i = Some e →
    e = 0 ∨ ∃ f pt, e = f * 4096 + 3 ∧ f ≠ c ∧ m !! f = Some pt ∧ length pt = 1024%nat;
  rm_inj : ∀ i j f, (i < 1023)%nat → (j < 1023)%nat → pd !! i = Some (f * 4096 + 3) → pd !! j = Some (f * 4096 + 3) → i = j;
}.

Lemma walk_dir m c pd w k : rmap m c pd → 0 ≤ k < 1024 → walk w m c (0xFFFFF000 + 4 * k) = Some c.
Proof.
  intros [Hd _ Hs _ _] Hk. unfold walk. rewrite Hd. cbn [mbind option_bind].
  replace (Z.to_nat ((4294963200 + 4 * k) / 4194304)) with 1023%nat by mlia. rewrite Hs. cbn [mbind option_bind].
  rewrite allows_entry, entry_frame, Hd. cbn [mbind option_bind].
  replace (Z.to_nat ((4294963200 + 4 * k) / 4096 mod 1024)) with 1023%nat by mlia. rewrite Hs. cbn [mbind option_bind].
  by rewrite allows_entry, entry_frame.
Qed.

Lemma walk_table m c pd w i k f :
  rmap m c pd → (i < 1023)%nat → 0 ≤ k < 1024 → pd !! i = Some (f * 4096 + 3) →
  walk w m c (0xFFC00000 + 4096 * Z.of_nat i + 4 * k) = Some f.
Proof.
  intros [Hd _ Hs _ _] Hi Hk Hf. unfold walk. rewrite Hd. cbn [mbind option_bind].
  replace (Z.to_nat ((4290772992 + 4096 * Z.of_nat i + 4 * k) / 4194304)) with 1023%nat by mlia. rewrite Hs.
  cbn [mbind option_bind]. rewrite allows_entry, entry_frame, Hd. cbn [mbind option_bind].
  replace (Z.to_nat ((4290772992 + 4096 * Z.of_nat i + 4 * k) / 4096 mod 1024)) with i by mlia. rewrite Hf.
  cbn [mbind option_bind]. by rewrite allows_entry, entry_frame.
Qed.

Lemma walk_page w m c v v' : v / 4096 = v' / 4096 → walk w m c v = walk w m c v'.
Proof. intros He. unfold walk. rewrite He. by replace (v / 4194304) with (v' / 4194304) by mlia. Qed.

Lemma translate_page m c v v' p : v / 4096 = v' / 4096 → translate m c v = Some (p + v mod 4096) →
  translate m c v' = Some (p + v' mod 4096).
Proof.
  intros He. unfold translate. rewrite (walk_page false m c v v' He). destruct (walk _ _ _ _); [|done]. cbn.
  intros [= ?]. f_equal. lia.
Qed.

(** A table changes. *)
Lemma rmap_table m c pd f pt :
  rmap m c pd → f ≠ c → length pt = 1024%nat → rmap (<[f := pt]> m) c pd.
Proof.
  intros [H1 H2 H3 H4 H5] Hf Hl. split; try done; [by rewrite lookup_insert_ne|].
  intros i e Hi He. destruct (H4 i e Hi He) as [->|(g & q & -> & Hg & Hq & Hlq)]; [by left|right].
  destruct (decide (g = f)) as [->|].
  - exists f, pt. by rewrite lookup_insert_eq.
  - exists g, q. by rewrite lookup_insert_ne.
Qed.

(** A table is added. *)
Lemma rmap_new_table m c pd i f pt :
  rmap m c pd → (i < 1023)%nat → pd !! i = Some 0 → f ≠ c → m !! f = Some pt → length pt = 1024%nat →
  (∀ j, (j < 1023)%nat → pd !! j ≠ Some (f * 4096 + 3)) →
  rmap (<[c := <[i := f * 4096 + 3]> pd]> m) c (<[i := f * 4096 + 3]> pd).
Proof.
  intros [H1 H2 H3 H4 H5] Hi H0 Hf Hpt Hl Hfresh. split.
  - apply lookup_insert_eq.
  - by rewrite length_insert.
  - rewrite list_lookup_insert_ne by lia. done.
  - intros j e Hj He. destruct (decide (i = j)) as [<-|].
    + rewrite list_lookup_insert_eq in He by lia. injection He as <-. right. exists f, pt.
      by rewrite lookup_insert_ne.
    + rewrite list_lookup_insert_ne in He by done.
      destruct (H4 j e Hj He) as [->|(g & q & -> & Hg & Hq & Hlq)]; [by left|right].
      exists g, q. by rewrite lookup_insert_ne.
  - intros j k g Hj Hk Hgj Hgk. destruct (decide (i = j)) as [<-|]; destruct (decide (i = k)) as [<-|]; [done| | |].
    + rewrite list_lookup_insert_eq in Hgj by lia. rewrite list_lookup_insert_ne in Hgk by done.
      injection Hgj as Hgj. assert (f = g) as -> by lia. by destruct (Hfresh k Hk).
    + rewrite list_lookup_insert_eq in Hgk by lia. rewrite list_lookup_insert_ne in Hgj by done.
      injection Hgk as Hgk. assert (f = g) as -> by lia. by destruct (Hfresh j Hj).
    + rewrite !list_lookup_insert_ne in * by done. by eapply H5.
Qed.

Section operations.
Context {A : Type} `{PageSource A}.
(** Allocated frames are memory. *)
Variable ram : Z → Prop.
Context (Hram : ∀ (a : A) code p a', ps_inv a → ps_alloc a = Ok (code, Some p, a') → ram p).

Lemma vload_frame (s : t A) v f l i :
  walk false (pmem s) (cr3 s) v = Some f → pmem s !! f = Some l → v mod 4096 = 4 * i → 0 ≤ i →
  vload s v = aget l i.
Proof. intros Hw Hl Hv Hi. unfold vload. rewrite Hw, Hl, Hv. f_equal. mlia. Qed.

Lemma vstore_frame (s : t A) v f l i w :
  walk true (pmem s) (cr3 s) v = Some f → pmem s !! f = Some l → v mod 4096 = 4 * i → 0 ≤ i < Z.of_nat (length l) →
  vstore s v w = Ok (set_pmem s (<[f := <[Z.to_nat i := w]> l]> (pmem s))).
Proof.
  intros Hw Hl Hv Hi. unfold vstore. rewrite Hw, Hl, Hv. replace (4 * i / 4) with i by mlia.
  by rewrite aset_ok by lia.
Qed.

(** Writing the words of a page whose translation does not depend on them. *)
Lemma fill_page_ok (g : Z → Z) (s : t A) v f l :
  pmem s !! f = Some l → length l = 1024%nat → v mod 4096 = 0 →
  (∀ k q, 0 ≤ k < 1024 → length q = 1024%nat → walk true (<[f := q]> (pmem s)) (cr3 s) (v + 4 * k) = Some f) →
  for_up 1024 0 (λ i s, vstore s (v + i * 4) (g i)) s = Ok (set_pmem s (<[f := map g (seqZ 0 1024)]> (pmem s))).
Proof.
  intros Hf Hl Hv Hw.
  destruct (for_up_inv (λ i s', 0 ≤ i ∧ s' = set_pmem s (<[f := map g (seqZ 0 i) ++ drop (Z.to_nat i) l]> (pmem s)))
    1024 0 (λ i s, vstore s (v + i * 4) (g i)) s) as (s' & Hs' & _ & Hi).
  - intros i s' Hi [Hi0 ->]. set (q := map g (seqZ 0 i) ++ drop (Z.to_nat i) l).     assert (Hq : length q = 1024%nat) by (unfold q; rewrite length_app, length_map, length_seqZ, length_drop; lia).
    replace (v + i * 4) with (v + 4 * i) by lia.
    erewrite (vstore_frame _ _ f q i (g i)); [| |apply lookup_insert_eq|mlia|lia].
    2:{ cbn. apply Hw; [lia|done]. }
    eexists. split; [done|]. split; [lia|]. cbn. unfold set_pmem. cbn. f_equal. rewrite insert_insert_eq. f_equal.
    unfold q. rewrite insert_app_r_alt by (rewrite length_map, length_seqZ; lia). rewrite length_map, length_seqZ.
    replace (Z.to_nat i - Z.to_nat i)%nat with 0%nat by lia.
    destruct (lookup_lt_is_Some_2 l (Z.to_nat i)) as [x Hx]; [lia|]. rewrite (drop_S l x _ Hx). cbn [list_insert insert].
    replace (Z.to_nat (i + 1)) with (S (Z.to_nat i)) by lia. rewrite (seqZ_app 0 i 1) by lia. rewrite map_app, <- app_assoc. done.
  - split; [lia|]. cbn. rewrite drop_0. unfold set_pmem. rewrite insert_id by done. by destruct s.
  - rewrite Hs', Hi. do 3 f_equal. rewrite drop_ge by (cbn; lia). by rewrite app_nil_r.
Qed.

Lemma clear_page_ok (s : t A) v f l :
  pmem s !! f = Some l → length l = 1024%nat → v mod 4096 = 0 →
  (∀ k q, 0 ≤ k < 1024 → length q = 1024%nat → walk true (<[f := q]> (pmem s)) (cr3 s) (v + 4 * k) = Some f) →
  clear_page s v = Ok (set_pmem s (<[f := replicate 1024 0]> (pmem s))).
Proof. apply (fill_page_ok (λ _, 0)). Qed.

(** The page tables are well-formed, and no free frame holds one. *)
Record inv (s : t A) (pd : list Z) : Prop := {
  in_map : rmap (pmem s) (cr3 s) pd;
  in_src : ps_inv (frames s);
  in_dir : ps_used (frames s) (cr3 s);
  in_tables : ∀ i f, (i < 1023)%nat → pd !! i = Some (f * 4096 + 3) → ps_used (frames s) f;
  in_ram : ∀ p, ram p → 0 ≤ p < 1048576 ∧ ∃ l, pmem s !! p = Some l ∧ length l = 1024%nat;
}.

(** The frame is not the directory and no table. *)
Definition data_frame (c : Z) (pd : list Z) (g : Z) : Prop :=
  g ≠ c ∧ ∀ i, (i < 1023)%nat → pd !! i ≠ Some (g * 4096 + 3).

(** A table entry is written. *)
Lemma store_entry_ok s pd i k f pt w :
  inv s pd → (i < 1023)%nat → 0 ≤ k < 1024 → pd !! i = Some (f * 4096 + 3) → pmem s !! f = Some pt →
  vstore s (0xFFC00000 + 4 * (0x400 * Z.of_nat i) + 4 * k) w
  = Ok (set_pmem s (<[f := <[Z.to_nat k := w]> pt]> (pmem s))) ∧
  inv (set_pmem s (<[f := <[Z.to_nat k := w]> pt]> (pmem s))) pd.
Proof.
  intros [Hm Hs Hd Ht Hr] Hi Hk Hf Hpt. destruct (rm_table _ _ _ Hm i _ Hi Hf) as [He|(g & q & He & Hg & Hq & Hl)]; [lia|].
  assert (g = f) as -> by lia. rewrite Hpt in Hq. injection Hq as <-.
  replace (4290772992 + 4 * (1024 * Z.of_nat i) + 4 * k) with (0xFFC00000 + 4096 * Z.of_nat i + 4 * k) by lia. split.
  - apply vstore_frame; [by eapply walk_table|done|mlia|lia].
  - split; cbn; try done.
    + apply rmap_table; [done|done|]. by rewrite length_insert.
    + intros p Hp. destruct (Hr p Hp) as (Hpr & l & Hlp & Hll). split; [done|].
      destruct (decide (p = f)) as [->|]; [exists (<[Z.to_nat k := w]> pt); rewrite lookup_insert_eq, length_insert; done|].
      exists l. by rewrite lookup_insert_ne.
Qed.

(** A missing table is created, empty. *)
Lemma new_table_ok junk s pd i code f fr :
  inv s pd → (i < 1023)%nat → pd !! i = Some 0 → ps_alloc (frames s) = Ok (code, Some f, fr) →
  ∃ s', (s1 ← vstore (set_frames s fr) (0xFFFFF000 + 4 * Z.of_nat i) (entry (default junk (Some f)) 0x03);
         clear_page s1 (0xFFC00000 + 4 * (0x400 * Z.of_nat i))) = Ok s' ∧
    inv s' (<[i := f * 4096 + 3]> pd) ∧ cr3 s' = cr3 s ∧ messages s' = messages s ∧ frames s' = fr ∧
    pmem s' !! f = Some (replicate 1024 0) ∧
    (∀ j, (j < 1023)%nat → pd !! j ≠ Some (f * 4096 + 3)) ∧
    (∀ g, g ≠ cr3 s → g ≠ f → pmem s' !! g = pmem s !! g).
Proof.
  intros [Hm Hs Hd Ht Hr] Hi H0 Ha. destruct (ps_alloc_spec _ Hs) as (code' & pout & fr' & Ha' & Hs' & Hp).
  rewrite Ha in Ha'. injection Ha' as <- <- <-. destruct Hp as (_ & Hfree & Hused).
  destruct (Hr f (Hram _ _ _ _ Hs Ha)) as (Hfr & l & Hl & Hll).
  assert (Hfc : f ≠ cr3 s) by (by intros ->).
  assert (Hfresh : ∀ j, (j < 1023)%nat → pd !! j ≠ Some (f * 4096 + 3)) by (intros j Hj Hj'; by eapply Hfree, Ht).
  pose proof (rm_dir _ _ _ Hm) as Hpd. pose proof (rm_len _ _ _ Hm) as Hlen.
  change (default junk (Some f)) with f. rewrite entry_ok by done.
  erewrite (vstore_frame _ _ (cr3 s) pd (Z.of_nat i)); [|by eapply walk_dir; [exact Hm|lia]|done|mlia|lia].
  rewrite Nat2Z.id. cbn [mbind res_bind].
  set (pd' := <[i := f * 4096 + 3]> pd). set (m' := <[cr3 s := pd']> (pmem s)).
  assert (Hm' : rmap m' (cr3 s) pd') by (by eapply rmap_new_table).
  change (set_pmem (set_frames s fr) (<[cr3 s := pd']> (pmem (set_frames s fr)))) with (Paging m' (cr3 s) fr (messages s)).
  assert (Hi' : pd' !! i = Some (f * 4096 + 3)) by (apply list_lookup_insert_eq; lia).
  rewrite (clear_page_ok _ _ f l); cbn [pmem cr3].
  - eexists. split; [reflexivity|]. unfold set_pmem. cbn [pmem cr3 frames messages]. split; [split; cbn [pmem cr3 frames messages]|]; try done.
    + apply rmap_table; [done|done|]. by rewrite length_replicate.
    + apply Hused. by left.
    + intros j g Hj Hg. apply Hused. unfold pd' in Hg. destruct (decide (i = j)) as [<-|].
      * rewrite list_lookup_insert_eq in Hg by lia. right. injection Hg as Hg. lia.
      * rewrite list_lookup_insert_ne in Hg by done. left. by eapply Ht.
    + intros p Hp. destruct (Hr p Hp) as (Hpr & q & Hq & Hql). split; [done|].
      destruct (decide (p = f)) as [->|]; [exists (replicate 1024 0); by rewrite lookup_insert_eq|].
      rewrite lookup_insert_ne by done. unfold m'.
      destruct (decide (p = cr3 s)) as [->|]; [exists pd'; rewrite lookup_insert_eq; unfold pd'; by rewrite length_insert|].
      exists q. by rewrite lookup_insert_ne.
    + split; [done|]. split; [done|]. split; [done|]. split; [apply lookup_insert_eq|]. split; [exact Hfresh|].
      intros g Hg Hg'. unfold m'. by rewrite !lookup_insert_ne.
  - unfold m'. by rewrite lookup_insert_ne.
  - done.
  - mlia.
  - intros k q Hk Hq. replace (4290772992 + 4 * (1024 * Z.of_nat i) + 4 * k) with (0xFFC00000 + 4096 * Z.of_nat i + 4 * k) by lia.
    eapply walk_table; [by apply rmap_table|done|done|done].
Qed.

Lemma walk_entry_any b m c pd i f pt v :
  rmap m c pd → Z.to_nat (v / 4194304) = i → pd !! i = Some (f * 4096 + 3) → m !! f = Some pt →
  walk b m c v =
    match pt !! Z.to_nat (v / 4096 mod 1024) with
    | Some pte => if allows b pte then Some (pte / 4096) else None
    | None => None
    end.
Proof.
  intros Hm Hi Hf Hpt. unfold walk. rewrite (rm_dir _ _ _ Hm). cbn [mbind option_bind]. rewrite Hi, Hf.
  cbn [mbind option_bind]. rewrite allows_entry, entry_frame, Hpt. done.
Qed.

Lemma walk_missing_any b m c pd i v :
  rmap m c pd → Z.to_nat (v / 4194304) = i → pd !! i = Some 0 → walk b m c v = None.
Proof.
  intros Hm Hi Hf. unfold walk. rewrite (rm_dir _ _ _ Hm). cbn [mbind option_bind]. rewrite Hi, Hf. by destruct b.
Qed.

Lemma walk_entry m c pd i f pt v :
  rmap m c pd → Z.to_nat (v / 4194304) = i → pd !! i = Some (f * 4096 + 3) → m !! f = Some pt →
  walk false m c v =
    match pt !! Z.to_nat (v / 4096 mod 1024) with
    | Some pte => if allows false pte then Some (pte / 4096) else None
    | None => None
    end.
Proof. apply walk_entry_any. Qed.

Lemma walk_missing m c pd i v :
  rmap m c pd → Z.to_nat (v / 4194304) = i → pd !! i = Some 0 → walk false m c v = None.
Proof. apply walk_missing_any. Qed.

(** A table entry changes one page only. *)
Lemma walk_store_any r m c pd i k f pt w v :
  rmap m c pd → (i < 1023)%nat → 0 ≤ k < 1024 → pd !! i = Some (f * 4096 + 3) → m !! f = Some pt → length pt = 1024%nat →
  0 ≤ v < 0xFFC00000 →
  walk r (<[f := <[Z.to_nat k := w]> pt]> m) c v
  = if v / 4096 =? Z.of_nat i * 1024 + k then (if allows r w then Some (w / 4096) else None) else walk r m c v.
Proof.
  intros Hm Hi Hk Hf Hpt Hl Hv.
  destruct (rm_table _ _ _ Hm i _ Hi Hf) as [He|(f' & q0 & He & Hfc & _)]; [lia|].
  assert (f' = f) as -> by lia. clear He.
  assert (Hm' : rmap (<[f := <[Z.to_nat k := w]> pt]> m) c pd) by (apply rmap_table; [done|done|by rewrite length_insert]).
  set (j := Z.to_nat (v / 4194304)). assert (Hj : (j < 1023)%nat) by (unfold j; mlia).
  destruct (lookup_lt_is_Some_2 pd j) as [e He]; [rewrite (rm_len _ _ _ Hm); lia|].
  destruct (rm_table _ _ _ Hm j e Hj He) as [->|(g & q & -> & Hg & Hq & Hlq)].
  - rewrite (walk_missing_any _ _ _ _ j v Hm' eq_refl He), (walk_missing_any _ _ _ _ j v Hm eq_refl He).
    case_test; [|done]. assert (i = j) as <- by (unfold j; mlia). rewrite Hf in He. injection He as He. lia.
  - destruct (decide (i = j)) as [Hij|Hij].
    + rewrite <- Hij in He. rewrite Hf in He. injection He as He. assert (g = f) as -> by lia.
      rewrite Hpt in Hq. injection Hq as <-.
      rewrite (walk_entry_any _ _ _ _ i f (<[Z.to_nat k := w]> pt) v Hm' (eq_sym Hij) Hf) by apply lookup_insert_eq.
      rewrite (walk_entry_any _ _ _ _ i f pt v Hm (eq_sym Hij) Hf Hpt). unfold j in Hij. case_test.
      * replace (Z.to_nat (v / 4096 mod 1024)) with (Z.to_nat k) by mlia. by rewrite list_lookup_insert_eq by lia.
      * rewrite list_lookup_insert_ne; [done|]. intros Hk'. apply Heqb. mlia.
    + assert (Hgf : g ≠ f) by (intros ->; apply Hij; by eapply (rm_inj _ _ _ Hm)).
      rewrite (walk_entry_any _ _ _ _ j g q v Hm' eq_refl He) by (by rewrite lookup_insert_ne).
      rewrite (walk_entry_any _ _ _ _ j g q v Hm eq_refl He Hq). case_test; [|done]. unfold j in Hij. mlia.
Qed.

Lemma walk_store m c pd i k f pt w v :
  rmap m c pd → (i < 1023)%nat → 0 ≤ k < 1024 → pd !! i = Some (f * 4096 + 3) → m !! f = Some pt → length pt = 1024%nat →
  0 ≤ v < 0xFFC00000 →
  walk false (<[f := <[Z.to_nat k := w]> pt]> m) c v
  = if v / 4096 =? Z.of_nat i * 1024 + k then (if allows false w then Some (w / 4096) else None) else walk false m c v.
Proof. apply walk_store_any. Qed.

Definition page_entry (paddr flags : Z) : Z := Z.lor (Z.lor paddr (Z.land flags 0xFFF)) 0x01.

Lemma page_entry_ok paddr flags :
  0 ≤ paddr → paddr mod 4096 = 0 → 0 ≤ flags →
  allows false (page_entry paddr flags) = true ∧ page_entry paddr flags / 4096 * 4096 = paddr.
Proof.
  intros Hp Hm Hf. unfold page_entry, allows. split.
  - rewrite Z.lor_spec. change (Z.testbit 1 0) with true. by rewrite orb_true_r.
  - rewrite <- Z.lor_assoc. assert (Hlow : 0 ≤ Z.lor (Z.land flags 4095) 1 < 2 ^ 12).
    { change 4095 with (Z.ones 12). rewrite Z.land_ones by lia.
      assert (0 ≤ flags mod 2 ^ 12 < 2 ^ 12) by (apply Z.mod_pos_bound; lia).
      split; [apply Z.lor_nonneg; lia|]. destruct (Z.eq_dec (Z.lor (flags mod 2 ^ 12) 1) 0) as [->|Hne]; [lia|].
      assert (0 ≤ Z.lor (flags mod 2 ^ 12) 1) by (apply Z.lor_nonneg; lia).
      apply Z.log2_lt_pow2; [lia|]. rewrite Z.log2_lor by lia. apply Z.max_lub_lt; [|done].
      destruct (Z.eq_dec (flags mod 2 ^ 12) 0) as [->|]; [done|]. apply Z.log2_lt_pow2; lia. }
    replace paddr with (paddr / 4096 * 2 ^ 12) at 1 by mlia. rewrite lor_low by lia. mlia.
Qed.

Lemma index_div v : 0 ≤ v → Z.shiftr v 22 = v / 4194304.
Proof. intros. by rewrite Z.shiftr_div_pow2 by lia. Qed.

Lemma index_mod v : 0 ≤ v → Z.land (Z.shiftr v 12) 0x03FF = v / 4096 mod 1024.
Proof. intros. change 0x03FF with (Z.ones 10). rewrite Z.land_ones, Z.shiftr_div_pow2 by lia. done. Qed.

(** The last store of [mm_map_page]. *)
Lemma map_entry_ok s pd i k f pt paddr flags v :
  inv s pd → (i < 1023)%nat → 0 ≤ k < 1024 → pd !! i = Some (f * 4096 + 3) → pmem s !! f = Some pt → length pt = 1024%nat →
  0 ≤ paddr → paddr mod 4096 = 0 → 0 ≤ flags → v / 4096 = Z.of_nat i * 1024 + k → 0 ≤ v →
  ∃ s', vstore s (0xFFC00000 + 4 * (0x400 * Z.of_nat i) + 4 * k) (page_entry paddr flags) = Ok s' ∧
    inv s' pd ∧ cr3 s' = cr3 s ∧ frames s' = frames s ∧
    translate (pmem s') (cr3 s') v = Some (paddr + v mod 4096) ∧
    (∀ v', 0 ≤ v' < 0xFFC00000 → v' / 4096 ≠ v / 4096 → translate (pmem s') (cr3 s') v' = translate (pmem s) (cr3 s) v') ∧
    (∀ g, g ≠ f → pmem s' !! g = pmem s !! g).
Proof.
  intros Hi Hii Hk Hf Hpt Hl Hp Hpm Hfl Hv Hv0.
  destruct (store_entry_ok s pd i k f pt (page_entry paddr flags) Hi Hii Hk Hf Hpt) as [-> Hi'].
  eexists. split; [done|]. split; [done|]. split; [done|]. split; [done|]. cbn [pmem cr3 set_pmem].
  destruct (page_entry_ok paddr flags) as [Ha Hd]; [done..|]. pose proof (in_map _ _ Hi) as Hm.
  split_and!.
  - unfold translate. rewrite (walk_store _ _ _ i k f pt) by (done || mlia).
    rewrite (proj2 (Z.eqb_eq _ _) Hv), Ha. cbn [mbind option_bind]. f_equal. lia.
  - intros v' Hv' Hne. unfold translate. rewrite (walk_store _ _ _ i k f pt) by (done || mlia).
    rewrite (proj2 (Z.eqb_neq _ _)) by lia. done.
  - intros g Hg. by rewrite lookup_insert_ne.
Qed.

(** What mapping the page of [v] does to the state. *)
Record page_mapped (s s' : t A) (pd pd' : list Z) (v paddr : Z) : Prop := {
  pm_inv : inv s' pd';
  pm_cr3 : cr3 s' = cr3 s;
  pm_page : translate (pmem s') (cr3 s') v = Some (paddr + v mod 4096);
  pm_other : ∀ v', 0 ≤ v' < 0xFFC00000 → v' / 4096 ≠ v / 4096 →
    translate (pmem s') (cr3 s') v' = translate (pmem s) (cr3 s) v';
  pm_data : ∀ g, data_frame (cr3 s) pd' g → pmem s' !! g = pmem s !! g;
}.

Lemma inv_messages s pd msgs : inv s pd → inv (Paging (pmem s) (cr3 s) (frames s) msgs) pd.
Proof. intros [H1 H2 H3 H4 H5]. by split. Qed.

(** A page of a table that exists. *)
Lemma map_in_table s pd i f v paddr flags :
  inv s pd → 0 ≤ v < 0xFFC00000 → Z.of_nat i = v / 4194304 → pd !! i = Some (f * 4096 + 3) →
  0 ≤ paddr → paddr mod 4096 = 0 → 0 ≤ flags →
  ∃ s', (e ← vload s (0xFFC00000 + 4 * (0x400 * Z.of_nat i) + 4 * (v / 4096 mod 1024));
         vstore (if negb (e =? 0) then Paging (pmem s) (cr3 s) (frames s) (messages s ++ [e]) else s)
           (0xFFC00000 + 4 * (0x400 * Z.of_nat i) + 4 * (v / 4096 mod 1024)) (page_entry paddr flags)) = Ok s' ∧
    page_mapped s s' pd pd v paddr ∧ frames s' = frames s.
Proof.
  intros Hi Hv Hiv Hf Hp Hpm Hfl. pose proof (in_map _ _ Hi) as Hm. assert (Hi' : (i < 1023)%nat) by mlia.
  destruct (rm_table _ _ _ Hm i _ Hi' Hf) as [He|(f' & pt & He & Hfc & Hpt & Hl)]; [lia|].
  assert (f' = f) as -> by lia. clear He.
  destruct (lookup_lt_is_Some_2 pt (Z.to_nat (v / 4096 mod 1024))) as [x Hx]; [mlia|].
  replace (4290772992 + 4 * (1024 * Z.of_nat i) + 4 * (v / 4096 mod 1024))
    with (0xFFC00000 + 4096 * Z.of_nat i + 4 * (v / 4096 mod 1024)) by lia.
  rewrite (vload_frame _ _ f pt (v / 4096 mod 1024)); [|by eapply walk_table; [done|done|mlia|]|done|mlia|mlia].
  assert (aget pt (v / 4096 mod 1024) = Ok x) as -> by (apply aget_Ok; split; [mlia|done]). cbn [mbind res_bind]. cbv zeta.
  set (s1 := if negb (x =? 0) then _ else s).
  assert (Hs1 : inv s1 pd ∧ pmem s1 = pmem s ∧ cr3 s1 = cr3 s ∧ frames s1 = frames s).
  { unfold s1. case_match; [split; [by apply inv_messages|done]|done]. }
  destruct Hs1 as (Hi1 & Em & Ec & Ef). clearbody s1.
  replace (0xFFC00000 + 4096 * Z.of_nat i + 4 * (v / 4096 mod 1024))
    with (0xFFC00000 + 4 * (0x400 * Z.of_nat i) + 4 * (v / 4096 mod 1024)) by lia.
  destruct (map_entry_ok s1 pd i (v / 4096 mod 1024) f pt paddr flags v) as (s' & Hs' & G1 & G2 & G3 & G4 & G5 & G6);
    try done; [mlia|by rewrite Em|mlia|lia|].
  exists s'. split; [done|]. split; [|congruence]. split; [done|congruence|done| |].
  - intros v' Hv' Hne. rewrite G5 by done. by rewrite Em, Ec.
  - intros g [_ Hg]. rewrite G6; [by rewrite Em|]. intros ->. by apply (Hg i).
Qed.

Lemma map_page_ok junk s pd paddr vaddr flags :
  inv s pd → 0 ≤ vaddr < 0xFFC00000 → 0 ≤ paddr → paddr mod 4096 = 0 → 0 ≤ flags →
  pd !! Z.to_nat (vaddr / 4194304) ≠ Some 0 ∨ (∃ f fr, ps_alloc (frames s) = Ok (0, Some f, fr)) →
  ∃ s' pd', mm_map_page junk s paddr vaddr flags = Ok s' ∧ page_mapped s s' pd pd' vaddr paddr ∧
    pd' !! Z.to_nat (vaddr / 4194304) ≠ Some 0 ∧ (pd !! Z.to_nat (vaddr / 4194304) ≠ Some 0 → pd' = pd).
Proof.
  intros Hi Hv Hp Hpm Hfl Hroom. unfold mm_map_page. rewrite index_div, index_mod by lia. cbv zeta.
  set (i := Z.to_nat (vaddr / 4194304)) in *. assert (Hiv : Z.of_nat i = vaddr / 4194304) by (unfold i; mlia).
  assert (Hi' : (i < 1023)%nat) by mlia. rewrite <- Hiv. pose proof (in_map _ _ Hi) as Hm.
  destruct (lookup_lt_is_Some_2 pd i) as [e He]; [rewrite (rm_len _ _ _ Hm); lia|].
  rewrite (vload_frame _ _ (cr3 s) pd (Z.of_nat i)); [|by eapply walk_dir; [done|lia]|apply Hm|mlia|lia].
  assert (aget pd (Z.of_nat i) = Ok e) as -> by (apply aget_Ok; rewrite Nat2Z.id; split; [lia|done]). cbn [mbind res_bind].
  fold (page_entry paddr flags).
  destruct (rm_table _ _ _ Hm i _ Hi' He) as [->|(f & pt & -> & Hfc & Hpt & Hl)].
  - destruct Hroom as [Hne|(f & fr & Ha)]; [done|]. cbn [Z.eqb]. rewrite Ha. cbn [mbind res_bind].
    destruct (new_table_ok junk s pd i 0 f fr Hi Hi' He Ha) as (s1 & -> & Hi1 & Ec & Ems & _ & Hpt & Hfresh & Hrest).
    cbn [mbind res_bind]. set (pd' := <[i := f * 4096 + 3]> pd) in *.
    assert (He' : pd' !! i = Some (f * 4096 + 3)) by (apply list_lookup_insert_eq; rewrite (rm_len _ _ _ Hm); lia).
    destruct (map_in_table s1 pd' i f vaddr paddr flags Hi1 Hv Hiv He' Hp Hpm Hfl) as (s' & -> & [M1 M2 M3 M4 M5] & _).
    exists s', pd'. split; [done|]. split; [|split; [rewrite He'; intros [= ?]; lia|by rewrite He]].
    split; [done|congruence|done| |].
    + intros v' Hv' Hne. rewrite M4 by done. unfold translate.
      pose proof (in_map _ _ Hi1) as Hm1. rewrite Ec in *.
      set (j := Z.to_nat (v' / 4194304)). assert (Hj : (j < 1023)%nat) by (unfold j; mlia).
      destruct (lookup_lt_is_Some_2 pd j) as [e He2]; [rewrite (rm_len _ _ _ Hm); lia|].
      destruct (decide (i = j)) as [Hij|Hij].
      * rewrite Hij in He. rewrite (walk_missing _ _ _ j v' Hm eq_refl He).
        rewrite (walk_entry _ _ _ i f (replicate 1024 0) v' Hm1 (eq_sym Hij) He' Hpt).
        rewrite lookup_replicate_2 by mlia. done.
      * assert (He3 : pd' !! j = Some e) by (unfold pd'; by rewrite list_lookup_insert_ne).
        destruct (rm_table _ _ _ Hm j e Hj He2) as [->|(g & q & -> & Hg & Hq & Hlq)].
        -- by rewrite (walk_missing _ _ _ j v' Hm eq_refl He2), (walk_missing _ _ _ j v' Hm1 eq_refl He3).
        -- rewrite (walk_entry _ _ _ j g q v' Hm eq_refl He2 Hq).
           rewrite (walk_entry _ _ _ j g q v' Hm1 eq_refl He3); [done|]. rewrite Hrest; [done|done|].
           intros ->. by apply (Hfresh j).
    + intros g Hg. rewrite M5 by (by rewrite Ec). destruct Hg as [Hg1 Hg2]. apply Hrest; [done|]. intros ->. by apply (Hg2 i).
  - rewrite (proj2 (Z.eqb_neq (f * 4096 + 3) 0)) by lia. cbn [mbind res_bind].
    destruct (map_in_table s pd i f vaddr paddr flags Hi Hv Hiv He Hp Hpm Hfl) as (s' & -> & Hmp & _).
    exists s', pd. split; [done|]. split; [done|]. split; [|done]. rewrite He. intros [= ?]. lia.
Qed.

(** [mm_get_physaddr] is the translation. *)
Lemma get_physaddr_ok s pd v p :
  inv s pd → 0 ≤ v < 0xFFC00000 → translate (pmem s) (cr3 s) v = Some p → 0 ≤ p < 4294967296 →
  mm_get_physaddr s v = Ok p.
Proof.
  intros Hi Hv Ht Hp. unfold mm_get_physaddr. rewrite index_div, index_mod by lia. cbv zeta.
  pose proof (in_map _ _ Hi) as Hm. set (i := Z.to_nat (v / 4194304)). assert (Hii : (i < 1023)%nat) by (unfold i; mlia).
  replace (v / 4194304) with (Z.of_nat i) by (unfold i; mlia). unfold translate in Ht.
  destruct (lookup_lt_is_Some_2 pd i) as [e He]; [rewrite (rm_len _ _ _ Hm); lia|].
  destruct (rm_table _ _ _ Hm i e Hii He) as [->|(f & pt & -> & Hfc & Hpt & Hl)].
  { by rewrite (walk_missing _ _ _ i v Hm eq_refl He) in Ht. }
  rewrite (walk_entry _ _ _ i f pt v Hm eq_refl He Hpt) in Ht.
  destruct (pt !! Z.to_nat (v / 4096 mod 1024)) as [x|] eqn:Ex; [|done].
  destruct (allows false x); [|done]. cbn [mbind option_bind] in Ht. injection Ht as <-.
  replace (4290772992 + 4 * (1024 * Z.of_nat i) + 4 * (v / 4096 mod 1024))
    with (0xFFC00000 + 4096 * Z.of_nat i + 4 * (v / 4096 mod 1024)) by lia.
  rewrite (vload_frame _ _ f pt (v / 4096 mod 1024)); [|by eapply walk_table; [done|done|mlia|]|done|mlia|mlia].
  assert (aget pt (v / 4096 mod 1024) = Ok x) as -> by (apply aget_Ok; split; [mlia|done]). cbn [mbind res_bind].
  f_equal. change 4095 with (Z.ones 12). rewrite Z.land_ones by lia. change (2 ^ 12) with 4096.
  assert (Z.land x 0xFFFFF000 = x / 4096 * 4096) as ->.
  { change 0xFFFFF000 with (Z.shiftl (Z.ones 20) 12). apply Z.bits_inj'. intros n Hn.
    rewrite Z.land_spec. change 4096 with (2 ^ 12). rewrite <- Z.shiftr_div_pow2, <- Z.shiftl_mul_pow2 by lia.
    destruct (decide (n < 12)); [by rewrite !Z.shiftl_spec_low, andb_false_r by lia|].
    rewrite !Z.shiftl_spec, Z.shiftr_spec by lia. replace (n - 12 + 12) with n by lia.
    destruct (decide (n < 32)); [by rewrite Z.ones_spec_low, andb_true_r by lia|].
    rewrite Z.ones_spec_high, andb_false_r by lia. symmetry.
    rewrite <- (Z.mod_small x (2 ^ 32)) by mlia. apply Z.mod_pow2_bits_high. lia. }
  apply u32_small. mlia.
Qed.

(** Without the table the access faults; an entry of 0 gives the offset alone. *)
Lemma get_physaddr_missing s pd v :
  inv s pd → 0 ≤ v < 0xFFC00000 → pd !! Z.to_nat (v / 4194304) = Some 0 → mm_get_physaddr s v = Fault Unmapped.
Proof.
  intros Hi Hv H0. unfold mm_get_physaddr. rewrite index_div, index_mod by lia. cbv zeta.
  pose proof (in_map _ _ Hi) as Hm. unfold vload, walk. rewrite (rm_dir _ _ _ Hm). cbn [mbind option_bind].
  set (a := 4290772992 + 4 * (1024 * (v / 4194304)) + 4 * (v / 4096 mod 1024)).
  replace (Z.to_nat (a / 4194304)) with 1023%nat by (unfold a; mlia). rewrite (rm_self _ _ _ Hm).
  cbn [mbind option_bind]. rewrite allows_entry, entry_frame, (rm_dir _ _ _ Hm). cbn [mbind option_bind].
  replace (Z.to_nat (a / 4096 mod 1024)) with (Z.to_nat (v / 4194304)) by (unfold a; mlia). by rewrite H0.
Qed.

Lemma get_physaddr_empty s pd v f pt :
  inv s pd → 0 ≤ v < 0xFFC00000 → pd !! Z.to_nat (v / 4194304) = Some (f * 4096 + 3) → pmem s !! f = Some pt →
  pt !! Z.to_nat (v / 4096 mod 1024) = Some 0 → mm_get_physaddr s v = Ok (v mod 4096).
Proof.
  intros Hi Hv Hf Hpt H0. unfold mm_get_physaddr. rewrite index_div, index_mod by lia. cbv zeta.
  pose proof (in_map _ _ Hi) as Hm. set (i := Z.to_nat (v / 4194304)) in *.
  replace (v / 4194304) with (Z.of_nat i) by (unfold i; mlia).
  replace (4290772992 + 4 * (1024 * Z.of_nat i) + 4 * (v / 4096 mod 1024))
    with (0xFFC00000 + 4096 * Z.of_nat i + 4 * (v / 4096 mod 1024)) by lia.
  rewrite (vload_frame _ _ f pt (v / 4096 mod 1024)); [|eapply walk_table; [done|unfold i; mlia|mlia|done]|done|mlia|mlia].
  assert (aget pt (v / 4096 mod 1024) = Ok 0) as -> by (apply aget_Ok; split; [mlia|done]). cbn [mbind res_bind].
  rewrite Z.land_0_l, Z.add_0_l. change 4095 with (Z.ones 12). rewrite Z.land_ones by lia. change (2 ^ 12) with 4096.
  f_equal. apply u32_small. mlia.
Qed.

(** ** MMIO *)

(** The tables of the kernel's quarter exist. *)
Definition kernel_tables (pd : list Z) : Prop := ∀ i, (768 ≤ i < 1023)%nat → pd !! i ≠ Some 0.

Record mmio_inv (s : mmio_t) (pd : list Z) : Prop := {
  mi_space : inv (space s) pd;
  mi_tables : kernel_tables pd;
  mi_limit : kernel_mmio_limit s = 0xFF800000;
  mi_ptr : 0xE0000000 ≤ kernel_mmio_ptr s ≤ 0xFF800000 ∧ kernel_mmio_ptr s mod 4096 = 0;
}.

(** Mapping a run of pages. *)
Lemma map_pages_ok junk s pd address virt n :
  inv s pd → kernel_tables pd → 0xC0000000 ≤ virt → virt + 4096 * Z.of_nat n ≤ 0xFFC00000 → virt mod 4096 = 0 →
  0 ≤ address → address + 4096 * Z.of_nat n ≤ 4294967296 → address mod 4096 = 0 →
  ∃ s', for_up n 0 (λ i sp, mm_map_page junk sp (u32 (address + i * PAGE_SIZE)) (u32 (virt + i * PAGE_SIZE)) 0x03) s = Ok s' ∧
    inv s' pd ∧ cr3 s' = cr3 s ∧
    (∀ v, virt ≤ v < virt + 4096 * Z.of_nat n → translate (pmem s') (cr3 s') v = Some (address + (v - virt))) ∧
    (∀ v, 0 ≤ v < 0xFFC00000 → ¬ virt ≤ v < virt + 4096 * Z.of_nat n →
       translate (pmem s') (cr3 s') v = translate (pmem s) (cr3 s) v) ∧
    (∀ g, data_frame (cr3 s) pd g → pmem s' !! g = pmem s !! g).
Proof.
  intros Hi Hk Hv1 Hv2 Hvm Ha1 Ha2 Ham. unfold PAGE_SIZE.
  destruct (for_up_inv (λ k s', inv s' pd ∧ cr3 s' = cr3 s ∧
    (∀ v, virt ≤ v < virt + 4096 * k → translate (pmem s') (cr3 s') v = Some (address + (v - virt))) ∧
    (∀ v, 0 ≤ v < 0xFFC00000 → ¬ virt ≤ v < virt + 4096 * k →
       translate (pmem s') (cr3 s') v = translate (pmem s) (cr3 s) v) ∧
    (∀ g, data_frame (cr3 s) pd g → pmem s' !! g = pmem s !! g)) n 0
    (λ i sp, mm_map_page junk sp (u32 (address + i * 4096)) (u32 (virt + i * 4096)) 0x03) s)
    as (s' & Hs' & Hr); [| |exists s'; split; [exact Hs'|exact Hr]].
  - intros k sp Hkr (I1 & I2 & I3 & I4 & I5). rewrite !u32_small by lia.
    set (w := virt + k * 4096).
    assert (Htab : pd !! Z.to_nat (w / 4194304) ≠ Some 0) by (apply Hk; unfold w; mlia).
    destruct (map_page_ok junk sp pd (address + k * 4096) w 0x03) as (s' & pd' & -> & [M1 M2 M3 M4 M5] & _ & Epd);
      [done|unfold w; lia|lia|mlia|lia|by left|].
    rewrite (Epd Htab), I2 in *. eexists. split; [done|]. unfold w in *. split_and!; try done.
    + intros v Hv. destruct (decide (v / 4096 = (virt + k * 4096) / 4096)) as [Hpg|Hpg].
      * assert (translate (pmem s') (cr3 s') v = Some (address + k * 4096 + v mod 4096)) as ->.
        { eapply translate_page; [|exact M3]. done. }
        f_equal. mlia.
      * rewrite M4, I3 by mlia. done.
    + intros v Hv Hn. rewrite M4 by mlia. apply I4; [done|]. lia.
    + intros g Hg. rewrite M5, I5 by done. done.
  - split_and!; try done. intros v Hv. lia.
Qed.

Lemma mmio_size_ok phys_addr size :
  0 ≤ phys_addr → 0 ≤ size → size + phys_addr mod 4096 + 4095 < 4294967296 →
  let t := size + phys_addr mod 4096 in
  mmio_size phys_addr size mod 4096 = 0 ∧ t ≤ mmio_size phys_addr size < t + 4096.
Proof.
  intros Hp Hs Hb. cbv zeta. unfold mmio_size, PAGE_SIZE. rewrite (u32_small (size + _)) by mlia.
  case_test; [|mlia]. rewrite u32_small by mlia. mlia.
Qed.

Lemma mmio_map_ok junk s pd phys_addr size :
  mmio_inv s pd → 0 ≤ phys_addr → 0 ≤ size → phys_addr + size + 4096 ≤ 4294967296 →
  kernel_mmio_ptr s + size + 8192 ≤ 4294967296 →
  ∃ v s', mmio_map junk s phys_addr size = Ok (v, s') ∧ mmio_inv s' pd ∧
    ((v = 0 ∧ s' = s ∧ kernel_mmio_limit s < kernel_mmio_ptr s + mmio_size phys_addr size) ∨
     (kernel_mmio_ptr s ≤ v ∧ v + size ≤ kernel_mmio_ptr s' ∧ v mod 4096 = phys_addr mod 4096 ∧
      (∀ i, 0 ≤ i < size → translate (pmem (space s')) (cr3 (space s')) (v + i) = Some (phys_addr + i)) ∧
      (∀ w, 0 ≤ w < 0xFFC00000 → ¬ kernel_mmio_ptr s ≤ w < kernel_mmio_ptr s' →
         translate (pmem (space s')) (cr3 (space s')) w = translate (pmem (space s)) (cr3 (space s)) w) ∧
      (∀ g, data_frame (cr3 (space s)) pd g → pmem (space s') !! g = pmem (space s) !! g))).
Proof.
  intros [Hi Hk Hl [Hp1 Hp2]] Hpa Hsz Hpb Hvb. destruct (mmio_size_ok phys_addr size) as [Hm Hs]; [done|done|mlia|].
  unfold mmio_map. unfold PAGE_SIZE at 1 2 3. set (sz := mmio_size phys_addr size) in *. rewrite Hl.
  rewrite (u32_small (kernel_mmio_ptr s + sz)) by mlia.
  destruct (Z.ltb_spec 0xFF800000 (kernel_mmio_ptr s + sz)) as [Hfull|Hfit].
  { exists 0, s. split; [done|]. split; [by split|]. left. done. }
  destruct (map_pages_ok junk (space s) pd (phys_addr - phys_addr mod 4096) (kernel_mmio_ptr s) (Z.to_nat (sz / 4096)))
    as (sp & Hsp & Ii & Ic & It & Io & Id); [done|done|lia|mlia|done|mlia|mlia|mlia|].
  rewrite Hsp. cbn [mbind res_bind]. rewrite u32_small by mlia.
  exists (kernel_mmio_ptr s + phys_addr mod 4096), (Mmio sp (kernel_mmio_start s) (kernel_mmio_limit s) (kernel_mmio_ptr s + sz)).
  split; [by rewrite Hl|]. cbn [space kernel_mmio_ptr]. split; [split; cbn; try done; mlia|]. right.
  assert (Hn : 4096 * Z.of_nat (Z.to_nat (sz / 4096)) = sz) by mlia. rewrite Hn in *.
  split_and!; [mlia|mlia|mlia| | |done].
  - intros i Hir. rewrite It by mlia. f_equal. lia.
  - intros w Hw Hn'. by apply Io.
Qed.

(** ** The page tables of the kernel *)

(** From [s] to [s'] tables were added; the translations are the same. *)
Record tables_added (s s' : t A) (pd pd' : list Z) : Prop := {
  ta_inv : inv s' pd';
  ta_cr3 : cr3 s' = cr3 s;
  ta_same : ∀ i, pd !! i ≠ Some 0 → pd' !! i = pd !! i;
  ta_walk : ∀ v, 0 ≤ v < 0xFFC00000 → walk true (pmem s') (cr3 s') v = walk true (pmem s) (cr3 s) v ∧
                 walk false (pmem s') (cr3 s') v = walk false (pmem s) (cr3 s) v;
  ta_data : ∀ g, data_frame (cr3 s) pd' g → pmem s' !! g = pmem s !! g;
}.

(** A new table is empty, so it translates nothing. *)
Lemma walk_new_table b m m' c pd i f v :
  rmap m c pd → rmap m' c (<[i := f * 4096 + 3]> pd) → (i < 1023)%nat → pd !! i = Some 0 →
  m' !! f = Some (replicate 1024 0) → (∀ j, (j < 1023)%nat → pd !! j ≠ Some (f * 4096 + 3)) →
  (∀ g, g ≠ c → g ≠ f → m' !! g = m !! g) → 0 ≤ v < 0xFFC00000 → walk b m' c v = walk b m c v.
Proof.
  intros Hm Hm' Hi H0 Hf Hfresh Hrest Hv. set (j := Z.to_nat (v / 4194304)). assert (Hj : (j < 1023)%nat) by (unfold j; mlia).
  destruct (lookup_lt_is_Some_2 pd j) as [e He]; [rewrite (rm_len _ _ _ Hm); lia|].
  destruct (decide (i = j)) as [Hij|Hij].
  - rewrite Hij in H0. rewrite (walk_missing_any b _ _ _ j v Hm eq_refl H0).
    rewrite (walk_entry_any b _ _ _ i f (replicate 1024 0) v Hm' (eq_sym Hij)); [|apply list_lookup_insert_eq; rewrite (rm_len _ _ _ Hm); lia|done].
    rewrite lookup_replicate_2 by mlia. by destruct b.
  - assert (He' : <[i := f * 4096 + 3]> pd !! j = Some e) by (by rewrite list_lookup_insert_ne).
    destruct (rm_table _ _ _ Hm j e Hj He) as [->|(g & q & -> & Hg & Hq & Hlq)].
    + by rewrite (walk_missing_any b _ _ _ j v Hm eq_refl He), (walk_missing_any b _ _ _ j v Hm' eq_refl He').
    + rewrite (walk_entry_any b _ _ _ j g q v Hm eq_refl He Hq), (walk_entry_any b _ _ _ j g q v Hm' eq_refl He'); [done|].
      rewrite Hrest; [done|done|]. intros ->. by apply (Hfresh j).
Qed.

Lemma tables_added_refl s pd : inv s pd → tables_added s s pd pd.
Proof. by split. Qed.

Lemma tables_added_trans s1 s2 s3 p1 p2 p3 :
  tables_added s1 s2 p1 p2 → tables_added s2 s3 p2 p3 → tables_added s1 s3 p1 p3.
Proof.
  intros [A1 A2 A3 A4 A5] [B1 B2 B3 B4 B5]. split; [done|congruence| | |].
  - intros i Hi. rewrite B3, A3; [done|done|]. by rewrite A3.
  - intros v Hv. destruct (A4 v Hv), (B4 v Hv). split; congruence.
  - intros g [Hg1 Hg2]. rewrite B5 by (rewrite A2; by split). apply A5. split; [done|]. intros i Hi Hpi.
    apply (Hg2 i Hi). rewrite B3; [done|]. rewrite Hpi. intros [= ?]. lia.
Qed.

(** One turn of [paging_init_kernel_space]. *)
Lemma kernel_table_ok s pd i :
  inv s pd → (i < 1024)%nat →
  post (λ s', (∃ pd', tables_added s s' pd pd' ∧ pd' !! i ≠ Some 0) ∧
         ∀ k, supply (S k) (frames s) → supply k (frames s'))
    (λ f, f = Panicked ∧ ¬ supply 1 (frames s))
    (entry_ ← vload s (u32 (0xFFFFF000 + Z.of_nat i * 4));
     if Z.land entry_ 0x01 =? 0 then
       '(err, pout, fr) ← ps_alloc (frames s);
       if negb (err =? 0) then Fault Panicked
       else
         let page := default 0 pout in
         s ← vstore (set_frames s fr) (u32 (0xFFFFF000 + Z.of_nat i * 4)) (entry page 0x03);
         clear_page s (0xFFC00000 + Z.of_nat i * 4096)
     else Ok s).
Proof.
  intros Hi Hii. pose proof (in_map _ _ Hi) as Hm. rewrite u32_small by lia.
  replace (0xFFFFF000 + Z.of_nat i * 4) with (0xFFFFF000 + 4 * Z.of_nat i) by lia.
  replace (0xFFC00000 + Z.of_nat i * 4096) with (0xFFC00000 + 4 * (0x400 * Z.of_nat i)) by lia.
  destruct (lookup_lt_is_Some_2 pd i) as [e He]; [rewrite (rm_len _ _ _ Hm); lia|].
  rewrite (vload_frame _ _ (cr3 s) pd (Z.of_nat i)); [|by eapply walk_dir; [done|lia]|apply Hm|mlia|lia].
  assert (aget pd (Z.of_nat i) = Ok e) as -> by (apply aget_Ok; rewrite Nat2Z.id; split; [lia|done]). cbn [mbind res_bind].
  assert (Hcase : e = 0 ∧ (i < 1023)%nat ∨ ∃ f, e = f * 4096 + 3).
  { destruct (decide (i = 1023%nat)) as [->|]; [right; rewrite (rm_self _ _ _ Hm) in He; injection He as <-; eauto|].
    destruct (rm_table _ _ _ Hm i e ltac:(lia) He) as [->|(f & _ & -> & _)]; [left; split; [done|lia]|eauto]. }
  destruct Hcase as [[-> Hi']|(f & ->)].
  2:{ assert (Z.land (f * 4096 + 3) 1 = 1) as ->.
      { change 1 with (Z.ones 1) at 1. rewrite Z.land_ones by lia. change (2 ^ 1) with 2. mlia. }
      cbn. split; [|intros k; apply supply_S]. exists pd. split; [by apply tables_added_refl|]. rewrite He. intros [= ?]. lia. }
  cbn [Z.land Z.eqb]. destruct (ps_alloc_spec _ (in_src _ _ Hi)) as (code & pout & fr & Ha & _ & Hp). rewrite Ha.
  cbn [mbind res_bind]. destruct pout as [f|]; [destruct Hp as (-> & _)|].
  2:{ destruct Hp as [Hp _]. rewrite (proj2 (Z.eqb_neq code 0)) by done. split; [done|].
      intros (p & a' & Ha' & _). rewrite Ha in Ha'. by injection Ha'. }
  cbn [Z.eqb negb]. destruct (new_table_ok 0 s pd i 0 f fr Hi Hi' He Ha) as (s1 & -> & Hi1 & Ec & _ & Hfr & Hpt & Hfresh & Hrest).
  cbn. assert (Hlen : (i < length pd)%nat) by (rewrite (rm_len _ _ _ Hm); lia).
  split; [|intros k (p & a' & Ha' & Hk); rewrite Ha in Ha'; rewrite Hfr; by injection Ha' as _ <-].
  exists (<[i := f * 4096 + 3]> pd). split.
  - split; [done|done| | |].
    + intros j Hj. rewrite list_lookup_insert_ne; [done|]. intros ->. by rewrite He in Hj.
    + intros v Hv. pose proof (in_map _ _ Hi1) as Hm1. rewrite Ec in *. split; by eapply walk_new_table.
    + intros g [Hg1 Hg2]. apply Hrest; [done|]. intros ->. apply (Hg2 i); [done|]. by apply list_lookup_insert_eq.
  - rewrite list_lookup_insert_eq by done. intros [= ?]. lia.
Qed.

Lemma kernel_space_ok s pd :
  inv s pd →
  post (λ s', ∃ pd', tables_added s s' pd pd' ∧ kernel_tables pd') (λ f, f = Panicked ∧ ¬ supply 256 (frames s))
    (paging_init_kernel_space s).
Proof.
  intros Hi. unfold paging_init_kernel_space. cbv zeta. set (body := λ (start : Z) (s : t A), _).
  enough (Hgen : ∀ n lo s pd, (lo + n = 1024)%nat → inv s pd →
    post (λ s', ∃ pd', tables_added s s' pd pd' ∧ ∀ i, (lo ≤ i < 1024)%nat → pd' !! i ≠ Some 0)
      (λ f, f = Panicked ∧ ¬ supply n (frames s)) (for_up n (Z.of_nat lo) body s)).
  { eapply post_mono; [by apply (Hgen 256%nat 768%nat)| |done]. intros s' (pd' & Ht & Hk).
    exists pd'. split; [done|]. intros i Hir. apply Hk. lia. }
  clear s pd Hi. induction n as [|n IH]; intros lo s pd Hlo Hi.
  { cbn. exists pd. split; [by apply tables_added_refl|]. intros i Hir. lia. }
  cbn [for_up]. eapply post_bind.
  { eapply post_mono; [apply (kernel_table_ok s pd lo); [done|lia]| |].
    - intros s1 Hs1. exact Hs1.
    - intros f [-> Hf]. split; [done|]. intros Hs. apply Hf. eapply supply_le; [|exact Hs]. lia. }
  intros s1 [(p1 & Ht1 & Hn1) Hsup].
  replace (Z.of_nat lo + 1) with (Z.of_nat (S lo)) by lia.
  eapply post_mono; [apply (IH (S lo) s1 p1); [lia|apply Ht1]| |].
  - intros s2 (p2 & Ht2 & Hn2).
    exists p2. split; [by eapply tables_added_trans|]. intros i Hir. destruct (decide (i = lo)) as [->|]; [|apply Hn2; lia].
    by rewrite (ta_same _ _ _ _ Ht2).
  - intros f [-> Hf]. split; [done|]. intros Hs. by apply Hf, Hsup.
Qed.

(** ** From the boot page tables to the kernel's *)

Lemma walk_two b m c v pd f pt g :
  m !! c = Some pd → pd !! Z.to_nat (v / 4194304) = Some (f * 4096 + 3) → m !! f = Some pt →
  pt !! Z.to_nat (v / 4096 mod 1024) = Some (g * 4096 + 3) → walk b m c v = Some g.
Proof.
  intros Hc Hf Hpt Hg. unfold walk. rewrite Hc. cbn [mbind option_bind]. rewrite Hf. cbn [mbind option_bind].
  rewrite allows_entry, entry_frame, Hpt. cbn [mbind option_bind]. rewrite Hg. cbn [mbind option_bind].
  by rewrite allows_entry, entry_frame.
Qed.

(** What boot.S leaves: the directory in frame [cb] maps the first 4 MB at
    0xC0000000 by the table in frame [tb]; the kernel fills the pages from [ks]
    to [ke], with both frames among them. *)
Record boot_ok (s : t A) (cb tb ks ke : Z) (bd bt : list Z) : Prop := {
  bo_cr3 : cr3 s = cb;
  bo_dir : pmem s !! cb = Some bd ∧ length bd = 1024%nat ∧ bd !! 768%nat = Some (tb * 4096 + 3);
  bo_table : pmem s !! tb = Some bt ∧ length bt = 1024%nat;
  bo_entries : bt !! Z.to_nat cb = Some (cb * 4096 + 3) ∧ bt !! Z.to_nat tb = Some (tb * 4096 + 3);
  bo_range : 0 ≤ ks ∧ ks ≤ cb < ke ∧ ks ≤ tb < ke ∧ ke ≤ 1022 ∧ cb ≠ tb;
  bo_frames : ps_inv (frames s) ∧ ps_used (frames s) cb ∧ ps_used (frames s) tb;
  bo_ram : ∀ p, ram p → 0 ≤ p < 1048576 ∧ ∃ l, pmem s !! p = Some l ∧ length l = 1024%nat;
}.

(** The window through which the old tables show the new ones: the directory
    [d] at 0xFFFFF000, the first table [x] at 0xFFFFE000. *)
Record window (m : phys) (cb tb d x : Z) : Prop := {
  wi_tables : ∃ bd bt, m !! cb = Some bd ∧ bd !! 1023%nat = Some (tb * 4096 + 3) ∧ m !! tb = Some bt ∧
    bt !! 1023%nat = Some (d * 4096 + 3) ∧ bt !! 1022%nat = Some (x * 4096 + 3);
  wi_dir : ∃ l, m !! d = Some l ∧ length l = 1024%nat;
  wi_table : ∃ l, m !! x = Some l ∧ length l = 1024%nat;
  wi_ne : d ≠ cb ∧ d ≠ tb ∧ x ≠ cb ∧ x ≠ tb ∧ d ≠ x;
}.

Lemma window_insert m cb tb d x f l :
  window m cb tb d x → f = d ∨ f = x → length l = 1024%nat → window (<[f := l]> m) cb tb d x.
Proof.
  intros [(bd & bt & H1 & H2 & H3 & H4 & H5) Hd Hx (N1 & N2 & N3 & N4 & N5)] Hf Hl. split; [| | |done].
  - exists bd, bt. destruct Hf as [-> | ->]; rewrite !lookup_insert_ne by done; done.
  - destruct (decide (f = d)) as [->|]; [exists l; by rewrite lookup_insert_eq|by rewrite lookup_insert_ne].
  - destruct (decide (f = x)) as [->|]; [exists l; by rewrite lookup_insert_eq|by rewrite lookup_insert_ne].
Qed.

Lemma window_dir b m cb tb d x k :
  window m cb tb d x → 0 ≤ k < 1024 → walk b m cb (0xFFFFF000 + 4 * k) = Some d.
Proof.
  intros [(bd & bt & H1 & H2 & H3 & H4 & H5) _ _ _] Hk. eapply walk_two; [exact H1| |exact H3|].
  - replace (Z.to_nat ((4294963200 + 4 * k) / 4194304)) with 1023%nat by mlia. done.
  - replace (Z.to_nat ((4294963200 + 4 * k) / 4096 mod 1024)) with 1023%nat by mlia. done.
Qed.

Lemma window_table b m cb tb d x k :
  window m cb tb d x → 0 ≤ k < 1024 → walk b m cb (0xFFFFE000 + 4 * k) = Some x.
Proof.
  intros [(bd & bt & H1 & H2 & H3 & H4 & H5) _ _ _] Hk. eapply walk_two; [exact H1| |exact H3|].
  - replace (Z.to_nat ((4294959104 + 4 * k) / 4194304)) with 1023%nat by mlia. done.
  - replace (Z.to_nat ((4294959104 + 4 * k) / 4096 mod 1024)) with 1022%nat by mlia. done.
Qed.

(** A store into the first 4 MB behind the boot tables. *)
Lemma vstore_low (s : t A) bd tb bt g k l w :
  pmem s !! cr3 s = Some bd → bd !! 768%nat = Some (tb * 4096 + 3) → pmem s !! tb = Some bt →
  bt !! Z.to_nat g = Some (g * 4096 + 3) → pmem s !! g = Some l → length l = 1024%nat →
  0 ≤ g < 1022 → 0 ≤ k < 1024 →
  vstore s (0xC0000000 + g * 4096 + 4 * k) w = Ok (set_pmem s (<[g := <[Z.to_nat k := w]> l]> (pmem s))).
Proof.
  intros Hbd E Hbt Eg Hl Ll Hg Hk. apply vstore_frame; [|done|mlia|lia]. apply (walk_two _ _ _ _ bd tb bt g); [done| |done|].
  - replace (Z.to_nat ((3221225472 + g * 4096 + 4 * k) / 4194304)) with 768%nat by mlia. done.
  - replace (Z.to_nat ((3221225472 + g * 4096 + 4 * k) / 4096 mod 1024)) with (Z.to_nat g) by mlia. done.
Qed.

Lemma set_pmem_twice (s : t A) m m' : set_pmem (set_pmem s m) m' = set_pmem s m'.
Proof. done. Qed.

(** The first three stores open the window. *)
Lemma open_window (s : t A) cb tb ks ke bd bt d x :
  boot_ok s cb tb ks ke bd bt → d ≠ cb → d ≠ tb → x ≠ cb → x ≠ tb → d ≠ x →
  0 ≤ d < 1048576 → 0 ≤ x < 1048576 →
  (∃ l, pmem s !! d = Some l ∧ length l = 1024%nat) → (∃ l, pmem s !! x = Some l ∧ length l = 1024%nat) →
  ∃ s', (s1 ← vstore s (0xC0000000 + tb * 4096 + 4 * 1023) (entry d 0x03);
         s2 ← vstore s1 (0xC0000000 + tb * 4096 + 4 * 1022) (entry x 0x03);
         vstore s2 (0xC0000000 + cb * 4096 + 4 * 1023)
           (Z.lor (Z.land (u32 (0xC0000000 + tb * 4096 - 0xC0000000)) 0xFFFFF000) 0x03)) = Ok s' ∧
    window (pmem s') cb tb d x ∧ cr3 s' = cb ∧ frames s' = frames s ∧
    (∀ g, g ≠ cb → g ≠ tb → pmem s' !! g = pmem s !! g) ∧
    (∃ l1, pmem s' !! cb = Some l1 ∧ length l1 = 1024%nat) ∧ (∃ l2, pmem s' !! tb = Some l2 ∧ length l2 = 1024%nat).
Proof.
  intros [Hc (Hbd & Lbd & Ebd) (Hbt & Lbt) (Ec & Et) Hr _ _] N1 N2 N3 N4 N5 Hd Hx Hmd Hmx.
  rewrite !entry_ok by done.
  assert (Z.lor (Z.land (u32 (3221225472 + tb * 4096 - 3221225472)) 4294963200) 3 = tb * 4096 + 3) as ->.
  { rewrite u32_small by lia. replace (3221225472 + tb * 4096 - 3221225472) with (tb * 4096) by lia.
    change 4294963200 with (Z.shiftl (Z.ones 20) 12). change 4096 with (2 ^ 12). rewrite <- Z.shiftl_mul_pow2 by lia.
    rewrite <- Z.shiftl_land, Z.land_ones, Z.mod_small by lia. rewrite Z.shiftl_mul_pow2 by lia. by rewrite lor_low by lia. }
  set (b1 := <[Z.to_nat 1023 := d * 4096 + 3]> bt). set (b2 := <[Z.to_nat 1022 := x * 4096 + 3]> b1).
  assert (Lb1 : length b1 = 1024%nat) by (unfold b1; by rewrite length_insert).
  assert (Lb2 : length b2 = 1024%nat) by (unfold b2; by rewrite length_insert).
  rewrite <- Hc in Hbd.
  rewrite (vstore_low s bd tb bt tb 1023 bt) by (done || lia). cbn [mbind res_bind]. fold b1. rewrite Hc in Hbd.
  rewrite (vstore_low _ bd tb b1 tb 1022 b1); [|cbn [pmem cr3 set_pmem]; rewrite Hc, lookup_insert_ne by lia; exact Hbd|done|apply lookup_insert_eq|
    unfold b1; by rewrite list_lookup_insert_ne by lia|apply lookup_insert_eq|done|lia|lia].
  cbn [mbind res_bind]. fold b2. rewrite set_pmem_twice. cbn [pmem set_pmem]. rewrite insert_insert_eq.
  set (m2 := <[tb := b2]> (pmem s)). assert (Hm2 : m2 !! cb = Some bd) by (unfold m2; by rewrite lookup_insert_ne by lia).
  rewrite (vstore_low _ bd tb b2 cb 1023 bd); [|cbn [pmem cr3 set_pmem]; rewrite Hc; exact Hm2|done|apply lookup_insert_eq|
    unfold b2, b1; by rewrite !list_lookup_insert_ne by lia|exact Hm2|done|lia|lia].
  rewrite set_pmem_twice. eexists. split; [reflexivity|]. cbn [pmem cr3 set_pmem frames].
  assert (Hother : ∀ g, g ≠ cb → g ≠ tb → <[cb := <[Z.to_nat 1023 := tb * 4096 + 3]> bd]> m2 !! g = pmem s !! g).
  { intros g Hg Hg'. unfold m2. by rewrite !lookup_insert_ne. }
  assert (Htb : <[cb := <[Z.to_nat 1023 := tb * 4096 + 3]> bd]> m2 !! tb = Some b2).
  { unfold m2. rewrite lookup_insert_ne by lia. apply lookup_insert_eq. }
  split; [split|].
  - exists (<[Z.to_nat 1023 := tb * 4096 + 3]> bd), b2. split; [apply lookup_insert_eq|].
    split; [apply list_lookup_insert_eq; lia|]. split; [done|].
    split; [unfold b2; rewrite list_lookup_insert_ne by lia; apply list_lookup_insert_eq; lia|].
    apply list_lookup_insert_eq. unfold b1. rewrite length_insert. lia.
  - by rewrite Hother.
  - by rewrite Hother.
  - done.
  - split; [done|]. split; [done|]. split; [done|]. split; [|eauto].
    exists (<[Z.to_nat 1023 := tb * 4096 + 3]> bd). rewrite lookup_insert_eq, length_insert. done.
Qed.

Definition new_dir (d x : Z) : list Z :=
  <[Z.to_nat 768 := x * 4096 + 3]> (<[Z.to_nat 1023 := d * 4096 + 3]> (replicate 1024 0)).
Definition new_table (ks ke cb : Z) : list Z :=
  <[Z.to_nat cb := entry cb 0x01]> (map (kernel_entry ks ke) (seqZ 0 1024)).

Lemma window_clear_table (s : t A) cb tb d x :
  window (pmem s) cb tb d x → cr3 s = cb →
  clear_page s 0xFFFFE000 = Ok (set_pmem s (<[x := replicate 1024 0]> (pmem s))).
Proof.
  intros Hw Hc. destruct (wi_table _ _ _ _ _ Hw) as (l & Hl & Ll).
  apply (clear_page_ok s _ x l); [done|done|done|]. intros k q Hk Hq. rewrite Hc.
  apply (window_table _ _ _ tb d); [|done]. apply window_insert; [done|by right|done].
Qed.

Lemma window_clear_dir (s : t A) cb tb d x :
  window (pmem s) cb tb d x → cr3 s = cb →
  clear_page s 0xFFFFF000 = Ok (set_pmem s (<[d := replicate 1024 0]> (pmem s))).
Proof.
  intros Hw Hc. destruct (wi_dir _ _ _ _ _ Hw) as (l & Hl & Ll).
  apply (clear_page_ok s _ d l); [done|done|done|]. intros k q Hk Hq. rewrite Hc.
  apply (window_dir _ _ _ tb _ x); [|done]. apply window_insert; [done|by left|done].
Qed.

Lemma window_store_dir (s : t A) cb tb d x l k w :
  window (pmem s) cb tb d x → cr3 s = cb → pmem s !! d = Some l → length l = 1024%nat → 0 ≤ k < 1024 →
  vstore s (0xFFFFF000 + 4 * k) w = Ok (set_pmem s (<[d := <[Z.to_nat k := w]> l]> (pmem s))).
Proof. intros Hw Hc Hl Ll Hk. apply vstore_frame; [rewrite Hc; by eapply window_dir|done|mlia|lia]. Qed.

Lemma window_store_table (s : t A) cb tb d x l k w :
  window (pmem s) cb tb d x → cr3 s = cb → pmem s !! x = Some l → length l = 1024%nat → 0 ≤ k < 1024 →
  vstore s (0xFFFFE000 + k * 4) w = Ok (set_pmem s (<[x := <[Z.to_nat k := w]> l]> (pmem s))).
Proof.
  intros Hw Hc Hl Ll Hk. rewrite (Z.mul_comm k 4).
  apply vstore_frame; [rewrite Hc; by eapply window_table|done|mlia|lia].
Qed.

Lemma window_fill_table (s : t A) cb tb d x g :
  window (pmem s) cb tb d x → cr3 s = cb →
  for_up 1024 0 (λ i s, vstore s (0xFFFFE000 + i * 4) (g i)) s = Ok (set_pmem s (<[x := map g (seqZ 0 1024)]> (pmem s))).
Proof.
  intros Hw Hc. destruct (wi_table _ _ _ _ _ Hw) as (l & Hl & Ll).
  apply (fill_page_ok g s _ x l); [done|done|done|]. intros k q Hk Hq. rewrite Hc.
  apply (window_table _ _ _ tb d); [|done]. apply window_insert; [done|by right|done].
Qed.

Lemma fill_window (s : t A) cb tb ks ke d x :
  window (pmem s) cb tb d x → cr3 s = cb → 0 ≤ cb < 1024 → 0 ≤ d < 1048576 → 0 ≤ x < 1048576 →
  ∃ s', (s ← clear_page s 0xFFFFE000;
         s ← clear_page s 0xFFFFF000;
         s ← vstore s (0xFFFFF000 + 4 * 1023) (entry d 0x03);
         s ← vstore s (0xFFFFF000 + 4 * 768) (entry x 0x03);
         s ← for_up 1024 0 (λ i s, vstore s (0xFFFFE000 + i * 4) (kernel_entry ks ke i)) s;
         vstore s (0xFFFFE000 + cb * 4) (entry cb 0x01)) = Ok s' ∧
    pmem s' !! d = Some (new_dir d x) ∧ pmem s' !! x = Some (new_table ks ke cb) ∧
    (∀ g, g ≠ d → g ≠ x → pmem s' !! g = pmem s !! g) ∧ frames s' = frames s.
Proof.
  intros Hw Hc Hcb Hd Hx. pose proof (wi_ne _ _ _ _ _ Hw) as (N1 & N2 & N3 & N4 & N5).
  rewrite !(entry_ok d), !(entry_ok x) by done.
  rewrite (window_clear_table s cb tb d x) by done. cbn [mbind res_bind].
  set (m1 := <[x := replicate 1024 0]> (pmem s)).
  assert (W1 : window m1 cb tb d x) by (apply window_insert; [done|by right|apply length_replicate]).
  rewrite (window_clear_dir (set_pmem s m1) cb tb d x) by done. cbn [mbind res_bind]. rewrite set_pmem_twice. cbn [pmem set_pmem].
  set (m2 := <[d := replicate 1024 0]> m1).
  assert (W2 : window m2 cb tb d x) by (apply window_insert; [done|by left|apply length_replicate]).
  rewrite (window_store_dir (set_pmem s m2) cb tb d x (replicate 1024 0) 1023);
    [|done|done|apply lookup_insert_eq|apply length_replicate|lia].
  cbn [mbind res_bind]. rewrite set_pmem_twice. cbn [pmem set_pmem]. unfold m2 at 1. rewrite insert_insert_eq.
  set (d3 := <[Z.to_nat 1023 := d * 4096 + 3]> (replicate 1024 0)). set (m3 := <[d := d3]> m1).
  assert (L3 : length d3 = 1024%nat) by (unfold d3; by rewrite length_insert, length_replicate).
  assert (W3 : window m3 cb tb d x) by (apply window_insert; [done|by left|done]).
  rewrite (window_store_dir (set_pmem s m3) cb tb d x d3 768); [|done|done|apply lookup_insert_eq|done|lia].
  cbn [mbind res_bind]. rewrite set_pmem_twice. cbn [pmem set_pmem]. unfold m3 at 1. rewrite insert_insert_eq.
  change (<[Z.to_nat 768 := x * 4096 + 3]> d3) with (new_dir d x). set (m4 := <[d := new_dir d x]> m1).
  assert (L4 : length (new_dir d x) = 1024%nat) by (unfold new_dir; by rewrite !length_insert, length_replicate).
  assert (W4 : window m4 cb tb d x) by (apply window_insert; [done|by left|done]).
  rewrite (window_fill_table (set_pmem s m4) cb tb d x (kernel_entry ks ke)) by done.
  cbn [mbind res_bind]. rewrite set_pmem_twice. cbn [pmem set_pmem].
  set (t5 := map (kernel_entry ks ke) (seqZ 0 1024)). set (m5 := <[x := t5]> m4).
  assert (L5 : length t5 = 1024%nat) by (unfold t5; by rewrite length_map, length_seqZ).
  assert (W5 : window m5 cb tb d x) by (apply window_insert; [done|by right|done]).
  rewrite (window_store_table (set_pmem s m5) cb tb d x t5 cb); [|done|done|apply lookup_insert_eq|done|lia].
  rewrite set_pmem_twice. eexists. split; [reflexivity|]. cbn [pmem set_pmem frames]. unfold m5, m4, m1.
  split; [by rewrite !lookup_insert_ne, lookup_insert_eq by done|]. split; [apply lookup_insert_eq|].
  split; [|done]. intros g Hg Hg'. by rewrite !lookup_insert_ne.
Qed.

(** The new directory and its table are well formed. *)
Lemma kernel_entry_ok ks ke i :
  0 ≤ i < 1048576 → ks ≤ ke → kernel_entry ks ke i = if i <? ke then i * 4096 + 3 else 0.
Proof.
  intros Hi Hk. unfold kernel_entry. rewrite entry_ok by done.
  destruct (Z.ltb_spec i ks), (Z.ltb_spec i ke); (done || lia).
Qed.

Lemma new_table_lookup ks ke cb i :
  0 ≤ ks ≤ ke → 0 ≤ cb < 1024 → 0 ≤ i < 1024 →
  new_table ks ke cb !! Z.to_nat i
  = Some (if i =? cb then cb * 4096 + 1 else if i <? ke then i * 4096 + 3 else 0).
Proof.
  intros Hk Hc Hi. unfold new_table. destruct (Z.eqb_spec i cb) as [->|Hne].
  - rewrite list_lookup_insert_eq by (rewrite length_map, length_seqZ; lia). f_equal.
    unfold entry, PAGE_SHIFT. rewrite Z.shiftl_mul_pow2, u32_small by lia. by rewrite lor_low by lia.
  - rewrite list_lookup_insert_ne by lia. rewrite list_lookup_fmap, lookup_seqZ_lt by lia. cbn [fmap option_fmap option_map].
    rewrite Z2Nat.id, Z.add_0_l by lia. by rewrite kernel_entry_ok by lia.
Qed.

Lemma new_table_length ks ke cb : length (new_table ks ke cb) = 1024%nat.
Proof. unfold new_table. by rewrite length_insert, length_map, length_seqZ. Qed.

Lemma new_dir_length d x : length (new_dir d x) = 1024%nat.
Proof. unfold new_dir. by rewrite !length_insert, length_replicate. Qed.

Lemma new_dir_lookup d x i e :
  (i < 1023)%nat → new_dir d x !! i = Some e → (i = 768%nat ∧ e = x * 4096 + 3) ∨ (i ≠ 768%nat ∧ e = 0).
Proof.
  intros Hi. unfold new_dir. change (Z.to_nat 768) with 768%nat. change (Z.to_nat 1023) with 1023%nat.
  destruct (decide (i = 768%nat)) as [->|Hne].
  - rewrite list_lookup_insert_eq by (rewrite length_insert, length_replicate; lia). intros [= <-]. by left.
  - rewrite !list_lookup_insert_ne by lia. rewrite lookup_replicate_2 by lia. intros [= <-]. by right.
Qed.

Lemma new_dir_rmap m d x pt :
  m !! d = Some (new_dir d x) → m !! x = Some pt → length pt = 1024%nat → d ≠ x → rmap m d (new_dir d x).
Proof.
  intros Hd Hx Lx Hne. split; [done|apply new_dir_length| | |].
  - unfold new_dir. rewrite list_lookup_insert_ne by lia. apply list_lookup_insert_eq. rewrite length_replicate. lia.
  - intros i e Hi He. destruct (new_dir_lookup _ _ _ _ Hi He) as [[_ ->]|[_ ->]]; [right|by left].
    exists x, pt. done.
  - intros i j f Hi Hj Hfi Hfj.
    destruct (new_dir_lookup _ _ _ _ Hi Hfi) as [[-> ?]|[? ?]]; destruct (new_dir_lookup _ _ _ _ Hj Hfj) as [[-> ?]|[? ?]]; lia.
Qed.

(** What the kernel's address space translates: the kernel's pages, and no
    others; the page [cb] of the old directory is read-only. *)
Definition kernel_space (s : t A) (cb ke : Z) : Prop :=
  ∀ v w, 0 ≤ v < 0xFFC00000 →
    walk w (pmem s) (cr3 s) v
    = if (0xC0000000 <=? v) && (v <? 0xC0000000 + ke * 4096) && negb (w && ((v - 0xC0000000) / 4096 =? cb))
      then Some ((v - 0xC0000000) / 4096) else None.

Lemma new_dir_space (s : t A) ks ke cb d x :
  cr3 s = d → pmem s !! d = Some (new_dir d x) → pmem s !! x = Some (new_table ks ke cb) → d ≠ x →
  0 ≤ ks ≤ cb → cb < ke ≤ 1022 → kernel_space s cb ke.
Proof.
  intros Hc Hd Hx Hne Hk Hb v w Hv. rewrite Hc.
  assert (Hm : rmap (pmem s) d (new_dir d x)) by (by eapply new_dir_rmap; [| |apply new_table_length|]).
  set (j := Z.to_nat (v / 4194304)). assert (Hj : (j < 1023)%nat) by (unfold j; mlia).
  destruct (lookup_lt_is_Some_2 (new_dir d x) j) as [e He]; [rewrite new_dir_length; lia|].
  destruct (new_dir_lookup _ _ _ _ Hj He) as [[Hj' ->]|[Hj' ->]]; unfold j in Hj'.
  - rewrite (walk_entry_any w _ _ _ j x _ v Hm eq_refl He Hx).
    assert (Hv' : 0xC0000000 ≤ v < 0xC0400000) by mlia.
    assert (Ei : (v - 0xC0000000) / 4096 = v / 4096 mod 1024) by mlia. rewrite Ei.
    rewrite new_table_lookup by mlia. set (i := v / 4096 mod 1024) in *.
    assert (Hlt : (v <? 3221225472 + ke * 4096) = (i <? ke)).
    { destruct (Z.ltb_spec v (3221225472 + ke * 4096)), (Z.ltb_spec i ke); (done || mlia). }
    rewrite Hlt, (proj2 (Z.leb_le 3221225472 v)) by lia. cbn [andb].
    destruct (Z.eqb_spec i cb) as [Hic|Hic].
    + rewrite (proj2 (Z.ltb_lt i ke)) by lia. rewrite Hic. unfold allows. change 4096 with (2 ^ 12).
      rewrite <- (lor_low cb 1 12) by lia. rewrite !Z.lor_spec, orb_true_r, orb_false_r, Z.mul_pow2_bits_low by lia.
      destruct w; [done|]. cbn [andb negb orb]. f_equal. rewrite lor_low by lia. change (2 ^ 12) with 4096. mlia.
    + rewrite andb_false_r. cbn [negb]. rewrite andb_true_r. destruct (i <? ke); [by rewrite allows_entry, entry_frame|by destruct w].
  - rewrite (walk_missing_any w _ _ _ j v Hm eq_refl He).
    destruct (Z.leb_spec 0xC0000000 v), (Z.ltb_spec v (3221225472 + ke * 4096)); try done. mlia.
Qed.

(** What [paging_earlyinit] gives: a directory that maps itself, with every
    table of the kernel's quarter present, that translates the kernel's pages. *)
Record kernel_paged (s' : t A) (cb ke : Z) (pd : list Z) : Prop := {
  kp_inv : inv s' pd;
  kp_tables : kernel_tables pd;
  kp_space : kernel_space s' cb ke;
}.

(** Both frames that [paging_earlyinit] takes are new ones. *)
Lemma two_frames (a a1 a2 : A) c1 c2 d x :
  ps_inv a → ps_alloc a = Ok (c1, Some d, a1) → ps_alloc a1 = Ok (c2, Some x, a2) →
  ps_inv a2 ∧ d ≠ x ∧ ram d ∧ ram x ∧ (∀ p, ps_used a p → p ≠ d ∧ p ≠ x) ∧ ps_used a2 d ∧ ps_used a2 x.
Proof.
  intros Hi Hd Hx. destruct (ps_alloc_spec _ Hi) as (? & ? & ? & Ha & Hi1 & Hp). rewrite Hd in Ha. injection Ha as <- <- <-.
  destruct Hp as (_ & Hfd & Hu1). destruct (ps_alloc_spec _ Hi1) as (? & ? & ? & Ha & Hi2 & Hp).
  rewrite Hx in Ha. injection Ha as <- <- <-. destruct Hp as (_ & Hfx & Hu2).
  assert (Hdx : d ≠ x) by (intros ->; apply Hfx, Hu1; by right).
  split; [done|]. split; [done|]. split; [exact (Hram _ _ _ _ Hi Hd)|]. split; [exact (Hram _ _ _ _ Hi1 Hx)|]. split; [|split].
  - intros p Hp. split; intros ->; [done|]. apply Hfx, Hu1. by left.
  - apply Hu2. left. apply Hu1. by right.
  - apply Hu2. by right.
Qed.

(** Taking two frames keeps what the boot left. *)
Lemma boot_ok_taken s cb tb ks ke bd bt c1 c2 d x a1 a2 :
  boot_ok s cb tb ks ke bd bt → ps_alloc (frames s) = Ok (c1, Some d, a1) → ps_alloc a1 = Ok (c2, Some x, a2) →
  boot_ok (set_frames s a2) cb tb ks ke bd bt.
Proof.
  intros [Hc Hbd Hbt He Hr (Hsrc & Hucb & Hutb) Hmem] Ha1 Ha2.
  destruct (ps_alloc_spec _ Hsrc) as (? & ? & ? & Ha & Hj & Hp). rewrite Ha1 in Ha. injection Ha as <- <- <-.
  destruct Hp as (_ & _ & Hu1). destruct (ps_alloc_spec _ Hj) as (? & ? & ? & Ha & Hk & Hp). rewrite Ha2 in Ha.
  injection Ha as <- <- <-. destruct Hp as (_ & _ & Hu2). split; try done. cbn. split; [done|].
  split; apply Hu2; left; apply Hu1; by left.
Qed.

(** The new directory [d] with the kernel's table [x] is a well-formed space. *)
Lemma new_space_inv s ks ke cb d x :
  d ≠ x → 0 ≤ d < 1048576 → 0 ≤ x < 1048576 → pmem s !! d = Some (new_dir d x) → pmem s !! x = Some (new_table ks ke cb) →
  ps_inv (frames s) → ps_used (frames s) d → ps_used (frames s) x →
  (∀ p, ram p → p ≠ d → p ≠ x → 0 ≤ p < 1048576 ∧ ∃ l, pmem s !! p = Some l ∧ length l = 1024%nat) →
  inv (Paging (pmem s) d (frames s) (messages s)) (new_dir d x).
Proof.
  intros Hdx Hd Hx Hld Hlx Hs Hud Hux Hr. split; cbn [pmem cr3 frames]; try done.
  - eapply new_dir_rmap; [done|done|apply new_table_length|done].
  - intros i f Hi Hf. destruct (new_dir_lookup _ _ _ _ Hi Hf) as [[_ ?]|[_ ?]]; [|lia].
    by assert (f = x) as -> by lia.
  - intros p Hp.
    destruct (decide (p = d)) as [->|]; [split; [done|]; exists (new_dir d x); split; [done|apply new_dir_length]|].
    destruct (decide (p = x)) as [->|]; [split; [done|]; exists (new_table ks ke cb); split; [done|apply new_table_length]|].
    by apply Hr.
Qed.

Lemma earlyinit_ok s cb tb ks ke bd bt kstart kend :
  boot_ok s cb tb ks ke bd bt →
  Z.shiftr (u32 (kstart - 0xC0000000)) 12 = ks → Z.shiftr (u32 (kend - 0xC0000000)) 12 + 1 = ke →
  post (λ s', ∃ pd, kernel_paged s' cb ke pd) (λ f, f = Panicked ∧ ¬ supply 258 (frames s))
    (paging_earlyinit (0xC0000000 + cb * 4096) (0xC0000000 + tb * 4096) kstart kend s).
Proof.
  intros Hb Eks Eke. pose proof Hb as [Hc (Hbd & Lbd & Ebd) (Hbt & Lbt) (Ec & Et) Hr (Hsrc & Hucb & Hutb) Hmem].
  unfold paging_earlyinit. unfold PAGE_SHIFT. rewrite Eks, Eke. cbv zeta.
  destruct (ps_alloc_spec _ Hsrc) as (c1 & p1 & a1 & Ha1 & Hi1 & Hp1). rewrite Ha1. cbn [mbind res_bind].
  destruct p1 as [d|]; [destruct Hp1 as (-> & _)|].
  2:{ destruct Hp1 as [Hp1 _]. rewrite (proj2 (Z.eqb_neq c1 0)) by done. split; [done|].
      intros (p & a' & Ha' & _). rewrite Ha1 in Ha'. by injection Ha'. }
  cbn [Z.eqb negb default]. destruct (ps_alloc_spec _ Hi1) as (c2 & p2 & a2 & Ha2 & Hi2 & Hp2). rewrite Ha2. cbn [mbind res_bind].
  destruct p2 as [x|]; [destruct Hp2 as (-> & _)|].
  2:{ destruct Hp2 as [Hp2 _]. rewrite (proj2 (Z.eqb_neq c2 0)) by done. split; [done|].
      intros (p & a' & Ha' & Hs). rewrite Ha1 in Ha'. injection Ha' as _ <-.
      destruct Hs as (p' & a'' & Ha' & _). rewrite Ha2 in Ha'. by injection Ha'. }
  cbn [Z.eqb negb default]. clear Hi1 Hi2.
  destruct (two_frames _ _ _ _ _ _ _ Hsrc Ha1 Ha2) as (Hi2 & Hdx & Hrd & Hrx & Hne & Hud & Hux).
  destruct (Hne cb Hucb), (Hne tb Hutb). destruct (Hmem d Hrd) as (Hdr & ld & Hld & Lld). destruct (Hmem x Hrx) as (Hxr & lx & Hlx & Llx).
  pose proof (boot_ok_taken _ _ _ _ _ _ _ _ _ _ _ _ _ Hb Ha1 Ha2) as Hb'.
  destruct (open_window (set_frames s a2) cb tb ks ke bd bt d x Hb')
    as (s3 & Hs3 & Hw & Hc3 & Hf3 & Ho3 & (l1 & Hl1 & Ll1) & (l2 & Hl2 & Ll2)); [lia|lia|lia|lia|done|lia|lia|by exists ld|by exists lx|].
  change (id d) with d. change (id x) with x. do 2 bind_along Hs3. rewrite Hs3. cbn [mbind res_bind].
  assert (Ecb : Z.shiftr (u32 (0xC0000000 + cb * 4096 - 0xC0000000)) 12 = cb).
  { rewrite u32_small by lia. rewrite Z.shiftr_div_pow2 by lia. change (2 ^ 12) with 4096. mlia. }
  rewrite Ecb. clear Hs3.
  destruct (fill_window s3 cb tb ks ke d x Hw Hc3) as (s9 & Hs9 & Hd9 & Hx9 & Ho9 & Hf9); [lia..|].
  do 5 bind_along Hs9.
  rewrite Hs9. cbn [mbind res_bind]. clear Hs9.
  unfold mm_load_cr3. assert (u32 (Z.shiftl d 12) / 4096 = d) as ->.
  { rewrite Z.shiftl_mul_pow2, u32_small by lia. change (2 ^ 12) with 4096. mlia. }
  set (sd := Paging (pmem s9) d (frames s9) (messages s9)).
  assert (Hisd : inv sd (new_dir d x)).
  { apply (new_space_inv s9 ks ke cb d x); try done; try (by rewrite Hf9, Hf3).
    intros p Hp Hpd Hpx. split; [by apply Hmem|]. rewrite Ho9 by done.
    destruct (decide (p = cb)) as [->|]; [by exists l1|]. destruct (decide (p = tb)) as [->|]; [by exists l2|].
    rewrite Ho3 by done. by apply Hmem. }
  eapply post_mono; [apply (kernel_space_ok sd _ Hisd)| |].
  2:{ intros f [-> Hf]. split; [done|]. intros (p & a' & Ha' & Hs). rewrite Ha1 in Ha'. injection Ha' as _ <-.
      destruct Hs as (p' & a'' & Ha' & Hs). rewrite Ha2 in Ha'. injection Ha' as _ <-. apply Hf. cbn [sd frames].
      by rewrite Hf9, Hf3. }
  intros s' (pd & [T1 T2 T3 T4 T5] & Hkt). exists pd. split; [done|done|].
  intros v w Hv. pose proof (new_dir_space sd ks ke cb d x eq_refl Hd9 Hx9 Hdx) as Hsp.
  rewrite <- Hsp by lia. destruct (T4 v Hv). by destruct w.
Qed.

End operations.

(** ** Properties *)

(** C5: [mm_map_page] on well-formed page tables, for a page below the recursive
    window whose table exists or can be allocated, ends: the page translates to
    the given frame and [mm_get_physaddr] reads it back, every other page
    translates as before, the frames that are no page table keep their contents,
    and the tables stay well formed. *)
Theorem mm_map_page_maps {A} `{PageSource A} (ram : Z → Prop)
    (Hram : ∀ (a : A) code p a', ps_inv a → ps_alloc a = Ok (code, Some p, a') → ram p)
    junk (s : t A) pd paddr vaddr flags :
  inv ram s pd → 0 ≤ vaddr < 0xFFC00000 → 0 ≤ paddr < 4294967296 → paddr mod 4096 = 0 → 0 ≤ flags →
  pd !! Z.to_nat (vaddr / 4194304) ≠ Some 0 ∨ (∃ f fr, ps_alloc (frames s) = Ok (0, Some f, fr)) →
  ∃ s' pd', mm_map_page junk s paddr vaddr flags = Ok s' ∧ inv ram s' pd' ∧
    translate (pmem s') (cr3 s') vaddr = Some (paddr + vaddr mod 4096) ∧
    mm_get_physaddr s' vaddr = Ok (paddr + vaddr mod 4096) ∧
    (∀ v, 0 ≤ v < 0xFFC00000 → v / 4096 ≠ vaddr / 4096 →
       translate (pmem s') (cr3 s') v = translate (pmem s) (cr3 s) v) ∧
    (∀ g, data_frame (cr3 s) pd' g → pmem s' !! g = pmem s !! g).
Proof.
  intros Hi Hv Hp Hpm Hfl Hroom.
  destruct (map_page_ok ram Hram junk s pd paddr vaddr flags) as (s' & pd' & Hs' & [M1 M2 M3 M4 M5] & _); try done; [lia|].
  exists s', pd'. split_and!; try done. eapply get_physaddr_ok; [done|done|done|mlia].
Qed.

(** The memory of the examples: the directory in frame 1, its kernel table in
    frame 2, and the frames of the pool. *)
Definition ex_pool : phys := list_to_map (map (λ p, (p, replicate 1024 0)) (seqZ 4 300)).
Definition ex_mem : phys := <[1 := new_dir 1 2]> (<[2 := replicate 1024 0]> ex_pool).
Definition ex_state : t nat := Paging ex_mem 1 300%nat [].

Lemma ex_pool_frame p : pool_ram p → ex_pool !! p = Some (replicate 1024 0).
Proof.
  unfold pool_ram. intros Hp. apply elem_of_list_to_map_1.
  - rewrite map_map. cbn. rewrite map_id. apply NoDup_seqZ.
  - apply list_elem_of_fmap. exists p. split; [done|]. apply elem_of_seqZ. lia.
Qed.

Lemma ex_inv : inv pool_ram ex_state (new_dir 1 2).
Proof.
  split; cbn [ex_state pmem cr3 frames].
  - eapply (new_dir_rmap _ 1 2 (replicate 1024 0)); [reflexivity|reflexivity|apply length_replicate|lia].
  - cbn. lia.
  - cbn. lia.
  - intros i f Hi Hf. destruct (new_dir_lookup _ _ _ _ Hi Hf) as [[_ ?]|[_ ?]]; cbn; lia.
  - intros p Hp. pose proof (ex_pool_frame p Hp) as Hl. unfold pool_ram in Hp. split; [lia|].
    exists (replicate 1024 0). split; [|apply length_replicate]. unfold ex_mem. by rewrite !lookup_insert_ne by lia.
Qed.

Lemma ex_no_table i : (i < 1023)%nat → i ≠ 768%nat → new_dir 1 2 !! i = Some 0.
Proof.
  intros Hi Hn. destruct (lookup_lt_is_Some_2 (new_dir 1 2) i) as [e He]; [rewrite new_dir_length; lia|].
  destruct (new_dir_lookup _ _ _ _ Hi He) as [[? _]|[_ ->]]; done.
Qed.

Lemma mm_map_page_maps_witness :
  ∃ s' pd', mm_map_page 0 ex_state 0xB8000 0x00401000 3 = Ok s' ∧ inv pool_ram s' pd' ∧
    translate (pmem s') (cr3 s') 0x00401000 = Some 0xB8000 ∧ mm_get_physaddr s' 0x00401000 = Ok 0xB8000 ∧
    (∀ v, 0 ≤ v < 0xFFC00000 → v / 4096 ≠ 0x00401000 / 4096 →
       translate (pmem s') (cr3 s') v = translate ex_mem 1 v) ∧
    (∀ g, data_frame 1 pd' g → pmem s' !! g = ex_mem !! g).
Proof.
  apply (mm_map_page_maps pool_ram pool_ram_ok 0 ex_state (new_dir 1 2) 0xB8000 0x00401000 3 ex_inv); try lia; try done.
  right. exists 303, 299%nat. reflexivity.
Defined.

(** C17: [mm_get_physaddr] computes the translation of the i386 page walk: the
    physical address of every mapped page; a page fault where the table is
    missing; and, since presence is not tested, the offset in the page for an
    empty entry of a table. *)
Theorem mm_get_physaddr_translates {A} `{PageSource A} (ram : Z → Prop) (s : t A) pd v :
  inv ram s pd → 0 ≤ v < 0xFFC00000 →
  (∀ p, translate (pmem s) (cr3 s) v = Some p → 0 ≤ p < 4294967296 → mm_get_physaddr s v = Ok p) ∧
  (pd !! Z.to_nat (v / 4194304) = Some 0 → mm_get_physaddr s v = Fault Unmapped) ∧
  (∀ f pt, pd !! Z.to_nat (v / 4194304) = Some (f * 4096 + 3) → pmem s !! f = Some pt →
     pt !! Z.to_nat (v / 4096 mod 1024) = Some 0 → mm_get_physaddr s v = Ok (v mod 4096)).
Proof.
  intros Hi Hv. split; [|split].
  - intros p Ht Hp. by eapply get_physaddr_ok.
  - by eapply get_physaddr_missing.
  - intros f pt Hf Hpt H0. by eapply get_physaddr_empty.
Qed.

Lemma mm_get_physaddr_translates_witness :
  (∀ p, translate ex_mem 1 0xC0000123 = Some p → 0 ≤ p < 4294967296 → mm_get_physaddr ex_state 0xC0000123 = Ok p) ∧
  (new_dir 1 2 !! 768%nat = Some 0 → mm_get_physaddr ex_state 0xC0000123 = Fault Unmapped) ∧
  (∀ f pt, new_dir 1 2 !! 768%nat = Some (f * 4096 + 3) → ex_mem !! f = Some pt →
     pt !! 0%nat = Some 0 → mm_get_physaddr ex_state 0xC0000123 = Ok 0x123).
Proof. apply (mm_get_physaddr_translates pool_ram ex_state (new_dir 1 2) 0xC0000123 ex_inv). lia. Defined.

(** C24: [mmio_map] ends for every device range of the 32-bit address space
    that does not overflow: it returns 0 and changes nothing when the window is
    full; otherwise the range is mapped byte for byte at fresh addresses with the
    same page offset, and no other translation and no data frame changes. *)
Theorem mmio_map_maps {A} `{PageSource A} (ram : Z → Prop)
    (Hram : ∀ (a : A) code p a', ps_inv a → ps_alloc a = Ok (code, Some p, a') → ram p)
    junk (s : mmio_t) pd phys_addr size :
  mmio_inv ram s pd → 0 ≤ phys_addr → 0 ≤ size → phys_addr + size + 4096 ≤ 4294967296 →
  kernel_mmio_ptr s + size + 8192 ≤ 4294967296 →
  ∃ v s', mmio_map junk s phys_addr size = Ok (v, s') ∧ mmio_inv ram s' pd ∧
    ((v = 0 ∧ s' = s ∧ kernel_mmio_limit s < kernel_mmio_ptr s + mmio_size phys_addr size) ∨
     (kernel_mmio_ptr s ≤ v ∧ v + size ≤ kernel_mmio_ptr s' ∧ v mod 4096 = phys_addr mod 4096 ∧
      (∀ i, 0 ≤ i < size → translate (pmem (space s')) (cr3 (space s')) (v + i) = Some (phys_addr + i)) ∧
      (∀ w, 0 ≤ w < 0xFFC00000 → ¬ kernel_mmio_ptr s ≤ w < kernel_mmio_ptr s' →
         translate (pmem (space s')) (cr3 (space s')) w = translate (pmem (space s)) (cr3 (space s)) w) ∧
      (∀ g, data_frame (cr3 (space s)) pd g → pmem (space s') !! g = pmem (space s) !! g))).
Proof. intros. by apply mmio_map_ok. Qed.

(** The boot state of the examples: the directory of boot.S in frame 1, its table
    in frame 2. *)
Definition ex_boot_dir : list Z := <[768%nat := 2 * 4096 + 3]> (replicate 1024 0).
Definition ex_boot_table : list Z := map (λ i, i * 4096 + 3) (seqZ 0 1024).
Definition ex_boot : t nat := Paging (<[1 := ex_boot_dir]> (<[2 := ex_boot_table]> ex_mem)) 1 300%nat [].

Lemma ex_boot_ok : boot_ok pool_ram ex_boot 1 2 1 4 ex_boot_dir ex_boot_table.
Proof.
  assert (Ld : length ex_boot_dir = 1024%nat) by (unfold ex_boot_dir; by rewrite length_insert, length_replicate).
  split; cbn [ex_boot pmem cr3 frames]; [done| | |done| | |].
  - split; [apply lookup_insert_eq|]. split; [done|]. unfold ex_boot_dir. apply list_lookup_insert_eq. rewrite length_replicate. lia.
  - split; [by rewrite lookup_insert_ne, lookup_insert_eq by lia|done].
  - lia.
  - split; [cbn; lia|]. split; cbn; lia.
  - intros p Hp. destruct (in_ram _ _ _ ex_inv p Hp) as [Hr Hl]. split; [done|]. unfold pool_ram in Hp.
    by rewrite !lookup_insert_ne by lia.
Qed.

(** From the page tables of boot.S, [paging_earlyinit] switches to a new
    directory that maps itself, holds every page table of the kernel's quarter,
    maps exactly the pages below the end of the kernel image, physical page to
    virtual page, and leaves the old directory read-only; the MMIO window is then
    ready.  It panics only when fewer than 258 page frames are left. *)
Theorem paging_earlyinit_switches {A} `{PageSource A} (ram : Z → Prop)
    (Hram : ∀ (a : A) code p a', ps_inv a → ps_alloc a = Ok (code, Some p, a') → ram p)
    (s : t A) cb tb ks ke bd bt kernel_start kernel_end :
  boot_ok ram s cb tb ks ke bd bt →
  Z.shiftr (u32 (kernel_start - 0xC0000000)) 12 = ks → Z.shiftr (u32 (kernel_end - 0xC0000000)) 12 + 1 = ke →
  (∃ s' pd,
    paging_earlyinit (0xC0000000 + cb * 4096) (0xC0000000 + tb * 4096) kernel_start kernel_end s = Ok s' ∧
    inv ram s' pd ∧ kernel_tables pd ∧ kernel_space s' cb ke ∧ mmio_inv ram (mmio_init s') pd) ∨
  (paging_earlyinit (0xC0000000 + cb * 4096) (0xC0000000 + tb * 4096) kernel_start kernel_end s = Fault Panicked ∧
   ¬ supply 258 (frames s)).
Proof.
  intros Hb Eks Eke. pose proof (earlyinit_ok ram Hram s cb tb ks ke bd bt _ _ Hb Eks Eke) as Hpost.
  destruct (paging_earlyinit _ _ _ _ _) as [s'|f]; cbn in Hpost; [left|right; destruct Hpost as [-> Hs]; done].
  destruct Hpost as (pd & [H1 H2 H3]). exists s', pd. split_and!; try done.
Qed.

Lemma paging_earlyinit_switches_witness :
  ∃ s' pd, paging_earlyinit 0xC0001000 0xC0002000 0xC0001000 0xC0003F00 ex_boot = Ok s' ∧
    inv pool_ram s' pd ∧ kernel_tables pd ∧ kernel_space s' 1 4 ∧ mmio_inv pool_ram (mmio_init s') pd.
Proof.
  destruct (paging_earlyinit_switches pool_ram pool_ram_ok ex_boot 1 2 1 4 ex_boot_dir ex_boot_table 0xC0001000 0xC0003F00 ex_boot_ok
    eq_refl eq_refl) as [Hok|[_ Hs]]; [exact Hok|]. destruct Hs. apply (pool_supply 258 300). lia.
Defined.

(** The first device mapped after boot. *)
Lemma mmio_map_maps_witness :
  ∃ s v s', paging_earlyinit 0xC0001000 0xC0002000 0xC0001000 0xC0003F00 ex_boot = Ok s ∧
    mmio_map 0 (mmio_init s) 0xFEC00123 16 = Ok (v, s') ∧ 0xE0000000 ≤ v ∧
    ∀ i, 0 ≤ i < 16 → translate (pmem (space s')) (cr3 (space s')) (v + i) = Some (0xFEC00123 + i).
Proof.
  pose proof (earlyinit_ok pool_ram pool_ram_ok ex_boot 1 2 1 4 ex_boot_dir ex_boot_table 0xC0001000 0xC0003F00 ex_boot_ok
    eq_refl eq_refl) as Hpost.
  change (0xC0000000 + 1 * 4096) with 0xC0001000 in Hpost. change (0xC0000000 + 2 * 4096) with 0xC0002000 in Hpost.
  destruct (paging_earlyinit _ _ _ _ _) as [s|f]; [|destruct Hpost as [_ Hs]; destruct Hs; apply (pool_supply 258 300); lia].
  destruct Hpost as (pd & [H1 H2 _]).
  destruct (mmio_map_maps pool_ram pool_ram_ok 0 (mmio_init s) pd 0xFEC00123 16)
    as (v & s' & Hm & _ & [(_ & _ & Hfull)|(Hv & _ & _ & Ht & _)]); [by split|lia|lia|done|done| |].
  - exfalso. revert Hfull. change (mmio_size 0xFEC00123 16) with 4096. cbn. lia.
  - exists s, v, s'. done.
Defined.
