(* ===== verification/Bootstrap.v ===== *)
(** From the bootloader to _init.

    Source: kernel/arch/i386/kernel/boot/boot.S.  The code checks the size of the
    Multiboot information, copies it into the kernel, builds the first page tables,
    switches paging on and takes the kernel's stack.  Up to there memory is
    physical; behind the switch an access goes through the tables ([mmu]).  The
    jumps are the tests of the definitions; the symbols of the linker are
    variables. *)
From S2P Require Import Prelude PageSource Paging I386.

Definition low (v : Z) : Z := v - 0xC0000000.

(** None of the lists below calls. *)
Definition steps : list instr → cpu → res cpu := run (λ _ c, Ok c) 0.

(** [hlt]: interrupts are off, and nothing has been set up that would wake it. *)
Inductive outcome : Type := Runs (c : cpu) | Halts (c : cpu).

(** ** Accesses with paging *)

Definition mmu (write : bool) (c : cpu) (v : Z) : res Z :=
  pde ← load32 (memory c) (cr3 c / 4096 * 4096 + 4 * (v / 4194304));
  if allows write pde then
    pte ← load32 (memory c) (pde / 4096 * 4096 + 4 * (v / 4096 mod 1024));
    if allows write pte then Ok (pte / 4096 * 4096 + v mod 4096) else Fault Unmapped
  else Fault Unmapped.

Definition vread (v : Z) (c : cpu) : res Z := a ← mmu false c v; load32 (memory c) a.
Definition vwrite (v w : Z) (c : cpu) : res cpu := a ← mmu true c v; m ← store32 (memory c) a w; Ok (set_memory c m).
Definition vpush (w : Z) (c : cpu) : res cpu :=
  let sp := u32 (esp (regs c) - 4) in
  c ← vwrite sp w c; Ok (set_reg ESP sp c).

Section boot.
Variables boot_pagedir boot_pagetab1 stack_top multiboot_info kernel_start kernel_end label_4 : Z.

(** The operand without $ is an address: the size is compared with what memory
    holds at 32768. *)
Definition check_size : list instr :=
  [Mov (Reg EAX) (Abs (low multiboot_info)); Mov (At 0 EBX) (Reg ECX); Cmp (Reg ECX) (Abs 32768)].

(** [jg . + 1] goes to its own second byte: 0xFF, the displacement, and 0xF4, the
    [hlt] behind it, are push %esp. *)
Definition skip_hlt : list instr := [Push (Reg ESP)].

Definition copy_info : list instr := [Mov (Imm (low multiboot_info + 8)) (Reg EDI); Mov (Reg EBX) (Reg ESI); Cld; RepMovsb].

Definition start_map : list instr := [Mov (Imm (low boot_pagetab1)) (Reg EDI); Mov (Imm 0) (Reg ESI); Mov (Imm 1023) (Reg ECX)].

(** From the label 2 to [loop 1b]. *)
Definition next_page (c : cpu) : res (ctl cpu cpu) :=
  c ← steps [Add (Imm 4096) (Reg ESI); Add (Imm 4) (Reg EDI)] c;
  let n := u32 (ecx (regs c) - 1) in
  let c := set_reg ECX n c in
  Ok (if n =? 0 then Break c else Continue c).

(** From the label 1, or out to the label 3. *)
Definition map_body (c : cpu) : res (ctl cpu cpu) :=
  c ← steps [Cmp (Imm (low kernel_start)) (Reg ESI)] c;
  if cond_l (eflags c) then next_page c
  else
    c ← steps [Cmp (Imm (low kernel_end)) (Reg ESI)] c;
    if cond_ge (eflags c) then Ok (Break c)
    else
      c ← steps [Mov (Reg ESI) (Reg EDX); Or (Imm 0x003) (Reg EDX); Mov (Reg EDX) (At 0 EDI)] c;
      next_page c.

Definition map_kernel (c : cpu) : res cpu := while 1024 map_body c.

Definition enable_paging : list instr :=
  [Mov (Imm (Z.lor 0x000B8000 0x003)) (Abs (low boot_pagetab1 + 184 * 4));
   Mov (Imm (low boot_pagetab1 + 0x003)) (Abs (low boot_pagedir + 0));
   Mov (Imm (low boot_pagetab1 + 0x003)) (Abs (low boot_pagedir + 768 * 4));
   Mov (Imm (low boot_pagedir)) (Reg ECX); SetCr3 ECX;
   MovCr0 ECX; Or (Imm 0x80010000) (Reg ECX); SetCr0 ECX].

(** From the jump to the label 4 up to the call of _init. *)
Definition higher_half (c : cpu) : res cpu :=
  let c := set_eip (set_reg ECX label_4 c) label_4 in
  c ← vwrite (boot_pagedir + 0) 0 c;
  c ← steps [MovCr3 ECX; SetCr3 ECX; Mov (Imm stack_top) (Reg ESP)] c;
  magic ← vread multiboot_info c;
  c ← vpush magic c;
  vpush (multiboot_info + 8) c.

Definition _start (c : cpu) : res outcome :=
  c ← steps check_size c;
  if cond_g (eflags c) then
    c ← steps (skip_hlt ++ copy_info ++ start_map) c;
    c ← map_kernel c;
    c ← steps enable_paging c;
    c ← higher_half c;
    Ok (Runs c)
  else Ok (Halts c).

End boot.

(** ** Lemmas: comparison *)

Lemma sub_flags_spec a b fl :
  Z.testbit (sub_flags a b fl) ZF = (u32 (a - b) =? 0) ∧ Z.testbit (sub_flags a b fl) SF = Z.testbit (u32 (a - b)) 31 ∧
  Z.testbit (sub_flags a b fl) OF = negb (s32 a - s32 b =? s32 (u32 (a - b))).
Proof.
  assert (E : ∀ k b fl, 0 ≤ k → Z.testbit (put_bit k b fl) k = b).
  { intros k [] f Hk; cbn; [by apply Z.setbit_eq|apply Z.clearbit_eq]. }
  unfold sub_flags, status, CF, ZF, SF, OF. split_and!; rewrite !put_bit_other, ?E by lia; rewrite ?E by lia; done.
Qed.

Lemma sign_bit r : 0 ≤ r < 4294967296 → Z.testbit r 31 = (s32 r <? 0).
Proof.
  intros Hr. unfold s32. rewrite Z.mod_small by lia.
  destruct (Z.testbit r 31) eqn:E; [apply Z.testbit_true in E|apply Z.testbit_false in E]; try lia; change (2 ^ 31) with 2147483648 in E;
    symmetry; [apply Z.ltb_lt|apply Z.ltb_ge]; case_tests; mlia.
Qed.

Lemma cmp_less a b :
  xorb (Z.testbit (u32 (a - b)) 31) (negb (s32 a - s32 b =? s32 (u32 (a - b)))) = (s32 a <? s32 b).
Proof.
  rewrite sign_bit by apply u32_range. pose proof (s32_range a). pose proof (s32_range b).
  assert (Hd : s32 (u32 (a - b)) = s32 a - s32 b ∨ s32 (u32 (a - b)) = s32 a - s32 b - 4294967296 ∧ 2147483648 ≤ s32 a - s32 b
    ∨ s32 (u32 (a - b)) = s32 a - s32 b + 4294967296 ∧ s32 a - s32 b < -2147483648).
  { unfold s32, u32. rewrite Z.mod_mod by lia. case_tests; mlia. }
  pose proof (s32_range (u32 (a - b))).
  destruct Hd as [->|[[-> ?]|[-> ?]]]; [rewrite Z.eqb_refl|rewrite (proj2 (Z.eqb_neq _ _)) by lia..]; cbn [negb];
    repeat match goal with |- context [?x <? ?y] => destruct (Z.ltb_spec x y) end; done || lia.
Qed.

Lemma cond_l_spec a b fl : cond_l (sub_flags a b fl) = (s32 a <? s32 b).
Proof. unfold cond_l. destruct (sub_flags_spec a b fl) as (_ & -> & ->). apply cmp_less. Qed.

Lemma cond_ge_spec a b fl : cond_ge (sub_flags a b fl) = (s32 b <=? s32 a).
Proof.
  unfold cond_ge. destruct (sub_flags_spec a b fl) as (_ & -> & ->). rewrite Z.leb_antisym, <- cmp_less.
  by destruct (Z.testbit _ 31), (negb _).
Qed.

Lemma cond_g_spec a b fl : word a → word b → cond_g (sub_flags a b fl) = (s32 b <? s32 a).
Proof.
  intros Ha Hb. unfold cond_g. destruct (sub_flags_spec a b fl) as (-> & -> & ->).
  transitivity (negb (a =? b) && negb (s32 a <? s32 b)).
  - rewrite <- cmp_less. replace (u32 (a - b) =? 0) with (a =? b); [by destruct (a =? b), (Z.testbit _ 31), (negb (_ =? s32 _))|].
    unfold u32, word in *. destruct (Z.eqb_spec a b); symmetry; [apply Z.eqb_eq|apply Z.eqb_neq]; mlia.
  - unfold s32, word in *. rewrite !Z.mod_small by lia.
    repeat case_test; destruct (Z.eqb_spec a b); repeat match goal with |- context [?x <? ?y] => destruct (Z.ltb_spec x y) end; done || lia.
Qed.

(** ** Lemmas: the copy *)

Lemma rep_movsb_copy n a d b sp bp si di ip s fl dsg esg c0 c3 m :
  Z.testbit fl DF = false → mapped m si (Z.of_nat n) → mapped m di (Z.of_nat n) →
  si + Z.of_nat n ≤ di ∨ di + Z.of_nat n ≤ si → 0 ≤ si → 0 ≤ di → si + Z.of_nat n < 4294967296 → di + Z.of_nat n < 4294967296 →
  ∃ m', rep_movs 1 n (Cpu (Gpr a (Z.of_nat n) d b sp bp si di) ip s fl dsg esg c0 c3 m)
      = Ok (Cpu (Gpr a 0 d b sp bp (si + Z.of_nat n) (di + Z.of_nat n)) ip s fl dsg esg c0 c3 m') ∧
    (∀ i, 0 ≤ i < Z.of_nat n → m' !! (di + i) = m !! (si + i)) ∧
    (∀ x, x < di ∨ di + Z.of_nat n ≤ x → m' !! x = m !! x) ∧ ∀ x, is_Some (m !! x) → is_Some (m' !! x).
Proof.
  intros Hdf. revert si di m. induction n as [|n IH]; intros si di m Hs Hd Hap H1 H2 H3 H4.
  { exists m. cbn. rewrite !Z.add_0_r. split; [done|]. split; [lia|]. by split. }
  destruct (Hs 0) as [v Hv]; [lia|]. destruct (Hd 0) as [w Hw]; [lia|]. rewrite Z.add_0_r in Hv, Hw.
  cbn [rep_movs]. cbn [memory regs esi edi eflags ecx Z.eqb Pos.eqb]. unfold load8 at 1. rewrite Hv. cbn [mbind res_bind].
  rewrite store8_Ok by (by rewrite Hw). cbn [mbind res_bind]. rewrite Hdf.
  unfold set_reg, set_regs, set_memory. cbn [set regs eip cs eflags ds es cr0 cr3 memory].
  rewrite !u32_small by lia. replace (Z.of_nat (S n) - 1) with (Z.of_nat n) by lia.
  assert (Hmono : ∀ x, is_Some (m !! x) → is_Some (<[di := v]> m !! x)).
  { intros x Hx. destruct (decide (x = di)) as [->|]; [rewrite lookup_insert_eq; eauto|by rewrite lookup_insert_ne]. }
  destruct (IH (si + 1) (di + 1) (<[di := v]> m)) as (m' & -> & Hc & Hf & Hm'); try lia.
  - intros i Hi. apply Hmono. rewrite <- Z.add_assoc. apply Hs. lia.
  - intros i Hi. apply Hmono. rewrite <- Z.add_assoc. apply Hd. lia.
  - exists m'. replace (si + Z.of_nat (S n)) with (si + 1 + Z.of_nat n) by lia.
    replace (di + Z.of_nat (S n)) with (di + 1 + Z.of_nat n) by lia. split; [done|]. split_and!.
    + intros i Hi. destruct (decide (i = 0)) as [->|].
      * rewrite !Z.add_0_r, Hv, Hf by lia. apply lookup_insert_eq.
      * replace (di + i) with (di + 1 + (i - 1)) by lia. rewrite Hc by lia.
        rewrite lookup_insert_ne by lia. f_equal. lia.
    + intros x Hx. rewrite Hf by lia. by rewrite lookup_insert_ne by lia.
    + intros x Hx. apply Hm', Hmono, Hx.
Qed.

(** ** Lemmas: the loop over the pages *)

(** The table after [k] pages. *)
Definition kernel_table (lo hi k : Z) (t : list Z) : list Z :=
  imap (λ i w, if (lo <=? 4096 * Z.of_nat i) && (4096 * Z.of_nat i <? hi) && (Z.of_nat i <? k) then 4096 * Z.of_nat i + 3 else w) t.

Lemma kernel_table_lookup lo hi k t i w :
  t !! i = Some w →
  kernel_table lo hi k t !! i
  = Some (if (lo <=? 4096 * Z.of_nat i) && (4096 * Z.of_nat i <? hi) && (Z.of_nat i <? k) then 4096 * Z.of_nat i + 3 else w).
Proof. intros Hi. unfold kernel_table. by rewrite list_lookup_imap, Hi. Qed.

Lemma kernel_table_eq lo hi k k' t :
  (∀ i : nat, lo ≤ 4096 * Z.of_nat i < hi → (Z.of_nat i < k ↔ Z.of_nat i < k')) →
  kernel_table lo hi k t = kernel_table lo hi k' t.
Proof.
  intros H. apply imap_ext. intros i w _. specialize (H i).
  destruct (Z.leb_spec lo (4096 * Z.of_nat i)), (Z.ltb_spec (4096 * Z.of_nat i) hi); cbn; [|done..].
  destruct (Z.ltb_spec (Z.of_nat i) k), (Z.ltb_spec (Z.of_nat i) k'); done || lia.
Qed.

Lemma kernel_table_start lo hi t : kernel_table lo hi 0 t = t.
Proof.
  apply list_eq. intros i. unfold kernel_table. rewrite list_lookup_imap. destruct (t !! i); [|done]. cbn.
  replace (Z.of_nat i <? 0) with false by (symmetry; apply Z.ltb_ge; lia). by rewrite andb_false_r.
Qed.

Lemma kernel_table_step lo hi k t :
  lo ≤ 4096 * Z.of_nat k < hi → (k < length t)%nat →
  <[k := 4096 * Z.of_nat k + 3]> (kernel_table lo hi (Z.of_nat k) t) = kernel_table lo hi (Z.of_nat k + 1) t.
Proof.
  intros Hk Hl. apply list_eq. intros i. unfold kernel_table. destruct (decide (i = k)) as [->|Hne].
  - rewrite list_lookup_insert_eq by (by rewrite length_imap). destruct (lookup_lt_is_Some_2 t k Hl) as [w Hw].
    rewrite list_lookup_imap, Hw. cbn.
    by rewrite (proj2 (Z.leb_le _ _)), (proj2 (Z.ltb_lt (4096 * Z.of_nat k) hi)), (proj2 (Z.ltb_lt (Z.of_nat k) _)) by lia.
  - rewrite list_lookup_insert_ne by done. rewrite !list_lookup_imap. destruct (t !! i); [|done]. cbn.
    replace (Z.of_nat i <? Z.of_nat k + 1) with (Z.of_nat i <? Z.of_nat k); [done|].
    destruct (Z.ltb_spec (Z.of_nat i) (Z.of_nat k)); symmetry; [apply Z.ltb_lt|apply Z.ltb_ge]; lia.
Qed.

Lemma page_lor p : Z.lor (4096 * p) 3 = 4096 * p + 3.
Proof.
  rewrite Z.add_nocarry_lor; [done|]. change 3 with (Z.ones 2). rewrite Z.land_ones by lia. change (2 ^ 2) with 4. mlia.
Qed.

Section loop.
Variables kernel_start kernel_end : Z.
Context (Hlo : 0 ≤ low kernel_start) (Hhi : low kernel_start ≤ low kernel_end) (Hmax : low kernel_end < 2147483648).

(** At the label 1 with page [k]. *)
Definition at_page (tab a d b sp bp ip s fl dsg esg c0 c3 : Z) (m : mem) (k : nat) : cpu :=
  Cpu (Gpr a (1023 - Z.of_nat k) d b sp bp (4096 * Z.of_nat k) (tab + 4 * Z.of_nat k)) ip s fl dsg esg c0 c3 m.

Lemma next_page_ok tab a d b sp bp ip s fl dsg esg c0 c3 m k :
  (k < 1023)%nat → 0 ≤ tab → tab + 4096 < 4294967296 →
  ∃ fl', next_page (at_page tab a d b sp bp ip s fl dsg esg c0 c3 m k)
    = Ok ((if (k =? 1022)%nat then Break else Continue) (at_page tab a d b sp bp ip s fl' dsg esg c0 c3 m (S k))).
Proof.
  intros Hk H1 H2. unfold next_page, at_page, steps. do 2 reg_step. rewrite run_nil. cbn [mbind res_bind].
  change (u32 4096) with 4096. change (u32 4) with 4. flatten. reduce.
  replace (1023 - Z.of_nat k - 1) with (1023 - Z.of_nat (S k)) by lia.
  replace (4096 * Z.of_nat k + 4096) with (4096 * Z.of_nat (S k)) by lia.
  replace (tab + 4 * Z.of_nat k + 4) with (tab + 4 * Z.of_nat (S k)) by lia.
  eexists. destruct (Nat.eqb_spec k 1022); [rewrite (proj2 (Z.eqb_eq _ _)) by lia|rewrite (proj2 (Z.eqb_neq _ _)) by lia]; reflexivity.
Qed.

Lemma map_kernel_ok m0 m bs K tab t a d b sp bp ip s fl dsg esg c0 c3 :
  blocks m0 m bs → bs !! K = Some (tab, t) → length t = 1024%nat → 0 ≤ tab → tab + 4096 < 4294967296 →
  ∃ cx d' si di fl' m', map_kernel kernel_start kernel_end (at_page tab a d b sp bp ip s fl dsg esg c0 c3 m 0)
      = Ok (Cpu (Gpr a cx d' b sp bp si di) ip s fl' dsg esg c0 c3 m') ∧
    blocks m0 m' (<[K := (tab, kernel_table (low kernel_start) (low kernel_end) 1023 t)]> bs).
Proof.
  intros Hb HK Ht Htab Htab2. set (lo := low kernel_start) in *. set (hi := low kernel_end) in *.
  pose proof (lookup_lt_Some _ _ _ HK) as HKl.
  set (I := λ c, ∃ k d' fl' m', (k < 1023)%nat ∧ c = at_page tab a d' b sp bp ip s fl' dsg esg c0 c3 m' k ∧
    blocks m0 m' (<[K := (tab, kernel_table lo hi (Z.of_nat k) t)]> bs)).
  set (Q := λ c, ∃ cx d' si di fl' m', c = Cpu (Gpr a cx d' b sp bp si di) ip s fl' dsg esg c0 c3 m' ∧
    blocks m0 m' (<[K := (tab, kernel_table lo hi 1023 t)]> bs)).
  enough (∃ c, map_kernel kernel_start kernel_end (at_page tab a d b sp bp ip s fl dsg esg c0 c3 m 0) = Ok c ∧ Q c)
    as (c & Hc & cx & d' & si & di & fl' & m' & -> & Hb') by (by exists cx, d', si, di, fl', m').
  apply (while_total I Q (λ c, Z.to_nat (ecx (regs c)))).
  2:{ exists 0%nat, d, fl, m. split; [lia|]. split; [done|]. rewrite kernel_table_start, list_insert_id; done. }
  2:{ cbn. lia. }
  clear Hb. intros c (k & d' & fl' & m' & Hk & -> & Hb). unfold map_body, at_page, steps. fold lo hi.
  assert (Hnext : ∀ d' fl' m'', blocks m0 m'' (<[K := (tab, kernel_table lo hi (Z.of_nat k + 1) t)]> bs) → ∀ r,
    r = next_page (at_page tab a d' b sp bp ip s fl' dsg esg c0 c3 m'' k) →
    (∃ c', r = Ok (Continue c') ∧ I c' ∧ (Z.to_nat (ecx (regs c')) < Z.to_nat (1023 - Z.of_nat k))%nat) ∨ (∃ c', r = Ok (Break c') ∧ Q c')).
  { intros d1 fl1 m1 Hb1 r ->. destruct (next_page_ok tab a d1 b sp bp ip s fl1 dsg esg c0 c3 m1 k) as (fl2 & ->); [done..|].
    destruct (Nat.eqb_spec k 1022) as [->|Hne]; [right|left]; eexists; (split; [done|]).
    - by eexists _, _, _, _, _, _.
    - split; [|cbn; lia]. exists (S k), d1, fl2, m1. split; [lia|]. split; [done|].
      by replace (Z.of_nat (S k)) with (Z.of_nat k + 1) by lia. }
  reg_step. rewrite (u32_small lo) by lia. rewrite run_nil. cbn [mbind res_bind]. rewrite cond_l_spec, !s32_small by lia.
  destruct (Z.ltb_spec (4096 * Z.of_nat k) lo) as [Hl|Hl].
  { eapply (Hnext d' _ m'); [|reflexivity]. rewrite <- (kernel_table_eq lo hi (Z.of_nat k)); [done|]. intros i Hi. lia. }
  reg_step. rewrite (u32_small hi) by lia. rewrite run_nil. cbn [mbind res_bind]. rewrite cond_ge_spec, !s32_small by lia.
  destruct (Z.leb_spec hi (4096 * Z.of_nat k)) as [Hh|Hh].
  { right. eexists. split; [done|]. eexists _, _, _, _, _, _. split; [reflexivity|].
    rewrite <- (kernel_table_eq lo hi (Z.of_nat k)); [done|]. intros i Hi. lia. }
  do 2 reg_step. change (u32 3) with 3. rewrite page_lor. reg_step. rewrite Z.add_0_r, (u32_small (tab + _)) by lia.
  destruct (blocks_store _ _ _ K tab (kernel_table lo hi (Z.of_nat k) t) k (4096 * Z.of_nat k + 3) (tab + 4 * Z.of_nat k) Hb)
    as (m1 & -> & Hb1); [by apply list_lookup_insert_eq|unfold kernel_table; rewrite length_imap; lia|words|done|].
  reduce. rewrite run_nil. cbn [mbind res_bind]. rewrite list_insert_insert_eq, kernel_table_step in Hb1 by lia.
  eapply (Hnext (4096 * Z.of_nat k + 3) _ m1); [done|reflexivity].
Qed.
End loop.

(** ** Lemmas: the memory at boot *)

Lemma blocks_rebase m0 m m' bs :
  blocks m0 m bs → (∀ k p ws x, bs !! k = Some (p, ws) → p ≤ x < p + 4 * Z.of_nat (length ws) → m' !! x = m !! x) →
  blocks m' m' bs.
Proof.
  intros [Hw Ha _] H. split; [|done|done]. intros k p ws Hk. destruct (Hw k p ws Hk) as [Hm Hl]. split.
  - intros i Hi. rewrite (H k p ws) by (done || lia). by apply Hm.
  - intros i w Hi. rewrite <- (Hl i w Hi). pose proof (lookup_lt_Some _ _ _ Hi). apply load32_frame. intros j Hj.
    apply (H k p ws); [done|lia].
Qed.

Lemma store8_mono m a b m' x : store8 m a b = Ok m' → is_Some (m !! x) → is_Some (m' !! x).
Proof.
  unfold store8. destruct (m !! a); [|done]. intros [= <-] Hx.
  destruct (decide (x = a)) as [->|]; [rewrite lookup_insert_eq; eauto|by rewrite lookup_insert_ne].
Qed.

Lemma store32_mono m a w m' x : store32 m a w = Ok m' → is_Some (m !! x) → is_Some (m' !! x).
Proof.
  unfold store32. destruct (store8 m a _) as [m1|] eqn:E1; [|done]. cbn [mbind res_bind].
  destruct (store8 m1 _ _) as [m2|] eqn:E2; [|done]. cbn [mbind res_bind].
  destruct (store8 m2 _ _) as [m3|] eqn:E3; [|done]. cbn [mbind res_bind]. intros E4 Hx.
  eapply store8_mono, store8_mono, store8_mono, store8_mono; eauto.
Qed.

Lemma allows_present w p : allows w (4096 * p + 3) = true.
Proof. rewrite <- page_lor. unfold allows. rewrite !Z.lor_spec. by rewrite !orb_true_r. Qed.

Lemma mmu_kernel w c d tb t p :
  cr3 c mod 4096 = 0 → words_at (memory c) (cr3 c) d → d !! 768%nat = Some (4096 * tb + 3) →
  words_at (memory c) (4096 * tb) t → 0 ≤ p < 4194304 → t !! Z.to_nat (p / 4096) = Some (4096 * (p / 4096) + 3) →
  mmu w c (0xC0000000 + p) = Ok p.
Proof.
  intros Hc [_ Hd] H768 [_ Ht] Hp Hte. unfold mmu.
  replace (cr3 c / 4096 * 4096 + 4 * ((0xC0000000 + p) / 4194304)) with (cr3 c + 4 * Z.of_nat 768) by mlia.
  rewrite (Hd _ _ H768). cbn [mbind res_bind]. rewrite allows_present.
  replace ((4096 * tb + 3) / 4096 * 4096 + 4 * ((0xC0000000 + p) / 4096 mod 1024)) with (4096 * tb + 4 * Z.of_nat (Z.to_nat (p / 4096))) by mlia.
  rewrite (Ht _ _ Hte). cbn [mbind res_bind]. rewrite allows_present. f_equal. mlia.
Qed.

Section start.
Variables boot_pagedir boot_pagetab1 stack_top multiboot_info kernel_start kernel_end label_4 : Z.
Variables cb tb ks : Z.

(** What linker.ld and boot.S lay out: the tables are in the page frames [cb] and
    [tb], the kernel begins with the frame [ks] and ends below the last two pages of
    the first 4 MB; tables, information and stack are in the kernel. *)
Record layout_ok : Prop := {
  lo_tables : low boot_pagedir = 4096 * cb ∧ low boot_pagetab1 = 4096 * tb ∧ low kernel_start = 4096 * ks;
  lo_kernel : 0 ≤ ks ∧ low kernel_end < 4096 * 1022 ∧ cb ≠ tb;
  lo_dir : ks ≤ cb ∧ 4096 * cb + 4096 ≤ low kernel_end;
  lo_tab : ks ≤ tb ∧ 4096 * tb + 4096 ≤ low kernel_end;
  lo_info : 4096 * ks ≤ low multiboot_info ∧ low multiboot_info + 32768 ≤ low kernel_end;
  lo_stack : 4096 * ks + 16384 ≤ low stack_top ∧ low stack_top ≤ low kernel_end;
}.

(** The first word of the information, the tables, the top of the stack, and the
    word below the bootloader's stack. *)
Definition boot_blocks (sp w : Z) (d t : list Z) (x y z : Z) : list (Z * list Z) :=
  [(low multiboot_info, [w]); (low boot_pagedir, d); (low boot_pagetab1, t); (low stack_top - 8, [x; y]); (sp - 4, [z])].

Definition clear_of (sp x : Z) : Prop :=
  (x < low multiboot_info ∨ low multiboot_info + 4 ≤ x) ∧ (x < low boot_pagedir ∨ low boot_pagedir + 4096 ≤ x) ∧
  (x < low boot_pagetab1 ∨ low boot_pagetab1 + 4096 ≤ x) ∧ (x < low stack_top - 8 ∨ low stack_top ≤ x) ∧ (x < sp - 4 ∨ sp ≤ x).

(** What the bootloader hands over: [size] bytes at EBX, the first word of which is
    that size; [guard] is what memory happens to hold at 32768. *)
Record loaded (c : cpu) (size guard : Z) : Prop := {
  ld_cpu : wf_cpu c;
  ld_size : load32 (memory c) (ebx (regs c)) = Ok size ∧ 4 ≤ size ≤ 32760 ∧ ebx (regs c) + size < 4294967296;
  ld_guard : load32 (memory c) 32768 = Ok guard ∧ 0 ≤ guard < 4294967296;
  ld_stack : 4 ≤ esp (regs c);
  ld_blocks : ∃ w x y z, blocks (memory c) (memory c) (boot_blocks (esp (regs c)) w (replicate 1024 0) (replicate 1024 0) x y z);
  ld_source : mapped (memory c) (ebx (regs c)) size ∧ ∀ x, ebx (regs c) ≤ x < ebx (regs c) + size → clear_of (esp (regs c)) x;
  ld_dest : mapped (memory c) (low multiboot_info + 8) size ∧
    ∀ x, low multiboot_info + 8 ≤ x < low multiboot_info + 8 + size → clear_of (esp (regs c)) x;
  ld_apart : ebx (regs c) + size ≤ low multiboot_info + 8 ∨ low multiboot_info + 8 + size ≤ ebx (regs c);
  ld_32768 : ∀ x, 32768 ≤ x < 32772 → clear_of (esp (regs c)) x;
}.

Definition boot_directory : list Z := <[0%nat := 0]> (<[768%nat := 4096 * tb + 3]> (replicate 1024 0)).
Definition boot_table : list Z :=
  <[184%nat := 4096 * 184 + 3]> (kernel_table (low kernel_start) (low kernel_end) 1023 (replicate 1024 0)).

(** The processor at the call of _init. *)
Record booted (c c' : cpu) (size : Z) : Prop := {
  bt_directory : cr3 c' = 4096 * cb ∧ words_at (memory c') (4096 * cb) boot_directory;
  bt_table : words_at (memory c') (4096 * tb) boot_table;
  bt_paging : cr0 c' = Z.lor (cr0 c) 0x80010000;
  bt_arguments : esp (regs c') = stack_top - 8 ∧ words_at (memory c') (low stack_top - 8) [multiboot_info + 8; eax (regs c)];
  bt_info : ∀ i, 0 ≤ i < size → memory c' !! (low multiboot_info + 8 + i) = memory c !! (ebx (regs c) + i);
}.

Lemma clear_frame m0 m sp w d t x y z a :
  blocks m0 m (boot_blocks sp w d t x y z) → length d = 1024%nat → length t = 1024%nat → clear_of sp a → m !! a = m0 !! a.
Proof.
  intros Hb Hd Ht Ha. unfold clear_of in Ha. apply (bl_frame _ _ _ Hb). unfold boot_blocks.
  intros [|[|[|[|[|]]]]] p ws E; cbn in E; try discriminate E; injection E as <- <-; rewrite ?Hd, ?Ht; cbn [length]; lia.
Qed.

Lemma boot_table_page p :
  layout_ok → 4096 * ks ≤ p < low kernel_end → boot_table !! Z.to_nat (p / 4096) = Some (4096 * (p / 4096) + 3).
Proof.
  intros [(? & ? & Hs) ? ? ? ? ?] Hp. unfold boot_table. destruct (decide (Z.to_nat (p / 4096) = 184%nat)) as [E|E].
  - rewrite E, list_lookup_insert_eq by (unfold kernel_table; rewrite length_imap, length_replicate; lia). do 2 f_equal. mlia.
  - rewrite list_lookup_insert_ne by done. rewrite (kernel_table_lookup _ _ _ _ _ 0) by (apply lookup_replicate_2; mlia).
    rewrite !Z2Nat.id by mlia. rewrite (proj2 (Z.leb_le _ _)), (proj2 (Z.ltb_lt (4096 * _) _)), (proj2 (Z.ltb_lt (p / 4096) _)) by mlia. done.
Qed.

Lemma boot_table_length : length boot_table = 1024%nat.
Proof. unfold boot_table, kernel_table. by rewrite length_insert, length_imap. Qed.

Context (HL : layout_ok).

(** The tables, the arguments and the free word, whatever they hold. *)
Definition at_boot (m0 m : mem) (sp w : Z) (d t : list Z) : Prop :=
  ∃ x y z, blocks m0 m (boot_blocks sp w d t x y z).

Lemma check_size_ok c size guard :
  loaded c size guard →
  ∃ m fl, steps (check_size multiboot_info) c
      = Ok (Cpu (set ECX size (regs c)) (eip c) (cs c) fl (ds c) (es c) (cr0 c) (cr3 c) m) ∧
    cond_g fl = (size <? s32 guard) ∧
    at_boot (memory c) m (esp (regs c)) (eax (regs c)) (replicate 1024 0) (replicate 1024 0) ∧
    ∀ x, is_Some (memory c !! x) → is_Some (m !! x).
Proof.
  intros [Hc (Hsize & Hs & _) (Hguard & Hg) Hsp (w & x & y & z & Hb) [_ Hsrc] _ _ Hl].
  destruct HL as [_ _ _ _ Hinfo _]. unfold steps, check_size.
  destruct c as [[a cx d b sp bp si di] ip s fl dsg esg c0 c3 m]. destruct Hc.
  cbn [regs esp eip cs eflags ds es cr0 cr3 memory eax ecx edx ebx ebp esi edi] in *.
  reg_step.
  destruct (blocks_store _ _ _ 0 (low multiboot_info) [w] 0 a (low multiboot_info) Hb eq_refl) as (m1 & Hst & Hb1); [cbn; lia|done|lia|].
  rewrite Hst.
  assert (Hf : ∀ p v, (∀ i, 0 ≤ i < 4 → clear_of sp (p + i)) → load32 m p = Ok v → load32 m1 p = Ok v).
  { intros p v Hcl <-. apply load32_frame. intros i Hi.
    apply (clear_frame _ _ sp a (replicate 1024 0) (replicate 1024 0) x y z _ Hb1); [apply length_replicate..|by apply Hcl]. }
  reduce. reg_step. rewrite Z.add_0_r, (u32_small b) by words.
  rewrite (Hf b size) by (done || (intros; apply Hsrc; lia)). reduce.
  reg_step. rewrite (Hf 32768 guard) by (done || (intros; apply Hl; lia)). rewrite run_nil.
  eexists _, _. split; [reflexivity|]. split.
  - rewrite cond_g_spec by words. by rewrite (s32_small size) by lia.
  - split; [by exists x, y, z|]. intros u Hu. by eapply store32_mono.
Qed.

Lemma copy_info_ok c size guard m fl :
  loaded c size guard → at_boot (memory c) m (esp (regs c)) (eax (regs c)) (replicate 1024 0) (replicate 1024 0) →
  (∀ x, is_Some (memory c !! x) → is_Some (m !! x)) →
  ∃ m' fl', steps (skip_hlt ++ copy_info multiboot_info ++ start_map boot_pagetab1)
        (Cpu (set ECX size (regs c)) (eip c) (cs c) fl (ds c) (es c) (cr0 c) (cr3 c) m)
      = Ok (at_page (low boot_pagetab1) (eax (regs c)) (edx (regs c)) (ebx (regs c)) (esp (regs c) - 4) (ebp (regs c))
              (eip c) (cs c) fl' (ds c) (es c) (cr0 c) (cr3 c) m' 0) ∧
    at_boot m' m' (esp (regs c)) (eax (regs c)) (replicate 1024 0) (replicate 1024 0) ∧
    ∀ i, 0 ≤ i < size → m' !! (low multiboot_info + 8 + i) = memory c !! (ebx (regs c) + i).
Proof.
  intros [Hc (_ & Hs & Hs2) _ Hsp _ [Hms Hsrc] [Hmd Hdst] Hap _] (x & y & z & Hb) Hmap.
  destruct HL as [(_ & Htab & _) Hks _ Ht Hinfo _]. unfold steps, skip_hlt, copy_info, start_map. cbn [app].
  destruct c as [[a cx d b sp bp si di] ip s f0 dsg esg c0 c3 m0]. destruct Hc.
  cbn [regs set esp eip cs eflags ds es cr0 cr3 memory eax ecx edx ebx ebp esi edi] in *.
  rewrite run_cons. unfold exec at 1, read. reduce. unfold push. reduce. rewrite (u32_small (sp - 4)) by words.
  destruct (blocks_store _ _ _ 4 (sp - 4) [z] 0 sp (sp - 4) Hb eq_refl) as (m1 & Hst & Hb1); [cbn; lia|done|lia|].
  rewrite Hst. reduce. do 3 reg_step. rewrite run_cons. unfold exec at 1. reduce. rewrite (u32_small (low multiboot_info + 8)) by lia.
  assert (Hin : ∀ p, mapped m0 p size → mapped m1 p size).
  { intros p Hp i Hi. eapply store32_mono; [exact Hst|]. by apply Hmap, Hp. }
  destruct (rep_movsb_copy (Z.to_nat size) a d b (sp - 4) bp b (low multiboot_info + 8) ip s (Z.clearbit fl DF) dsg esg c0 c3 m1)
    as (m2 & Hrep & Hcopy & Helse & Hmono).
  { apply Z.clearbit_eq. }
  1-7: rewrite ?Z2Nat.id by lia; try words; by apply Hin.
  rewrite Z2Nat.id in Hrep, Hcopy, Helse by lia. cbn [ecx]. rewrite Hrep. reduce. do 3 reg_step. rewrite run_nil.
  change (u32 0) with 0. change (u32 1023) with 1023. rewrite (u32_small (low boot_pagetab1)) by lia.
  assert (Hfr : ∀ u, clear_of sp u → m1 !! u = m0 !! u).
  { intros u Hu. apply (clear_frame _ _ sp a (replicate 1024 0) (replicate 1024 0) x y sp _ Hb1); [apply length_replicate..|done]. }
  eexists m2, _. split; [unfold at_page; by rewrite Z.add_0_r|]. split.
  - exists x, y, sp. eapply blocks_rebase; [exact Hb1|]. intros k p ws u Hk Hu. apply Helse.
    enough (¬ (low multiboot_info + 8 ≤ u < low multiboot_info + 8 + size)) by lia. intros Hd. specialize (Hdst u Hd). unfold clear_of in Hdst.
    destruct k as [|[|[|[|[|]]]]]; cbn in Hk; try discriminate Hk; injection Hk as <- <-; cbn [length] in Hu;
      rewrite ?length_replicate in Hu; lia.
  - intros i Hi. rewrite Hcopy by done. apply Hfr, Hsrc. lia.
Qed.

(** The last stores with physical addresses. *)
Lemma enable_paging_ok m0 m sp w a cx d b bp si di ip s fl dsg esg c0 c3 :
  at_boot m0 m sp w (replicate 1024 0) (kernel_table (low kernel_start) (low kernel_end) 1023 (replicate 1024 0)) →
  ∃ m' fl' cx', steps (enable_paging boot_pagedir boot_pagetab1)
        (Cpu (Gpr a cx d b (sp - 4) bp si di) ip s fl dsg esg c0 c3 m)
      = Ok (Cpu (Gpr a cx' d b (sp - 4) bp si di) ip s fl' dsg esg (Z.lor c0 0x80010000) (4096 * cb) m') ∧
    at_boot m0 m' sp w (<[768%nat := 4096 * tb + 3]> (<[0%nat := 4096 * tb + 3]> (replicate 1024 0))) boot_table.
Proof.
  intros (x & y & z & Hb). destruct HL as [(Hdir & Htab & _) Hks Hcb Htb _ _]. unfold steps, enable_paging.
  rewrite Hdir, Htab. unfold boot_blocks in Hb. rewrite Hdir, Htab in Hb.
  set (t := kernel_table _ _ _ _) in *. assert (Hlt : length t = 1024%nat) by (unfold t, kernel_table; by rewrite length_imap, length_replicate).
  reg_step. change (u32 (Z.lor 753664 3)) with (4096 * 184 + 3).
  destruct (blocks_store _ _ _ 2 (4096 * tb) t 184 (4096 * 184 + 3) (4096 * tb + 184 * 4) Hb eq_refl)
    as (m1 & -> & Hb1); [lia|words|lia|]. reduce.
  reg_step. rewrite (u32_small (4096 * tb + 3)) by lia.
  destruct (blocks_store _ _ _ 1 (4096 * cb) (replicate 1024 0) 0 (4096 * tb + 3) (4096 * cb + 0) Hb1 eq_refl)
    as (m2 & -> & Hb2); [rewrite length_replicate; lia|words|lia|]. reduce.
  reg_step. rewrite (u32_small (4096 * tb + 3)) by lia.
  destruct (blocks_store _ _ _ 1 (4096 * cb) (<[0%nat := 4096 * tb + 3]> (replicate 1024 0)) 768 (4096 * tb + 3) (4096 * cb + 768 * 4) Hb2 eq_refl)
    as (m3 & -> & Hb3); [rewrite length_insert, length_replicate; lia|words|lia|]. reduce.
  do 5 reg_step. rewrite run_nil. change (u32 2147549184) with 2147549184. rewrite (u32_small (4096 * cb)) by lia.
  eexists m3, _, _. split; [reflexivity|]. exists x, y, z. unfold boot_table, boot_blocks. rewrite Hdir, Htab. exact Hb3.
Qed.

Lemma at_boot_tables m0 m sp w d t :
  at_boot m0 m sp w d t → words_at m (low boot_pagedir) d ∧ words_at m (low boot_pagetab1) t.
Proof.
  intros (x & y & z & Hb). split; [by apply (bl_words _ _ _ Hb 1%nat)|by apply (bl_words _ _ _ Hb 2%nat)].
Qed.

(** A virtual address of the kernel, while the tables stand. *)
Lemma at_boot_mmu m0 write c sp w d v :
  at_boot m0 (memory c) sp w d boot_table → cr3 c = 4096 * cb → d !! 768%nat = Some (4096 * tb + 3) →
  4096 * ks ≤ low v < low kernel_end → mmu write c v = Ok (low v).
Proof.
  intros Hb Hc Hd Hv. pose proof HL as [(Hdir & Htab & Hs) Hks _ _ _ _].
  destruct (at_boot_tables _ _ _ _ _ _ Hb) as [Hwd Hwt]. rewrite Hdir in Hwd. rewrite Htab in Hwt.
  replace v with (0xC0000000 + low v) by (unfold low; lia).
  replace (low (0xC0000000 + low v)) with (low v) by (unfold low; lia).
  eapply mmu_kernel; [rewrite Hc; mlia|rewrite Hc; exact Hwd|exact Hd|exact Hwt|lia|by apply boot_table_page].
Qed.

Lemma higher_half_ok m0 m sp w a cx d b bp si di ip s fl dsg esg c0 :
  word w → word stack_top → word multiboot_info →
  at_boot m0 m sp w (<[768%nat := 4096 * tb + 3]> (<[0%nat := 4096 * tb + 3]> (replicate 1024 0))) boot_table →
  ∃ c', higher_half boot_pagedir stack_top multiboot_info label_4
        (Cpu (Gpr a cx d b (sp - 4) bp si di) ip s fl dsg esg c0 (4096 * cb) m) = Ok c' ∧
    cr0 c' = c0 ∧ cr3 c' = 4096 * cb ∧ esp (regs c') = stack_top - 8 ∧
    ∃ z, blocks m0 (memory c') (boot_blocks sp w boot_directory boot_table (multiboot_info + 8) w z).
Proof.
  intros Hw Hst Hmi Hb. pose proof HL as [(Hdir & Htab & Hs) Hks Hcb Htb Hinfo Hstack]. unfold higher_half.
  set (d1 := <[768%nat := _]> _) in Hb. assert (Hl1 : length d1 = 1024%nat) by (unfold d1; by rewrite !length_insert, length_replicate).
  unfold vwrite at 1. rewrite Z.add_0_r, (at_boot_mmu m0 true _ sp w d1); [|exact Hb|done|done|lia].
  cbn [mbind res_bind set_eip set_reg set_regs memory regs set].
  destruct Hb as (x & y & z & Hb).
  destruct (blocks_store _ _ _ 1 (low boot_pagedir) d1 0 0 (low boot_pagedir) Hb eq_refl) as (m1 & -> & Hb1); [lia|words|lia|].
  cbn [mbind res_bind].
  assert (Ed : <[0%nat := 0]> d1 = boot_directory).
  { unfold d1, boot_directory. rewrite (list_insert_insert_ne _ 768 0) by done. by rewrite list_insert_insert_eq. }
  cbn [insert list_insert boot_blocks] in Hb1. rewrite Ed in Hb1. clear Hb Ed d1 Hl1.
  assert (H768 : boot_directory !! 768%nat = Some (4096 * tb + 3)).
  { unfold boot_directory. rewrite list_lookup_insert_ne by done. apply list_lookup_insert_eq. rewrite length_replicate. lia. }
  unfold steps. reduce. do 3 reg_step. rewrite run_nil, (u32_small stack_top) by done. reduce.
  unfold low in Hstack, Hinfo, Hks. assert (Hlow : ∀ n, low (stack_top - n) = low stack_top - n) by (intros; unfold low; lia).
  unfold vread. erewrite at_boot_mmu; [|by exists x, y, z|done|exact H768|unfold low; lia]. cbn [mbind res_bind memory].
  rewrite (blocks_load _ _ _ 0 (low multiboot_info) [w] 0 w (low multiboot_info) Hb1 eq_refl eq_refl) by lia. cbn [mbind res_bind].
  unfold vpush at 1, vwrite. reduce. rewrite (u32_small (stack_top - 4)) by words.
  erewrite at_boot_mmu; [|by exists x, y, z|done|exact H768|unfold low; lia]. reduce. rewrite Hlow.
  destruct (blocks_store _ _ _ 3 (low stack_top - 8) [x; y] 1 w (low stack_top - 4) Hb1 eq_refl) as (m2 & -> & Hb2); [cbn; lia|words|lia|].
  reduce. cbn [insert list_insert] in Hb2. clear Hb1.
  unfold vpush, vwrite. reduce. rewrite (u32_small (stack_top - 4 - 4)) by words.
  erewrite at_boot_mmu; [|by exists x, w, z|done|exact H768|unfold low; lia]. reduce. replace (stack_top - 4 - 4) with (stack_top - 8) by lia. rewrite Hlow.
  destruct (blocks_store _ _ _ 3 (low stack_top - 8) [x; w] 0 (multiboot_info + 8) (low stack_top - 8) Hb2 eq_refl)
    as (m3 & -> & Hb3); [cbn; lia|words|lia|].
  reduce. eexists. split; [reflexivity|]. split_and!; [done..|]. exists z. exact Hb3.
Qed.

Definition booting : cpu → res outcome :=
  _start boot_pagedir boot_pagetab1 stack_top multiboot_info kernel_start kernel_end label_4.

Definition start_result (c : cpu) (size guard : Z) (o : outcome) : Prop :=
  match o with Runs c' => size < s32 guard ∧ booted c c' size | Halts _ => s32 guard ≤ size end.

Lemma start_ok c size guard :
  word stack_top → word multiboot_info → loaded c size guard → ∃ o, booting c = Ok o ∧ start_result c size guard o.
Proof.
  intros Hst Hmi Hc. destruct (check_size_ok c size guard Hc) as (m1 & fl1 & Hrun1 & Hcond & Hb1 & Hmono).
  unfold booting, _start. rewrite Hrun1. cbn [mbind res_bind eflags]. rewrite Hcond.
  destruct (Z.ltb_spec size (s32 guard)) as [Hlt|Hge]; [|by eexists].
  destruct (copy_info_ok c size guard m1 fl1 Hc Hb1 Hmono) as (m2 & fl2 & -> & (x & y & z & Hb2) & Hinfo). cbn [mbind res_bind].
  pose proof HL as [(Hdir & Htab & Hs) Hks Hcb Htb Hl Hstack].
  edestruct (map_kernel_ok kernel_start kernel_end) with (K := 2%nat)
    as (cx & d & si & di & fl3 & m3 & Hmap & Hb3); [lia|lia|lia|exact Hb2|reflexivity|apply length_replicate|lia|lia|].
  rewrite Hmap. cbn [mbind res_bind]. cbn [insert list_insert boot_blocks] in Hb3.
  edestruct (enable_paging_ok m2 m3 (esp (regs c)) (eax (regs c))) as (m4 & fl4 & cx4 & -> & Hb4); [by exists x, y, z|].
  cbn [mbind res_bind].
  edestruct (higher_half_ok m2 m4 (esp (regs c)) (eax (regs c))) as (c' & -> & H0 & H3 & Hesp & z' & Hb5);
    [apply (ld_cpu _ _ _ Hc)|done|done|exact Hb4|].
  cbn [mbind res_bind]. exists (Runs c'). split; [done|]. split; [done|]. split.
  - split; [done|]. rewrite <- Hdir. by apply (bl_words _ _ _ Hb5 1%nat).
  - rewrite <- Htab. by apply (bl_words _ _ _ Hb5 2%nat).
  - done.
  - split; [done|]. by apply (bl_words _ _ _ Hb5 3%nat).
  - intros i Hi. rewrite <- Hinfo by done. eapply clear_frame; [exact Hb5| |apply boot_table_length|].
    + unfold boot_directory. by rewrite !length_insert, length_replicate.
    + apply (ld_dest _ _ _ Hc). lia.
Qed.

(** The frames of the tables, as paging.c has them. *)
Definition frame_of (m : mem) (f : phys) (p : Z) : Prop :=
  ∃ l, f !! p = Some l ∧ length l = 1024%nat ∧ words_at m (4096 * p) l.

Lemma frame_of_words m f p l : frame_of m f p → words_at m (4096 * p) l → length l = 1024%nat → f !! p = Some l.
Proof.
  intros (l' & Hl' & Hlen & Hw') Hw Hll. rewrite Hl'. f_equal.
  apply (words_at_inj m m (4096 * p)); [done|done|lia|done].
Qed.

Lemma booted_boot_ok {A} `{PageSource A} (ram : Z → Prop) (s : Paging.t A) c c' size :
  booted c c' size → Paging.cr3 s = cr3 c' / 4096 → frame_of (memory c') (pmem s) cb → frame_of (memory c') (pmem s) tb →
  ps_inv (frames s) ∧ ps_used (frames s) cb ∧ ps_used (frames s) tb →
  (∀ p, ram p → 0 ≤ p < 1048576 ∧ ∃ l, pmem s !! p = Some l ∧ length l = 1024%nat) →
  boot_ok ram s cb tb ks (Z.shiftr (u32 (low kernel_end)) 12 + 1) boot_directory boot_table.
Proof.
  intros [(Hcr & Hwd) Hwt _ _ _] Hs Hfd Hft Hfr Hram. pose proof HL as [(Hdir & Htab & Hst) Hks Hcb Htb Hl Hstack].
  assert (Ld : length boot_directory = 1024%nat) by (unfold boot_directory; by rewrite !length_insert, length_replicate).
  pose proof boot_table_length as Lt.
  assert (Hpage : ∀ p, ks ≤ p → 4096 * p + 4096 ≤ low kernel_end → boot_table !! Z.to_nat p = Some (p * 4096 + 3)).
  { intros p Hp Hp2. pose proof (boot_table_page (4096 * p) HL) as E. replace (4096 * p / 4096) with p in E by mlia.
    rewrite E by lia. f_equal. lia. }
  split; [rewrite Hs, Hcr; mlia| | | | |done|done].
  - split; [by eapply frame_of_words|]. split; [done|]. unfold boot_directory. rewrite list_lookup_insert_ne by done.
    rewrite list_lookup_insert_eq by (rewrite length_replicate; lia). f_equal. lia.
  - split; [by eapply frame_of_words|done].
  - split; apply Hpage; lia.
  - rewrite u32_small by lia. rewrite Z.shiftr_div_pow2 by lia. change (2 ^ 12) with 4096. mlia.
Qed.
End start.

(** The same with the definitions of the section unfolded. *)
Lemma start_runs boot_pagedir boot_pagetab1 stack_top multiboot_info kernel_start kernel_end label_4 cb tb ks c size guard :
  layout_ok boot_pagedir boot_pagetab1 stack_top multiboot_info kernel_start kernel_end cb tb ks →
  word stack_top → word multiboot_info → loaded boot_pagedir boot_pagetab1 stack_top multiboot_info c size guard →
  ∃ o, _start boot_pagedir boot_pagetab1 stack_top multiboot_info kernel_start kernel_end label_4 c = Ok o ∧
    match o with
    | Runs c' => size < s32 guard ∧ booted stack_top multiboot_info kernel_start kernel_end cb tb c c' size
    | Halts _ => s32 guard ≤ size
    end.
Proof. intros HL Hs Hm Hc. by apply (start_ok _ _ _ _ _ _ _ cb tb ks). Qed.

(** ** Theorems *)

(** C38: boot.S, on the layout of the linker and with information of at most 32760
    bytes, either reaches the call of _init, with the page tables, the stack, the
    two arguments and the copy of the information in place, or halts; and which of
    the two is decided by the word that memory happens to hold at 32768. *)
Theorem start_reaches_init boot_pagedir boot_pagetab1 stack_top multiboot_info kernel_start kernel_end label_4 cb tb ks c size guard :
  layout_ok boot_pagedir boot_pagetab1 stack_top multiboot_info kernel_start kernel_end cb tb ks →
  word stack_top → word multiboot_info → loaded boot_pagedir boot_pagetab1 stack_top multiboot_info c size guard →
  ∃ o, _start boot_pagedir boot_pagetab1 stack_top multiboot_info kernel_start kernel_end label_4 c = Ok o ∧
    match o with
    | Runs c' => size < s32 guard ∧ booted stack_top multiboot_info kernel_start kernel_end cb tb c c' size
    | Halts _ => s32 guard ≤ size
    end.
Proof. apply start_runs. Qed.

(** C39: the tables that boot.S leaves are the ones paging_earlyinit is written for:
    from the state at the call of _init it switches to the kernel's directory, and
    panics only when fewer than 258 page frames are left. *)
Theorem boot_tables_carry_over {A} `{PageSource A} (ram : Z → Prop)
    (Hram : ∀ (a : A) code p a', ps_inv a → ps_alloc a = Ok (code, Some p, a') → ram p)
    boot_pagedir boot_pagetab1 stack_top multiboot_info kernel_start kernel_end cb tb ks c c' size (s : Paging.t A) :
  layout_ok boot_pagedir boot_pagetab1 stack_top multiboot_info kernel_start kernel_end cb tb ks →
  booted stack_top multiboot_info kernel_start kernel_end cb tb c c' size →
  Paging.cr3 s = cr3 c' / 4096 → frame_of (memory c') (pmem s) cb → frame_of (memory c') (pmem s) tb →
  ps_inv (frames s) ∧ ps_used (frames s) cb ∧ ps_used (frames s) tb →
  (∀ p, ram p → 0 ≤ p < 1048576 ∧ ∃ l, pmem s !! p = Some l ∧ length l = 1024%nat) →
  post (λ s', ∃ pd, kernel_paged ram s' cb (Z.shiftr (u32 (low kernel_end)) 12 + 1) pd) (λ f, f = Panicked ∧ ¬ supply 258 (frames s))
    (paging_earlyinit boot_pagedir boot_pagetab1 kernel_start kernel_end s).
Proof.
  intros HL Hb Hs Hfd Hft Hfr Hr. pose proof (booted_boot_ok _ _ _ _ _ _ _ _ _ HL ram s c c' size Hb Hs Hfd Hft Hfr Hr) as Hok.
  destruct HL as [(Hdir & Htab & Hst) Hks Hcb _ _ _].
  replace boot_pagedir with (0xC0000000 + cb * 4096) by (unfold low in *; lia).
  replace boot_pagetab1 with (0xC0000000 + tb * 4096) by (unfold low in *; lia).
  eapply earlyinit_ok; [exact Hram|exact Hok| |done].
  fold (low kernel_start). rewrite u32_small by lia. rewrite Z.shiftr_div_pow2 by lia. change (2 ^ 12) with 4096. mlia.
Qed.

(** ** An example: the kernel in the frames 320 to 339 *)

Definition demo_sp : Z := 1048576.

(** The information at 0x10000, the bootloader's stack below 1 MB. *)
Definition example_mem (info : list Z) : mem :=
  put_bytes 32768 (le_put 4 100000) (put_bytes 65536 info
    (put_zeros (demo_sp - 4) 4 (put_zeros (4096 * 321) 4096 (put_zeros (4096 * 322) 4096 (put_zeros (4096 * 330 - 8) 8
      (put_zeros (4096 * 331) 1024 ∅)))))).

Definition example_cpu (info : list Z) : cpu :=
  Cpu (Gpr 0x36d76289 0 0 65536 demo_sp 0 0 0) 0x140000 8 2 16 16 0x11 0 (example_mem info).

Definition demo_info : list Z := [16; 0; 0; 8] ≫= le_put 4.

Definition demo_cpu : cpu := example_cpu demo_info.

Definition demo_start : res outcome :=
  _start (0xC0000000 + 4096 * 321) (0xC0000000 + 4096 * 322) (0xC0000000 + 4096 * 330) (0xC0000000 + 4096 * 331)
    (0xC0000000 + 4096 * 320) (0xC0000000 + 4096 * 340) 0xC0140100 demo_cpu.

Definition demo_directory : list Z := boot_directory 322.
Definition demo_table : list Z := boot_table (0xC0000000 + 4096 * 320) (0xC0000000 + 4096 * 340).

Lemma demo_layout :
  layout_ok (0xC0000000 + 4096 * 321) (0xC0000000 + 4096 * 322) (0xC0000000 + 4096 * 330) (0xC0000000 + 4096 * 331)
    (0xC0000000 + 4096 * 320) (0xC0000000 + 4096 * 340) 321 322 320.
Proof. split; unfold low; lia. Qed.

Lemma example_wf info : wf_cpu (example_cpu info).
Proof.
  split; cbn [example_cpu regs eip cs eflags ds es eax ecx edx ebx esp ebp esi edi demo_sp]; unfold word, demo_sp;
    first [lia | split; [lia|reflexivity]].
Qed.

(** What memory holds at an address of the example. *)
Ltac in_example :=
  unfold example_mem, demo_sp;
  repeat first [rewrite put_zeros_in by lia | rewrite put_zeros_out by lia | rewrite put_bytes_out by (rewrite ?length_le_put; lia)].

(** Any information that begins with its size, of at most 1016 bytes, is well loaded. *)
Lemma example_loaded info :
  4 ≤ Z.of_nat (length info) ≤ 1016 → take 4 info = le_put 4 (Z.of_nat (length info)) →
  loaded (0xC0000000 + 4096 * 321) (0xC0000000 + 4096 * 322) (0xC0000000 + 4096 * 330) (0xC0000000 + 4096 * 331) (example_cpu info)
    (Z.of_nat (length info)) 100000.
Proof.
  intros Hl Ht. split; cbn [example_cpu regs memory esp ebx]; unfold low.
  - apply example_wf.
  - split; [|unfold demo_sp; lia]. apply load32_bytes; [|lia]. intros i b Hi. pose proof (lookup_lt_Some _ _ _ Hi) as Hi4.
    rewrite length_le_put in Hi4. rewrite <- Ht in Hi. rewrite lookup_take_lt in Hi by lia.
    unfold example_mem. rewrite put_bytes_out by (rewrite length_le_put; lia). by apply put_bytes_in.
  - split; [|lia]. apply load32_bytes; [|lia]. intros i b Hi. by apply put_bytes_in.
  - unfold demo_sp. lia.
  - exists 0, 0, 0, 0. apply blocks_by.
    + assert (Hz : ∀ p n, (∀ x, p ≤ x < p + 4 * Z.of_nat n → example_mem info !! x = Some 0) →
        words_at (example_mem info) p (replicate n 0)) by (intros p n; apply words_at_zeros).
      unfold boot_blocks, low. repeat (apply Forall_cons; split; cbn [fst snd]).
      all: first [apply (Hz _ 1%nat) | apply (Hz _ 2%nat) | apply Hz | by apply Forall_nil].
      all: unfold demo_sp; intros x Hx; in_example; reflexivity.
    + unfold boot_blocks, low, demo_sp. repeat (apply FOP_cons; [by_Forall ltac:(unfold apart; by_eval)|]); apply FOP_nil.
  - split; [|intros x Hx; unfold clear_of, low, demo_sp; lia]. intros i Hi. destruct (lookup_lt_is_Some_2 info (Z.to_nat i)) as [b Hb]; [lia|].
    exists b. unfold example_mem. rewrite put_bytes_out by (rewrite length_le_put; lia).
    replace i with (Z.of_nat (Z.to_nat i)) by lia. by apply put_bytes_in.
  - split; [|intros x Hx; unfold clear_of, low, demo_sp; lia]. intros i Hi. exists 0. in_example. reflexivity.
  - lia.
  - intros x Hx. unfold clear_of, low, demo_sp. lia.
Qed.

Lemma demo_loaded :
  loaded (0xC0000000 + 4096 * 321) (0xC0000000 + 4096 * 322) (0xC0000000 + 4096 * 330) (0xC0000000 + 4096 * 331) demo_cpu 16 100000.
Proof. apply (example_loaded demo_info); [cbn; lia|reflexivity]. Qed.

Lemma start_reaches_init_witness :
  ∃ c', demo_start = Ok (Runs c') ∧ esp (regs c') = 0xC0000000 + 4096 * 330 - 8 ∧ cr3 c' = 4096 * 321.
Proof.
  destruct (start_reaches_init (0xC0000000 + 4096 * 321) (0xC0000000 + 4096 * 322) (0xC0000000 + 4096 * 330) (0xC0000000 + 4096 * 331)
    (0xC0000000 + 4096 * 320) (0xC0000000 + 4096 * 340) 0xC0140100 321 322 320 demo_cpu 16 100000 demo_layout)
    as ([c'|c'] & Hrun & H); [unfold word; lia|unfold word; lia|exact demo_loaded| |].
  - destruct H as [_ [[Hcr _] _ _ [Hesp _] _]]. exists c'. split; [exact Hrun|]. split; [exact Hesp|exact Hcr].
  - exfalso. revert H. change (s32 100000) with 100000. lia.
Defined.

(** The memory of paging.c at that point. *)
Definition demo_paging : Paging.t nat := Paging (<[321 := demo_directory]> (<[322 := demo_table]> ex_mem)) 321 300%nat [].

Lemma demo_ram p : pool_ram p → 0 ≤ p < 1048576 ∧ ∃ l, pmem demo_paging !! p = Some l ∧ length l = 1024%nat.
Proof.
  intros Hp. destruct (in_ram _ _ _ ex_inv p Hp) as [Hr Hl]. split; [done|]. unfold pool_ram in Hp.
  cbn [demo_paging pmem]. by rewrite !lookup_insert_ne by lia.
Qed.

Lemma demo_used : ps_inv (frames demo_paging) ∧ ps_used (frames demo_paging) 321 ∧ ps_used (frames demo_paging) 322.
Proof. split; [cbn; lia|split; cbn; lia]. Qed.

Lemma demo_booted :
  ∃ c', demo_start = Ok (Runs c') ∧
    booted (0xC0000000 + 4096 * 330) (0xC0000000 + 4096 * 331) (0xC0000000 + 4096 * 320) (0xC0000000 + 4096 * 340) 321 322 demo_cpu c' 16.
Proof.
  destruct (start_runs _ _ _ _ _ _ 0xC0140100 _ _ _ demo_cpu 16 100000 demo_layout) as ([c'|c'] & Hrun & H);
    [unfold word; lia|unfold word; lia|exact demo_loaded| |].
  - destruct H as [_ Hb]. exists c'. split; [exact Hrun|exact Hb].
  - exfalso. revert H. change (s32 100000) with 100000. lia.
Qed.

Lemma boot_tables_carry_over_witness :
  ∃ c' s' pd, demo_start = Ok (Runs c') ∧
    paging_earlyinit (0xC0000000 + 4096 * 321) (0xC0000000 + 4096 * 322) (0xC0000000 + 4096 * 320) (0xC0000000 + 4096 * 340) demo_paging = Ok s' ∧
    kernel_paged pool_ram s' 321 341 pd.
Proof.
  destruct demo_booted as (c' & Hrun & Hb). pose proof Hb as [(Hcr & Hwd) Hwt _ _ _].
  assert (Hd : frame_of (memory c') (pmem demo_paging) 321).
  { exists demo_directory. split; [apply lookup_insert_eq|]. split; [done|exact Hwd]. }
  assert (Ht : frame_of (memory c') (pmem demo_paging) 322).
  { exists demo_table. split; [cbn [demo_paging pmem]; rewrite lookup_insert_ne by done; apply lookup_insert_eq|].
    split; [by apply boot_table_length|exact Hwt]. }
  pose proof (boot_tables_carry_over pool_ram pool_ram_ok _ _ _ _ _ _ 321 322 320 demo_cpu c' 16 demo_paging demo_layout Hb) as Hpost.
  exists c'. rewrite Hcr in Hpost. specialize (Hpost eq_refl Hd Ht demo_used demo_ram).
  destruct (paging_earlyinit _ _ _ _ demo_paging) as [s'|f]; cbn [post] in Hpost.
  - destruct Hpost as [pd Hpd]. exists s', pd. split; [exact Hrun|]. split; [done|exact Hpd].
  - exfalso. destruct Hpost as [_ Hs]. apply Hs, (pool_supply 258 300). lia.
Defined.
