(* ===== verification/HeapPages.v ===== *)
(** The heap on the page tables.

    Heap.v works on a byte memory that grows by whole pages.  Here is what lies
    behind it: heap_grow of libc/stdlib/malloc.c as written, a page frame mapped
    with [mm_map_page] at the end of the heap, and byte accesses through the page
    walk of Paging.v.  The relation [backed] says that the byte memory is what the
    page tables show; every step of [malloc] and [free] is a step of the machine
    below that keeps it. *)
From stdpp Require Import relations.
From S2P Require Import Prelude PageSource Paging Heap.

(** ** Bytes of page frames *)

Definition put_byte (k b w : Z) : Z := w + (u8 b - w / 256 ^ k mod 256) * 256 ^ k.

Definition phys_byte (m : phys) (pa : Z) : option Z :=
  match m !! (pa / 4096) with
  | None => None
  | Some l =>
      match l !! Z.to_nat (pa mod 4096 / 4) with
      | None => None
      | Some w => Some (w / 256 ^ (pa mod 4) mod 256)
      end
  end.

Lemma put_byte_same k b w : 0 ≤ k → put_byte k b w / 256 ^ k mod 256 = u8 b.
Proof.
  intros Hk. unfold put_byte, u8. rewrite Z.div_add by (apply Z.pow_nonzero; lia).
  generalize (w / 256 ^ k). intros x. mlia.
Qed.

Lemma put_byte_other k j b w : 0 ≤ k → 0 ≤ j → j ≠ k → put_byte k b w / 256 ^ j mod 256 = w / 256 ^ j mod 256.
Proof.
  intros Hk Hj Hne. unfold put_byte. set (d := u8 b - w / 256 ^ k mod 256).
  destruct (Z.lt_ge_cases j k) as [Hlt|Hge].
  - replace (256 ^ k) with (256 ^ (k - j - 1) * 256 * 256 ^ j).
    2:{ rewrite <- Z.mul_assoc, <- Z.pow_succ_r, <- Z.pow_add_r by lia. f_equal. lia. }
    rewrite Z.mul_assoc, Z.div_add by (apply Z.pow_nonzero; lia).
    replace (d * (256 ^ (k - j - 1) * 256)) with (d * 256 ^ (k - j - 1) * 256) by lia. apply Z.mod_add. lia.
  - replace (256 ^ j) with (256 ^ k * (256 * 256 ^ (j - k - 1))).
    2:{ rewrite <- Z.pow_succ_r, <- Z.pow_add_r by lia. f_equal. lia. }
    assert (0 < 256 ^ k) by (apply Z.pow_pos_nonneg; lia). assert (0 < 256 ^ (j - k - 1)) by (apply Z.pow_pos_nonneg; lia).
    rewrite <- !(Z.div_div _ (256 ^ k)) by lia. rewrite Z.div_add by lia. rewrite <- !(Z.div_div _ 256) by lia. do 2 f_equal.
    unfold d, u8. generalize (w / 256 ^ k). intros x. mlia.
Qed.

Lemma phys_byte_at m f l v :
  m !! f = Some l → phys_byte m (f * 4096 + v mod 4096)
  = match l !! Z.to_nat (v mod 4096 / 4) with None => None | Some w => Some (w / 256 ^ (v mod 4) mod 256) end.
Proof.
  intros Hl. unfold phys_byte. replace ((f * 4096 + v mod 4096) / 4096) with f by mlia. rewrite Hl.
  replace ((f * 4096 + v mod 4096) mod 4096) with (v mod 4096) by mlia.
  by replace ((f * 4096 + v mod 4096) mod 4) with (v mod 4) by mlia.
Qed.

(** ** The machine below *)

Section heap_pages.
Context {A : Type} `{PS : PageSource A}.
Variable ram : Z → Prop.
Context (Hram : ∀ (a : A) code p a', ps_inv a → ps_alloc a = Ok (code, Some p, a') → ram p).
Variable content : Z → Z → Z.
Variable fuel : nat.
Variable junk : Z.

(** A byte read or written by the processor. *)
Definition vbyte (p : Paging.t A) (v : Z) : option Z :=
  match translate (pmem p) (cr3 p) v with None => None | Some pa => phys_byte (pmem p) pa end.

Definition vstore_byte (p : Paging.t A) (v b : Z) : res (Paging.t A) :=
  match walk true (pmem p) (cr3 p) v with
  | None => Fault Unmapped
  | Some f =>
      match pmem p !! f with
      | None => Fault Unmapped
      | Some l =>
          w ← aget l (v mod 4096 / 4);
          l ← aset l (v mod 4096 / 4) (put_byte (v mod 4) b w);
          Ok (set_pmem p (<[f := l]> (pmem p)))
      end
  end.

(** heap_grow, with the end of the heap. *)
Definition paged_grow (p : Paging.t A) (heap_end : Z) : res (Z * (Paging.t A * Z)) :=
  '(err, pout, fr) ← ps_alloc (Paging.frames p);
  if negb (err =? 0) then Ok (err, (set_frames p fr, heap_end))
  else
    let page := default junk pout in
    p ← mm_map_page junk (set_frames p fr) (u32 (Z.shiftl page PAGE_SHIFT)) heap_end 0x03;
    Ok (0, (p, u32 (heap_end + PAGE_SIZE))).

(** The page of [v] is frame [f], for reading and for writing. *)
Definition frame_at (p : Paging.t A) (v f : Z) : Prop := ∀ w, walk w (pmem p) (cr3 p) v = Some f.

Definition in_heap (s : Heap.t A) (v : Z) : Prop := kernel_heap_start s ≤ v < kernel_heap_end s.

(** The byte memory of the heap is what the page tables show between the start
    and the end of the heap: other frames for other pages, none of which is a page
    table or free; and free frames hold [content]. *)
Record backed (s : Heap.t A) (p : Paging.t A) (pd : list Z) : Prop := {
  bk_inv : Paging.inv ram p pd;
  bk_tables : kernel_tables pd;
  bk_frames : frames s = Paging.frames p;
  bk_range : 0xC0000000 ≤ kernel_heap_start s ∧ kernel_heap_start s ≤ kernel_heap_end s ∧ kernel_heap_end s ≤ 0xE0000000 ∧
             kernel_heap_end s mod 4096 = 0;
  bk_page : ∀ v, in_heap s v → ∃ f, frame_at p v f ∧ data_frame (cr3 p) pd f ∧ ps_used (Paging.frames p) f ∧
    ∃ l, pmem p !! f = Some l ∧ length l = 1024%nat;
  bk_inj : ∀ v v' f, in_heap s v → in_heap s v' → frame_at p v f → frame_at p v' f → v / 4096 = v' / 4096;
  bk_in : ∀ v, in_heap s v → memory s !! v = vbyte p v;
  bk_out : ∀ v, ¬ in_heap s v → memory s !! v = None;
  bk_free : ∀ f i, ram f → ¬ ps_used (Paging.frames p) f → 0 ≤ i < 4096 → phys_byte (pmem p) (f * 4096 + i) = Some (u8 (content f i));
}.

Lemma frame_at_vbyte p v f : frame_at p v f → vbyte p v = phys_byte (pmem p) (f * 4096 + v mod 4096).
Proof. intros Hf. unfold vbyte, translate. by rewrite (Hf false). Qed.

(** A data frame changes: the walks stay. *)
Lemma walk_data w m c pd f l v :
  rmap m c pd → data_frame c pd f → 0 ≤ v < 0xFFC00000 → length l = 1024%nat → walk w (<[f := l]> m) c v = walk w m c v.
Proof.
  intros Hm [Hf1 Hf2] Hv Hl. assert (Hm' : rmap (<[f := l]> m) c pd) by (by apply rmap_table).
  set (j := Z.to_nat (v / 4194304)). assert (Hj : (j < 1023)%nat) by (unfold j; mlia).
  destruct (lookup_lt_is_Some_2 pd j) as [e He]; [rewrite (rm_len _ _ _ Hm); lia|].
  destruct (rm_table _ _ _ Hm j e Hj He) as [->|(g & q & -> & Hg & Hq & Hlq)].
  - by rewrite (walk_missing_any w _ _ _ j v Hm' eq_refl He), (walk_missing_any w _ _ _ j v Hm eq_refl He).
  - rewrite (walk_entry_any w _ _ _ j g q v Hm eq_refl He Hq), (walk_entry_any w _ _ _ j g q v Hm' eq_refl He); [done|].
    rewrite lookup_insert_ne; [done|]. intros ->. by apply (Hf2 j).
Qed.

Lemma inv_data p pd f l :
  Paging.inv ram p pd → data_frame (cr3 p) pd f → length l = 1024%nat → Paging.inv ram (set_pmem p (<[f := l]> (pmem p))) pd.
Proof.
  intros [H1 H2 H3 H4 H5] [Hf _] Hl. split; cbn; try done.
  - by apply rmap_table.
  - intros g Hg. destruct (H5 g Hg) as (Hr & q & Hq & Hlq). split; [done|].
    destruct (decide (g = f)) as [->|]; [exists l; by rewrite lookup_insert_eq|exists q; by rewrite lookup_insert_ne].
Qed.

Lemma vstore_ok s p pd v b m' :
  backed s p pd → store8 (memory s) v b = Ok m' → 0 ≤ b < 256 →
  ∃ p', vstore_byte p v b = Ok p' ∧ backed (set_memory s m') p' pd.
Proof.
  intros Hb Hst Hbyte. unfold store8 in Hst. destruct (memory s !! v) as [b0|] eqn:Hv; [|done]. injection Hst as <-.
  assert (Hin : in_heap s v).
  { destruct (decide (in_heap s v)) as [|Hn]; [done|]. by rewrite (bk_out _ _ _ Hb v Hn) in Hv. }
  destruct (bk_page _ _ _ Hb v Hin) as (f & Hf & Hdata & Hused & l & Hl & Hlen).
  pose proof (bk_range _ _ _ Hb) as Hr. pose proof (in_map _ _ _ (bk_inv _ _ _ Hb)) as Hm.
  destruct (lookup_lt_is_Some_2 l (Z.to_nat (v mod 4096 / 4))) as [w Hw]; [mlia|].
  unfold vstore_byte. rewrite (Hf true), Hl.
  assert (aget l (v mod 4096 / 4) = Ok w) as -> by (apply aget_Ok; split; [mlia|done]). cbn [mbind res_bind].
  rewrite aset_ok by mlia. cbn [mbind res_bind].
  set (l' := <[Z.to_nat (v mod 4096 / 4) := put_byte (v mod 4) b w]> l).
  assert (Hl' : length l' = 1024%nat) by (unfold l'; by rewrite length_insert).
  eexists. split; [reflexivity|].
  assert (Hwalk : ∀ x g, in_heap s x → frame_at p x g ↔ frame_at (set_pmem p (<[f := l']> (pmem p))) x g).
  { intros x g Hx. unfold frame_at, in_heap in *. cbn [pmem cr3 set_pmem].
    split; intros Hg wr; [rewrite (walk_data _ _ _ pd)|rewrite <- (walk_data _ _ _ pd f l')]; (done || lia). }
  split; cbn [memory frames kernel_heap_start kernel_heap_end set_memory].
  - apply inv_data; [apply Hb|done|done].
  - apply Hb.
  - apply (bk_frames _ _ _ Hb).
  - exact Hr.
  - intros x Hx. destruct (bk_page _ _ _ Hb x Hx) as (g & Hg & Hgd & Hgu & q & Hq & Hql).
    exists g. split; [by apply Hwalk|]. split; [done|]. split; [done|]. cbn [pmem set_pmem].
    destruct (decide (g = f)) as [->|]; [exists l'; by rewrite lookup_insert_eq|exists q; by rewrite lookup_insert_ne].
  - intros x y g Hx Hy Hgx Hgy. apply (bk_inj _ _ _ Hb x y g); [done|done|by apply Hwalk|by apply Hwalk].
  - intros x Hx. destruct (bk_page _ _ _ Hb x Hx) as (g & Hg & _).
    rewrite (frame_at_vbyte _ x g) by (by apply Hwalk). cbn [pmem set_pmem].
    destruct (decide (x = v)) as [->|Hne].
    + rewrite lookup_insert_eq. assert (g = f) as -> by (pose proof (Hg true) as E1; pose proof (Hf true) as E2; congruence).
      rewrite (phys_byte_at _ _ l') by apply lookup_insert_eq. unfold l'. rewrite list_lookup_insert_eq by mlia.
      rewrite put_byte_same by mlia. unfold u8. by rewrite Z.mod_small.
    + rewrite lookup_insert_ne by done. rewrite (bk_in _ _ _ Hb x Hx), (frame_at_vbyte _ x g Hg).
      destruct (decide (g = f)) as [->|Hgf].
      * pose proof (bk_inj _ _ _ Hb x v f Hx Hin Hg Hf) as Hpage.
        rewrite (phys_byte_at (<[f := l']> (pmem p)) f l' x) by apply lookup_insert_eq.
        rewrite (phys_byte_at (pmem p) f l x) by done. unfold l'.
        destruct (decide (Z.to_nat (x mod 4096 / 4) = Z.to_nat (v mod 4096 / 4))) as [E|E].
        -- rewrite E, Hw, list_lookup_insert_eq by mlia. rewrite put_byte_other by mlia. done.
        -- by rewrite list_lookup_insert_ne.
      * unfold phys_byte. replace ((g * 4096 + x mod 4096) / 4096) with g by mlia. by rewrite lookup_insert_ne.
  - intros x Hx. rewrite lookup_insert_ne by (by intros ->). by apply (bk_out _ _ _ Hb).
  - intros g i Hg Hu Hi. cbn [pmem set_pmem Paging.frames] in *. rewrite <- (bk_free _ _ _ Hb g i Hg Hu Hi). unfold phys_byte.
    replace ((g * 4096 + i) / 4096) with g by mlia. rewrite lookup_insert_ne; [done|]. by intros ->.
Qed.

(** ** Growth *)

(** [mm_map_page] where the table exists: one entry changes. *)
Lemma map_present_ok p pd paddr v f pt :
  Paging.inv ram p pd → 0 ≤ v < 0xFFC00000 → pd !! Z.to_nat (v / 4194304) = Some (f * 4096 + 3) → pmem p !! f = Some pt →
  ∃ p', mm_map_page junk p paddr v 0x03 = Ok p' ∧
    pmem p' = <[f := <[Z.to_nat (v / 4096 mod 1024) := page_entry paddr 3]> pt]> (pmem p) ∧ cr3 p' = cr3 p ∧
    Paging.frames p' = Paging.frames p ∧ Paging.inv ram p' pd.
Proof.
  intros Hi Hv Hf Hpt. unfold mm_map_page. rewrite index_div, index_mod by lia. cbv zeta.
  set (i := Z.to_nat (v / 4194304)) in *. assert (Hiv : Z.of_nat i = v / 4194304) by (unfold i; mlia).
  assert (Hi' : (i < 1023)%nat) by mlia. rewrite <- Hiv. pose proof (in_map _ _ _ Hi) as Hm.
  rewrite (vload_frame _ _ (cr3 p) pd (Z.of_nat i)); [|by eapply walk_dir; [done|lia]|apply Hm|mlia|lia].
  assert (aget pd (Z.of_nat i) = Ok (f * 4096 + 3)) as -> by (apply aget_Ok; rewrite Nat2Z.id; split; [lia|done]). cbn [mbind res_bind].
  destruct (rm_table _ _ _ Hm i _ Hi' Hf) as [He|(f' & pt' & He & Hfc & Hpt' & Hl)]; [lia|].
  assert (f' = f) as -> by lia. rewrite Hpt in Hpt'. injection Hpt' as <-. clear He.
  destruct (decide (f * 4096 + 3 = 0)) as [|Hne]; [lia|]. rewrite (proj2 (Z.eqb_neq _ _) Hne). cbn [mbind res_bind].
  destruct (lookup_lt_is_Some_2 pt (Z.to_nat (v / 4096 mod 1024))) as [x Hx]; [mlia|].
  replace (4290772992 + 4 * (1024 * Z.of_nat i) + 4 * (v / 4096 mod 1024))
    with (0xFFC00000 + 4096 * Z.of_nat i + 4 * (v / 4096 mod 1024)) by lia.
  rewrite (vload_frame _ _ f pt (v / 4096 mod 1024)); [|by eapply walk_table; [done|done|mlia|]|done|mlia|mlia].
  assert (aget pt (v / 4096 mod 1024) = Ok x) as -> by (apply aget_Ok; split; [mlia|done]). cbn [mbind res_bind].
  fold (page_entry paddr 3).
  replace (0xFFC00000 + 4096 * Z.of_nat i + 4 * (v / 4096 mod 1024))
    with (0xFFC00000 + 4 * (0x400 * Z.of_nat i) + 4 * (v / 4096 mod 1024)) by lia.
  set (p1 := if negb (x =? 0) then _ else p).
  assert (H1 : Paging.inv ram p1 pd ∧ pmem p1 = pmem p ∧ cr3 p1 = cr3 p ∧ Paging.frames p1 = Paging.frames p).
  { unfold p1. case_match; [split; [by apply inv_messages|done]|done]. }
  destruct H1 as (Hi1 & Em & Ec & Ef). clearbody p1. rewrite <- Em in Hpt.
  destruct (store_entry_ok ram p1 pd i (v / 4096 mod 1024) f pt (page_entry paddr 3) Hi1 Hi') as [Hst Hi2]; [mlia|done|done|].
  rewrite Hst. eexists. split; [reflexivity|]. cbn [pmem cr3 Paging.frames set_pmem].
  split_and!; [by rewrite Em|done|done|exact Hi2].
Qed.

Lemma allows_page_entry w paddr : allows w (page_entry paddr 3) = true.
Proof.
  unfold allows, page_entry. rewrite !Z.lor_spec. change (Z.land 3 4095) with 3.
  change (Z.testbit 1 0) with true. change (Z.testbit 3 1) with true. rewrite !orb_true_r. by destruct w.
Qed.

(** A table entry changes: frames other than the table keep their bytes. *)
Lemma phys_byte_else m f l g i : g ≠ f → 0 ≤ i < 4096 → phys_byte (<[f := l]> m) (g * 4096 + i) = phys_byte m (g * 4096 + i).
Proof. intros Hne Hi. unfold phys_byte. replace ((g * 4096 + i) / 4096) with g by mlia. by rewrite lookup_insert_ne. Qed.

Lemma inv_frames p pd fr :
  Paging.inv ram p pd → ps_inv fr → (∀ q, ps_used (Paging.frames p) q → ps_used fr q) → Paging.inv ram (set_frames p fr) pd.
Proof. intros [H1 H2 H3 H4 H5] Hfr Hu. split; cbn; try done; [by apply Hu|]. intros i f Hi Hf. by eapply Hu, H4. Qed.

(** What the growth by one page leaves: the page at the old end is frame [g],
    which was free, all other pages are as before; one page table has changed. *)
Record grown (s : Heap.t A) (p : Paging.t A) (pd : list Z) (g : Z) (fr : A) (p' : Paging.t A) : Prop := {
  gr_inv : Paging.inv ram p' pd;
  gr_cr3 : cr3 p' = cr3 p;
  gr_frames : Paging.frames p' = fr;
  gr_mem : ∃ i ft l, (i < 1023)%nat ∧ pd !! i = Some (ft * 4096 + 3) ∧ pmem p' = <[ft := l]> (pmem p);
  gr_ram : ram g;
  gr_free : ¬ ps_used (Paging.frames p) g;
  gr_used : ∀ q, ps_used fr q ↔ ps_used (Paging.frames p) q ∨ q = g;
  gr_end : kernel_heap_end s + 4096 ≤ 0xE0000000;
  gr_walk : ∀ w x, 0 ≤ x < 0xFFC00000 →
    walk w (pmem p') (cr3 p') x = if x / 4096 =? kernel_heap_end s / 4096 then Some g else walk w (pmem p) (cr3 p) x;
}.

(** The mapping of the new frame is such a growth. *)
Lemma map_grown s p pd code g fr :
  backed s p pd → ps_alloc (Paging.frames p) = Ok (code, Some g, fr) → ps_inv fr → ¬ ps_used (Paging.frames p) g →
  (∀ q, ps_used fr q ↔ ps_used (Paging.frames p) q ∨ q = g) → kernel_heap_end s + 4096 ≤ 0xE0000000 →
  ∃ p', mm_map_page junk (set_frames p fr) (u32 (Z.shiftl g PAGE_SHIFT)) (kernel_heap_end s) 0x03 = Ok p' ∧
        grown s p pd g fr p'.
Proof.
  intros Hb Ha Hfr Hfree Hused Hroom. pose proof (bk_inv _ _ _ Hb) as Hi. pose proof (bk_range _ _ _ Hb) as Hr.
  pose proof (Hram _ _ _ _ (in_src _ _ _ Hi) Ha) as Hgram. destruct (in_ram _ _ _ Hi g Hgram) as (Hgr & _).
  set (v0 := kernel_heap_end s) in *.
  assert (Hi1 : Paging.inv ram (set_frames p fr) pd) by (apply inv_frames; [done..|]; intros q Hq; apply Hused; by left).
  pose proof (in_map _ _ _ Hi) as Hm. set (i := Z.to_nat (v0 / 4194304)). assert (Hi' : (i < 1023)%nat) by (unfold i; mlia).
  destruct (lookup_lt_is_Some_2 pd i) as [e He]; [rewrite (rm_len _ _ _ Hm); lia|].
  destruct (rm_table _ _ _ Hm i e Hi' He) as [->|(ft & pt & -> & Hftc & Hpt & Hptl)].
  { exfalso. apply (bk_tables _ _ _ Hb i); [unfold i; mlia|done]. }
  unfold PAGE_SHIFT. replace (u32 (Z.shiftl g 12)) with (g * 4096) by (rewrite Z.shiftl_mul_pow2, u32_small by lia; lia).
  destruct (map_present_ok (set_frames p fr) pd (g * 4096) v0 ft pt Hi1) as (p' & Hmap & Hmem & Hcr & Hfrm & Hi2); [lia|done|done|].
  cbn [set_frames pmem cr3 Paging.frames] in Hmem, Hcr, Hfrm. exists p'. split; [done|]. split; try done.
  - by eexists i, ft, _.
  - intros w x Hx. assert (Hk : 0 ≤ v0 / 4096 mod 1024 < 1024) by mlia.
    rewrite Hmem, Hcr, (walk_store_any w _ _ pd i _ ft pt _ x Hm Hi' Hk He Hpt Hptl Hx). fold v0.
    replace (Z.of_nat i * 1024 + v0 / 4096 mod 1024) with (v0 / 4096) by (unfold i; mlia).
    case_test; [|done]. rewrite allows_page_entry. f_equal.
    destruct (page_entry_ok (g * 4096) 3) as [_ Hpe]; [lia|mlia|lia|]. mlia.
Qed.

Section growth.
Context (s : Heap.t A) (p : Paging.t A) (pd : list Z) (g : Z) (fr : A) (p' : Paging.t A).
Context (Hb : backed s p pd) (Hg : grown s p pd g fr p').

Lemma grown_old x f : in_heap s x → frame_at p' x f ↔ frame_at p x f.
Proof.
  intros Hx. pose proof (bk_range _ _ _ Hb) as Hr. unfold frame_at, in_heap in *.
  split; intros Hf w; specialize (Hf w); rewrite (gr_walk _ _ _ _ _ _ Hg), (proj2 (Z.eqb_neq _ _)) in * by mlia; done.
Qed.

Lemma grown_new x f : kernel_heap_end s ≤ x < kernel_heap_end s + 4096 → frame_at p' x f ↔ f = g.
Proof.
  intros Hx. pose proof (bk_range _ _ _ Hb) as Hr. pose proof (gr_end _ _ _ _ _ _ Hg).
  assert (Hw : ∀ w, walk w (pmem p') (cr3 p') x = Some g)
    by (intros w; rewrite (gr_walk _ _ _ _ _ _ Hg), (proj2 (Z.eqb_eq _ _)) by mlia; done).
  unfold frame_at. split; [|by intros ->]. intros Hf. specialize (Hf true). rewrite Hw in Hf. congruence.
Qed.

Lemma grown_split x :
  kernel_heap_start s ≤ x < kernel_heap_end s + 4096 → in_heap s x ∨ kernel_heap_end s ≤ x < kernel_heap_end s + 4096.
Proof. unfold in_heap. lia. Qed.

(** Frames that are no page tables keep their bytes. *)
Lemma grown_bytes f j :
  (∀ i, (i < 1023)%nat → pd !! i ≠ Some (f * 4096 + 3)) → 0 ≤ j < 4096 →
  phys_byte (pmem p') (f * 4096 + j) = phys_byte (pmem p) (f * 4096 + j).
Proof.
  intros Hf Hj. destruct (gr_mem _ _ _ _ _ _ Hg) as (i & ft & l & Hi & Hft & ->).
  apply phys_byte_else; [|done]. intros ->. by apply (Hf i).
Qed.

Lemma grown_frame f l :
  data_frame (cr3 p) pd f → pmem p !! f = Some l → pmem p' !! f = Some l.
Proof.
  intros [_ Hf] Hl. destruct (gr_mem _ _ _ _ _ _ Hg) as (i & ft & lt & Hi & Hft & ->).
  rewrite lookup_insert_ne; [done|]. intros ->. by apply (Hf i).
Qed.

(** The new frame holds data: it was free, and the tables are not. *)
Lemma grown_data : data_frame (cr3 p) pd g.
Proof.
  pose proof (bk_inv _ _ _ Hb) as Hi. pose proof (gr_free _ _ _ _ _ _ Hg) as Hfree.
  split; [intros ->; by apply Hfree, (in_dir _ _ _ Hi)|]. intros j Hj Hgj. by apply Hfree, (in_tables _ _ _ Hi j).
Qed.

Lemma grown_page x :
  kernel_heap_start s ≤ x < kernel_heap_end s + 4096 →
  ∃ f, frame_at p' x f ∧ data_frame (cr3 p') pd f ∧ ps_used (Paging.frames p') f ∧
       ∃ l, pmem p' !! f = Some l ∧ length l = 1024%nat.
Proof.
  intros Hx. rewrite (gr_cr3 _ _ _ _ _ _ Hg), (gr_frames _ _ _ _ _ _ Hg). destruct (grown_split x Hx) as [Hs|Hn].
  - destruct (bk_page _ _ _ Hb x Hs) as (f & Hf & Hfd & Hfu & l & Hl & Hll). exists f.
    split; [by apply grown_old|]. split; [done|]. split; [apply (gr_used _ _ _ _ _ _ Hg); by left|].
    exists l. by rewrite (grown_frame f l).
  - destruct (in_ram _ _ _ (bk_inv _ _ _ Hb) g (gr_ram _ _ _ _ _ _ Hg)) as (_ & lg & Hlg & Hlgl).
    exists g. split; [by apply grown_new|]. split; [apply grown_data|].
    split; [apply (gr_used _ _ _ _ _ _ Hg); by right|]. exists lg. rewrite (grown_frame g lg); [done|apply grown_data|done].
Qed.

Lemma grown_inj x y f :
  kernel_heap_start s ≤ x < kernel_heap_end s + 4096 → kernel_heap_start s ≤ y < kernel_heap_end s + 4096 →
  frame_at p' x f → frame_at p' y f → x / 4096 = y / 4096.
Proof.
  intros Hx Hy Hfx Hfy. pose proof (bk_range _ _ _ Hb) as Hr.
  assert (Hng : ∀ z, in_heap s z → ¬ frame_at p' z g).
  { intros z Hz Hf. apply grown_old in Hf; [|done]. destruct (bk_page _ _ _ Hb z Hz) as (q & Hq & _ & Hqu & _).
    pose proof (Hf true) as E1. pose proof (Hq true) as E2. apply (gr_free _ _ _ _ _ _ Hg). congruence. }
  destruct (grown_split x Hx) as [Hsx|Hnx], (grown_split y Hy) as [Hsy|Hny].
  - apply (bk_inj _ _ _ Hb x y f); [done|done|by apply grown_old|by apply grown_old].
  - exfalso. apply grown_new in Hfy as ->; [|done]. by apply (Hng x).
  - exfalso. apply grown_new in Hfx as ->; [|done]. by apply (Hng y).
  - mlia.
Qed.

(** The byte at [x] of the heap, old or new. *)
Lemma grown_byte x :
  kernel_heap_start s ≤ x < kernel_heap_end s + 4096 →
  vbyte p' x = if kernel_heap_end s <=? x then Some (u8 (content g (x - kernel_heap_end s))) else memory s !! x.
Proof.
  intros Hx. pose proof (bk_range _ _ _ Hb) as Hr. destruct (grown_split x Hx) as [Hs|Hn].
  - destruct (bk_page _ _ _ Hb x Hs) as (f & Hf & [Hfc Hfd] & _). rewrite (proj2 (Z.leb_gt _ x)) by (unfold in_heap in Hs; lia).
    rewrite (bk_in _ _ _ Hb x Hs), (frame_at_vbyte p x f Hf), (frame_at_vbyte p' x f) by (by apply grown_old).
    apply grown_bytes; [done|mlia].
  - rewrite (proj2 (Z.leb_le _ x)) by lia. rewrite (frame_at_vbyte p' x g) by (by apply grown_new).
    rewrite grown_bytes by (apply grown_data || mlia).
    rewrite (bk_free _ _ _ Hb g _ (gr_ram _ _ _ _ _ _ Hg) (gr_free _ _ _ _ _ _ Hg)) by mlia. do 3 f_equal. mlia.
Qed.

Lemma grown_backed h f :
  backed (Heap (map_bytes (Z.to_nat Heap.PAGE_SIZE) (memory s) (kernel_heap_end s) (content g) 0) fr
               (kernel_heap_start s) (kernel_heap_end s + 4096) h f) p' pd.
Proof.
  pose proof (bk_range _ _ _ Hb) as Hr. pose proof (gr_end _ _ _ _ _ _ Hg) as Hroom.
  split; unfold in_heap; cbn [memory frames kernel_heap_start kernel_heap_end].
  - apply Hg.
  - apply Hb.
  - symmetry. apply Hg.
  - split_and!; [lia|lia|lia|mlia].
  - exact grown_page.
  - exact grown_inj.
  - intros x Hx. rewrite grown_byte by done. destruct (Z.leb_spec (kernel_heap_end s) x);
      [apply map_bytes_in|apply map_bytes_out]; unfold Heap.PAGE_SIZE; lia.
  - intros x Hx. rewrite map_bytes_out by (unfold Heap.PAGE_SIZE; lia). apply (bk_out _ _ _ Hb). unfold in_heap. lia.
  - intros q j Hq Hu Hj. rewrite (gr_frames _ _ _ _ _ _ Hg) in Hu.
    assert (Hu' : ¬ ps_used (Paging.frames p) q) by (intros Hu'; apply Hu, (gr_used _ _ _ _ _ _ Hg); by left).
    rewrite grown_bytes; [by apply (bk_free _ _ _ Hb)| |done]. intros i Hi Hqi. by apply Hu', (in_tables _ _ _ (bk_inv _ _ _ Hb) i).
Qed.

End growth.

Lemma paged_grow_ok s p pd e s' :
  backed s p pd → heap_grow content s = Ok (e, s') → kernel_heap_end s + 4096 ≤ 0xE0000000 →
  ∃ p', paged_grow p (kernel_heap_end s) = Ok (e, (p', kernel_heap_end s')) ∧ backed s' p' pd.
Proof.
  intros Hb Hg Hroom. pose proof (bk_range _ _ _ Hb) as Hr.
  unfold heap_grow in Hg. unfold paged_grow. rewrite (bk_frames _ _ _ Hb) in Hg.
  destruct (ps_alloc_spec _ (in_src _ _ _ (bk_inv _ _ _ Hb))) as (code & pout & fr & Ha & Hfr & Hp).
  rewrite Ha in Hg |- *. cbn [mbind res_bind] in Hg |- *.
  destruct pout as [g|].
  2:{ destruct Hp as [Hne ->]. rewrite (proj2 (Z.eqb_neq code 0)) in Hg |- * by done. cbn [negb] in Hg |- *. injection Hg as <- <-.
      eexists. split; [reflexivity|]. destruct Hb. by destruct p, s. }
  destruct Hp as (-> & Hfree & Hused). cbn [Z.eqb negb default] in Hg |- *.
  remember (map_bytes _ _ _ _ _) as m1 eqn:Em1 in Hg. injection Hg as <- <-.
  destruct (map_grown s p pd 0 g fr Hb Ha Hfr Hfree Hused Hroom) as (p' & Hmap & Hgr).
  change (id g) with g. rewrite Hmap. cbn [mbind res_bind]. exists p'. split; [done|].
  unfold Heap.PAGE_SIZE in *. rewrite u32_small by lia. subst m1. by apply (grown_backed s p pd g fr).
Qed.

(** ** Runs *)

(** The steps of the heap: a byte is stored, the heap grows, a static changes. *)
Inductive hstep (s : Heap.t A) : Heap.t A → Prop :=
  | hs_store v b m : 0 ≤ b < 256 → store8 (memory s) v b = Ok m → hstep s (set_memory s m)
  | hs_grow e s' : kernel_heap_end s + 4096 ≤ 0xE0000000 → heap_grow content s = Ok (e, s') → hstep s s'
  | hs_static h f : hstep s (Heap (memory s) (frames s) (kernel_heap_start s) (kernel_heap_end s) h f).

(** The steps of the machine below, with the end of the heap. *)
Inductive pstep : Paging.t A * Z → Paging.t A * Z → Prop :=
  | ps_store p e v b p' : vstore_byte p v b = Ok p' → pstep (p, e) (p', e)
  | ps_grow p e c p' e' : paged_grow p e = Ok (c, (p', e')) → pstep (p, e) (p', e').

Lemma hstep_simulated s s' p pd :
  hstep s s' → backed s p pd → ∃ p', rtc pstep (p, kernel_heap_end s) (p', kernel_heap_end s') ∧ backed s' p' pd.
Proof.
  intros Hs Hb. destruct Hs as [v b m Hbyte Hst|e s' Hroom Hg|h f].
  - destruct (vstore_ok s p pd v b m Hb Hst Hbyte) as (p' & Hp' & Hb'). exists p'. split; [|done].
    by apply rtc_once, ps_store with v b.
  - destruct (paged_grow_ok s p pd e s' Hb Hg Hroom) as (p' & Hp' & Hb'). exists p'. split; [|done]. by apply rtc_once, ps_grow with e.
  - exists p. split; [done|]. destruct Hb. by split.
Qed.

Lemma hsteps_simulated s s' p pd :
  rtc hstep s s' → backed s p pd → ∃ p', rtc pstep (p, kernel_heap_end s) (p', kernel_heap_end s') ∧ backed s' p' pd.
Proof.
  intros Hs. revert p. induction Hs as [s|s s1 s2 H1 _ IH]; intros p Hb; [by exists p|].
  destruct (hstep_simulated _ _ _ _ H1 Hb) as (p1 & Hp1 & Hb1). destruct (IH p1 Hb1) as (p2 & Hp2 & Hb2).
  exists p2. split; [by etrans|done].
Qed.

(** ** malloc and free as runs *)

Lemma store32_steps s m a w : store32 (memory s) a w = Ok m → rtc hstep s (set_memory s m).
Proof.
  unfold store32. intros H.
  destruct (store8 (memory s) a _) as [m1|] eqn:E1; [|done]. cbn [mbind res_bind] in H.
  destruct (store8 m1 _ _) as [m2|] eqn:E2; [|done]. cbn [mbind res_bind] in H.
  destruct (store8 m2 _ _) as [m3|] eqn:E3; [|done]. cbn [mbind res_bind] in H.
  eapply rtc_l; [eapply (hs_store s); [|exact E1]; apply Z.mod_pos_bound; lia|].
  eapply rtc_l; [eapply (hs_store (set_memory s m1)); [|exact E2]; apply Z.mod_pos_bound; lia|].
  eapply rtc_l; [eapply (hs_store (set_memory s m2)); [|exact E3]; apply Z.mod_pos_bound; lia|].
  apply rtc_once. eapply (hs_store (set_memory s m3)); [|exact H]. apply Z.mod_pos_bound. lia.
Qed.

Lemma store32_next s0 s m m' a w :
  rtc hstep s0 (set_memory s m) → store32 m a w = Ok m' → rtc hstep s0 (set_memory s m').
Proof. intros Hs Hst. etrans; [exact Hs|]. by apply (store32_steps (set_memory s m) m' a w). Qed.

Lemma static_next s0 s h f :
  rtc hstep s0 s → rtc hstep s0 (Heap (memory s) (frames s) (kernel_heap_start s) (kernel_heap_end s) h f).
Proof. intros Hs. etrans; [exact Hs|]. apply rtc_once, hs_static. Qed.

Lemma set_memory_id (s : Heap.t A) : set_memory s (memory s) = s.
Proof. by destruct s. Qed.

Lemma update_checksum_steps s0 s m m' a :
  rtc hstep s0 (set_memory s m) → update_checksum m a = Ok m' → rtc hstep s0 (set_memory s m').
Proof.
  intros Hs H. unfold update_checksum, set_checksum in H. destruct (COMPUTE_CHECKSUM m a); [|done]. by eapply store32_next.
Qed.

(** Follow a computation that ends in [Ok]. *)
Ltac follow H :=
  repeat match type of H with
  | (_ ← ?m; _) = Ok _ => let E := fresh "E" in destruct m eqn:E; [cbn [mbind res_bind] in H|discriminate H]
  end.

Lemma malloc_reuse_steps s n pv a k q s' : malloc_reuse s n pv a k = Ok (q, s') → rtc hstep s s'.
Proof.
  assert (Hs : rtc hstep s (set_memory s (memory s))) by (by rewrite set_memory_id).
  unfold malloc_reuse, set_next, set_size. intros H. destruct (16 <? k - n).
  - follow H. destruct (negb (pv =? 0)); follow H; injection H as <- <-.
    + eapply store32_next; [|eassumption]. eapply update_checksum_steps; [|eassumption].
      do 3 (eapply store32_next; [|eassumption]). exact Hs.
    + unfold set_freelist. apply (static_next s (set_memory s _)). eapply update_checksum_steps; [|eassumption].
      do 3 (eapply store32_next; [|eassumption]). exact Hs.
  - follow H. injection H as <- <-. eapply update_checksum_steps; [|eassumption]. eapply store32_next; [|eassumption].
    destruct (negb (pv =? 0)); [|injection E as <-; exact Hs]. follow E. by eapply store32_next.
Qed.

Lemma heap_grow_fields s e s' :
  heap_grow content s = Ok (e, s') →
  kernel_heap s' = kernel_heap s ∧
  (kernel_heap_end s' = kernel_heap_end s ∨ kernel_heap_end s' = u32 (kernel_heap_end s + 4096)).
Proof.
  unfold heap_grow. destruct (ps_alloc (frames s)) as [[[err pout] fr]|]; [|done]. cbn [mbind res_bind].
  destruct (negb (err =? 0)); [intros [= <- <-]; by split; [|left]|].
  remember (map_bytes _ _ _ _ _) as m1. intros [= <- <-]. by split; [|right].
Qed.

Lemma grow_steps s size ok s' :
  0 ≤ size → kernel_heap s ≤ kernel_heap_end s → 0 ≤ kernel_heap s → kernel_heap_end s + size + 4096 ≤ 0xE0000000 →
  grow content size s = Ok (ok, s') → rtc hstep s s'.
Proof.
  intros Hsz Hle H0 Hroom Hg.
  set (I := λ s', rtc hstep s s' ∧ kernel_heap s' = kernel_heap s ∧ kernel_heap_end s ≤ kernel_heap_end s' ≤ 0xE0000000).
  pose proof (while_partial I (λ r : bool * Heap.t A, rtc hstep s r.2) (grow_body content size) (grow_fuel size) s) as Hw.
  unfold grow in Hg. rewrite Hg in Hw. apply Hw; [|split; [done|]; split; [done|lia]].
  clear Hw Hg s' ok. intros s1 (Hs1 & Hh & He). unfold grow_body. case_test; [|done].
  destruct (heap_grow content s1) as [[e s2]|] eqn:Hg; [|done]. cbn [mbind res_bind].
  rewrite Hh, u32_small in * by lia.
  assert (Hs2 : rtc hstep s s2) by (etrans; [exact Hs1|]; apply rtc_once, (hs_grow _ e); [lia|exact Hg]).
  case_test; [exact Hs2|]. split; [exact Hs2|].
  destruct (heap_grow_fields _ _ _ Hg) as [Hk [Hend|Hend]]; rewrite Hk, Hend; (split; [done|]); rewrite ?u32_small by lia; lia.
Qed.

Lemma malloc_steps s n a s' :
  0 ≤ n < 4294967280 → 0 ≤ kernel_heap s ≤ kernel_heap_end s → kernel_heap_end s + n + 4128 ≤ 0xE0000000 →
  malloc content fuel s n = Ok (a, s') → rtc hstep s s'.
Proof.
  intros Hn Hh Hroom. destruct (aligned_ok content n) as (Ha1 & Ha2 & Ha3); [lia|]. unfold malloc. intros H. follow H.
  destruct a0 as [[[pv x] k]|]; [by eapply malloc_reuse_steps|].
  unfold malloc_fresh, set_next, set_size in H. rewrite u32_small in H by (change header_size with 16; lia). change header_size with 16 in H.
  destruct (grow content (16 + aligned n) s) as [[ok s1]|] eqn:Hg; [|done]. cbn [mbind res_bind] in H.
  assert (Hs1 : rtc hstep s s1) by (eapply grow_steps; [| | | |exact Hg]; lia).
  destruct ok; cbn [negb] in H; [|by injection H as <- <-]. follow H. injection H as <- <-.
  apply (static_next s (set_memory s1 _)). eapply update_checksum_steps; [|eassumption].
  do 2 (eapply store32_next; [|eassumption]). by rewrite set_memory_id.
Qed.

Lemma free_steps s a s' : free fuel s a = Ok s' → rtc hstep s s'.
Proof.
  assert (Hs : rtc hstep s (set_memory s (memory s))) by (by rewrite set_memory_id).
  unfold free, set_next. intros H. follow H. destruct (negb (a0 =? a1)); [done|]. follow H.
  destruct (negb (Z.land a2 15 =? 0)); [by injection H as <-|]. follow H.
  destruct a3 as [s1|].
  - injection H as <-.
    pose proof (while_partial (λ _, True) (λ r, match r with Some s1 => rtc hstep s s1 | None => True end)
      (free_body s (u32 (a - header_size))) fuel (0, kernel_malloc_freelist s)) as Hw.
    rewrite E2 in Hw. apply Hw; [|done]. clear Hw. intros [prev other] _. unfold free_body, set_next, set_size.
    destruct (other =? 0); [done|]. destruct (get_size _ _) as [fs|]; [|done]. cbn [mbind res_bind].
    destruct (get_size _ other) as [os|]; [|done]. cbn [mbind res_bind].
    destruct (_ =? other).
    + destruct (store32 _ _ _) as [m1|] eqn:S1; [|done]. cbn [mbind res_bind]. destruct (get_next _ _) as [nx|]; [|done]. cbn [mbind res_bind].
      destruct (store32 m1 _ _) as [m2|] eqn:S2; [|done]. cbn [mbind res_bind].
      assert (Hm2 : rtc hstep s (set_memory s m2)) by (do 2 (eapply store32_next; [|eassumption]); exact Hs).
      destruct (prev =? 0); [apply (static_next s (set_memory s m2)), Hm2|].
      destruct (store32 m2 _ _) as [m3|] eqn:S3; [|done]. by eapply store32_next.
    + destruct (_ =? _); [|by destruct (get_next _ _)].
      destruct (store32 _ _ _) as [m1|] eqn:S1; [|done]. by eapply store32_next.
  - follow H. injection H as <-. apply (static_next s (set_memory s _)). by eapply store32_next.
Qed.

Lemma load_ok s p pd v b : backed s p pd → load8 (memory s) v = Ok b → vbyte p v = Some b.
Proof.
  intros Hb Hl. unfold load8 in Hl. destruct (memory s !! v) as [b0|] eqn:Hv; [|done]. injection Hl as <-.
  destruct (decide (in_heap s v)) as [Hin|Hn]; [by rewrite <- (bk_in _ _ _ Hb v Hin)|by rewrite (bk_out _ _ _ Hb v Hn) in Hv].
Qed.

(** The heap after [malloc_init], on page tables as [paging_earlyinit] leaves them. *)
Definition content_of (p : Paging.t A) (f i : Z) : Z :=
  match phys_byte (pmem p) (f * 4096 + i) with Some b => b | None => 0 end.

End heap_pages.

Lemma backed_init {A} `{PS : PageSource A} ram (p : Paging.t A) pd kernel_end :
  Paging.inv ram p pd → kernel_tables pd → 0xC0000000 ≤ kernel_end ≤ 0xE0000000 →
  backed ram (content_of p) (malloc_init ∅ (Paging.frames p) kernel_end) p pd.
Proof.
  intros Hi Hk Hend. unfold malloc_init, Heap.PAGE_SIZE.
  match goal with |- context [Heap _ _ ?s0 _ _ _] => set (st := s0) end.
  assert (0xC0000000 ≤ st ≤ 0xE0000000 ∧ st mod 4096 = 0) as [Hst Hal].
  { unfold st. case_test; [|lia]. rewrite u32_small; mlia. }
  assert (Hnone : ∀ v, ¬ in_heap (Heap ∅ (Paging.frames p) st st st 0) v) by (intros v [H1 H2]; cbn in *; lia).
  split; cbn [memory frames kernel_heap_start kernel_heap_end]; try done.
  - lia.
  - intros v Hv. by apply Hnone in Hv.
  - intros v v' f Hv. by apply Hnone in Hv.
  - intros v Hv. by apply Hnone in Hv.
  - intros f i Hf _ Hii. destruct (in_ram _ _ _ Hi f Hf) as (_ & l & Hl & Hll). unfold content_of.
    replace (f * 4096 + i) with (f * 4096 + i mod 4096) by mlia. rewrite (phys_byte_at _ _ l) by done.
    replace (f * 4096 + i) with (f * 4096 + i mod 4096) by mlia.
    destruct (lookup_lt_is_Some_2 l (Z.to_nat (i mod 4096 / 4))) as [w Hw]; [mlia|]. rewrite Hw. f_equal. unfold u8. by rewrite Z.mod_mod.
Qed.

(** ** Theorem *)

(** C40: the byte memory that malloc and free work on is implemented by the page
    tables: while it is what they show (from [malloc_init] on, [backed_init]), what
    the heap reads the processor reads, and every call of malloc (within the room
    below the MMIO window) and of free is a run of byte stores through the page walk
    and of [heap_grow] with [mm_map_page], after which this still holds. *)
Theorem heap_runs_on_pages {A} `{PS : PageSource A} (ram : Z → Prop)
    (Hram : ∀ (a : A) code p a', ps_inv a → ps_alloc a = Ok (code, Some p, a') → ram p)
    content fuel junk (s : Heap.t A) (p : Paging.t A) pd :
  backed ram content s p pd →
  (∀ v b, load8 (memory s) v = Ok b → vbyte p v = Some b) ∧
  (∀ n a s', 0 ≤ n → 0 ≤ kernel_heap s ≤ kernel_heap_end s → kernel_heap_end s + n + 4128 ≤ 0xE0000000 →
     malloc content fuel s n = Ok (a, s') →
     ∃ p', rtc (pstep junk) (p, kernel_heap_end s) (p', kernel_heap_end s') ∧ backed ram content s' p' pd) ∧
  (∀ a s', free fuel s a = Ok s' →
     ∃ p', rtc (pstep junk) (p, kernel_heap_end s) (p', kernel_heap_end s') ∧ backed ram content s' p' pd).
Proof.
  intros Hb. split; [|split].
  - intros v b. by eapply load_ok.
  - intros n a s' Hn Hh Hroom Hm. eapply hsteps_simulated; [done| |done]. by eapply (malloc_steps content fuel s n); [lia|..].
  - intros a s' Hf. eapply hsteps_simulated; [done| |done]. by eapply free_steps.
Qed.

(** The first block of a heap on the tables of the example in Paging.v. *)
Lemma heap_runs_on_pages_witness :
  ∃ p a s' p' pd, paging_earlyinit 0xC0001000 0xC0002000 0xC0001000 0xC0003F00 ex_boot = Ok p ∧
    malloc (content_of p) 10 (malloc_init ∅ (Paging.frames p) 0xC0003F00) 100 = Ok (a, s') ∧
    rtc (pstep 0) (p, 0xC0004000) (p', kernel_heap_end s') ∧ backed pool_ram (content_of p) s' p' pd.
Proof.
  pose proof (earlyinit_ok pool_ram pool_ram_ok ex_boot 1 2 1 4 ex_boot_dir ex_boot_table 0xC0001000 0xC0003F00 ex_boot_ok
    eq_refl eq_refl) as Hpost.
  change (0xC0000000 + 1 * 4096) with 0xC0001000 in Hpost. change (0xC0000000 + 2 * 4096) with 0xC0002000 in Hpost.
  destruct (paging_earlyinit _ _ _ _ _) as [p|f]; [|destruct Hpost as [_ Hs]; destruct Hs; apply (pool_supply 258 300); lia].
  destruct Hpost as (pd & [H1 H2 _]).
  pose proof (inv_malloc_init (content_of p) ∅ (Paging.frames p) 0xC0003F00) as Hinv.
  destruct (malloc_fresh_ok (content_of p) 10 (malloc_init ∅ (Paging.frames p) 0xC0003F00) ∅ [] 100) as (a & s' & Hm & _);
    [apply Hinv; [lia|apply H1]|done|done|vm_compute; reflexivity|constructor|cbn; lia|].
  destruct (heap_runs_on_pages pool_ram pool_ram_ok (content_of p) 10 0 (malloc_init ∅ (Paging.frames p) 0xC0003F00) p pd
    (backed_init pool_ram p pd 0xC0003F00 H1 H2 ltac:(lia))) as (_ & Hmal & _).
  destruct (Hmal 100 a s') as (p' & Hrun & Hb); [lia|vm_compute; split; discriminate|vm_compute; discriminate|exact Hm|].
  exists p, a, s', p', pd. split; [done|]. split; [exact Hm|]. split; [exact Hrun|exact Hb].
Defined.
