(* ===== verification/MemoryMap.v ===== *)
(** The physical memory map handed over by the boot loader.

    Sources: kernel/kernel/memory/memory_map.c, kernel/include/kernel/memory/memory_map.h.

    The two static arrays of 32 entries and their sizes are the record [t];
    [memory_map_add_region] is the only operation that changes them.  The
    theorem gives the map and the "available" map after any sequence of
    registrations. *)
From S2P Require Import Prelude.

Definition MAX_MEMORY_MAP_SIZE : Z := 32.
Definition MEMORY_MAP_TYPE_AVAILABLE : Z := 1.
Definition MEMORY_MAP_TYPE_ACPI : Z := 3.
Definition MEMORY_MAP_TYPE_HIBERNATE : Z := 4.
Definition MEMORY_MAP_TYPE_INVALID : Z := 5.

Record memory_map_t : Type := Entry { addr : Z; mlength : Z; type : Z }.

#[export] Instance memory_map_t_eq_dec : EqDecision memory_map_t.
Proof. solve_decision. Defined.

Record t : Type := Map {
  _memory_map : list memory_map_t;
  _memory_map_size : Z;
  _memory_map_available : list memory_map_t;
  _memory_map_available_size : Z;
}.

(** The static arrays before [memory_map_initialize]: zeroed. *)
Definition boot_state : t :=
  Map (replicate 32 (Entry 0 0 0)) 0 (replicate 32 (Entry 0 0 0)) 0.

Definition memory_map_initialize (s : t) : t :=
  Map (_memory_map s) 0 (_memory_map_available s) 0.

Definition memory_map_add_region (s : t) (a len ty : Z) : res t :=
  if _memory_map_size s =? MAX_MEMORY_MAP_SIZE then Ok s
  else
    mmap ← aset (_memory_map s) (_memory_map_size s) (Entry a len ty);
    let size := _memory_map_size s + 1 in
    if ty =? MEMORY_MAP_TYPE_AVAILABLE then
      av ← aset (_memory_map_available s) (_memory_map_available_size s) (Entry a len ty);
      Ok (Map mmap size av (_memory_map_available_size s + 1))
    else Ok (Map mmap size (_memory_map_available s) (_memory_map_available_size s)).

(** The entries between [begin] and [end], in the order of the iteration. *)
Definition memory_map_entries (s : t) : list memory_map_t :=
  take (Z.to_nat (_memory_map_size s)) (_memory_map s).

Definition memory_map_available_entries (s : t) : list memory_map_t :=
  take (Z.to_nat (_memory_map_available_size s)) (_memory_map_available s).

Definition _memory_map_type_str (ty : Z) : string :=
  if ty =? MEMORY_MAP_TYPE_AVAILABLE then "Available"%string
  else if ty =? MEMORY_MAP_TYPE_ACPI then "ACPI"%string
  else if ty =? MEMORY_MAP_TYPE_HIBERNATE then "Hibernate"%string
  else if ty =? MEMORY_MAP_TYPE_INVALID then "Invalid"%string
  else "Reserved"%string.

(** The loop over the boot loader's entries. *)
Definition add_regions (s : t) (es : list memory_map_t) : res t :=
  foldl (λ r e, s ← r; memory_map_add_region s (addr e) (mlength e) (type e)) (Ok s) es.

Definition available (e : memory_map_t) : Prop := type e = MEMORY_MAP_TYPE_AVAILABLE.

#[export] Instance available_dec e : Decision (available e).
Proof. unfold available. apply _. Defined.

(** ** Invariant *)

(** Both arrays keep their 32 slots, and the second lists the available entries
    of the first. *)
Definition inv (s : t) : Prop :=
  length (_memory_map s) = 32%nat ∧ length (_memory_map_available s) = 32%nat ∧
  0 ≤ _memory_map_size s ≤ 32 ∧
  0 ≤ _memory_map_available_size s ≤ _memory_map_size s ∧
  memory_map_available_entries s = filter available (memory_map_entries s).

Lemma inv_initialize s :
  length (_memory_map s) = 32%nat → length (_memory_map_available s) = 32%nat →
  inv (memory_map_initialize s).
Proof. intros H1 H2. unfold inv. cbn. split_and!; done || lia. Qed.

Lemma take_insert_snoc {A} (l : list A) (n : nat) (x : A) :
  (n < length l)%nat → take (S n) (<[n := x]> l) = take n l ++ [x].
Proof.
  intros Hn. erewrite take_S_r; [|by apply list_lookup_insert_eq].
  by rewrite take_insert_ge.
Qed.

Lemma add_region_ok s e :
  inv s →
  ∃ s', memory_map_add_region s (addr e) (mlength e) (type e) = Ok s' ∧ inv s' ∧
        memory_map_entries s' = take 32 (memory_map_entries s ++ [e]).
Proof.
  intros Hinv. pose proof Hinv as (Hl1 & Hl2 & Hsz & Hav & Hf).
  destruct e as [a len ty]. unfold memory_map_add_region. cbn [addr mlength type].
  assert (Hlen : length (memory_map_entries s) = Z.to_nat (_memory_map_size s)).
  { unfold memory_map_entries. rewrite length_take. lia. }
  case_test.
  { exists s. split; [done|]. split; [done|]. rewrite take_app_le, take_ge; [done|..];
      unfold MAX_MEMORY_MAP_SIZE in *; lia. }
  unfold MAX_MEMORY_MAP_SIZE in *. rewrite (aset_ok (_memory_map s)) by lia. cbn [mbind res_bind].
  assert (Htake : take (Z.to_nat (_memory_map_size s + 1))
      (<[Z.to_nat (_memory_map_size s) := Entry a len ty]> (_memory_map s))
      = memory_map_entries s ++ [Entry a len ty]).
  { rewrite Z2Nat.inj_add, Nat.add_1_r by lia. apply take_insert_snoc. lia. }
  assert (Hcap : take 32 (memory_map_entries s ++ [Entry a len ty])
                 = memory_map_entries s ++ [Entry a len ty]).
  { apply take_ge. rewrite length_app, Hlen. cbn. lia. }
  assert (Hfl : filter available (memory_map_entries s ++ [Entry a len ty])
      = memory_map_available_entries s ++ filter available [Entry a len ty]).
  { by rewrite filter_app, Hf. }
  case_test.
  - rewrite (aset_ok (_memory_map_available s)) by lia. cbn [mbind res_bind]. eexists. split; [done|].
    split; [|unfold memory_map_entries at 1; cbn; by rewrite Htake, Hcap].
    unfold inv, memory_map_available_entries, memory_map_entries. cbn.
    rewrite !length_insert. split_and!; try done; try lia.
    rewrite Htake, Hfl, filter_cons_True by (unfold available; cbn; congruence).
    rewrite Z2Nat.inj_add, Nat.add_1_r by lia. rewrite take_insert_snoc by lia. done.
  - eexists. split; [done|].
    split; [|unfold memory_map_entries at 1; cbn; by rewrite Htake, Hcap].
    unfold inv, memory_map_available_entries, memory_map_entries. cbn.
    rewrite !length_insert. split_and!; try done; try lia.
    rewrite Htake, Hfl, filter_cons_False by (unfold available; cbn; congruence). by rewrite app_nil_r.
Qed.

Lemma take_take_app {A} n (l k : list A) : take n (take n l ++ k) = take n (l ++ k).
Proof.
  rewrite !take_app, take_take, Nat.min_id, length_take. do 2 f_equal. lia.
Qed.

Lemma add_regions_from s es :
  inv s →
  ∃ s', add_regions s es = Ok s' ∧ inv s' ∧
        memory_map_entries s' = take 32 (memory_map_entries s ++ es).
Proof.
  unfold add_regions. revert s. induction es as [|e es IH]; intros s Hinv.
  - exists s. split; [done|]. split; [done|]. rewrite app_nil_r, take_ge; [done|].
    destruct Hinv as (Hl & _ & Hsz & _). unfold memory_map_entries. rewrite length_take. lia.
  - destruct (add_region_ok s e Hinv) as (s1 & Hs1 & Hinv1 & Hes). cbn [foldl].
    cbn [mbind res_bind]. rewrite Hs1.
    destruct (IH s1 Hinv1) as (s2 & Hs2 & Hinv2 & Hes2). exists s2.
    split; [done|]. split; [done|]. rewrite Hes2, Hes.
    change (e :: es) with ([e] ++ es). rewrite (assoc_L (++)).
    apply take_take_app.
Qed.

(** Registering any sequence of regions never leaves the arrays; the map is
    then the first 32 of them in order, and the available map is exactly the
    entries of type 1 among those. *)
Theorem memory_map_registers es :
  ∃ s, add_regions (memory_map_initialize boot_state) es = Ok s ∧
       memory_map_entries s = take 32 es ∧
       memory_map_available_entries s = filter available (take 32 es) ∧
       inv s.
Proof.
  destruct (add_regions_from (memory_map_initialize boot_state) es) as (s & Hs & Hinv & He).
  { by apply inv_initialize. }
  exists s. split; [done|]. cbn in He. split; [done|]. split; [|done].
  destruct Hinv as (_ & _ & _ & _ & ->). by rewrite He.
Qed.
