(* ===== verification/MemoryRegion.v ===== *)
(** The page frame allocator: a chain of regions, each with a bitmap.

    Sources: kernel/include/kernel/memory/memory_region.h (the inline walkers),
    kernel/kernel/memory/memory_region.c (the allocator and its static state).

    Regions live in a store indexed by their address; pointers are addresses, 0
    is NULL.  The bitmap is the array of 2048 bytes of the struct: [setbit] and
    [getbit] access it by bytes, [find_and_set] by 32-bit little-endian words. *)
From S2P Require Import Prelude CString PageSource.
From stdpp Require Import sorting.
#[local] Open Scope Z_scope.

Definition MEMORY_BITMAP_SIZE : Z := 2048.

Record memory_region_t : Type := Region {
  next : Z;
  base : Z;
  rlength : Z;
  bitmap : list Z;
}.

Abbreviation store := (gmap Z memory_region_t).

Definition set_bitmap (r : memory_region_t) (bm : list Z) : memory_region_t :=
  Region (next r) (base r) (rlength r) bm.

Definition deref (st : store) (p : Z) : res memory_region_t :=
  if p =? 0 then Fault NullDeref
  else match st !! p with Some r => Ok r | None => Fault Unmapped end.

(** Fuel of the walks along [next]: one step per region of the store and one to
    see the end. *)
Definition walk_fuel (st : store) : nat := S (S (size st)).

(** ** memory_region.h *)

Definition memory_region_overlap (region : memory_region_t) (min max : Z) : bool :=
  if max <? base region then false
  else if u32 (base region + rlength region) <? min then false
  else true.

(** [while(region != NULL && page >= region->base + region->length) region = region->next] *)
Definition find_region (st : store) (region page : Z) : res Z :=
  while (walk_fuel st)
    (λ p, if p =? 0 then Ok (Break 0)
          else r ← deref st p;
               Ok (if u32 (base r + rlength r) <=? page then Continue (next r) else Break p))
    region.

Definition memory_region_setbit (st : store) (region page : Z) (set : bool) : res store :=
  p ← find_region st region page;
  if p =? 0 then Ok st
  else
    r ← deref st p;
    if base r <=? page then
      let page := u32 (page - base r) in
      let element := Z.shiftr page 3 in
      let index := u32 (Z.shiftl 1 (page - Z.shiftl element 3)) in
      b ← aget (bitmap r) element;
      bm ← aset (bitmap r) element
             (u8 (if set then Z.lor b index else Z.land b (4294967295 - index)));
      Ok (<[p := set_bitmap r bm]> st)
    else Ok st.

Definition memory_region_getbit (st : store) (region page : Z) : res Z :=
  p ← find_region st region page;
  if p =? 0 then Ok (-1)
  else
    r ← deref st p;
    if base r <? page then
      let page := u32 (page - base r) in
      let element := Z.shiftr page 3 in
      let index := u32 (Z.shiftl 1 (page - Z.shiftl element 3)) in
      b ← aget (bitmap r) element;
      Ok (if Z.land b index =? 0 then 0 else 1)
    else Ok (-1).

(** The bitmap as [uint32_t*]. *)
Definition word_get (bm : list Z) (i : Z) : res Z :=
  b0 ← aget bm (4 * i); b1 ← aget bm (4 * i + 1);
  b2 ← aget bm (4 * i + 2); b3 ← aget bm (4 * i + 3);
  Ok (le_get [b0; b1; b2; b3]).

Definition word_set (bm : list Z) (i w : Z) : res (list Z) :=
  bm ← aset bm (4 * i) (w mod 256);
  bm ← aset bm (4 * i + 1) (w / 256 mod 256);
  bm ← aset bm (4 * i + 2) (w / 65536 mod 256);
  aset bm (4 * i + 3) (w / 16777216 mod 256).

(** The inner loop: the first word with a clear bit; the bit is set and its
    number in the region returned. *)
Definition scan_words (bm : list Z) (n : Z) : res (option (Z * list Z)) :=
  while (S (Z.to_nat n))
    (λ i, if i <? n then
            w ← word_get bm i;
            let x := 4294967295 - w in
            if x =? 0 then Ok (Continue (i + 1))
            else
              f ← Str.ffs 33 x;
              let y := f - 1 in
              bm' ← word_set bm i (Z.lor w (u32 (Z.shiftl 1 y)));
              Ok (Break (Some (i * 32 + y, bm')))
          else Ok (Break None)) 0.

(** The region that had a clear bit and the page, or NULL. *)
Definition memory_region_find_and_set (st : store) (region end_ : Z) : res (option (Z * Z) * store) :=
  while (walk_fuel st)
    (λ p, if (p =? 0) || (p =? end_) then Ok (Break (None, st))
          else
            r ← deref st p;
            s ← scan_words (bitmap r) (rlength r / 32);
            match s with
            | Some (k, bm') => Ok (Break (Some (p, u32 (base r + k)), <[p := set_bitmap r bm']> st))
            | None => Ok (Continue (next r))
            end) region.

(** ** memory_region.c *)

Record t : Type := Alloc {
  regions : store;
  _initial_memory_region : Z;
  _root_memory_region : Z;
  _last_free_region : Z;
}.

(** [memset(_initial_memory_region.bitmap, 0, MEMORY_BITMAP_SIZE)] *)
Definition zero_bitmap : list Z := replicate (Z.to_nat MEMORY_BITMAP_SIZE) 0.

Definition memory_region_early_init (s : t) (b len : Z) : t :=
  let max_size := MEMORY_BITMAP_SIZE * 32 in
  let a := _initial_memory_region s in
  Alloc (<[a := Region 0 b (if max_size <? len then max_size else len)
                  zero_bitmap]> (regions s))
        a a a.

(** The error code and, when it is 0, the page stored through the pointer. *)
Definition memory_region_alloc_page (s : t) : res (Z * option Z * t) :=
  '(r1, st1) ← memory_region_find_and_set (regions s) (_last_free_region s) 0;
  '(r2, st2) ← (match r1 with
                | None => if _last_free_region s =? _root_memory_region s then Ok (None, st1)
                          else memory_region_find_and_set st1 (_root_memory_region s) (_last_free_region s)
                | Some _ => Ok (r1, st1)
                end);
  match r2 with
  | None => Ok (-1, None, Alloc st2 (_initial_memory_region s) (_root_memory_region s) (_last_free_region s))
  | Some (region, page) =>
      Ok (0, Some page, Alloc st2 (_initial_memory_region s) (_root_memory_region s) region)
  end.

Definition memory_region_dealloc_page (s : t) (page : Z) : res t :=
  st ← memory_region_setbit (regions s) (_root_memory_region s) page false;
  Ok (Alloc st (_initial_memory_region s) (_root_memory_region s) (_last_free_region s)).

Definition memory_region_enumerate (s : t) : Z := _root_memory_region s.

(** ** Specification *)

(** Bit [k] of a bitmap: bit [k mod 8] of byte [k / 8]. *)
Definition bm_bit (bm : list Z) (k : Z) : bool :=
  Z.testbit (nth (Z.to_nat (k / 8)) bm 0) (k mod 8).

Definition bm_ok (bm : list Z) : Prop := length bm = 2048%nat ∧ Forall is_byte bm.

(** [bm'] is [bm] with bit [k] set to [v]. *)
Definition bm_update (bm bm' : list Z) (k : Z) (v : bool) : Prop :=
  bm_ok bm' ∧ ∀ j, 0 ≤ j → bm_bit bm' j = if j =? k then v else bm_bit bm j.

(** A region fits its bitmap and the address space. *)
Definition region_ok (r : memory_region_t) : Prop :=
  bm_ok (bitmap r) ∧ 0 ≤ base r ∧ 0 ≤ rlength r ≤ 16384 ∧ base r + rlength r < 4294967296.

(** The pages of a region that [find_and_set] can hand out: whole words only. *)
Definition usable (r : memory_region_t) : Z := 32 * (rlength r / 32).

Definition full (r : memory_region_t) : Prop :=
  ∀ k, 0 ≤ k < usable r → bm_bit (bitmap r) k = true.

(** [l] are the addresses from [p] up to, not including, [e]. *)
Fixpoint segment (st : store) (p e : Z) (l : list Z) : Prop :=
  match l with
  | [] => p = e
  | a :: l => p = a ∧ a ≠ 0 ∧ a ≠ e ∧
              ∃ r, st !! a = Some r ∧ region_ok r ∧ segment st (next r) e l
  end.

(** The outcome of a search along a segment. *)
Definition found (st st' : store) (l : list Z) (a page : Z) : Prop :=
  a ∈ l ∧ ∃ r bm' k, st !! a = Some r ∧ 0 ≤ k < usable r ∧ page = base r + k ∧
    bm_bit (bitmap r) k = false ∧ bm_update (bitmap r) bm' k true ∧
    st' = <[a := set_bitmap r bm']> st.

Definition all_full (st : store) (l : list Z) : Prop :=
  ∀ a r, a ∈ l → st !! a = Some r → full r.

(** ** Bits of the bitmap *)

Lemma nth_lookup_Z (bm : list Z) i b : bm !! i = Some b → nth i bm 0 = b.
Proof. intros H. rewrite nth_lookup, H. done. Qed.

Lemma bm_byte bm i : bm_ok bm → 0 ≤ i < 2048 → ∃ b, aget bm i = Ok b ∧ is_byte b ∧ nth (Z.to_nat i) bm 0 = b.
Proof.
  intros [Hl Hb] Hi. destruct (aget_in bm i) as [b Hg]; [lia|]. exists b. split; [done|].
  apply aget_Ok in Hg as [_ Hg]. split; [|by apply nth_lookup_Z].
  rewrite Forall_lookup in Hb. by eapply Hb.
Qed.

Lemma bm_ok_insert bm i b : bm_ok bm → is_byte b → bm_ok (<[i := b]> bm).
Proof.
  intros [Hl Hb] Hi. split; [by rewrite length_insert|]. by apply Forall_insert.
Qed.

Lemma nth_insert (bm : list Z) i j b :
  (i < length bm)%nat → nth j (<[i := b]> bm) 0 = if decide (i = j) then b else nth j bm 0.
Proof.
  intros Hi. rewrite !nth_lookup. case_decide; subst.
  - by rewrite list_lookup_insert_eq.
  - by rewrite list_lookup_insert_ne.
Qed.

(** Writing a byte that differs from the old one in a single bit. *)
Lemma byte_update bm e y b v :
  bm_ok bm → 0 ≤ e < 2048 → 0 ≤ y < 8 → is_byte b →
  (∀ j, 0 ≤ j < 8 → Z.testbit b j = if j =? y then v else Z.testbit (nth (Z.to_nat e) bm 0) j) →
  bm_update bm (<[Z.to_nat e := b]> bm) (8 * e + y) v.
Proof.
  intros Hbm He Hy Hb Hbits. split; [by apply bm_ok_insert|]. intros j Hj. unfold bm_bit.
  destruct Hbm as [Hl _]. rewrite nth_insert by lia. case_decide as Hd.
  - assert (j / 8 = e) as <- by (apply Z2Nat.inj in Hd; [done|lia|mlia]).
    rewrite Hbits by mlia.
    destruct (Z.eqb_spec (j mod 8) y), (Z.eqb_spec j (8 * (j / 8) + y)); try done; mlia.
  - destruct (Z.eqb_spec j (8 * e + y)); [|done]. exfalso. apply Hd. f_equal. mlia.
Qed.

Lemma testbit_byte_high b j : is_byte b → 8 ≤ j → Z.testbit b j = false.
Proof.
  unfold is_byte. intros Hb Hj. destruct (decide (b = 0)) as [->|]; [apply Z.bits_0|].
  apply Z.bits_above_log2; [lia|]. assert (Z.log2 b < 8); [|lia].
  apply Z.log2_lt_pow2; [lia|]. change (2 ^ 8) with 256. lia.
Qed.

(** The byte [setbit] writes. *)
Lemma setbit_byte b y (v : bool) :
  is_byte b → 0 ≤ y < 8 →
  let b' := u8 (if v then Z.lor b (2 ^ y) else Z.land b (4294967295 - 2 ^ y)) in
  is_byte b' ∧ ∀ j, 0 ≤ j < 8 → Z.testbit b' j = if j =? y then v else Z.testbit b j.
Proof.
  intros Hb Hy b'. split; [apply u8_range|]. intros j Hj. unfold b', u8.
  change 256 with (2 ^ 8). rewrite Z.mod_pow2_bits_low by lia.
  assert (0 ≤ 2 ^ y < 2 ^ 32) by (split; [apply Z.pow_nonneg; lia|apply Z.pow_lt_mono_r; lia]).
  assert (Hc : Z.testbit (4294967295 - 2 ^ y) j = negb (j =? y)).
  { replace (4294967295 - 2 ^ y) with (Z.ldiff (Z.ones 32) (2 ^ y)).
    - rewrite Z.ldiff_spec, Z.ones_spec_low, Z.pow2_bits_eqb by lia. by rewrite Z.eqb_sym.
    - symmetry. apply Z.sub_nocarry_ldiff. apply Z.bits_inj'. intros k Hk.
      rewrite Z.ldiff_spec, Z.bits_0, Z.pow2_bits_eqb by lia.
      destruct (Z.eqb_spec y k); [|done]. by rewrite Z.ones_spec_low by lia. }
  destruct v.
  - rewrite Z.lor_spec, Z.pow2_bits_eqb by lia. rewrite (Z.eqb_sym y j).
    destruct (j =? y); [apply orb_true_r|apply orb_false_r].
  - rewrite Z.land_spec, Hc. destruct (j =? y); [apply andb_false_r|apply andb_true_r].
Qed.

(** ** Words of the bitmap *)

Lemma word_get_ok bm i :
  bm_ok bm → 0 ≤ i < 512 →
  ∃ w, word_get bm i = Ok w ∧ 0 ≤ w < 4294967296 ∧
       ∀ y, 0 ≤ y < 32 → Z.testbit w y = bm_bit bm (32 * i + y).
Proof.
  intros Hbm Hi. unfold word_get.
  destruct (bm_byte bm (4 * i) Hbm) as (b0 & -> & Hb0 & Hn0); [lia|].
  destruct (bm_byte bm (4 * i + 1) Hbm) as (b1 & -> & Hb1 & Hn1); [lia|].
  destruct (bm_byte bm (4 * i + 2) Hbm) as (b2 & -> & Hb2 & Hn2); [lia|].
  destruct (bm_byte bm (4 * i + 3) Hbm) as (b3 & -> & Hb3 & Hn3); [lia|].
  unfold is_byte in *. cbn. eexists. split; [done|]. split; [lia|].
  intros y Hy. unfold bm_bit. rewrite Z.add_0_r.
  rewrite testbit_byte_add by lia; case_test;
    [|rewrite testbit_byte_add by lia; case_test;
      [|rewrite testbit_byte_add by lia; case_test]].
  - rewrite <- Hn0. f_equal; [do 2 f_equal|]; mlia.
  - rewrite <- Hn1. f_equal; [do 2 f_equal|]; mlia.
  - rewrite <- Hn2. f_equal; [do 2 f_equal|]; mlia.
  - rewrite <- Hn3. f_equal; [do 2 f_equal|]; mlia.
Qed.

Lemma testbit_byte_of w c j :
  0 ≤ c → 0 ≤ j < 8 → Z.testbit (w / 2 ^ (8 * c) mod 256) j = Z.testbit w (8 * c + j).
Proof.
  intros Hc Hj. change 256 with (2 ^ 8). rewrite Z.mod_pow2_bits_low by lia.
  rewrite Z.div_pow2_bits by lia. f_equal. lia.
Qed.

Lemma word_set_ok bm i w :
  bm_ok bm → 0 ≤ i < 512 →
  ∃ bm', word_set bm i w = Ok bm' ∧ bm_ok bm' ∧
    ∀ j, 0 ≤ j → bm_bit bm' j = if j / 32 =? i then Z.testbit w (j mod 32) else bm_bit bm j.
Proof.
  intros Hbm Hi. pose proof Hbm as [Hl _]. unfold word_set.
  do 4 (rewrite aset_ok by (rewrite ?length_insert; lia); rewrite ?bind_Ok_l).
  eexists. split; [done|]. split.
  { repeat apply bm_ok_insert; try done; unfold is_byte; mlia. }
  intros j Hj. unfold bm_bit. rewrite !nth_insert by (rewrite ?length_insert; lia).
  pose proof (testbit_byte_of w 0) as H0. pose proof (testbit_byte_of w 1) as H1.
  pose proof (testbit_byte_of w 2) as H2. pose proof (testbit_byte_of w 3) as H3.
  change (2 ^ (8 * 0)) with 1 in H0. rewrite Z.div_1_r in H0.
  change (2 ^ (8 * 1)) with 256 in H1. change (2 ^ (8 * 2)) with 65536 in H2.
  change (2 ^ (8 * 3)) with 16777216 in H3.
  repeat case_decide;
    repeat match goal with H : Z.to_nat _ = Z.to_nat _ |- _ => apply Z2Nat.inj in H; [|lia|mlia] end;
    (destruct (Z.eqb_spec (j / 32) i); [|try (exfalso; mlia)]).
  - rewrite H3 by mlia. f_equal. mlia.
  - rewrite H2 by mlia. f_equal. mlia.
  - rewrite H1 by mlia. f_equal. mlia.
  - rewrite H0 by mlia. f_equal. mlia.
  - exfalso. assert (j / 8 = 4 * i ∨ j / 8 = 4 * i + 1 ∨ j / 8 = 4 * i + 2 ∨ j / 8 = 4 * i + 3) by mlia.
    naive_solver congruence.
  - done.
Qed.

(** ** The scan of one bitmap *)

Lemma testbit_complement w y :
  0 ≤ w < 4294967296 → 0 ≤ y < 32 → Z.testbit (4294967295 - w) y = negb (Z.testbit w y).
Proof.
  intros Hw Hy. replace (4294967295 - w) with (Z.ldiff (Z.ones 32) w).
  - rewrite Z.ldiff_spec, Z.ones_spec_low by lia. done.
  - symmetry. apply Z.sub_nocarry_ldiff. apply Z.bits_inj'. intros k Hk.
    rewrite Z.ldiff_spec, Z.bits_0. destruct (decide (k < 32)).
    + rewrite (Z.ones_spec_low 32 k) by lia. apply andb_false_r.
    + destruct (Z.testbit w k) eqn:Hb; [|done]. exfalso.
      destruct (decide (w = 0)) as [->|]; [by rewrite Z.bits_0 in Hb|].
      rewrite Z.bits_above_log2 in Hb; [done|lia|].
      assert (Z.log2 w < 32); [|lia]. apply Z.log2_lt_pow2; [lia|].
      change (2 ^ 32) with 4294967296. lia.
Qed.

(** The step of the scan at a word that has a clear bit. *)
Lemma scan_hit bm i w :
  bm_ok bm → 0 ≤ i < 512 → 0 ≤ w < 4294967295 →
  (∀ y, 0 ≤ y < 32 → Z.testbit w y = bm_bit bm (32 * i + y)) →
  ∃ f bm', Str.ffs 33 (4294967295 - w) = Ok f ∧ 1 ≤ f ≤ 32 ∧
    word_set bm i (Z.lor w (u32 (Z.shiftl 1 (f - 1)))) = Ok bm' ∧
    bm_bit bm (i * 32 + (f - 1)) = false ∧ bm_update bm bm' (i * 32 + (f - 1)) true.
Proof.
  intros Hbm Hi Hw Hbits.
  destruct (Str.ffs_ok (4294967295 - w) 33) as (f & Hf & (Hfr & Hft & _)); [lia..|].
  rewrite testbit_complement in Hft by lia. apply negb_true_iff in Hft.
  destruct (word_set_ok bm i (Z.lor w (u32 (Z.shiftl 1 (f - 1)))) Hbm Hi)
    as (bm' & Hs & Hbm' & Hb').
  exists f, bm'. split; [done|]. split; [done|]. split; [done|].
  rewrite Hbits in Hft by lia. replace (32 * i) with (i * 32) in Hft by lia.
  split; [done|]. split; [done|]. intros j Hj. rewrite Hb' by done.
  rewrite Z.shiftl_1_l, u32_small.
  2:{ split; [apply Z.pow_nonneg; lia|]. change 4294967296 with (2 ^ 32). apply Z.pow_lt_mono_r; lia. }
  destruct (Z.eqb_spec (j / 32) i) as [<-|]; [|destruct (Z.eqb_spec j (i * 32 + (f - 1))); [mlia|done]].
  rewrite Z.lor_spec, Z.pow2_bits_eqb, Hbits by mlia.
  replace (32 * (j / 32) + j mod 32) with j by mlia.
  destruct (Z.eqb_spec (f - 1) (j mod 32)), (Z.eqb_spec j (j / 32 * 32 + (f - 1)));
    rewrite ?orb_true_r, ?orb_false_r; try done; mlia.
Qed.

Lemma scan_words_ok bm n :
  bm_ok bm → 0 ≤ n ≤ 512 →
  (scan_words bm n = Ok None ∧ ∀ k, 0 ≤ k < 32 * n → bm_bit bm k = true) ∨
  ∃ k bm', scan_words bm n = Ok (Some (k, bm')) ∧ 0 ≤ k < 32 * n ∧
           bm_bit bm k = false ∧ bm_update bm bm' k true.
Proof.
  intros Hbm Hn. unfold scan_words.
  edestruct (while_total (λ i, 0 ≤ i ≤ n ∧ ∀ k, 0 ≤ k < 32 * i → bm_bit bm k = true)
    (λ o, match o with
          | None => ∀ k, 0 ≤ k < 32 * n → bm_bit bm k = true
          | Some (k, bm') => 0 ≤ k < 32 * n ∧ bm_bit bm k = false ∧ bm_update bm bm' k true
          end) (λ i, Z.to_nat (n - i))) as (o & Ho & Hq).
  4:{ rewrite Ho. destruct o as [[k bm']|]; [right|left]; naive_solver. }
  - intros i [Hi Hset]. destruct (Z.ltb_spec i n).
    2:{ right. exists None. split; [done|]. intros k Hk. apply Hset. lia. }
    destruct (word_get_ok bm i Hbm) as (w & -> & Hw & Hbits); [lia|]. cbn [mbind res_bind].
    case_test.
    + left. exists (i + 1). split; [done|]. split; [|lia]. split; [lia|]. intros k Hk.
      destruct (decide (k < 32 * i)); [by apply Hset; lia|].
      replace k with (32 * i + (k - 32 * i)) by lia. rewrite <- Hbits by lia.
      assert (w = Z.ones 32) as -> by (change (Z.ones 32) with 4294967295; lia).
      apply Z.ones_spec_low. lia.
    + right. destruct (scan_hit bm i w Hbm) as (f & bm' & -> & Hf & Hs & Hclr & Hupd); try done; try lia.
      cbn [mbind res_bind]. rewrite Hs. cbn [mbind res_bind]. eexists. split; [done|].
      cbn. split; [lia|done].
  - split; [lia|]. intros k Hk. lia.
  - lia.
Qed.

(** ** Segments of the chain *)

Lemma segment_det st p e l l' : segment st p e l → segment st p e l' → l = l'.
Proof.
  revert p l'. induction l as [|a l IH]; intros p [|b l'] H H'; cbn in *; try done.
  - by destruct H' as (-> & _ & ? & _).
  - by destruct H as (-> & _ & ? & _).
  - destruct H as (-> & _ & _ & r & Hr & _ & Hs), H' as (-> & _ & _ & r' & Hr' & _ & Hs').
    simplify_eq. f_equal. by eapply IH.
Qed.

Lemma segment_app st p e l1 l2 :
  segment st p e (l1 ++ l2) → ∃ q, segment st q e l2 ∧ (l1 = [] → q = p).
Proof.
  revert p. induction l1 as [|a l1 IH]; intros p H; cbn in *; [by exists p|].
  destruct H as (-> & _ & _ & r & _ & _ & Hs). destruct (IH _ Hs) as (q & Hq & _). by exists q.
Qed.

Lemma segment_NoDup st p e l : segment st p e l → NoDup l.
Proof.
  revert p. induction l as [|a l IH]; intros p Hs; [constructor|].
  pose proof Hs as (-> & _ & _ & r & Hr & _ & Hn). constructor; [|by eapply IH].
  intros (l1 & l2 & ->)%list_elem_of_split.
  destruct (segment_app _ _ _ _ _ Hn) as (q & Hq & _). pose proof Hq as (-> & _).
  pose proof (segment_det _ _ _ _ _ Hs Hq) as Heq. apply (f_equal length) in Heq.
  cbn in Heq. rewrite length_app in Heq. cbn in Heq. lia.
Qed.

Lemma segment_lookup st p e l a :
  segment st p e l → a ∈ l → a ≠ 0 ∧ a ≠ e ∧ ∃ r, st !! a = Some r ∧ region_ok r.
Proof.
  revert p. induction l as [|b l IH]; intros p Hs Ha; [by apply not_elem_of_nil in Ha|].
  destruct Hs as (-> & H0 & He & r & Hr & Hok & Hs).
  apply elem_of_cons in Ha as [->|Ha]; [naive_solver|]. by eapply IH.
Qed.

Lemma segment_size st p e l : segment st p e l → (length l ≤ size st)%nat.
Proof.
  intros Hs. pose proof (segment_NoDup _ _ _ _ Hs) as Hnd.
  rewrite <- (size_list_to_set (C := gset Z) l Hnd), <- size_dom.
  apply subseteq_size. intros a Ha. apply elem_of_list_to_set in Ha.
  destruct (segment_lookup _ _ _ _ _ Hs Ha) as (_ & _ & r & Hr & _).
  apply elem_of_dom. by exists r.
Qed.

Lemma segment_split st p e l1 a l2 :
  segment st p e (l1 ++ a :: l2) → segment st p a l1 ∧ segment st a e (a :: l2).
Proof.
  intros Hs. pose proof (segment_NoDup _ _ _ _ Hs) as Hnd. revert p Hs Hnd.
  induction l1 as [|b l1 IH]; intros p Hs Hnd; cbn [app] in *.
  { pose proof Hs as (-> & _). done. }
  apply NoDup_cons in Hnd as [Hb Hnd]. destruct Hs as (-> & H0 & He & r & Hr & Hok & Hs).
  destruct (IH _ Hs Hnd) as [H1 H2]. split; [|done]. cbn. split_and!; try done.
  - intros ->. apply Hb. set_solver.
  - naive_solver.
Qed.

(** Updating the bitmap of a region changes neither the chain nor the ranges. *)
Lemma segment_update st p e l a r bm :
  st !! a = Some r → bm_ok bm → segment st p e l →
  segment (<[a := set_bitmap r bm]> st) p e l.
Proof.
  intros Ha Hbm. revert p. induction l as [|b l IH]; intros p Hs; [done|].
  destruct Hs as (-> & H0 & He & r' & Hr & Hok & Hs). cbn. split_and!; try done.
  destruct (decide (a = b)) as [->|].
  - rewrite lookup_insert_eq. simplify_eq. eexists. split; [done|].
    unfold region_ok in *. cbn. naive_solver.
  - rewrite lookup_insert_ne by done. naive_solver.
Qed.

Lemma deref_ok st p r : p ≠ 0 → st !! p = Some r → deref st p = Ok r.
Proof. intros Hp Hr. unfold deref. test_false (p =? 0). by rewrite Hr. Qed.

(** ** find_and_set *)

Lemma usable_words r : region_ok r → 0 ≤ rlength r / 32 ≤ 512.
Proof. intros (_ & _ & ? & _). mlia. Qed.

Lemma find_and_set_from st e l p fuel :
  segment st p e l → (e = 0 ∨ 0 < e) → (length l < fuel)%nat →
  let search := while fuel
    (λ p, if (p =? 0) || (p =? e) then Ok (Break (None, st))
          else
            r ← deref st p;
            s ← scan_words (bitmap r) (rlength r / 32);
            match s with
            | Some (k, bm') => Ok (Break (Some (p, u32 (base r + k)), <[p := set_bitmap r bm']> st))
            | None => Ok (Continue (next r))
            end) p in
  (search = Ok (None, st) ∧ all_full st l) ∨
  ∃ a page st', search = Ok (Some (a, page), st') ∧ found st st' l a page.
Proof.
  cbv zeta. revert p fuel. induction l as [|a l IH]; intros p fuel Hs He Hf;
    (destruct fuel as [|fuel]; [cbn in Hf; lia|]); cbn [while].
  - cbn in Hs. subst e. left. rewrite Z.eqb_refl, orb_true_r. split; [done|].
    intros a r Ha. by apply not_elem_of_nil in Ha.
  - destruct Hs as (-> & H0 & Hne & r & Hr & Hok & Hs).
    test_false (a =? 0). test_false (a =? e). cbn [orb].
    rewrite (deref_ok st a r) by done. cbn [mbind res_bind].
    pose proof Hok as (Hbm & Hb & Hlen & Hsum).
    destruct (scan_words_ok (bitmap r) (rlength r / 32) Hbm (usable_words r Hok))
      as [[-> Hfull]|(k & bm' & -> & Hk & Hclr & Hupd)]; cbn [mbind res_bind].
    + cbn [length] in Hf.
      destruct (IH (next r) fuel Hs He) as [[-> Haf]|(b & page & st' & -> & Hfd)]; [lia|left|right].
      * split; [done|]. intros b rb Hb' Hrb. apply elem_of_cons in Hb' as [->|Hb'].
        -- simplify_eq. intros k Hk. by apply Hfull.
        -- by eapply Haf.
      * exists b, page, st'. split; [done|]. destruct Hfd as (Hin & Hrest).
        split; [set_solver|done].
    + right. exists a, (base r + k), (<[a := set_bitmap r bm']> st). split.
      { rewrite u32_small; [done|]. mlia. }
      split; [set_solver|]. exists r, bm', k. unfold usable. done.
Qed.

Lemma find_and_set_ok st p e l :
  segment st p e l → (e = 0 ∨ 0 < e) →
  (memory_region_find_and_set st p e = Ok (None, st) ∧ all_full st l) ∨
  ∃ a page st', memory_region_find_and_set st p e = Ok (Some (a, page), st') ∧
                found st st' l a page.
Proof.
  intros Hs He. apply (find_and_set_from st e l p (walk_fuel st) Hs He).
  unfold walk_fuel. pose proof (segment_size _ _ _ _ Hs). lia.
Qed.

(** ** The allocator *)

(** Regions come in the order of their addresses and do not overlap. *)
Definition before (st : store) (a b : Z) : Prop :=
  ∀ ra rb, st !! a = Some ra → st !! b = Some rb → base ra + rlength ra ≤ base rb.

Definition inv (s : t) (l : list Z) : Prop :=
  segment (regions s) (_root_memory_region s) 0 l ∧ _last_free_region s ∈ l ∧
  StronglySorted (before (regions s)) l ∧ Forall (λ a, 0 < a) l.

(** Page [p] belongs to a region of the chain, and its bit is set. *)
Definition in_range (s : t) (l : list Z) (p : Z) : Prop :=
  ∃ a r, a ∈ l ∧ regions s !! a = Some r ∧ base r ≤ p < base r + rlength r.

Definition allocated (s : t) (l : list Z) (p : Z) : Prop :=
  ∃ a r, a ∈ l ∧ regions s !! a = Some r ∧ base r ≤ p < base r + rlength r ∧
         bm_bit (bitmap r) (p - base r) = true.

(** Every page a search looks at is taken. *)
Definition exhausted (s : t) (l : list Z) : Prop := all_full (regions s) l.

Lemma sorted_disjoint st l a b ra rb p :
  StronglySorted (before st) l → a ∈ l → b ∈ l →
  st !! a = Some ra → st !! b = Some rb →
  base ra ≤ p < base ra + rlength ra → base rb ≤ p < base rb + rlength rb → a = b.
Proof.
  induction 1 as [|c l Hs IH Hc]; intros Ha Hb Hra Hrb Hpa Hpb; [by apply not_elem_of_nil in Ha|].
  rewrite Forall_forall in Hc.
  apply elem_of_cons in Ha as [->|Ha], Hb as [ ->|Hb]; try done.
  - specialize (Hc b Hb ra rb Hra Hrb). lia.
  - specialize (Hc a Ha rb ra Hrb Hra). lia.
  - by apply IH.
Qed.

Lemma sorted_update st l a r bm :
  st !! a = Some r → StronglySorted (before st) l →
  StronglySorted (before (<[a := set_bitmap r bm]> st)) l.
Proof.
  intros Ha. induction 1 as [|c l Hs IH Hc]; constructor; [done|].
  rewrite Forall_forall in *. intros b Hb rc rb Hrc Hrb.
  assert (Hold : ∀ x rx, <[a := set_bitmap r bm]> st !! x = Some rx →
            ∃ rx', st !! x = Some rx' ∧ base rx' = base rx ∧ rlength rx' = rlength rx).
  { intros x rx Hx. destruct (decide (a = x)) as [->|].
    - rewrite lookup_insert_eq in Hx. simplify_eq. by exists r.
    - rewrite lookup_insert_ne in Hx by done. by exists rx. }
  destruct (Hold c rc Hrc) as (rc' & Hrc' & ? & ?).
  destruct (Hold b rb Hrb) as (rb' & Hrb' & ? & ?).
  pose proof (Hc b Hb rc' rb' Hrc' Hrb'). lia.
Qed.

(** Changing bits of a region keeps the chain well formed. *)
Lemma inv_update s l a r bm lf :
  inv s l → regions s !! a = Some r → bm_ok bm → lf ∈ l →
  inv (Alloc (<[a := set_bitmap r bm]> (regions s)) (_initial_memory_region s)
             (_root_memory_region s) lf) l.
Proof.
  intros (Hseg & _ & Hsort & Hpos) Hr Hbm Hlf. unfold inv. cbn.
  split_and!; try done; [by apply segment_update|by apply sorted_update].
Qed.

(** The effect of changing bit [k] of region [a] on the allocated pages. *)
Lemma allocated_update s l a r bm k v lf :
  inv s l → a ∈ l → regions s !! a = Some r → 0 ≤ k < rlength r →
  bm_update (bitmap r) bm k v →
  let s' := Alloc (<[a := set_bitmap r bm]> (regions s)) (_initial_memory_region s)
                  (_root_memory_region s) lf in
  ∀ q, allocated s' l q ↔ if decide (q = base r + k) then v = true else allocated s l q.
Proof.
  intros (Hseg & _ & Hsort & _) Ha Hr Hk [_ Hbits] s' q. unfold allocated. cbn.
  assert (Hdisj : ∀ b rb, b ∈ l → regions s !! b = Some rb →
            base rb ≤ base r + k < base rb + rlength rb → b = a).
  { intros b rb Hb Hrb Hrng. eapply (sorted_disjoint _ l b a rb r (base r + k)); try done. lia. }
  split.
  - intros (b & rb & Hb & Hrb & Hrng & Hbit). destruct (decide (a = b)) as [->|Hne].
    + rewrite lookup_insert_eq in Hrb. simplify_eq. cbn in *. rewrite Hbits in Hbit by lia.
      destruct (Z.eqb_spec (q - base r) k); case_decide; try lia; try done. by exists b, r.
    + rewrite lookup_insert_ne in Hrb by done. case_decide as Hd; [|by exists b, rb].
      subst q. exfalso. apply Hne. symmetry. by eapply Hdisj.
  - case_decide as Hd.
    + intros ->. exists a. eexists. rewrite lookup_insert_eq. split; [done|]. split; [done|].
      cbn. rewrite Hbits by lia. test_true (q - base r =? k). split; [lia|done].
    + intros (b & rb & Hb & Hrb & Hrng & Hbit). destruct (decide (a = b)) as [->|Hne].
      * simplify_eq. exists b. eexists. rewrite lookup_insert_eq. split; [done|]. split; [done|].
        cbn. rewrite Hbits by lia. test_false (q - base r =? k). done.
      * exists b, rb. by rewrite lookup_insert_ne by done.
Qed.

Lemma found_inv s l l' st' a page :
  inv s l → l' ⊆ l → found (regions s) st' l' a page →
  let s' := Alloc st' (_initial_memory_region s) (_root_memory_region s) a in
  inv s' l ∧ in_range s l page ∧ ¬ allocated s l page ∧
  ∀ q, allocated s' l q ↔ allocated s l q ∨ q = page.
Proof.
  intros Hinv Hsub (Ha & r & bm' & k & Hr & Hk & -> & Hclr & Hupd & ->) s'.
  pose proof Hinv as (Hseg & Hlf & Hsort & Hpos). apply Hsub in Ha.
  destruct (segment_lookup _ _ _ _ _ Hseg Ha) as (_ & _ & r' & Hr' & Hok).
  assert (r' = r) as -> by congruence. clear Hr'.
  assert (Hkr : 0 ≤ k < rlength r) by (unfold usable in Hk; mlia).
  assert (Hna : ¬ allocated s l (base r + k)).
  { intros (b & rb & Hb & Hrb & Hrng & Hbit).
    assert (b = a) as -> by (eapply (sorted_disjoint _ l b a rb r); try done; lia).
    assert (rb = r) as -> by congruence. replace (base r + k - base r) with k in Hbit by lia. congruence. }
  split_and!; try done.
  - apply inv_update; [done|done|apply Hupd|done].
  - exists a, r. split; [done|]. split; [done|]. lia.
  - intros q. unfold s'. rewrite (allocated_update s l a r bm' k true a) by done.
    case_decide; [naive_solver|]. naive_solver.
Qed.

Lemma alloc_page_ok s l :
  inv s l →
  ∃ code pout s', memory_region_alloc_page s = Ok (code, pout, s') ∧ inv s' l ∧
    match pout with
    | None => code = -1 ∧ s' = s ∧ exhausted s l
    | Some page => code = 0 ∧ in_range s l page ∧ ¬ allocated s l page ∧
                   ∀ q, allocated s' l q ↔ allocated s l q ∨ q = page
    end.
Proof.
  intros Hinv. pose proof Hinv as (Hseg & Hlf & Hsort & Hpos).
  rewrite Forall_forall in Hpos. pose proof (Hpos _ Hlf) as Hlfpos.
  pose proof Hlf as (l1 & l2 & Hl)%list_elem_of_split.
  rewrite Hl in Hseg. destruct (segment_split _ _ _ _ _ _ Hseg) as [Hs1 Hs2].
  unfold memory_region_alloc_page.
  destruct (find_and_set_ok _ _ _ _ Hs2) as [[-> Hf2]|(a & page & st' & -> & Hfd)]; [by left| |].
  2:{ cbn. do 3 eexists. split; [done|].
      destruct (found_inv s l (_last_free_region s :: l2) st' a page Hinv) as (? & ? & ? & ?);
        [rewrite Hl; set_solver|done|]. done. }
  cbn [mbind res_bind]. case_test.
  - destruct l1 as [|b l1]; [|destruct Hs1 as (Hb & _ & Hne & _); congruence].
    cbn. destruct s as [st i root lf]. cbn in *. do 3 eexists. split; [done|].
    split; [done|]. split; [done|]. split; [done|]. by rewrite Hl.
  - destruct (find_and_set_ok _ _ _ _ Hs1) as [[-> Hf1]|(a & page & st' & -> & Hfd)];
      [by right|cbn..].
    + destruct s as [st i root lf]. cbn in *. do 3 eexists. split; [done|].
      split; [done|]. split; [done|]. split; [done|]. rewrite Hl. intros a r Ha Hr.
      apply elem_of_app in Ha as [Ha|Ha]; [by eapply Hf1|by eapply Hf2].
    + do 3 eexists. split; [done|].
      destruct (found_inv s l l1 st' a page Hinv) as (? & ? & ? & ?);
        [rewrite Hl; set_solver|done|]. done.
Qed.

(** ** setbit, getbit and deallocation *)

Lemma find_region_from st l page p fuel :
  segment st p 0 l → (length l < fuel)%nat →
  ∃ q, while fuel
    (λ p, if p =? 0 then Ok (Break 0)
          else r ← deref st p;
               Ok (if u32 (base r + rlength r) <=? page then Continue (next r) else Break p)) p
    = Ok q ∧
    ((q = 0 ∧ ∀ a r, a ∈ l → st !! a = Some r → base r + rlength r ≤ page) ∨
     ∃ l1 l2 r, l = l1 ++ q :: l2 ∧ q ≠ 0 ∧ st !! q = Some r ∧ region_ok r ∧
       page < base r + rlength r ∧
       ∀ a r, a ∈ l1 → st !! a = Some r → base r + rlength r ≤ page).
Proof.
  revert p fuel. induction l as [|a l IH]; intros p fuel Hs Hf;
    (destruct fuel as [|fuel]; [cbn in Hf; lia|]); cbn [while].
  - cbn in Hs. subst p. exists 0. split; [done|]. left. split; [done|].
    intros a r Ha. by apply not_elem_of_nil in Ha.
  - destruct Hs as (-> & H0 & _ & r & Hr & Hok & Hs). test_false (a =? 0).
    rewrite (deref_ok st a r) by done. cbn [mbind res_bind].
    pose proof Hok as (_ & Hb & Hlen & Hsum). rewrite u32_small by lia. cbn [length] in Hf.
    case_test.
    + destruct (IH (next r) fuel Hs) as (q & -> & [[-> Hall]|(l1 & l2 & rq & -> & Hrest)]); [lia|..].
      * exists 0. split; [done|]. left. split; [done|]. intros b rb Hb' Hrb.
        apply elem_of_cons in Hb' as [->|Hb']; [by simplify_eq|by eapply Hall].
      * exists q. split; [done|]. right. exists (a :: l1), l2, rq. split; [done|].
        destruct Hrest as (? & ? & ? & ? & Hall). split_and!; try done.
        intros b rb Hb' Hrb. apply elem_of_cons in Hb' as [->|Hb']; [by simplify_eq|by eapply Hall].
    + exists a. split; [done|]. right. exists [], l, r. split_and!; try done.
      intros b rb Hb'. by apply not_elem_of_nil in Hb'.
Qed.

Lemma find_region_ok st l page p :
  segment st p 0 l →
  ∃ q, find_region st p page = Ok q ∧
    ((q = 0 ∧ ∀ a r, a ∈ l → st !! a = Some r → base r + rlength r ≤ page) ∨
     ∃ l1 l2 r, l = l1 ++ q :: l2 ∧ q ≠ 0 ∧ st !! q = Some r ∧ region_ok r ∧
       page < base r + rlength r ∧
       ∀ a r, a ∈ l1 → st !! a = Some r → base r + rlength r ≤ page).
Proof.
  intros Hs. apply find_region_from; [done|]. unfold walk_fuel.
  pose proof (segment_size _ _ _ _ Hs). lia.
Qed.

Lemma sorted_app_before st l1 q l2 a :
  StronglySorted (before st) (l1 ++ q :: l2) → a ∈ l2 → before st q a.
Proof.
  intros Hsort Ha. induction l1 as [|b l1 IH]; cbn in Hsort;
    apply StronglySorted_inv in Hsort as [Hs Hq].
  - rewrite Forall_forall in Hq. by apply Hq.
  - by apply IH.
Qed.

(** In a sorted chain the walk stops at the region of the page. *)
Lemma find_region_in s l page a r :
  inv s l → a ∈ l → regions s !! a = Some r → base r ≤ page < base r + rlength r →
  find_region (regions s) (_root_memory_region s) page = Ok a ∧ a ≠ 0 ∧ region_ok r.
Proof.
  intros (Hs & _ & Hsort & _) Ha Hr Hp.
  destruct (segment_lookup _ _ _ _ _ Hs Ha) as (H0 & _ & r' & Hr' & Hok).
  assert (r' = r) as -> by congruence.
  destruct (find_region_ok _ _ page _ Hs) as (q & -> & [[-> Hall]|(l1 & l2 & rq & -> & Hq0 & Hrq & _ & Hlt & Hall)]).
  { specialize (Hall a r Ha Hr). lia. }
  apply elem_of_app in Ha as [Ha|Ha]; [specialize (Hall a r Ha Hr); lia|].
  apply elem_of_cons in Ha as [->|Ha]; [done|]. exfalso.
  pose proof (sorted_app_before _ _ _ _ a Hsort Ha) as Hqa.
  specialize (Hqa rq r Hrq Hr). lia.
Qed.

(** Byte and bit of page offset [k]. *)
Lemma bit_position k : 0 ≤ k < 16384 →
  Z.shiftr k 3 = k / 8 ∧ u32 (Z.shiftl 1 (k - Z.shiftl (Z.shiftr k 3) 3)) = 2 ^ (k mod 8).
Proof.
  intros Hk. rewrite Z.shiftl_1_l, Z.shiftr_div_pow2, Z.shiftl_mul_pow2 by lia.
  change (2 ^ 3) with 8. split; [done|]. replace (k - k / 8 * 8) with (k mod 8) by mlia.
  apply u32_small. split; [apply Z.pow_nonneg; lia|].
  change 4294967296 with (2 ^ 32). apply Z.pow_lt_mono_r; mlia.
Qed.

Lemma setbit_in s l page v a r :
  inv s l → a ∈ l → regions s !! a = Some r → base r ≤ page < base r + rlength r →
  ∃ bm, memory_region_setbit (regions s) (_root_memory_region s) page v
        = Ok (<[a := set_bitmap r bm]> (regions s)) ∧
        bm_update (bitmap r) bm (page - base r) v.
Proof.
  intros Hinv Ha Hr Hp. unfold memory_region_setbit.
  destruct (find_region_in s l page a r Hinv Ha Hr Hp) as (-> & H0 & Hbm & Hb & Hlen & Hsum).
  cbn [mbind res_bind]. test_false (a =? 0). rewrite (deref_ok _ a r) by done. cbn [mbind res_bind].
  test_true (base r <=? page). rewrite (u32_small (page - base r)) by lia.
  destruct (bit_position (page - base r)) as [-> Hidx]; [lia|]. rewrite Hidx.
  destruct (bm_byte (bitmap r) ((page - base r) / 8) Hbm) as (b & -> & Hbb & Hnth); [mlia|].
  cbn [mbind res_bind]. pose proof Hbm as [Hl _]. rewrite aset_ok by mlia. cbn [mbind res_bind].
  eexists. split; [done|].
  destruct (setbit_byte b ((page - base r) mod 8) v Hbb) as [Hb1 Hb2]; [mlia|].
  assert (8 * ((page - base r) / 8) + (page - base r) mod 8 = page - base r) as Hk by mlia.
  eapply (eq_rect _ (λ k, bm_update _ _ k v)); [|exact Hk].
  apply byte_update; try done; try mlia. intros j Hj. rewrite Hnth. by apply Hb2.
Qed.

Lemma setbit_out s l page v :
  inv s l → ¬ in_range s l page →
  memory_region_setbit (regions s) (_root_memory_region s) page v = Ok (regions s).
Proof.
  intros (Hs & _) Hout. unfold memory_region_setbit.
  destruct (find_region_ok _ _ page _ Hs) as (q & -> & [[-> _]|(l1 & l2 & r & -> & H0 & Hr & _ & Hlt & _)]);
    cbn [mbind res_bind]; [done|].
  test_false (q =? 0). rewrite (deref_ok _ q r) by done. cbn [mbind res_bind].
  case_test; [|done]. exfalso. apply Hout. exists q, r. split; [set_solver|]. split; [done|lia].
Qed.

(** [getbit] reads the bit of every page of a region except its first one. *)
Lemma getbit_in s l page a r :
  inv s l → a ∈ l → regions s !! a = Some r → base r ≤ page < base r + rlength r →
  memory_region_getbit (regions s) (_root_memory_region s) page
  = Ok (if page =? base r then -1 else if bm_bit (bitmap r) (page - base r) then 1 else 0).
Proof.
  intros Hinv Ha Hr Hp. unfold memory_region_getbit.
  destruct (find_region_in s l page a r Hinv Ha Hr Hp) as (-> & H0 & Hok).
  cbn [mbind res_bind]. test_false (a =? 0). rewrite (deref_ok _ a r) by done.
  cbn [mbind res_bind].
  destruct (Z.ltb_spec (base r) page); [|by test_true (page =? base r)].
  test_false (page =? base r). destruct Hok as (Hbm & Hb & Hlen & Hsum).
  rewrite (u32_small (page - base r)) by lia.
  destruct (bit_position (page - base r)) as [-> Hidx]; [lia|]. rewrite Hidx.
  destruct (bm_byte (bitmap r) ((page - base r) / 8) Hbm) as (b & -> & _ & Hnth); [mlia|].
  cbn [mbind res_bind]. rewrite Str.land_pow2 by mlia. unfold bm_bit. rewrite Hnth.
  destruct (Z.testbit b _); [|done].
  assert (0 < 2 ^ ((page - base r) mod 8)) by (apply Z.pow_pos_nonneg; mlia).
  by test_false (2 ^ ((page - base r) mod 8) =? 0).
Qed.

Lemma dealloc_page_ok s l page :
  inv s l →
  ∃ s', memory_region_dealloc_page s page = Ok s' ∧ inv s' l ∧
        ∀ q, allocated s' l q ↔ allocated s l q ∧ q ≠ page.
Proof.
  intros Hinv. pose proof Hinv as (Hseg & Hlf & Hsort & Hpos). unfold memory_region_dealloc_page.
  assert (Hdec : in_range s l page ∨ ¬ in_range s l page).
  { destruct (find_region_ok _ _ page _ Hseg) as (q & _ & [[_ Hall]|(l1 & l2 & r & -> & _ & Hr & _ & Hlt & Hall)]).
    - right. intros (a & r & Ha & Hr & Hp). specialize (Hall a r Ha Hr). lia.
    - destruct (decide (base r ≤ page)).
      + left. exists q, r. split; [set_solver|done].
      + right. intros (a & ra & Ha & Hra & Hp).
        apply elem_of_app in Ha as [Ha|Ha]; [specialize (Hall a ra Ha Hra); lia|].
        apply elem_of_cons in Ha as [->|Ha]; [simplify_eq; lia|].
        pose proof (sorted_app_before _ _ _ _ a Hsort Ha) as Hqa.
        specialize (Hqa r ra Hr Hra). lia. }
  destruct Hdec as [(a & r & Ha & Hr & Hp)|Hout].
  - destruct (setbit_in s l page false a r Hinv Ha Hr Hp) as (bm & -> & Hupd). cbn [mbind res_bind].
    eexists. split; [done|]. split.
    + apply inv_update; [done|done|apply Hupd|done].
    + intros q. rewrite (allocated_update s l a r bm (page - base r) false) by (done || lia).
      replace (base r + (page - base r)) with page by lia. case_decide; naive_solver.
  - rewrite (setbit_out s l page false Hinv Hout). cbn. destruct s. eexists. split; [done|].
    split; [done|]. intros q. split; [|naive_solver]. intros Hq. split; [done|]. intros ->.
    apply Hout. destruct Hq as (a & r & ? & ? & ? & _). by exists a, r.
Qed.

(** ** Initialisation *)

Lemma nth_zero_bitmap i : nth i zero_bitmap 0 = 0.
Proof.
  rewrite nth_lookup. destruct (zero_bitmap !! i) eqn:Hi; [|done].
  by apply lookup_replicate in Hi as [-> _].
Qed.

Lemma early_init_inv s b len :
  0 < _initial_memory_region s → 0 ≤ b → 0 ≤ len ≤ 16384 → b + len < 4294967296 →
  let s' := memory_region_early_init s b len in
  inv s' [_initial_memory_region s] ∧ ∀ p, ¬ allocated s' [_initial_memory_region s] p.
Proof.
  intros Ha Hb Hlen Hsum s'. unfold s', memory_region_early_init, MEMORY_BITMAP_SIZE.
  test_false (2048 * 32 <? len). split.
  - unfold inv. cbn [regions _root_memory_region _last_free_region segment].
    split; [|split; [by apply list_elem_of_singleton|split; by repeat constructor]].
    split; [done|]. split; [lia|]. split; [lia|].
    eexists. rewrite lookup_insert_eq. split; [done|]. split; [|done].
    split; [|cbn [base rlength]; lia]. split; [apply length_replicate|].
    apply Forall_replicate. unfold is_byte. lia.
  - intros p (a & r & Hin & Hr & _ & Hbit). apply list_elem_of_singleton in Hin as ->.
    cbn [regions] in Hr. rewrite lookup_insert_eq in Hr. injection Hr as <-.
    unfold bm_bit in Hbit. cbn [bitmap base] in Hbit.
    by rewrite nth_zero_bitmap, Z.bits_0 in Hbit.
Qed.

(** A state for the witnesses: one region of 64 pages based at page 256. *)
Definition demo : t := memory_region_early_init (Alloc ∅ 4096 0 0) 256 64.

Lemma demo_inv : inv demo [4096].
Proof. apply (early_init_inv (Alloc ∅ 4096 0 0) 256 64); cbn; lia. Qed.

(** ** Properties *)

(** C4: Page allocation. Whenever the chain is well formed the call returns: the
    error -1, with every usable page taken and nothing changed, or 0 with a page
    of a region that was not allocated; the set of allocated pages then grows by
    exactly that page and the chain stays well formed. *)
Theorem alloc_page_correct s l :
  inv s l →
  ∃ code pout s', memory_region_alloc_page s = Ok (code, pout, s') ∧ inv s' l ∧
    match pout with
    | None => code = -1 ∧ s' = s ∧ exhausted s l
    | Some page => code = 0 ∧ in_range s l page ∧ ¬ allocated s l page ∧
                   ∀ q, allocated s' l q ↔ allocated s l q ∨ q = page
    end.
Proof. apply alloc_page_ok. Qed.

Lemma alloc_page_correct_witness :
  ∃ code pout s', memory_region_alloc_page demo = Ok (code, pout, s') ∧ inv s' [4096] ∧
    match pout with
    | None => code = -1 ∧ s' = demo ∧ exhausted demo [4096]
    | Some page => code = 0 ∧ in_range demo [4096] page ∧ ¬ allocated demo [4096] page ∧
                   ∀ q, allocated s' [4096] q ↔ allocated demo [4096] q ∨ q = page
    end.
Proof. apply (alloc_page_correct demo [4096]). apply demo_inv. Defined.

(** C19: Deallocation removes exactly the given page from the allocated pages (no
    page at all when no region holds it) and keeps the chain well formed. *)
Theorem dealloc_page_correct s l page :
  inv s l →
  ∃ s', memory_region_dealloc_page s page = Ok s' ∧ inv s' l ∧
        ∀ q, allocated s' l q ↔ allocated s l q ∧ q ≠ page.
Proof. apply dealloc_page_ok. Qed.

Lemma dealloc_page_correct_witness :
  ∃ s', memory_region_dealloc_page demo 300 = Ok s' ∧ inv s' [4096] ∧
        ∀ q, allocated s' [4096] q ↔ allocated demo [4096] q ∧ q ≠ 300.
Proof. apply (dealloc_page_correct demo [4096] 300). apply demo_inv. Defined.

(** The allocator over the chain [l] is a page source. *)
#[refine] Definition region_source (l : list Z) : PageSource t := {|
  ps_alloc := memory_region_alloc_page;
  ps_inv := λ s, inv s l;
  ps_used := λ s, allocated s l;
|}.
Proof.
  intros s Hs. destruct (alloc_page_ok s l Hs) as (code & pout & s' & Ha & Hi & Hp).
  exists code, pout, s'. split; [done|]. split; [done|].
  destruct pout; [naive_solver|]. destruct Hp as (-> & -> & _). done.
Defined.

(** [n] allocations in a row; the pages handed out, up to the first failure. *)
Fixpoint alloc_pages (n : nat) (s : t) : res (list Z * t) :=
  match n with
  | O => Ok ([], s)
  | S n =>
      '(_, pout, s') ← memory_region_alloc_page s;
      match pout with
      | None => Ok ([], s')
      | Some p => '(ps, s'') ← alloc_pages n s'; Ok (p :: ps, s'')
      end
  end.

(** No page is handed out twice: [n] allocations in a row return distinct
    pages, none of them allocated before, and they stop short of [n] only when
    the regions are exhausted. *)
Theorem alloc_pages_distinct n s l :
  inv s l →
  ∃ ps s', alloc_pages n s = Ok (ps, s') ∧ inv s' l ∧ NoDup ps ∧
    (∀ p, p ∈ ps → ¬ allocated s l p) ∧ (∀ p, allocated s' l p ↔ allocated s l p ∨ p ∈ ps) ∧
    (length ps = n ∨ exhausted s' l).
Proof.
  revert s. induction n as [|n IH]; intros s Hinv; cbn [alloc_pages].
  { exists [], s. split_and!; try done; [constructor|set_solver..|by left]. }
  destruct (alloc_page_ok s l Hinv) as (code & [p|] & s1 & -> & Hinv1 & Hspec); cbn.
  - destruct Hspec as (_ & _ & Hfresh & Hset).
    destruct (IH s1 Hinv1) as (ps & s2 & -> & Hinv2 & Hnd & Hnew & Hall & Hlen). cbn.
    exists (p :: ps), s2. split; [done|]. split; [done|]. split_and!.
    + constructor; [|done]. intros Hp. apply (Hnew p Hp). rewrite Hset. by right.
    + intros q [->|Hq]%elem_of_cons; [done|]. intros Ha. apply (Hnew q Hq). rewrite Hset. by left.
    + intros q. rewrite Hall, Hset, elem_of_cons. tauto.
    + destruct Hlen; [left; cbn; lia|by right].
  - destruct Hspec as (_ & -> & Hex). exists [], s. split_and!; try done; [constructor|set_solver..|by right].
Qed.

Lemma alloc_pages_distinct_witness :
  ∃ ps s', alloc_pages 3 demo = Ok (ps, s') ∧ inv s' [4096] ∧ NoDup ps ∧
    (∀ p, p ∈ ps → ¬ allocated demo [4096] p) ∧
    (∀ p, allocated s' [4096] p ↔ allocated demo [4096] p ∨ p ∈ ps) ∧
    (length ps = 3%nat ∨ exhausted s' [4096]).
Proof. apply (alloc_pages_distinct 3 demo [4096]). apply demo_inv. Defined.

(** [getbit] after [setbit] reads the bit that was written, for every page of
    the chain except the first page of a region: that one is written by
    [setbit] ([page >= base]) but reported as -1, not found, by [getbit]
    ([page > base]). *)
Theorem getbit_after_setbit s l page v a r :
  inv s l → a ∈ l → regions s !! a = Some r → base r ≤ page < base r + rlength r →
  ∃ st, memory_region_setbit (regions s) (_root_memory_region s) page v = Ok st ∧
        memory_region_getbit st (_root_memory_region s) page
        = Ok (if page =? base r then -1 else if v then 1 else 0).
Proof.
  intros Hinv Ha Hr Hp. destruct (setbit_in s l page v a r Hinv Ha Hr Hp) as (bm & -> & Hbm).
  eexists. split; [done|].
  set (s' := Alloc (<[a := set_bitmap r bm]> (regions s)) (_initial_memory_region s)
               (_root_memory_region s) (_last_free_region s)).
  assert (Hinv' : inv s' l) by (apply inv_update; [done|done|apply Hbm|apply Hinv]).
  etrans; [apply (getbit_in s' l page a (set_bitmap r bm)); [done|done|apply lookup_insert_eq|done]|].
  cbn [base bitmap set_bitmap]. rewrite (proj2 Hbm) by lia. by rewrite Z.eqb_refl.
Qed.

Lemma getbit_after_setbit_witness :
  ∃ st, memory_region_setbit (regions demo) (_root_memory_region demo) 300 true = Ok st ∧
        memory_region_getbit st (_root_memory_region demo) 300
        = Ok (if 300 =? 256 then -1 else if true then 1 else 0).
Proof.
  apply (getbit_after_setbit demo [4096] 300 true 4096 (Region 0 256 64 zero_bitmap));
    [apply demo_inv|apply elem_of_cons; by left|reflexivity|cbn; lia].
Defined.

(** A region whose 2048 bytes are all taken. *)
Definition full_bitmap : list Z := replicate 2048 255.

Lemma full_word i : 0 ≤ i < 512 → word_get full_bitmap i = Ok 4294967295.
Proof.
  intros Hi. assert (Hb : ∀ j, 0 ≤ j < 2048 → aget full_bitmap j = Ok 255).
  { intros j Hj. apply aget_Ok. split; [lia|]. apply lookup_replicate. split; [done|lia]. }
  unfold word_get. rewrite !Hb by lia. done.
Qed.

(** Every word of a full bitmap is skipped; word 512 is past the array. *)
Lemma scan_full_overruns n : 512 < n → scan_words full_bitmap n = Fault OutOfBounds.
Proof.
  intros Hn. unfold scan_words.
  replace (S (Z.to_nat n)) with (512 + S (Z.to_nat n - 512))%nat by lia.
  rewrite while_steps.
  - change (0 + Z.of_nat 512) with 512. cbn [while]. test_true (512 <? n).
    unfold word_get. rewrite aget_out; [done|]. unfold full_bitmap. rewrite length_replicate. lia.
  - intros i Hi. test_true (i <? n). rewrite full_word by lia. done.
Qed.

Lemma alloc_page_fault st i root a r f :
  a ≠ 0 → st !! a = Some r → scan_words (bitmap r) (rlength r / 32) = Fault f →
  memory_region_alloc_page (Alloc st i root a) = Fault f.
Proof.
  intros Ha Hr Hscan. unfold memory_region_alloc_page, memory_region_find_and_set, walk_fuel.
  cbn [while regions _last_free_region]. test_false (a =? 0). cbn [orb].
  rewrite (deref_ok st a r) by done. cbn [mbind res_bind]. by rewrite Hscan.
Qed.

(** The clamp of [memory_region_early_init] is [MEMORY_BITMAP_SIZE * 32]
    pages, four times the 16384 bits of the bitmap. A region of more than 16384
    pages is kept at that length, and once its bitmap is full the next
    allocation reads past the end of the bitmap. *)
Theorem early_init_clamp_too_large b len :
  0 ≤ b → 16384 + 32 ≤ len →
  let s := memory_region_early_init (Alloc ∅ 4096 0 0) b len in
  (∃ r, regions s !! 4096 = Some r ∧ rlength r = Z.min len 65536 ∧ length (bitmap r) = 2048%nat ∧
   memory_region_alloc_page
     (Alloc (<[4096 := set_bitmap r full_bitmap]> (regions s)) 4096 4096 4096) = Fault OutOfBounds).
Proof.
  intros Hb Hlen s. eexists. split; [apply lookup_insert_eq|].
  cbn [rlength bitmap]. split; [unfold MEMORY_BITMAP_SIZE; case_test; lia|].
  split; [apply length_replicate|].
  eapply alloc_page_fault; [done|apply lookup_insert_eq|].
  apply scan_full_overruns. cbn [rlength set_bitmap].
  unfold MEMORY_BITMAP_SIZE. case_test; mlia.
Qed.

Lemma early_init_clamp_too_large_witness :
  let s := memory_region_early_init (Alloc ∅ 4096 0 0) 256 20000 in
  (∃ r, regions s !! 4096 = Some r ∧ rlength r = Z.min 20000 65536 ∧ length (bitmap r) = 2048%nat ∧
   memory_region_alloc_page
     (Alloc (<[4096 := set_bitmap r full_bitmap]> (regions s)) 4096 4096 4096) = Fault OutOfBounds).
Proof. apply (early_init_clamp_too_large 256 20000); lia. Defined.
