(* ===== verification/KernelTests.v ===== *)
(** The unit tests of the kernel, run on the model of the allocator.

    Sources: kernel/kernel/tests/kernel_tests.c and test_memory_region.h, with the
    two macros of unittest/include/unittest.h.

    The two regions of the test are locals of [test_find_and_set]: their addresses
    and what their memory holds before the assignments are arbitrary.  The test
    includes <kernel/memory_region.h>, an older place of memory_region.h; the
    functions it calls are those of today's header. *)
From S2P Require Import Prelude CString MemoryRegion.
#[local] Open Scope Z_scope.

(** What [main] prints. *)
Inductive output : Type :=
  | Usage (program : list Z)
  | ERROR (message : string)
  | ALL_TESTS_PASSED
  | Tests_run (n : Z).

(** A test returns NULL or its message; the store holds the locals. *)
Abbreviation verdict := (option string * store)%type.

Definition TEST_ASSERT (message : string) (test : bool) (st : store) (rest : res verdict) : res verdict :=
  if test then rest else Ok (Some message, st).

(** [r] is the result of the test, [tests_run] the counter; [rest] follows. *)
Definition TEST_RUN (test : store → res verdict) (st : store) (tests_run : Z)
    (rest : store → Z → res (verdict * Z)) : res (verdict * Z) :=
  '(message, st) ← test st;
  let tests_run := tests_run + 1 in
  match message with
  | Some message => Ok (Some message, st, tests_run)
  | None => rest st tests_run
  end.

Section Tests.

Context (region_a region_b : Z).

(** The assignments to one of the regions. *)
Definition prepare (st : store) (region nxt b len w0 w1 : Z) : res store :=
  r ← deref st region;
  bm ← word_set (bitmap r) 0 w0;
  bm ← word_set bm 1 w1;
  Ok (<[region := Region nxt b len bm]> st).

Definition test_find_and_set (st : store) : res verdict :=
  st ← prepare st region_a region_b 0 64 0xFFFFFFFF 0xFFFFFFFF;
  st ← prepare st region_b 0 64 64 0xFFFFFFFF 0x3FFFFFFF;
  g ← memory_region_getbit st region_a 126;
  TEST_ASSERT "Page 126 should be clear" (g =? 0) st (
  st ← memory_region_setbit st region_a 126 true;
  g ← memory_region_getbit st region_a 126;
  TEST_ASSERT "Page 126 should be set" (g =? 1) st (
  g ← memory_region_getbit st region_a 127;
  TEST_ASSERT "Page 127 should be clear" (g =? 0) st (
  st ← memory_region_setbit st region_a 127 true;
  g ← memory_region_getbit st region_a 127;
  TEST_ASSERT "Page 127 should be set" (g =? 1) st (
  st ← memory_region_setbit st region_a 127 false;
  g ← memory_region_getbit st region_a 127;
  TEST_ASSERT "Page 127 should be clear" (g =? 0) st (
  '(r, st) ← memory_region_find_and_set st region_a 0;
  TEST_ASSERT "Error during memory_region_find_and_set" (bool_decide (r ≠ None)) st (
  g ← memory_region_getbit st region_a 127;
  TEST_ASSERT "Page 128 should be set" (g =? 1) st (
  '(r, st) ← memory_region_find_and_set st region_a 0;
  TEST_ASSERT "Page was returned, but memory should be full" (bool_decide (r = None)) st (
  Ok (None, st))))))))).

Definition test_memory_region (st : store) (tests_run : Z) : res (verdict * Z) :=
  TEST_RUN test_find_and_set st tests_run (λ st tests_run, Ok (None, st, tests_run)).

Definition all_tests (st : store) (tests_run : Z) : res (verdict * Z) :=
  '(result, st, tests_run) ← test_memory_region st tests_run;
  match result with Some r => Ok (Some r, st, tests_run) | None => Ok (None, st, tests_run) end.

(** "--help" *)
Definition help : list Z := [45; 45; 104; 101; 108; 112].

(** The exit code and the output; [argv] are the argument strings. *)
Definition main (fuel : nat) (argv : list (list Z)) (st : store) : res (Z * list output) :=
  usage ← (if Z.of_nat (length argv) =? 2
           then arg ← aget argv 0;
                r ← Str.strcmp fuel (Str.lit arg) (Str.lit help);
                Ok (if r =? 0 then Some arg else None)
           else Ok None);
  match usage with
  | Some arg => Ok (0, [Usage arg])
  | None =>
      '(result, _, tests_run) ← all_tests st 0;
      Ok (match result with None => 0 | Some _ => 1 end,
          [match result with Some r => ERROR r | None => ALL_TESTS_PASSED end; Tests_run tests_run])
  end.

(** ** The state of the test *)

Definition chain (st : store) : t := Alloc st region_a region_a region_a.

(** The two regions hold pages 0 to 127, of which those in [clear] are free. *)
Definition clear_pages (st : store) (clear : gset Z) : Prop :=
  inv (chain st) [region_a; region_b] ∧
  (∃ ra rb, st !! region_a = Some ra ∧ base ra = 0 ∧ rlength ra = 64 ∧
            st !! region_b = Some rb ∧ base rb = 64 ∧ rlength rb = 64) ∧
  ∀ p, allocated (chain st) [region_a; region_b] p ↔ 0 ≤ p < 128 ∧ p ∉ clear.

(** The region of a page. *)
Lemma clear_region st clear p :
  clear_pages st clear → 0 ≤ p < 128 →
  ∃ a r, a ∈ [region_a; region_b] ∧ st !! a = Some r ∧ base r ≤ p < base r + rlength r ∧
         base r = 64 * (p / 64) ∧ rlength r = 64.
Proof.
  intros (_ & (ra & rb & Ha & Hba & Hla & Hb & Hbb & Hlb) & _) Hp.
  destruct (decide (p < 64)).
  - exists region_a, ra. split_and!; try done; [set_solver|lia|lia|mlia].
  - exists region_b, rb. split_and!; try done; [set_solver|lia|lia|mlia].
Qed.

(** The shape is kept by an update of a bitmap. *)
Lemma clear_update st clear clear' a r bm k v :
  clear_pages st clear → a ∈ [region_a; region_b] → st !! a = Some r →
  0 ≤ k < rlength r → bm_update (bitmap r) bm k v →
  (∀ p, p ∈ clear' ↔ if decide (p = base r + k) then v = false else p ∈ clear) →
  clear_pages (<[a := set_bitmap r bm]> st) clear'.
Proof.
  intros (Hinv & (ra & rb & Ha & Hba & Hla & Hb & Hbb & Hlb) & Hal) Hin Hr Hk Hupd Hcl.
  split; [|split].
  - apply (inv_update (chain st) _ a r bm region_a Hinv Hr); [apply Hupd|set_solver].
  - assert (region_a ≠ region_b) by (intros ->; simplify_eq; lia).
    destruct (decide (a = region_a)) as [->|]; [|assert (a = region_b) as -> by set_solver]; simplify_eq.
    + exists (set_bitmap ra bm), rb. rewrite lookup_insert_eq, lookup_insert_ne by done. done.
    + exists ra, (set_bitmap rb bm). rewrite lookup_insert_eq, lookup_insert_ne by done. done.
  - intros p. etrans; [apply (allocated_update (chain st) _ a r bm k v region_a Hinv Hin Hr Hk Hupd)|].
    specialize (Hcl p). specialize (Hal p). assert (0 ≤ base r + k < 128).
    { destruct (decide (a = region_a)) as [->|]; [|assert (a = region_b) as -> by set_solver]; simplify_eq; lia. }
    case_decide; [subst p; destruct v; naive_solver|naive_solver].
Qed.

Lemma getbit_clear st clear p :
  clear_pages st clear → 0 ≤ p < 128 → p mod 64 ≠ 0 →
  memory_region_getbit st region_a p = Ok (if decide (p ∈ clear) then 0 else 1).
Proof.
  intros H Hp Hm. destruct (clear_region st clear p H Hp) as (a & r & Hin & Hr & Hrng & Hb & _).
  pose proof H as (Hinv & _ & Hal). etrans; [apply (getbit_in (chain st) _ p a r Hinv Hin Hr Hrng)|].
  assert (p ≠ base r) by mlia. test_false (p =? base r).
  destruct (bm_bit (bitmap r) (p - base r)) eqn:Hbit; case_decide as Hc; try done; exfalso.
  - by apply (Hal p); [exists a, r|].
  - destruct (proj2 (Hal p)) as (a' & r' & Hin' & Hr' & Hrng' & Hbit'); [done|].
    destruct Hinv as (Hseg & _ & Hsort & _).
    assert (a' = a) as -> by (eapply (sorted_disjoint _ _ a' a r' r p); done).
    cbn in Hr'. congruence.
Qed.

Lemma setbit_clear st clear p v :
  clear_pages st clear → 0 ≤ p < 128 →
  ∃ st', memory_region_setbit st region_a p v = Ok st' ∧
         clear_pages st' (if v then clear ∖ {[p]} else clear ∪ {[p]}).
Proof.
  intros H Hp. destruct (clear_region st clear p H Hp) as (a & r & Hin & Hr & Hrng & _).
  pose proof H as (Hinv & _ & _).
  destruct (setbit_in (chain st) _ p v a r Hinv Hin Hr Hrng) as (bm & Hs & Hupd).
  eexists. split; [exact Hs|].
  eapply (clear_update st clear _ a r bm (p - base r) v H Hin Hr); [lia|done|].
  intros q. replace (base r + (p - base r)) with p by lia.
  destruct v; case_decide; set_solver.
Qed.

(** A search takes a free page, and fails only without one. *)
Lemma find_clear st clear :
  clear_pages st clear →
  (memory_region_find_and_set st region_a 0 = Ok (None, st) ∧ ∀ p, 0 ≤ p < 128 → p ∉ clear) ∨
  ∃ a p st', memory_region_find_and_set st region_a 0 = Ok (Some (a, p), st') ∧
             p ∈ clear ∧ clear_pages st' (clear ∖ {[p]}).
Proof.
  intros H. pose proof H as (Hinv & _ & Hal). pose proof Hinv as (Hseg & _ & Hsort & _).
  destruct (find_and_set_ok _ _ 0 _ Hseg) as [[Hf Hfull]|(a & p & st' & Hf & Hfd)]; [by left|left|right].
  - split; [exact Hf|]. intros p Hp.
    destruct (clear_region st clear p H Hp) as (a & r & Hin & Hr & Hrng & _ & Hl).
    apply (Hal p). exists a, r. split_and!; try done; try lia.
    apply (Hfull a r Hin Hr). unfold usable. rewrite Hl. change (32 * (64 / 32)) with 64. lia.
  - exists a, p, st'. split; [exact Hf|].
    destruct (found_inv (chain st) _ _ st' a p Hinv (reflexivity _) Hfd)
      as (_ & (b & rb & Hb & Hrb & Hrng) & Hna & _).
    destruct Hfd as (Hin & r & bm & k & Hr & Hk & -> & Hclr & Hupd & ->). cbn in Hr, Hrb.
    assert (Hk' : 0 ≤ k < rlength r).
    { eapply segment_lookup in Hseg as (_ & _ & r' & Hr' & _ & _ & Hl & _); [|done].
      cbn in Hr'. simplify_eq. unfold usable in Hk. mlia. }
    split.
    + destruct (decide (base r + k ∈ clear)) as [|Hn]; [done|]. exfalso. apply Hna, Hal. split; [|done].
      destruct H as (_ & (ra & rb' & Ha & ? & ? & Hb' & ? & ?) & _).
      destruct (decide (b = region_a)) as [->|]; [|assert (b = region_b) as -> by set_solver]; simplify_eq; lia.
    + eapply (clear_update st clear _ a r bm k true H Hin Hr); [done|done|].
      intros q. case_decide; set_solver.
Qed.

(** ** The test *)

(** After the assignments: the first 32 + n of the 64 pages of the region are taken. *)
Lemma prepare_region_ok st region nxt b len n r :
  region ≠ 0 → st !! region = Some r → bm_ok (bitmap r) → 0 ≤ n ≤ 32 →
  ∃ bm, prepare st region nxt b len (Z.ones 32) (Z.ones n) = Ok (<[region := Region nxt b len bm]> st) ∧
        bm_ok bm ∧ ∀ j, 0 ≤ j < 64 → bm_bit bm j = (j <? 32 + n).
Proof.
  intros H0 Hr Hbm Hn. unfold prepare. rewrite (deref_ok st region r) by done. cbn [mbind res_bind].
  destruct (word_set_ok (bitmap r) 0 (Z.ones 32) Hbm) as (bm1 & -> & Hbm1 & Hb1); [lia|]. cbn [mbind res_bind].
  destruct (word_set_ok bm1 1 (Z.ones n) Hbm1) as (bm2 & -> & Hbm2 & Hb2); [lia|]. cbn [mbind res_bind].
  exists bm2. split; [done|]. split; [done|]. intros j Hj. rewrite Hb2, Hb1 by lia.
  rewrite !Z.testbit_ones_nonneg by mlia. destruct (decide (j < 32)).
  - assert (j / 32 = 0 ∧ j mod 32 = j) as [-> ->] by mlia. cbn [Z.eqb].
    by test_true (j <? 32); test_true (j <? 32 + n).
  - assert (j / 32 = 1 ∧ j mod 32 = j - 32) as [-> ->] by mlia. cbn [Z.eqb Pos.eqb].
    destruct (Z.ltb_spec (j - 32) n), (Z.ltb_spec j (32 + n)); done || lia.
Qed.

(** The locals of the test are at two addresses, with any contents. *)
Definition locals (st : store) : Prop :=
  0 < region_a ∧ 0 < region_b ∧ region_a ≠ region_b ∧
  (∃ r, st !! region_a = Some r ∧ bm_ok (bitmap r)) ∧ (∃ r, st !! region_b = Some r ∧ bm_ok (bitmap r)).

Lemma prepared st :
  locals st →
  ∃ st1 st2, prepare st region_a region_b 0 64 0xFFFFFFFF 0xFFFFFFFF = Ok st1 ∧
             prepare st1 region_b 0 64 64 0xFFFFFFFF 0x3FFFFFFF = Ok st2 ∧ clear_pages st2 {[126; 127]}.
Proof.
  intros (Ha & Hb & Hne & (r & Hr & Hbm) & (r' & Hr' & Hbm')).
  change 0xFFFFFFFF with (Z.ones 32). change 0x3FFFFFFF with (Z.ones 30).
  destruct (prepare_region_ok st region_a region_b 0 64 32 r) as (ba & -> & Hba & Hbita); [lia|done|done|lia|].
  set (st1 := <[region_a := _]> st).
  destruct (prepare_region_ok st1 region_b 0 64 64 30 r') as (bb & Hp & Hbb & Hbitb);
    [lia|by unfold st1; rewrite lookup_insert_ne|done|lia|].
  eexists st1, _. split; [done|]. split; [exact Hp|]. unfold st1.
  set (ra := Region region_b 0 64 ba). set (rb := Region 0 64 64 bb).
  set (st2 := <[region_b := rb]> _).
  assert (HA : st2 !! region_a = Some ra) by (unfold st2; by rewrite lookup_insert_ne, lookup_insert_eq).
  assert (HB : st2 !! region_b = Some rb) by (unfold st2; by rewrite lookup_insert_eq).
  split; [|split].
  - unfold inv. cbn. split_and!; [done|lia|lia| |set_solver| |by repeat constructor].
    + exists ra. split; [done|]. split; [unfold region_ok; cbn; split; [done|lia]|]. cbn. split_and!; [done|lia|lia|].
      exists rb. split; [done|]. split; [unfold region_ok; cbn; split; [done|lia]|done].
    + repeat constructor. intros x y Hx Hy. simplify_eq. cbn. lia.
  - by exists ra, rb.
  - intros q. split.
    + intros (x & rx & Hin & Hrx & Hrng & Hbit). cbn in Hrx.
      destruct (decide (x = region_a)) as [->|]; [|assert (x = region_b) as -> by set_solver]; simplify_eq;
        cbn in Hrng, Hbit.
      * split; [lia|]. set_solver by lia.
      * rewrite Hbitb in Hbit by lia. bool_to_prop. split; [lia|]. set_solver by lia.
    + intros [Hq Hc]. destruct (decide (q < 64)).
      * exists region_a, ra. split_and!; [set_solver|done|cbn; lia|cbn; lia|]. cbn. rewrite Hbita by lia. by test_true (q - 0 <? 32 + 32).
      * exists region_b, rb. split_and!; [set_solver|done|cbn; lia|cbn; lia|]. cbn. rewrite Hbitb by lia.
        assert (q ≠ 126 ∧ q ≠ 127) by set_solver. by test_true (q - 64 <? 32 + 30).
Qed.

(** One assertion on a bit, one assignment of a bit. *)
Lemma assert_bit st clear p v message rest :
  clear_pages st clear → 0 ≤ p < 128 → p mod 64 ≠ 0 → (p ∈ clear ↔ v = 0) → v = 0 ∨ v = 1 →
  (g ← memory_region_getbit st region_a p; TEST_ASSERT message (g =? v) st rest) = rest.
Proof.
  intros H Hp Hm Hc Hv. rewrite (getbit_clear st clear p) by done. cbn [mbind res_bind]. unfold TEST_ASSERT.
  case_decide; destruct Hv as [-> | ->]; try done; naive_solver.
Qed.

Lemma test_find_and_set_passes st : locals st → ∃ st', test_find_and_set st = Ok (None, st').
Proof.
  intros Hst. destruct (prepared st Hst) as (st1 & s0 & H1 & H2 & S0). unfold test_find_and_set.
  rewrite H1. cbn [mbind res_bind]. rewrite H2. cbn [mbind res_bind].
  rewrite (assert_bit s0 _ 126 0 _ _ S0) by (done || set_solver || lia).
  destruct (setbit_clear s0 _ 126 true S0) as (s1 & -> & S1); [lia|]. cbn [mbind res_bind].
  rewrite (assert_bit s1 _ 126 1 _ _ S1) by (done || set_solver by lia || lia).
  rewrite (assert_bit s1 _ 127 0 _ _ S1) by (done || set_solver by lia || lia).
  destruct (setbit_clear s1 _ 127 true S1) as (s2 & -> & S2); [lia|]. cbn [mbind res_bind].
  rewrite (assert_bit s2 _ 127 1 _ _ S2) by (done || set_solver by lia || lia).
  destruct (setbit_clear s2 _ 127 false S2) as (s3 & -> & S3); [lia|]. cbn [mbind res_bind].
  rewrite (assert_bit s3 _ 127 0 _ _ S3) by (done || set_solver by lia || lia).
  destruct (find_clear s3 _ S3) as [[_ Hn]|(a & p & s4 & -> & Hp & S4)].
  { exfalso. apply (Hn 127); [lia|set_solver]. }
  cbn [mbind res_bind]. unfold TEST_ASSERT at 1. rewrite bool_decide_true by done.
  assert (p = 127) as -> by set_solver.
  rewrite (assert_bit s4 _ 127 1 _ _ S4) by (done || set_solver by lia || lia).
  destruct (find_clear s4 _ S4) as [[-> _]|(a' & p & s5 & -> & Hp' & S5)]; [|exfalso; set_solver].
  cbn [mbind res_bind]. unfold TEST_ASSERT. by eexists.
Qed.

(** ** The program *)

(** Only [argv[0]], the name of the program, is compared with --help. *)
Definition asks_help (argv : list (list Z)) : Prop := length argv = 2%nat ∧ argv !! 0%nat = Some help.

#[global] Instance asks_help_dec argv : Decision (asks_help argv).
Proof. unfold asks_help. apply _. Defined.

Lemma usage_ok fuel argv :
  Forall (Forall (λ x, 1 ≤ x < 256)) argv →
  Forall (λ arg, Z.of_nat (length arg) + 1 < 4294967296 ∧ (S (length arg) < fuel)%nat) argv → (7 < fuel)%nat →
  (if Z.of_nat (length argv) =? 2
   then arg ← aget argv 0; r ← Str.strcmp fuel (Str.lit arg) (Str.lit help); Ok (if r =? 0 then Some arg else None)
   else Ok None)
  = Ok (if decide (asks_help argv) then Some help else None).
Proof.
  intros Hc Hl Hf. destruct argv as [|x [|y [|z argv]]]; unfold asks_help; cbn [length lookup list_lookup].
  - by rewrite decide_False by naive_solver.
  - by rewrite decide_False by naive_solver.
  - apply Forall_inv in Hc, Hl as [Hl Hfx]. cbn [mbind res_bind aget]. 
    destruct (Str.strcmp_correct fuel (Str.lit x) (Str.lit help) x help) as (r & Hr & _ & H0 & _);
      [by apply Str.cstr_lit|apply Str.cstr_lit; repeat constructor; lia|lia|cbn; lia|lia|cbn; lia|].
    change (Z.of_nat 2 =? 2) with true. cbn iota. change (aget [x; y] 0) with (Ok x).
    cbn [mbind res_bind]. rewrite Hr. cbn [mbind res_bind].
    destruct (Z.eqb_spec r 0) as [->|Hn]; case_decide as Hd; try done.
    + f_equal. f_equal. by apply H0.
    + exfalso. apply Hd. split; [done|]. f_equal. by apply H0.
    + exfalso. apply Hn, H0. naive_solver.
  - test_false (Z.of_nat (S (S (S (length argv)))) =? 2). by rewrite decide_False by naive_solver lia.
Qed.

(** Wherever the two regions of the test lie and whatever their memory held, every
    assertion of the test holds, and the program reports one test and success.
    The help text comes out exactly when the program itself is named --help and
    has one argument: as [main] looks at [argv[0]], the option has no effect. *)
Theorem kernel_tests_pass fuel argv st :
  locals st → Forall (Forall (λ x, 1 ≤ x < 256)) argv →
  Forall (λ arg, Z.of_nat (length arg) + 1 < 4294967296 ∧ (S (length arg) < fuel)%nat) argv → (7 < fuel)%nat →
  main fuel argv st
  = Ok (0, if decide (asks_help argv) then [Usage help] else [ALL_TESTS_PASSED; Tests_run 1]).
Proof.
  intros Hst Hc Hl Hf. unfold main. rewrite usage_ok by done. cbn [mbind res_bind].
  case_decide; [done|]. unfold all_tests, test_memory_region, TEST_RUN.
  by destruct (test_find_and_set_passes st Hst) as [st' ->].
Qed.

End Tests.

(** Two regions at 4096 and 8192 that hold the bitmap of a fresh and of a full one. *)
Lemma kernel_tests_pass_witness :
  main 4096 8192 9 [[116]; help]
    (<[4096 := Region 0 0 0 zero_bitmap]> (<[8192 := Region 7 8 9 full_bitmap]> ∅))
  = Ok (0, if decide (asks_help [[116]; help]) then [Usage help] else [ALL_TESTS_PASSED; Tests_run 1]).
Proof.
  apply kernel_tests_pass; [|repeat constructor; lia|repeat constructor; cbn; lia|lia].
  assert (bm_ok zero_bitmap) by (split; [done|apply Forall_replicate; unfold is_byte; lia]).
  assert (bm_ok full_bitmap) by (split; [done|apply Forall_replicate; unfold is_byte; lia]).
  split_and!; [lia|lia|lia|..]; eexists; done.
Defined.

(** The output of the test program with the option --help. *)
Example help_runs_the_tests :
  main 4096 8192 9 [[116]; help]
    (<[4096 := Region 0 0 0 zero_bitmap]> (<[8192 := Region 7 8 9 full_bitmap]> ∅))
  = Ok (0, [ALL_TESTS_PASSED; Tests_run 1]).
Proof. vm_compute. reflexivity. Qed.
