(* ===== verification/Boot.v ===== *)
(** The start of the kernel from a Multiboot2 loader.

    Source: kernel/arch/i386/kernel/boot/main.c and
    kernel/include/kernel/boot/multiboot2.h.

    The information of the loader is byte memory.  The model goes through
    [_multiboot2_main] in its order: the tags, the memory map, the region of page
    frames, the pages of the kernel image, the initcalls (a parameter: they run
    through tables of the linker) and the choice of the display. *)
From S2P Require Import Prelude Console Display MemoryMap MemoryRegion.

Definition MULTIBOOT2_TAG_TYPE_CMDLINE : Z := 1.
Definition MULTIBOOT2_TAG_TYPE_BASIC_MEMINFO : Z := 4.
Definition MULTIBOOT2_TAG_TYPE_MMAP : Z := 6.
Definition MULTIBOOT2_TAG_TYPE_FRAMEBUFFER : Z := 8.
Definition MULTIBOOT2_TAG_TYPE_ELF_SECTIONS : Z := 9.

Definition PAGE_SHIFT : Z := 12.

Definition load16 (m : mem) (a : Z) : res Z :=
  b0 ← load8 m a; b1 ← load8 m (a + 1); Ok (le_get [b0; b1]).
Definition load64 (m : mem) (a : Z) : res Z :=
  lo ← load32 m a; hi ← load32 m (a + 4); Ok (lo + 4294967296 * hi).

(** ** The tags *)

(** The pointers that the scan sets, 0 for NULL; [cmdline] is the address of the
    string, [None] for the default command line. *)
Record tags : Type := Tags {
  cmdline : option Z;
  mem_tag : Z;
  mmap_tag : Z;
  elf_sections : Z;
  framebuffer : Z;
}.

Definition no_tags : tags := Tags None 0 0 0 0.

Definition set_tag (ty tag : Z) (t : tags) : tags :=
  if ty =? MULTIBOOT2_TAG_TYPE_CMDLINE then Tags (Some (tag + 8)) (mem_tag t) (mmap_tag t) (elf_sections t) (framebuffer t)
  else if ty =? MULTIBOOT2_TAG_TYPE_BASIC_MEMINFO then Tags (cmdline t) tag (mmap_tag t) (elf_sections t) (framebuffer t)
  else if ty =? MULTIBOOT2_TAG_TYPE_MMAP then Tags (cmdline t) (mem_tag t) tag (elf_sections t) (framebuffer t)
  else if ty =? MULTIBOOT2_TAG_TYPE_ELF_SECTIONS then Tags (cmdline t) (mem_tag t) (mmap_tag t) tag (framebuffer t)
  else if ty =? MULTIBOOT2_TAG_TYPE_FRAMEBUFFER then Tags (cmdline t) (mem_tag t) (mmap_tag t) (elf_sections t) tag
  else t.

(** The address of the next tag. *)
Definition next_tag (tag size : Z) : Z :=
  let offset := u32 (tag + size) in
  if negb (offset mod 8 =? 0) then u32 (offset + (8 - offset mod 8)) else offset.

Definition scan_body (m : mem) (tags_end : Z) (st : Z * tags) : res (ctl (Z * tags) tags) :=
  let '(tag, t) := st in
  if tag <? tags_end then
    ty ← load16 m tag;
    let t := set_tag ty tag t in
    size ← load32 m (tag + 4);
    Ok (Continue (next_tag tag size, t))
  else Ok (Break t).

Definition scan_tags (fuel : nat) (m : mem) (info : Z) : res tags :=
  total_size ← load32 m info;
  let tags_end := u32 (info + total_size) in
  while fuel (scan_body m tags_end) (info + 8, no_tags).

(** ** The memory map *)

(** The entries as [memory_map_add_region] receives them: addresses and lengths
    are truncated to 32 bits. *)
Definition read_entry (m : mem) (mmap : Z) : res memory_map_t :=
  addr ← load64 m mmap;
  len ← load64 m (mmap + 8);
  ty ← load32 m (mmap + 16);
  Ok (Entry (u32 addr) (u32 len) ty).

Definition read_mmap (m : mem) (mmap_tag : Z) (maps : MemoryMap.t) : res MemoryMap.t :=
  entry_size ← load32 m (mmap_tag + 8);
  let entry_size := if negb (entry_size mod 8 =? 0) then u32 (entry_size + (8 - entry_size mod 8)) else entry_size in
  size ← load32 m (mmap_tag + 4);
  if entry_size =? 0 then Fault DivByZero
  else
    let num_entries := u32 (size - 16) / entry_size in
    for_up (Z.to_nat num_entries) 0
      (λ offset maps,
         e ← read_entry m (u32 (mmap_tag + 16 + entry_size * offset));
         memory_map_add_region maps (addr e) (mlength e) (type e)) maps.

(** The available regions above 1 MB. *)
Definition candidate (e : memory_map_t) : bool := (0x00100000 <=? addr e) && (type e =? 1).

Definition init_region (s : MemoryRegion.t) (e : memory_map_t) : MemoryRegion.t :=
  if candidate e then
    let max_size := Z.shiftl (Z.shiftl MEMORY_BITMAP_SIZE 3) PAGE_SHIFT in
    let size := if mlength e <? max_size then mlength e else max_size in
    memory_region_early_init s (Z.shiftr (addr e) PAGE_SHIFT) (Z.shiftr size PAGE_SHIFT)
  else s.

Definition init_regions (es : list memory_map_t) (s : MemoryRegion.t) : MemoryRegion.t := foldl init_region s es.

(** ** The pages of the kernel *)

Definition mark_range (st : gmap Z memory_region_t) (region offset tags_end : Z) : res (gmap Z memory_region_t) :=
  for_up (Z.to_nat (tags_end - offset)) offset (λ offset st, memory_region_setbit st region offset true) st.

Definition mark_body (min_size max_size : Z) (p : Z * gmap Z memory_region_t) :
    res (ctl (Z * gmap Z memory_region_t) (gmap Z memory_region_t)) :=
  let '(region, st) := p in
  if negb (region =? 0) then
    r ← deref st region;
    st ← (if memory_region_overlap r min_size max_size then
            let offset := if min_size <? base r then base r else min_size in
            let tags_end := if u32 (base r + rlength r) <? max_size then u32 (base r + rlength r) else max_size in
            mark_range st region offset tags_end
          else Ok st);
    r ← deref st region;
    Ok (Continue (next r, st))
  else Ok (Break st).

Definition mark_kernel (kernel_start kernel_end : Z) (s : MemoryRegion.t) : res MemoryRegion.t :=
  let min_size := Z.shiftr (u32 (kernel_start - 0xC0000000)) PAGE_SHIFT in
  let max_size := Z.shiftr (u32 (kernel_end - 0xC0000000)) PAGE_SHIFT in
  st ← while (walk_fuel (regions s)) (mark_body min_size max_size) (memory_region_enumerate s, regions s);
  Ok (Alloc st (_initial_memory_region s) (_root_memory_region s) (_last_free_region s)).

(** ** The display *)

Inductive display : Type :=
  | TextDisplay (columns rows : Z)
  | PixelDisplay (fb : console_framebuffer_t)
  | NoDisplay.

Definition read_color (m : mem) (a : Z) : res console_fb_palette :=
  r ← load8 m a; g ← load8 m (a + 1); b ← load8 m (a + 2); Ok (Rgb r g b).

Fixpoint read_palette (m : mem) (a : Z) (n : nat) : res (list console_fb_palette) :=
  match n with
  | O => Ok []
  | S n => c ← read_color m a; cs ← read_palette m (a + 3) n; Ok (c :: cs)
  end.

Definition read_format (m : mem) (fb : Z) : res console_fb_color_fmt :=
  rp ← load8 m (fb + 32); rs ← load8 m (fb + 33);
  gp ← load8 m (fb + 34); gs ← load8 m (fb + 35);
  bp ← load8 m (fb + 36); bs ← load8 m (fb + 37);
  Ok (Fmt rs rp gs gp bs bp).

(** The physical range that is mapped. *)
Definition fb_range (m : mem) (fb : Z) : res (Z * Z) :=
  addr ← load64 m (fb + 8);
  pitch ← load32 m (fb + 16);
  height ← load32 m (fb + 24);
  bpp ← load8 m (fb + 28);
  Ok (u32 addr, u32 (u32 (pitch * height) * Z.shiftr bpp 3)).

(** [screen] is what the mapped memory holds.  The console structure and its buffer
    come from malloc, whose result the code does not test; here they are there. *)
Definition choose_display (m : mem) (fb : Z) (screen : list Z) : res display :=
  if negb (fb =? 0) then
    fb_type ← load8 m (fb + 29);
    width ← load32 m (fb + 20);
    height ← load32 m (fb + 24);
    if fb_type =? 2 then Ok (TextDisplay width height)
    else
      pitch ← load32 m (fb + 16);
      bpp ← load8 m (fb + 28);
      let bpp_padded := if negb (bpp mod 8 =? 0) then u8 (bpp + (8 - bpp mod 8)) else bpp in
      let bpp_padded := u8 (Z.shiftl bpp_padded 3) in
      let private := replicate (Z.to_nat (bpp_padded * 256)) 0 in
      let pitch := if negb (pitch =? 0) then pitch else height in
      tag_type ← load32 m fb;
      if tag_type =? 0 then
        num ← load16 m (fb + 32);
        palette ← read_palette m (fb + 34) (Z.to_nat num);
        Ok (PixelDisplay (Fb width height pitch bpp 0 screen private 0 (Fmt 0 0 0 0 0 0) palette))
      else
        fmt ← read_format m fb;
        Ok (PixelDisplay (Fb width height pitch bpp FB_CONSOLE_FLAG_RGB screen private 0 fmt []))
  else Ok NoDisplay.

(** ** The whole *)

Section main.
(** The initcalls, and the framebuffer in device memory, over the rest [K] of
    the kernel. *)
Context {K : Type}.
Variable initcalls : MemoryRegion.t → K → res (MemoryRegion.t * K).
Variable map_screen : Z → Z → K → res (list Z * K).

Record boot_t : Type := BootState { maps : MemoryMap.t; frames : MemoryRegion.t; kernel : K }.

(** [None]: the function returned without starting the kernel. *)
Definition _multiboot2_main (fuel : nat) (m : mem) (info kernel_start kernel_end : Z) (s : boot_t) :
    res (boot_t * option (option Z * display)) :=
  t ← scan_tags fuel m info;
  if mem_tag t =? 0 then Ok (s, None)
  else if mmap_tag t =? 0 then Ok (s, None)
  else
    maps ← read_mmap m (mmap_tag t) (maps s);
    let frames := init_regions (memory_map_available_entries maps) (frames s) in
    frames ← mark_kernel kernel_start kernel_end frames;
    '(frames, k) ← initcalls frames (kernel s);
    '(screen, k) ← (if negb (framebuffer t =? 0) then
                      '(phys, size) ← fb_range m (framebuffer t); map_screen phys size k
                    else Ok ([], k));
    d ← choose_display m (framebuffer t) screen;
    Ok (BootState maps frames k, Some (cmdline t, d)).

Definition _main (fuel : nat) (m : mem) (mbd magic kernel_start kernel_end : Z) (s : boot_t) :
    res (boot_t * option (option Z * display)) :=
  if magic =? 0x36D76289 then _multiboot2_main fuel m mbd kernel_start kernel_end s else Ok (s, None).

End main.

(** ** The scan of the tags *)

(** The tags from [a] on, each of a type and a size, up to [e]. *)
Fixpoint tags_at (m : mem) (a e : Z) (ts : list (Z * Z)) : Prop :=
  match ts with
  | [] => e ≤ a
  | (ty, size) :: ts =>
      a < e ∧ 0 ≤ a ∧ 0 ≤ size ∧ a + size + 7 < 4294967296 ∧
      load16 m a = Ok ty ∧ load32 m (a + 4) = Ok size ∧ tags_at m (next_tag a size) e ts
  end.

(** The address of the last tag of a type, or the given one. *)
Fixpoint last_tag (ty a : Z) (ts : list (Z * Z)) (d : Z) : Z :=
  match ts with
  | [] => d
  | (ty', size) :: ts => last_tag ty (next_tag a size) ts (if ty' =? ty then a else d)
  end.

(** The next tag is at the next multiple of 8. *)
Lemma next_tag_aligned a size :
  0 ≤ a → 0 ≤ size → a + size + 7 < 4294967296 → next_tag a size = 8 * ((a + size + 7) / 8).
Proof.
  intros Ha Hs Hb. unfold next_tag. rewrite (u32_small (a + size)) by lia.
  destruct (Z.eqb_spec ((a + size) mod 8) 0); cbn [negb]; [mlia|]. rewrite u32_small by mlia. mlia.
Qed.

Definition scanned (a : Z) (ts : list (Z * Z)) (t : tags) : tags :=
  Tags (if last_tag MULTIBOOT2_TAG_TYPE_CMDLINE a ts (-1) =? -1 then cmdline t
        else Some (last_tag MULTIBOOT2_TAG_TYPE_CMDLINE a ts (-1) + 8))
    (last_tag MULTIBOOT2_TAG_TYPE_BASIC_MEMINFO a ts (mem_tag t))
    (last_tag MULTIBOOT2_TAG_TYPE_MMAP a ts (mmap_tag t))
    (last_tag MULTIBOOT2_TAG_TYPE_ELF_SECTIONS a ts (elf_sections t))
    (last_tag MULTIBOOT2_TAG_TYPE_FRAMEBUFFER a ts (framebuffer t)).

Lemma last_tag_nonneg m ty a e ts d : tags_at m a e ts → 0 ≤ d → 0 ≤ last_tag ty a ts d.
Proof.
  revert a d. induction ts as [|[ty' size] ts IH]; intros a d Ht Hd; cbn in *; [done|].
  destruct Ht as (_ & Ha & _ & _ & _ & _ & Ht). apply IH; [done|]. by case_match.
Qed.

(** A given address only matters when no tag has the type. *)
Lemma last_tag_default m ty a e ts d :
  tags_at m a e ts → last_tag ty a ts d = if last_tag ty a ts (-1) =? -1 then d else last_tag ty a ts (-1).
Proof.
  revert a d. induction ts as [|[ty' size] ts IH]; intros a d Ht; cbn in *; [done|].
  destruct Ht as (_ & Ha & _ & _ & _ & _ & Ht). destruct (ty' =? ty); [|by apply IH].
  pose proof (last_tag_nonneg m ty _ e ts a Ht Ha). by rewrite (proj2 (Z.eqb_neq _ _)) by lia.
Qed.

Lemma scanned_cons m ty size a e ts t :
  tags_at m a e ((ty, size) :: ts) → scanned a ((ty, size) :: ts) t = scanned (next_tag a size) ts (set_tag ty a t).
Proof.
  intros (_ & Ha & _ & _ & _ & _ & Ht). unfold scanned. cbn [last_tag].
  assert (Hc : ∀ x, last_tag 1 (next_tag a size) ts (if x : bool then a else -1) =
    if x then if last_tag 1 (next_tag a size) ts (-1) =? -1 then a else last_tag 1 (next_tag a size) ts (-1)
    else last_tag 1 (next_tag a size) ts (-1)).
  { intros [|]; [|done]. by eapply last_tag_default. }
  unfold set_tag, MULTIBOOT2_TAG_TYPE_CMDLINE, MULTIBOOT2_TAG_TYPE_BASIC_MEMINFO, MULTIBOOT2_TAG_TYPE_MMAP,
    MULTIBOOT2_TAG_TYPE_ELF_SECTIONS, MULTIBOOT2_TAG_TYPE_FRAMEBUFFER in *.
  destruct (Z.eqb_spec ty 1) as [->|].
  { cbn [cmdline mem_tag mmap_tag elf_sections framebuffer Z.eqb]. f_equal. rewrite (Hc true).
    destruct (Z.eqb_spec (last_tag 1 (next_tag a size) ts (-1)) (-1)) as [E|E].
    - by rewrite (proj2 (Z.eqb_neq a (-1))) by lia.
    - by rewrite (proj2 (Z.eqb_neq _ _)). }
  destruct (Z.eqb_spec ty 4) as [->|]; [done|]. destruct (Z.eqb_spec ty 6) as [->|]; [done|].
  destruct (Z.eqb_spec ty 9) as [->|]; [done|]. by destruct (Z.eqb_spec ty 8) as [->|].
Qed.

Lemma scan_loop m e ts a t fuel :
  tags_at m a e ts → (length ts < fuel)%nat → while fuel (scan_body m e) (a, t) = Ok (scanned a ts t).
Proof.
  revert a t fuel. induction ts as [|[ty size] ts IH]; intros a t [|fuel] Ht Hf; cbn [length] in Hf; try lia; cbn [while].
  - cbn in Ht. assert (scan_body m e (a, t) = Ok (Break t)) as ->.
    { cbv beta iota delta [scan_body]. by rewrite (proj2 (Z.ltb_ge a e)). }
    cbn. by destruct t.
  - pose proof Ht as (Hae & _ & _ & _ & Hty & Hsz & Hrest).
    rewrite (scanned_cons _ _ _ _ _ _ _ Ht).
    assert (scan_body m e (a, t) = Ok (Continue (next_tag a size, set_tag ty a t))) as ->.
    { cbv beta iota delta [scan_body]. rewrite (proj2 (Z.ltb_lt a e)) by done. rewrite Hty. cbn [mbind res_bind].
      by rewrite Hsz. }
    cbn [mbind res_bind]. apply IH; [done|lia].
Qed.

(** ** The memory map *)

Fixpoint entries_at (m : mem) (a step : Z) (es : list memory_map_t) : Prop :=
  match es with
  | [] => True
  | e :: es => read_entry m (u32 a) = Ok e ∧ entries_at m (a + step) step es
  end.

Lemma entries_loop m a step es k maps :
  entries_at m (a + step * k) step es →
  for_up (length es) k (λ offset maps, e ← read_entry m (u32 (a + step * offset));
            memory_map_add_region maps (addr e) (mlength e) (type e)) maps
  = add_regions maps es.
Proof.
  unfold add_regions. revert k maps. induction es as [|e es IH]; intros k maps He; [done|].
  destruct He as [Hr He]. cbn [length for_up foldl]. rewrite Hr. cbn [mbind res_bind].
  destruct (memory_map_add_region maps (addr e) (mlength e) (type e)) as [maps'|f]; cbn [mbind res_bind].
  - apply IH. by replace (a + step * (k + 1)) with (a + step * k + step) by lia.
  - clear. induction es as [|e' es IH]; [done|]. done.
Qed.

(** A well-formed tag of the memory map. *)
Record mmap_ok (m : mem) (mmap_tag : Z) (es : list memory_map_t) : Prop := {
  mo_entry_size : load32 m (mmap_tag + 8) = Ok 24;
  mo_size : load32 m (mmap_tag + 4) = Ok (16 + 24 * Z.of_nat (length es));
  mo_bound : Z.of_nat (length es) < 100000000;
  mo_entries : entries_at m (mmap_tag + 16) 24 es;
}.

Lemma read_mmap_ok m tag es maps : mmap_ok m tag es → read_mmap m tag maps = add_regions maps es.
Proof.
  intros [He Hs Hb Hes]. unfold read_mmap. rewrite He. cbn [mbind res_bind]. rewrite Hs. cbn [mbind res_bind].
  change (negb (24 mod 8 =? 0)) with false. cbv zeta iota. change (24 =? 0) with false. cbv iota.
  replace (u32 (16 + 24 * Z.of_nat (length es) - 16) / 24) with (Z.of_nat (length es)) by (rewrite u32_small by lia; mlia).
  rewrite Nat2Z.id. apply (entries_loop m (tag + 16) 24 es 0). by rewrite Z.mul_0_r, Z.add_0_r.
Qed.

(** ** The region of page frames *)

Definition with_regions (s : MemoryRegion.t) (st : gmap Z memory_region_t) : MemoryRegion.t :=
  Alloc st (_initial_memory_region s) (_root_memory_region s) (_last_free_region s).

(** Taking a page of a region. *)
Lemma setbit_takes s l page a r :
  MemoryRegion.inv s l → a ∈ l → regions s !! a = Some r → base r ≤ page < base r + rlength r →
  ∃ bm, memory_region_setbit (regions s) (_root_memory_region s) page true = Ok (<[a := set_bitmap r bm]> (regions s)) ∧
    MemoryRegion.inv (with_regions s (<[a := set_bitmap r bm]> (regions s))) l ∧
    ∀ q, allocated (with_regions s (<[a := set_bitmap r bm]> (regions s))) l q ↔ allocated s l q ∨ q = page.
Proof.
  intros Hinv Ha Hr Hp. destruct (setbit_in s l page true a r Hinv Ha Hr Hp) as (bm & -> & Hupd).
  exists bm. split; [done|]. split.
  - apply inv_update; [done|done|apply Hupd|apply Hinv].
  - intros q. unfold with_regions. rewrite (allocated_update s l a r bm (page - base r) true) by (done || lia).
    replace (base r + (page - base r)) with page by lia. case_decide; naive_solver.
Qed.

(** Taking a run of pages of the only region. *)
Lemma mark_range_ok s a r lo hi :
  MemoryRegion.inv s [a] → regions s !! a = Some r → base r ≤ lo → hi ≤ base r + rlength r →
  ∃ bm, mark_range (regions s) (_root_memory_region s) lo hi = Ok (<[a := set_bitmap r bm]> (regions s)) ∧
    MemoryRegion.inv (with_regions s (<[a := set_bitmap r bm]> (regions s))) [a] ∧
    ∀ q, allocated (with_regions s (<[a := set_bitmap r bm]> (regions s))) [a] q ↔ allocated s [a] q ∨ lo ≤ q < hi.
Proof.
  intros Hinv Hr Hlo Hhi. unfold mark_range.
  destruct (for_up_inv (λ k st, ∃ bm, st = <[a := set_bitmap r bm]> (regions s) ∧
      MemoryRegion.inv (with_regions s st) [a] ∧
      ∀ q, allocated (with_regions s st) [a] q ↔ allocated s [a] q ∨ lo ≤ q < k)
    (Z.to_nat (hi - lo)) lo (λ offset st, memory_region_setbit st (_root_memory_region s) offset true) (regions s))
    as (st & -> & bm & -> & Hi & Hq).
  - intros k st Hk (bm & -> & Hi & Hq). 
    destruct (setbit_takes (with_regions s (<[a := set_bitmap r bm]> (regions s))) [a] k a (set_bitmap r bm) Hi)
      as (bm' & Hs & Hi' & Hq').
    + by apply list_elem_of_singleton.
    + apply lookup_insert_eq.
    + cbn. lia.
    + cbn [regions _root_memory_region with_regions] in Hs. rewrite Hs. eexists. split; [done|]. exists bm'.
      cbn [regions with_regions] in Hi', Hq'. rewrite insert_insert_eq in *. cbn [set_bitmap next base rlength] in *.
      split; [done|]. split; [exact Hi'|]. intros q. rewrite Hq', Hq. intuition lia.
  - exists (bitmap r). assert (<[a := set_bitmap r (bitmap r)]> (regions s) = regions s) as ->.
    { apply insert_id. rewrite Hr. by destruct r. }
    split; [done|]. assert (with_regions s (regions s) = s) as -> by (by destruct s). split; [done|].
    intros q. intuition lia.
  - exists bm. split; [done|]. split; [done|]. intros q. rewrite Hq.
    destruct (decide (lo ≤ hi)); [|intuition lia]. replace (lo + Z.of_nat (Z.to_nat (hi - lo))) with hi by lia. done.
Qed.

Lemma mark_kernel_ok s a r kernel_start kernel_end :
  MemoryRegion.inv s [a] → regions s !! a = Some r →
  0xC0000000 ≤ kernel_start ≤ kernel_end → kernel_end < 4294967296 →
  ∃ s', mark_kernel kernel_start kernel_end s = Ok s' ∧ MemoryRegion.inv s' [a] ∧
    (∃ bm, regions s' !! a = Some (set_bitmap r bm)) ∧
    ∀ q, allocated s' [a] q ↔ allocated s [a] q ∨
      (base r ≤ q < base r + rlength r ∧ (kernel_start - 0xC0000000) / 4096 ≤ q < (kernel_end - 0xC0000000) / 4096).
Proof.
  intros Hinv Hr Hks Hke. unfold mark_kernel, PAGE_SHIFT. rewrite !u32_small, !Z.shiftr_div_pow2 by lia.
  change (2 ^ 12) with 4096. set (lo := (kernel_start - 3221225472) / 4096). set (hi := (kernel_end - 3221225472) / 4096).
  pose proof Hinv as ((Ha & H0 & _ & r' & Hr' & Hok & Hn) & _). assert (r' = r) as -> by congruence. cbn in Hn.
  pose proof Hok as (_ & Hb & Hl & Hsum). cbv zeta. unfold memory_region_enumerate. unfold walk_fuel.
  assert (Hturn : ∃ bm, mark_body lo hi (_root_memory_region s, regions s)
      = Ok (Continue (0, <[a := set_bitmap r bm]> (regions s))) ∧
    MemoryRegion.inv (with_regions s (<[a := set_bitmap r bm]> (regions s))) [a] ∧
    ∀ q, allocated (with_regions s (<[a := set_bitmap r bm]> (regions s))) [a] q ↔ allocated s [a] q ∨
      (base r ≤ q < base r + rlength r ∧ lo ≤ q < hi)).
  { cbv beta iota delta [mark_body]. rewrite Ha. rewrite (proj2 (Z.eqb_neq a 0)) by done. cbn [negb].
    rewrite (deref_ok _ a r) by done. cbn [mbind res_bind]. unfold memory_region_overlap. rewrite u32_small by lia.
    destruct (Z.ltb_spec hi (base r)); [|destruct (Z.ltb_spec (base r + rlength r) lo)].
    1,2: exists (bitmap r); assert (<[a := set_bitmap r (bitmap r)]> (regions s) = regions s) as -> by
      (apply insert_id; rewrite Hr; by destruct r); cbn [mbind res_bind]; rewrite (deref_ok _ a r) by done;
      rewrite <- Hn; (split; [done|]); assert (with_regions s (regions s) = s) as -> by (by destruct s);
      (split; [done|]); intros q; intuition lia.
    assert (Eo : (if lo <? base r then base r else lo) = Z.max (base r) lo) by (destruct (Z.ltb_spec lo (base r)); lia).
    assert (Et : (if base r + rlength r <? hi then base r + rlength r else hi) = Z.min (base r + rlength r) hi)
      by (destruct (Z.ltb_spec (base r + rlength r) hi); lia).
    rewrite Eo, Et. destruct (mark_range_ok s a r (Z.max (base r) lo) (Z.min (base r + rlength r) hi) Hinv Hr) as (bm & Hm & Hi & Hq);
      [lia|lia|]. rewrite Ha in Hm. rewrite Hm. cbn [mbind res_bind].
    rewrite (deref_ok _ a (set_bitmap r bm)) by (done || apply lookup_insert_eq). cbn [mbind res_bind set_bitmap next].
    exists bm. rewrite <- Hn. split; [done|]. split; [done|]. intros q. rewrite Hq. intuition lia. }
  destruct Hturn as (bm & Ht & Hi & Hq). cbn [while]. rewrite Ht. cbn [mbind res_bind].
  cbn [mbind res_bind negb Z.eqb mark_body]. eexists. split; [reflexivity|]. split; [exact Hi|].
  split; [exists bm; apply lookup_insert_eq|exact Hq].
Qed.

(** The last candidate gives the region: the static region is initialised anew for
    each of them. *)
Lemma init_regions_last es s :
  ∃ s', _initial_memory_region s' = _initial_memory_region s ∧
    init_regions es s = match last (filter (λ e, candidate e = true) es) with
                        | Some e => init_region s' e
                        | None => s
                        end.
Proof.
  unfold init_regions. revert s. induction es as [|e es IH] using rev_ind; intros s; [by exists s|].
  rewrite foldl_app, filter_app. cbn [foldl]. destruct (IH s) as (s' & Hs' & E).
  destruct (candidate e) eqn:Ec.
  - rewrite (filter_cons_True _ e []) by done. rewrite filter_nil, last_snoc. exists (foldl init_region s es).
    split; [|done]. rewrite E. destruct (last _) as [e'|]; [|done]. unfold init_region. by destruct (candidate e').
  - rewrite (filter_cons_False _ e []) by (rewrite Ec; done). rewrite filter_nil, app_nil_r. exists s'. split; [done|].
    unfold init_region at 1. by rewrite Ec, E.
Qed.

(** The frames of a candidate, at most the 16384 of the bitmap. *)
Definition frame_base (e : memory_map_t) : Z := addr e / 4096.
Definition frame_count (e : memory_map_t) : Z := Z.min (mlength e) 67108864 / 4096.

(** What the set-up of the frames gives: the region of [e], with the pages of the
    kernel in use and no others. *)
Record frames_ready (s : MemoryRegion.t) (a : Z) (e : memory_map_t) (kernel_start kernel_end : Z) : Prop := {
  fr_inv : MemoryRegion.inv s [a];
  fr_range : ∀ q, in_range s [a] q ↔ frame_base e ≤ q < frame_base e + frame_count e;
  fr_used : ∀ q, allocated s [a] q ↔ in_range s [a] q ∧
    (kernel_start - 0xC0000000) / 4096 ≤ q < (kernel_end - 0xC0000000) / 4096;
}.

Lemma frames_ok es s e kernel_start kernel_end :
  last (filter (λ e, candidate e = true) es) = Some e → 0 < _initial_memory_region s →
  0 ≤ addr e < 4294967296 → 0 ≤ mlength e →
  0xC0000000 ≤ kernel_start ≤ kernel_end → kernel_end < 4294967296 →
  ∃ s', mark_kernel kernel_start kernel_end (init_regions es s) = Ok s' ∧
    frames_ready s' (_initial_memory_region s) e kernel_start kernel_end.
Proof.
  intros He Ha Hb Hl Hks Hke. destruct (init_regions_last es s) as (s0 & Ei & ->). rewrite He, <- Ei in *.
  assert (Hc : candidate e = true).
  { apply last_Some_elem_of, list_elem_of_filter in He. by destruct He. }
  unfold init_region. rewrite Hc. change (Z.shiftl (Z.shiftl MEMORY_BITMAP_SIZE 3) PAGE_SHIFT) with 67108864.
  unfold PAGE_SHIFT. rewrite !Z.shiftr_div_pow2 by lia. change (2 ^ 12) with 4096.
  assert ((if mlength e <? 67108864 then mlength e else 67108864) / 4096 = frame_count e) as ->.
  { unfold frame_count. destruct (Z.ltb_spec (mlength e) 67108864); f_equal; lia. }
  change (addr e / 4096) with (frame_base e).
  assert (Hr : 0 ≤ frame_base e < 1048576 ∧ 0 ≤ frame_count e ≤ 16384) by (unfold frame_base, frame_count; mlia).
  destruct (early_init_inv s0 (frame_base e) (frame_count e) Ha) as [Hi Hna]; [lia..|].
  set (s1 := memory_region_early_init s0 (frame_base e) (frame_count e)) in *.
  set (a := _initial_memory_region s0) in *.
  assert (Hr1 : regions s1 !! a = Some (Region 0 (frame_base e) (frame_count e) zero_bitmap)).
  { unfold s1, memory_region_early_init, MEMORY_BITMAP_SIZE. cbn [regions]. rewrite lookup_insert_eq.
    by rewrite (proj2 (Z.ltb_ge _ _)) by lia. }
  destruct (mark_kernel_ok s1 a _ kernel_start kernel_end Hi Hr1 Hks Hke) as (s' & Hs' & Hi' & (bm & Hr') & Hq).
  cbn [base rlength] in Hq.
  assert (Hin : ∀ q, in_range s' [a] q ↔ frame_base e ≤ q < frame_base e + frame_count e).
  { intros q. split.
    - intros (b & r & ->%list_elem_of_singleton & Hr2 & Hq'). rewrite Hr' in Hr2. injection Hr2 as <-. exact Hq'.
    - intros Hq'. exists a, (set_bitmap (Region 0 (frame_base e) (frame_count e) zero_bitmap) bm).
      split; [by apply list_elem_of_singleton|]. split; [done|exact Hq']. }
  exists s'. split; [exact Hs'|]. split; [done|done|]. intros q. rewrite Hq, Hin. split; [|tauto].
  intros [Hx|Hx]; [by destruct (Hna q)|done].
Qed.

(** What follows the scan, when it found the memory tags. *)
Lemma main_from_tags {K : Type} (initcalls : MemoryRegion.t → K → res (MemoryRegion.t * K))
    (map_screen : Z → Z → K → res (list Z * K)) m info t es region kernel_start kernel_end (s : boot_t (K := K)) fuel :
  scan_tags fuel m info = Ok t → mem_tag t ≠ 0 → mmap_tag t ≠ 0 →
  read_mmap m (mmap_tag t) (maps s) = add_regions (maps s) es → MemoryMap.inv (maps s) → memory_map_entries (maps s) = [] →
  last (filter (λ e, candidate e = true) (filter available (take 32 es))) = Some region →
  0 ≤ addr region < 4294967296 → 0 ≤ mlength region →
  0 < _initial_memory_region (frames s) →
  0xC0000000 ≤ kernel_start ≤ kernel_end → kernel_end < 4294967296 →
  ∃ maps' frames', frames_ready frames' (_initial_memory_region (frames s)) region kernel_start kernel_end ∧
    memory_map_entries maps' = take 32 es ∧
    _multiboot2_main initcalls map_screen fuel m info kernel_start kernel_end s =
      ('(frames2, k) ← initcalls frames' (kernel s);
       '(screen, k) ← (if negb (framebuffer t =? 0) then '(phys, size) ← fb_range m (framebuffer t); map_screen phys size k else Ok ([], k));
       d ← choose_display m (framebuffer t) screen;
       Ok (BootState maps' frames2 k, Some (cmdline t, d))).
Proof.
  intros Hscan Hmem Hmm Hread Hinv H0 Hlast Hab Hlb Ha Hks Hke. unfold _multiboot2_main.
  rewrite Hscan. cbn [mbind res_bind]. rewrite (proj2 (Z.eqb_neq (mem_tag t) 0)), (proj2 (Z.eqb_neq (mmap_tag t) 0)) by done.
  destruct (add_regions_from (maps s) es Hinv) as (maps' & Hmaps & Hinv' & Hes). rewrite H0 in Hes. cbn [app] in Hes.
  rewrite Hread, Hmaps. cbn [mbind res_bind].
  assert (Hav : memory_map_available_entries maps' = filter available (take 32 es)).
  { destruct Hinv' as (_ & _ & _ & _ & ->). by rewrite Hes. }
  rewrite Hav.
  destruct (frames_ok (filter available (take 32 es)) (frames s) region kernel_start kernel_end) as (frames' & -> & Hready);
    try done. cbn [mbind res_bind]. by exists maps', frames'.
Qed.

(** ** Properties *)

(** The scan of the loader's tags ends and finds the last tag of each
    type that the kernel uses; unknown tags are skipped and each tag starts at a
    multiple of 8. *)
Theorem scan_tags_finds_last m info total e ts :
  load32 m info = Ok total → e = info + total → 0 ≤ e < 4294967296 → tags_at m (info + 8) e ts →
  ∀ fuel, (length ts < fuel)%nat →
  scan_tags fuel m info =
    Ok (Tags (if last_tag 1 (info + 8) ts (-1) =? -1 then None else Some (last_tag 1 (info + 8) ts (-1) + 8))
          (last_tag 4 (info + 8) ts 0) (last_tag 6 (info + 8) ts 0) (last_tag 9 (info + 8) ts 0)
          (last_tag 8 (info + 8) ts 0)).
Proof.
  intros Hl -> He Ht fuel Hf. unfold scan_tags. rewrite Hl. cbn [mbind res_bind]. cbv zeta. rewrite (u32_small (info + total)) by lia.
  exact (scan_loop m (info + total) ts (info + 8) no_tags fuel Ht Hf).
Qed.

(** A tag of size 0 at an aligned address stops the scan from ever
    ending: no fuel is enough. *)
Theorem scan_tags_zero_size_diverges m info total ty fuel :
  load32 m info = Ok total → 0 ≤ info → info mod 8 = 0 → 8 < total → info + total < 4294967296 →
  load16 m (info + 8) = Ok ty → load32 m (info + 8 + 4) = Ok 0 →
  scan_tags fuel m info = Fault OutOfFuel.
Proof.
  intros Hl Hi Hal Ht Hb Hty Hsz. unfold scan_tags. rewrite Hl. cbn [mbind res_bind]. cbv zeta. rewrite u32_small by lia.
  apply (while_diverges (λ st, st.1 = info + 8)); [|done]. intros [tag t] E. cbn in E. subst tag.
  exists (next_tag (info + 8) 0, set_tag ty (info + 8) t). split.
  - cbv beta iota delta [scan_body]. rewrite (proj2 (Z.ltb_lt _ _)) by lia. rewrite Hty. cbn [mbind res_bind]. by rewrite Hsz.
  - cbn [fst]. rewrite next_tag_aligned by (lia || mlia). mlia.
Qed.

(** C3: [_multiboot2_main] with a memory map that the tags lead to, and a
    usable region above 1 MB: it runs the initcalls on the last such region, in
    which exactly the whole pages of the kernel image are in use; then it chooses
    the display.  Without the memory tags it returns and changes nothing.  When
    the image does not end at a page boundary, its last page is left free. *)
Theorem multiboot2_main_frames {K : Type} (initcalls : MemoryRegion.t → K → res (MemoryRegion.t * K))
    (map_screen : Z → Z → K → res (list Z * K)) m info total e ts es region kernel_start kernel_end (s : boot_t (K := K)) fuel :
  load32 m info = Ok total → e = info + total → 0 ≤ e < 4294967296 → tags_at m (info + 8) e ts → (length ts < fuel)%nat →
  mmap_ok m (last_tag 6 (info + 8) ts 0) es → MemoryMap.inv (maps s) → memory_map_entries (maps s) = [] →
  last (filter (λ e, candidate e = true) (filter available (take 32 es))) = Some region →
  0 ≤ addr region < 4294967296 → 0 ≤ mlength region →
  0 < _initial_memory_region (frames s) →
  0xC0000000 ≤ kernel_start ≤ kernel_end → kernel_end < 4294967296 →
  if (last_tag 4 (info + 8) ts 0 =? 0) || (last_tag 6 (info + 8) ts 0 =? 0) then
    _multiboot2_main initcalls map_screen fuel m info kernel_start kernel_end s = Ok (s, None)
  else
    ∃ maps' frames', frames_ready frames' (_initial_memory_region (frames s)) region kernel_start kernel_end ∧
      memory_map_entries maps' = take 32 es ∧
      (kernel_end mod 4096 ≠ 0 → ¬ allocated frames' [_initial_memory_region (frames s)] ((kernel_end - 1 - 0xC0000000) / 4096)) ∧
      let fb := last_tag 8 (info + 8) ts 0 in
      _multiboot2_main initcalls map_screen fuel m info kernel_start kernel_end s =
        ('(frames2, k) ← initcalls frames' (kernel s);
         '(screen, k) ← (if negb (fb =? 0) then '(phys, size) ← fb_range m fb; map_screen phys size k else Ok ([], k));
         d ← choose_display m fb screen;
         Ok (BootState maps' frames2 k,
             Some (if last_tag 1 (info + 8) ts (-1) =? -1 then None else Some (last_tag 1 (info + 8) ts (-1) + 8), d))).
Proof.
  intros Hl -> He Ht Hf Hm Hinv H0 Hlast Hab Hlb Ha Hks Hke.
  assert (Hscan : scan_tags fuel m info = Ok (scanned (info + 8) ts no_tags)).
  { unfold scan_tags. rewrite Hl. cbn [mbind res_bind]. cbv zeta. rewrite (u32_small (info + total)) by lia. by apply (scan_loop m (info + total)). }
  destruct (Z.eqb_spec (last_tag 4 (info + 8) ts 0) 0) as [E|Hmem]; cbn [orb].
  { unfold _multiboot2_main. rewrite Hscan. cbn [mbind res_bind scanned mem_tag no_tags].
    unfold MULTIBOOT2_TAG_TYPE_BASIC_MEMINFO. by rewrite E. }
  destruct (Z.eqb_spec (last_tag 6 (info + 8) ts 0) 0) as [E|Hmm]; cbn [orb].
  { unfold _multiboot2_main. rewrite Hscan. cbn [mbind res_bind scanned mem_tag mmap_tag no_tags].
    unfold MULTIBOOT2_TAG_TYPE_BASIC_MEMINFO, MULTIBOOT2_TAG_TYPE_MMAP. by rewrite (proj2 (Z.eqb_neq _ 0) Hmem), E. }
  destruct (main_from_tags initcalls map_screen m info _ es region kernel_start kernel_end s fuel Hscan)
    as (maps' & frames' & Hready & Hes & Hmain); try done; [by apply read_mmap_ok|].
  exists maps', frames'. split; [done|]. split; [done|]. split; [|exact Hmain].
  intros Hp Hal. apply (fr_used _ _ _ _ _ Hready) in Hal as [_ Hal]. mlia.
Qed.

(** A loader's information at 0x1000: the memory sizes, a map of two available
    regions, the end tag. *)
Definition ex_words : list Z :=
  [96; 0;
   4; 16; 639; 129920;
   6; 64; 24; 0;  0; 0; 0x9FC00; 0; 1; 0;  0x100000; 0; 0x7EE0000; 0; 1; 0;
   0; 8].
Definition ex_info : mem := list_to_map (zip (seqZ 0x1000 96) (ex_words ≫= le_put 4)).
Definition ex_tags : list (Z * Z) := [(4, 16); (6, 64); (0, 8)].
Definition ex_entries : list memory_map_t := [Entry 0 0x9FC00 1; Entry 0x100000 0x7EE0000 1].

Lemma ex_tags_at : tags_at ex_info 0x1008 0x1060 ex_tags.
Proof. repeat split; vm_compute; (reflexivity || discriminate). Qed.

Lemma ex_mmap_ok : mmap_ok ex_info 0x1018 ex_entries.
Proof. split; repeat split; vm_compute; (reflexivity || discriminate). Qed.

Lemma scan_tags_finds_last_witness : scan_tags 10 ex_info 0x1000 = Ok (Tags None 0x1008 0x1018 0 0).
Proof.
  apply (scan_tags_finds_last ex_info 0x1000 96 0x1060 ex_tags); [vm_compute; reflexivity|reflexivity|lia|exact ex_tags_at|cbn; lia].
Defined.

(** The kernel of the example ends inside of page 0x143; the page is free. *)
Lemma multiboot2_main_frames_witness :
  ∃ maps' frames', frames_ready frames' 0xC0142000 (Entry 0x100000 0x7EE0000 1) 0xC0100000 0xC0143A00 ∧
    memory_map_entries maps' = ex_entries ∧
    ¬ allocated frames' [0xC0142000] 0x143 ∧
    _multiboot2_main (λ f k, Ok (f, k + 1)) (λ _ _ k, Ok ([], k)) 10 ex_info 0x1000 0xC0100000 0xC0143A00
      (BootState (memory_map_initialize boot_state) (Alloc ∅ 0xC0142000 0 0) 0)
    = Ok (BootState maps' frames' 1, Some (None, NoDisplay)).
Proof.
  destruct (multiboot2_main_frames (λ f k, Ok (f, k + 1)) (λ _ _ k, Ok ([], k)) ex_info 0x1000 96 0x1060 ex_tags ex_entries
    (Entry 0x100000 0x7EE0000 1) 0xC0100000 0xC0143A00
    (BootState (memory_map_initialize boot_state) (Alloc ∅ 0xC0142000 0 0) 0) 10)
    as (maps' & frames' & Hf & He & Hfree & Hmain);
    [vm_compute; reflexivity|reflexivity|lia|exact ex_tags_at|cbn; lia|exact ex_mmap_ok|by apply inv_initialize|reflexivity|
     reflexivity|cbn; lia|cbn; lia|cbn; lia|lia|lia|].
  exists maps', frames'. split; [exact Hf|]. split; [exact He|]. split; [apply Hfree; vm_compute; discriminate|exact Hmain].
Defined.
