(* ===== verification/Multiboot2.v ===== *)
(** The information of a Multiboot2 loader, from its structures to its bytes.

    Source: kernel/include/kernel/boot/multiboot2.h.  The tags are an inductive type
    with a constructor per structure, the encoding has the fields in the order and
    the widths that the structures declare (none of them has padding on i386); each
    tag begins at a multiple of 8.  The theorem says that main.c (Boot.v) reads from
    the encoding what was put in. *)
From S2P Require Import Prelude CString Console Display MemoryMap MemoryRegion Boot.
Import Mem.

Definition MULTIBOOT2_TAG_ALIGN : Z := 8.
Definition MULTIBOOT2_TAG_TYPE_END : Z := 0.
Definition MULTIBOOT2_TAG_TYPE_BOOT_LOADER_NAME : Z := 2.
Definition MULTIBOOT2_TAG_TYPE_MODULE : Z := 3.
Definition MULTIBOOT2_TAG_TYPE_BOOTDEV : Z := 5.
Definition MULTIBOOT2_TAG_TYPE_VBE : Z := 7.
Definition MULTIBOOT2_TAG_TYPE_APM : Z := 10.
Definition MULTIBOOT2_TAG_TYPE_EFI32 : Z := 11.
Definition MULTIBOOT2_TAG_TYPE_EFI64 : Z := 12.
Definition MULTIBOOT2_TAG_TYPE_SMBIOS : Z := 13.
Definition MULTIBOOT2_TAG_TYPE_ACPI_OLD : Z := 14.
Definition MULTIBOOT2_TAG_TYPE_ACPI_NEW : Z := 15.
Definition MULTIBOOT2_TAG_TYPE_NETWORK : Z := 16.
Definition MULTIBOOT2_TAG_TYPE_EFI_MMAP : Z := 17.
Definition MULTIBOOT2_TAG_TYPE_EFI_BS : Z := 18.
Definition MULTIBOOT2_TAG_TYPE_EFI32_IH : Z := 19.
Definition MULTIBOOT2_TAG_TYPE_EFI64_IH : Z := 20.
Definition MULTIBOOT2_TAG_TYPE_LOAD_BASE_ADDR : Z := 21.
Definition MULTIBOOT2_FRAMEBUFFER_TYPE_INDEXED : Z := 0.
Definition MULTIBOOT2_FRAMEBUFFER_TYPE_RGB : Z := 1.
Definition MULTIBOOT2_FRAMEBUFFER_TYPE_EGA_TEXT : Z := 2.

(** ** The structures *)

(** Fields of 8, 16, 32 and 64 bits, and arrays of bytes. *)
Abbreviation byte1 := (le_put 1).
Abbreviation byte2 := (le_put 2).
Abbreviation byte4 := (le_put 4).
Abbreviation byte8 := (le_put 8).

Record multiboot2_color : Type := Color { red : Z; green : Z; blue : Z }.
Definition encode_color (c : multiboot2_color) : list Z := byte1 (red c) ++ byte1 (green c) ++ byte1 (blue c).

Record multiboot2_mmap_entry : Type := MmapEntry { me_addr : Z; me_len : Z; me_type : Z; me_zero : Z }.
Definition encode_mmap_entry (e : multiboot2_mmap_entry) : list Z :=
  byte8 (me_addr e) ++ byte8 (me_len e) ++ byte4 (me_type e) ++ byte4 (me_zero e).

Record multiboot2_tag_vbe : Type := Vbe {
  vbe_mode : Z; vbe_interface_seg : Z; vbe_interface_off : Z; vbe_interface_len : Z;
  vbe_control_info : list Z; vbe_mode_info : list Z;
}.
Definition encode_vbe (v : multiboot2_tag_vbe) : list Z :=
  byte2 (vbe_mode v) ++ byte2 (vbe_interface_seg v) ++ byte2 (vbe_interface_off v) ++ byte2 (vbe_interface_len v) ++
  vbe_control_info v ++ vbe_mode_info v.

Record multiboot2_tag_framebuffer_common : Type := FbCommon {
  framebuffer_addr : Z; framebuffer_pitch : Z; framebuffer_width : Z; framebuffer_height : Z;
  framebuffer_bpp : Z; framebuffer_type : Z; reserved : Z;
}.
Definition encode_framebuffer_common (c : multiboot2_tag_framebuffer_common) : list Z :=
  byte8 (framebuffer_addr c) ++ byte4 (framebuffer_pitch c) ++ byte4 (framebuffer_width c) ++ byte4 (framebuffer_height c) ++
  byte1 (framebuffer_bpp c) ++ byte1 (framebuffer_type c) ++ byte2 (reserved c).

(** The union behind it. *)
Inductive framebuffer_colors : Type :=
  | FbPalette (framebuffer_palette : list multiboot2_color)
  | FbFields (red_position red_size green_position green_size blue_position blue_size : Z)
  | FbNone.
Definition encode_colors (f : framebuffer_colors) : list Z :=
  match f with
  | FbPalette cs => byte2 (Z.of_nat (length cs)) ++ (cs ≫= encode_color)
  | FbFields rp rs gp gs bp bs => byte1 rp ++ byte1 rs ++ byte1 gp ++ byte1 gs ++ byte1 bp ++ byte1 bs
  | FbNone => []
  end.

Record multiboot2_tag_apm : Type := Apm {
  apm_version : Z; cseg : Z; apm_offset : Z; cseg_16 : Z; dseg : Z; apm_flags : Z; cseg_len : Z; cseg_16_len : Z; dseg_len : Z;
}.
Definition encode_apm (a : multiboot2_tag_apm) : list Z :=
  byte2 (apm_version a) ++ byte2 (cseg a) ++ byte4 (apm_offset a) ++ byte2 (cseg_16 a) ++ byte2 (dseg a) ++
  byte2 (apm_flags a) ++ byte2 (cseg_len a) ++ byte2 (cseg_16_len a) ++ byte2 (dseg_len a).

Inductive multiboot2_tag : Type :=
  | TagEnd
  | TagCmdline (string : list Z)
  | TagBootLoaderName (string : list Z)
  | TagModule (mod_start mod_end : Z) (cmdline : list Z)
  | TagBasicMeminfo (mem_lower mem_upper : Z)
  | TagBootdev (biosdev slice part : Z)
  | TagMmap (entry_size entry_version : Z) (entries : list multiboot2_mmap_entry)
  | TagVbe (vbe : multiboot2_tag_vbe)
  | TagFramebuffer (common : multiboot2_tag_framebuffer_common) (colors : framebuffer_colors)
  | TagElfSections (num entsize shndx : Z) (sections : list Z)
  | TagApm (apm : multiboot2_tag_apm)
  | TagEfi32 (pointer : Z)
  | TagEfi64 (pointer : Z)
  | TagSmbios (major minor : Z) (smbios_reserved tables : list Z)
  | TagAcpiOld (rsdp : list Z)
  | TagAcpiNew (rsdp : list Z)
  | TagNetwork (dhcpack : list Z)
  | TagEfiMmap (descr_size descr_vers : Z) (efi_mmap : list Z)
  | TagEfiBs
  | TagEfi32Ih (pointer : Z)
  | TagEfi64Ih (pointer : Z)
  | TagLoadBaseAddr (load_base_addr : Z).

Definition tag_type (t : multiboot2_tag) : Z :=
  match t with
  | TagEnd => MULTIBOOT2_TAG_TYPE_END
  | TagCmdline _ => MULTIBOOT2_TAG_TYPE_CMDLINE
  | TagBootLoaderName _ => MULTIBOOT2_TAG_TYPE_BOOT_LOADER_NAME
  | TagModule _ _ _ => MULTIBOOT2_TAG_TYPE_MODULE
  | TagBasicMeminfo _ _ => MULTIBOOT2_TAG_TYPE_BASIC_MEMINFO
  | TagBootdev _ _ _ => MULTIBOOT2_TAG_TYPE_BOOTDEV
  | TagMmap _ _ _ => MULTIBOOT2_TAG_TYPE_MMAP
  | TagVbe _ => MULTIBOOT2_TAG_TYPE_VBE
  | TagFramebuffer _ _ => MULTIBOOT2_TAG_TYPE_FRAMEBUFFER
  | TagElfSections _ _ _ _ => MULTIBOOT2_TAG_TYPE_ELF_SECTIONS
  | TagApm _ => MULTIBOOT2_TAG_TYPE_APM
  | TagEfi32 _ => MULTIBOOT2_TAG_TYPE_EFI32
  | TagEfi64 _ => MULTIBOOT2_TAG_TYPE_EFI64
  | TagSmbios _ _ _ _ => MULTIBOOT2_TAG_TYPE_SMBIOS
  | TagAcpiOld _ => MULTIBOOT2_TAG_TYPE_ACPI_OLD
  | TagAcpiNew _ => MULTIBOOT2_TAG_TYPE_ACPI_NEW
  | TagNetwork _ => MULTIBOOT2_TAG_TYPE_NETWORK
  | TagEfiMmap _ _ _ => MULTIBOOT2_TAG_TYPE_EFI_MMAP
  | TagEfiBs => MULTIBOOT2_TAG_TYPE_EFI_BS
  | TagEfi32Ih _ => MULTIBOOT2_TAG_TYPE_EFI32_IH
  | TagEfi64Ih _ => MULTIBOOT2_TAG_TYPE_EFI64_IH
  | TagLoadBaseAddr _ => MULTIBOOT2_TAG_TYPE_LOAD_BASE_ADDR
  end.

(** What follows type and size. *)
Definition payload (t : multiboot2_tag) : list Z :=
  match t with
  | TagEnd | TagEfiBs => []
  | TagCmdline s | TagBootLoaderName s => s
  | TagModule a b c => byte4 a ++ byte4 b ++ c
  | TagBasicMeminfo lo up => byte4 lo ++ byte4 up
  | TagBootdev d s p => byte4 d ++ byte4 s ++ byte4 p
  | TagMmap es ev l => byte4 es ++ byte4 ev ++ (l ≫= encode_mmap_entry)
  | TagVbe v => encode_vbe v
  | TagFramebuffer c f => encode_framebuffer_common c ++ encode_colors f
  | TagElfSections n e s l => byte4 n ++ byte4 e ++ byte4 s ++ l
  | TagApm a => encode_apm a
  | TagEfi32 p | TagEfi32Ih p | TagLoadBaseAddr p => byte4 p
  | TagEfi64 p | TagEfi64Ih p => byte8 p
  | TagSmbios ma mi r l => byte1 ma ++ byte1 mi ++ r ++ l
  | TagAcpiOld l | TagAcpiNew l | TagNetwork l => l
  | TagEfiMmap s v l => byte4 s ++ byte4 v ++ l
  end.

Definition tag_size (t : multiboot2_tag) : Z := 8 + Z.of_nat (length (payload t)).

Definition encode_tag (t : multiboot2_tag) : list Z := byte4 (tag_type t) ++ byte4 (tag_size t) ++ payload t.

Definition pad8 (bs : list Z) : list Z := bs ++ replicate (Z.to_nat (- Z.of_nat (length bs) mod MULTIBOOT2_TAG_ALIGN)) 0.

Definition encode_tags (ts : list multiboot2_tag) : list Z := ts ≫= (λ t, pad8 (encode_tag t)).

(** The size of the whole and a reserved word come first. *)
Definition encode_info (ts : list multiboot2_tag) : list Z :=
  byte4 (8 + Z.of_nat (length (encode_tags ts))) ++ byte4 0 ++ encode_tags ts.

(** ** The header of the kernel image

    What boot.S declares for the loader: the header, a tag that asks for a
    framebuffer, and the end tag. *)

Definition MULTIBOOT2_HEADER_MAGIC : Z := 0xe85250d6.
Definition MULTIBOOT2_ARCHITECTURE_I386 : Z := 0.

Record multiboot2_header : Type := Header { magic : Z; architecture : Z; header_length : Z; checksum : Z }.
Definition encode_header (h : multiboot2_header) : list Z :=
  byte4 (magic h) ++ byte4 (architecture h) ++ byte4 (header_length h) ++ byte4 (checksum h).

Record multiboot2_header_tag_framebuffer : Type := HeaderFb { hf_type : Z; hf_flags : Z; hf_size : Z; hf_width : Z; hf_height : Z; hf_depth : Z }.
Definition encode_header_framebuffer (t : multiboot2_header_tag_framebuffer) : list Z :=
  byte2 (hf_type t) ++ byte2 (hf_flags t) ++ byte4 (hf_size t) ++ byte4 (hf_width t) ++ byte4 (hf_height t) ++ byte4 (hf_depth t).

Definition header_tags : list Z := encode_header_framebuffer (HeaderFb 5 0 20 1600 1200 32) ++ byte2 0 ++ byte4 8.
Definition image_header_length : Z := 16 + Z.of_nat (length header_tags).

Definition multiboot_header : list Z :=
  encode_header (Header MULTIBOOT2_HEADER_MAGIC MULTIBOOT2_ARCHITECTURE_I386 image_header_length
    (u32 (- (MULTIBOOT2_HEADER_MAGIC + MULTIBOOT2_ARCHITECTURE_I386 + image_header_length)))) ++ header_tags.

(** The length and the checksum are right. *)
Lemma multiboot_header_checksum :
  Z.of_nat (length multiboot_header) = image_header_length ∧
  u32 (le_get (take 4 multiboot_header) + le_get (take 4 (drop 4 multiboot_header)) + le_get (take 4 (drop 8 multiboot_header)) +
       le_get (take 4 (drop 12 multiboot_header))) = 0.
Proof. done. Qed.

(** The end tag does not begin at a multiple of 8, and has no room for its size:
    what a loader finds at the next multiple are the last two bytes. *)
Lemma multiboot_header_end_tag :
  (16 + 20) mod MULTIBOOT2_TAG_ALIGN ≠ 0 ∧ drop 40 multiboot_header = [0; 0].
Proof. done. Qed.

(** ** Lemmas: reading fields *)

Lemma bytes_at_app m a l1 l2 : bytes_at m a (l1 ++ l2) ↔ bytes_at m a l1 ∧ bytes_at m (a + Z.of_nat (length l1)) l2.
Proof.
  split.
  - intros H. split; intros i x Hi.
    + apply H. by apply lookup_app_l_Some.
    + rewrite <- Z.add_assoc, <- Nat2Z.inj_add. apply H. rewrite lookup_app_r by lia. by replace (length l1 + i - length l1)%nat with i by lia.
  - intros [H1 H2] i x Hi. apply lookup_app_Some in Hi as [Hi|[Hge Hi]]; [by apply H1|].
    rewrite <- (H2 _ _ Hi). f_equal. lia.
Qed.

Lemma load8_at m a z : bytes_at m a (byte1 z) → 0 ≤ z < 256 → load8 m a = Ok z.
Proof.
  intros H Hz. unfold load8. pose proof (H 0%nat (z mod 256) eq_refl) as E. rewrite Z.add_0_r in E. rewrite E.
  by rewrite Z.mod_small.
Qed.

Lemma load16_at m a z : bytes_at m a (byte2 z) → 0 ≤ z < 65536 → load16 m a = Ok z.
Proof.
  intros H Hz. unfold load16, load8.
  pose proof (H 0%nat _ eq_refl) as E0. pose proof (H 1%nat _ eq_refl) as E1. rewrite Z.add_0_r in E0. change (Z.of_nat 1) with 1 in E1. rewrite E0, E1.
  cbn [mbind res_bind]. f_equal. cbn [le_get]. mlia.
Qed.

Lemma load32_at m a z : bytes_at m a (byte4 z) → 0 ≤ z < 4294967296 → load32 m a = Ok z.
Proof.
  intros H Hz. unfold load32, load8.
  pose proof (H 0%nat _ eq_refl) as E0. pose proof (H 1%nat _ eq_refl) as E1. pose proof (H 2%nat _ eq_refl) as E2.
  pose proof (H 3%nat _ eq_refl) as E3. rewrite Z.add_0_r in E0.
  change (Z.of_nat 1) with 1 in E1. change (Z.of_nat 2) with 2 in E2. change (Z.of_nat 3) with 3 in E3. rewrite E0, E1, E2, E3.
  cbn [mbind res_bind]. f_equal. cbn [le_get]. mlia.
Qed.

Lemma le_put_split n k z : le_put (n + k) z = le_put n z ++ le_put k (z / 256 ^ Z.of_nat n).
Proof.
  revert z. induction n as [|n IH]; intros z; [by rewrite Z.div_1_r|].
  cbn [Nat.add le_put app]. rewrite IH. do 3 f_equal.
  rewrite Z.div_div by lia. f_equal. rewrite Nat2Z.inj_succ, Z.pow_succ_r by lia. done.
Qed.

Lemma load64_at m a z : bytes_at m a (byte8 z) → 0 ≤ z < 18446744073709551616 → load64 m a = Ok z.
Proof.
  intros H Hz. change (byte8 z) with (le_put (4 + 4) z) in H. rewrite le_put_split in H. apply bytes_at_app in H as [H1 H2].
  change (256 ^ Z.of_nat 4) with 4294967296 in H2. rewrite length_le_put in H2. change (Z.of_nat 4) with 4 in H2.
  assert (H1' : bytes_at m a (byte4 (z mod 4294967296))).
  { replace (byte4 (z mod 4294967296)) with (byte4 z); [done|]. cbn [le_put]. repeat (apply (f_equal2 cons); [mlia|]). done. }
  unfold load64. rewrite (load32_at _ _ _ H1') by mlia. cbn [mbind res_bind]. rewrite (load32_at _ _ _ H2) by mlia.
  cbn [mbind res_bind]. f_equal. mlia.
Qed.

(** ** Lemmas: the tags *)

Lemma length_encode_tag t : Z.of_nat (length (encode_tag t)) = tag_size t.
Proof. unfold encode_tag, tag_size. rewrite !length_app, !length_le_put. lia. Qed.

Lemma length_pad8 bs : Z.of_nat (length (pad8 bs)) = 8 * ((Z.of_nat (length bs) + 7) / 8).
Proof. unfold pad8, MULTIBOOT2_TAG_ALIGN. rewrite length_app, length_replicate. mlia. Qed.

Lemma tag_type_range t : 0 ≤ tag_type t < 22.
Proof. destruct t; vm_compute; split; congruence. Qed.

Definition header (t : multiboot2_tag) : Z * Z := (tag_type t, tag_size t).

Lemma encode_tags_cons t ts : encode_tags (t :: ts) = pad8 (encode_tag t) ++ encode_tags ts.
Proof. done. Qed.

Lemma encode_tags_app ts1 ts2 : encode_tags (ts1 ++ ts2) = encode_tags ts1 ++ encode_tags ts2.
Proof. apply bind_app. Qed.

Lemma next_tag_encoded a t :
  0 ≤ a → a mod 8 = 0 → a + tag_size t + 7 < 4294967296 → next_tag a (tag_size t) = a + Z.of_nat (length (pad8 (encode_tag t))).
Proof.
  intros Ha Hal Hb. assert (8 ≤ tag_size t) by (unfold tag_size; lia).
  rewrite next_tag_aligned by lia. rewrite length_pad8, length_encode_tag. mlia.
Qed.

Lemma encoded_tags_at m a ts :
  bytes_at m a (encode_tags ts) → 0 ≤ a → a mod 8 = 0 → a + Z.of_nat (length (encode_tags ts)) + 8 < 4294967296 →
  tags_at m a (a + Z.of_nat (length (encode_tags ts))) (map header ts).
Proof.
  revert a. induction ts as [|t ts IH]; intros a Hm Ha Hal Hb; [cbn; lia|].
  rewrite encode_tags_cons in *. apply bytes_at_app in Hm as [Ht Hts]. rewrite length_app, Nat2Z.inj_add in *.
  pose proof (length_pad8 (encode_tag t)) as Hp. rewrite length_encode_tag in Hp.
  assert (Hs : 8 ≤ tag_size t) by (unfold tag_size; lia). pose proof (tag_type_range t).
  unfold pad8 in Ht. apply bytes_at_app in Ht as [Ht _]. unfold encode_tag in Ht. apply bytes_at_app in Ht as [Hty Ht].
  rewrite length_le_put in Ht. apply bytes_at_app in Ht as [Hsz _].
  cbn [map header tags_at]. split_and!; [mlia|done|lia|mlia| | |].
  - apply load16_at; [|lia]. change (byte4 (tag_type t)) with (le_put (2 + 2) (tag_type t)) in Hty. rewrite le_put_split in Hty.
    by apply bytes_at_app in Hty as [? _].
  - apply load32_at; [done|mlia].
  - rewrite next_tag_encoded by (done || mlia). rewrite Z.add_assoc. apply IH; [done|lia|rewrite Hp; mlia|lia].
Qed.

(** The last tag of a type. *)
Lemma last_tag_none ty a ts d : Forall (λ t, tag_type t ≠ ty) ts → last_tag ty a (map header ts) d = d.
Proof.
  intros H. revert a d. induction H as [|t ts Ht _ IH]; intros a d; [done|]. cbn. by rewrite (proj2 (Z.eqb_neq _ _)).
Qed.

Lemma last_tag_found ty a ts1 t ts2 d :
  tag_type t = ty → Forall (λ t, tag_type t ≠ ty) ts2 → 0 ≤ a → a mod 8 = 0 →
  a + Z.of_nat (length (encode_tags ts1)) + 8 < 4294967296 →
  last_tag ty a (map header (ts1 ++ t :: ts2)) d = a + Z.of_nat (length (encode_tags ts1)).
Proof.
  intros Ht H2. revert a d. induction ts1 as [|t1 ts1 IH]; intros a d Ha Hal Hb.
  - cbn [app map last_tag header]. rewrite Ht, Z.eqb_refl, last_tag_none by done. cbn. lia.
  - cbn [app map last_tag header]. rewrite encode_tags_cons, length_app, Nat2Z.inj_add in *.
    pose proof (length_pad8 (encode_tag t1)) as Hp. rewrite length_encode_tag in Hp.
    assert (Hs : 8 ≤ tag_size t1) by (unfold tag_size; lia).
    rewrite next_tag_encoded by (done || mlia). rewrite IH by (lia || (rewrite Hp; mlia)). lia.
Qed.

(** ** Lemmas: the contents of the tags *)

(** An entry as the kernel keeps it. *)
Definition kept (e : multiboot2_mmap_entry) : memory_map_t := Entry (u32 (me_addr e)) (u32 (me_len e)) (me_type e).

Definition entry_ok (e : multiboot2_mmap_entry) : Prop :=
  0 ≤ me_addr e < 18446744073709551616 ∧ 0 ≤ me_len e < 18446744073709551616 ∧ 0 ≤ me_type e < 4294967296.

(** Split what is known of the memory into the fields of a structure. *)
Ltac fields H :=
  repeat match type of H with
  | bytes_at _ _ (_ ++ _) =>
      let H1 := fresh "F" in apply bytes_at_app in H as [H1 H];
      rewrite length_le_put, <- ?Z.add_assoc in H
  end.

Lemma encoded_entries_at m a es :
  bytes_at m a (es ≫= encode_mmap_entry) → Forall entry_ok es → 0 ≤ a → a + 24 * Z.of_nat (length es) < 4294967296 →
  entries_at m a 24 (map kept es).
Proof.
  revert a. induction es as [|e es IH]; intros a Hm Hes Ha Hb; [done|].
  apply Forall_cons in Hes as [(Hea & Hel & Het) Hes]. cbn [length] in Hb.
  change ((e :: es) ≫= encode_mmap_entry) with (encode_mmap_entry e ++ (es ≫= encode_mmap_entry)) in Hm.
  apply bytes_at_app in Hm as [He Hm]. assert (Hlen : length (encode_mmap_entry e) = 24%nat) by done. rewrite Hlen in Hm.
  cbn [map entries_at]. split; [|apply IH; [done|done|lia|lia]]. rewrite u32_small by lia.
  unfold encode_mmap_entry in He. fields He. unfold read_entry.
  rewrite (load64_at m a (me_addr e)) by done. cbn [mbind res_bind].
  rewrite (load64_at m (a + 8) (me_len e)) by done. cbn [mbind res_bind].
  by rewrite (load32_at m (a + 16) (me_type e)).
Qed.

Lemma length_entries es : length (es ≫= encode_mmap_entry) = (24 * length es)%nat.
Proof.
  induction es as [|e es IH]; [done|].
  change ((e :: es) ≫= encode_mmap_entry) with (encode_mmap_entry e ++ (es ≫= encode_mmap_entry)). rewrite length_app, IH. cbn. lia.
Qed.

Lemma encoded_mmap_ok m a version es :
  bytes_at m a (encode_tag (TagMmap 24 version es)) → Forall entry_ok es → Z.of_nat (length es) < 100000000 →
  0 ≤ a → a + tag_size (TagMmap 24 version es) < 4294967296 → mmap_ok m a (map kept es).
Proof.
  intros Hm Hes Hn Ha Hb. assert (Hsz : tag_size (TagMmap 24 version es) = 16 + 24 * Z.of_nat (length es)).
  { unfold tag_size. cbn [payload]. rewrite !length_app, !length_le_put, length_entries. lia. }
  unfold encode_tag in Hm. cbn [payload] in Hm. fields Hm. rewrite Hsz in *. split.
  - by apply load32_at.
  - rewrite length_map. apply load32_at; [done|lia].
  - by rewrite length_map.
  - apply encoded_entries_at; [done|done|lia|lia].
Qed.

Record common_ok (c : multiboot2_tag_framebuffer_common) : Prop := {
  co_addr : 0 ≤ framebuffer_addr c < 18446744073709551616;
  co_pitch : 0 ≤ framebuffer_pitch c < 4294967296;
  co_width : 0 ≤ framebuffer_width c < 4294967296;
  co_height : 0 ≤ framebuffer_height c < 4294967296;
  co_bpp : 0 ≤ framebuffer_bpp c < 256;
  co_type : 0 ≤ framebuffer_type c < 256;
}.

(** What main.c takes for the colour fields: it compares the type of the tag, not
    that of the framebuffer, so that the first six bytes of a palette, and of the
    padding behind a short one, are the masks. *)
Definition color_fields (colors : framebuffer_colors) : console_fb_color_fmt :=
  match colors with
  | FbFields rp rs gp gs bp bs => Fmt rs rp gs gp bs bp
  | _ =>
      match encode_colors colors ++ replicate 6 0 with
      | rp :: rs :: gp :: gs :: bp :: bs :: _ => Fmt rs rp gs gp bs bp
      | _ => Fmt 0 0 0 0 0 0
      end
  end.

(** A framebuffer without colour information is the text mode. *)
Definition colors_ok (type : Z) (colors : framebuffer_colors) : Prop :=
  match colors with
  | FbFields rp rs gp gs bp bs => Forall is_byte [rp; rs; gp; gs; bp; bs]
  | FbPalette _ => True
  | FbNone => type = MULTIBOOT2_FRAMEBUFFER_TYPE_EGA_TEXT
  end.

(** The display that main.c makes of a framebuffer. *)
Definition display_of (c : multiboot2_tag_framebuffer_common) (fmt : console_fb_color_fmt) (screen : list Z) : display :=
  if framebuffer_type c =? MULTIBOOT2_FRAMEBUFFER_TYPE_EGA_TEXT then TextDisplay (framebuffer_width c) (framebuffer_height c)
  else
    let bpp := framebuffer_bpp c in
    let padded := u8 (Z.shiftl (if negb (bpp mod 8 =? 0) then u8 (bpp + (8 - bpp mod 8)) else bpp) 3) in
    PixelDisplay (Fb (framebuffer_width c) (framebuffer_height c)
      (if negb (framebuffer_pitch c =? 0) then framebuffer_pitch c else framebuffer_height c)
      bpp FB_CONSOLE_FLAG_RGB screen (replicate (Z.to_nat (padded * 256)) 0) 0 fmt []).

(** Six bytes behind the common part. *)
Lemma bytes_at_format m a rp rs gp gs bp bs l :
  bytes_at m (a + 32) (rp :: rs :: gp :: gs :: bp :: bs :: l) → read_format m a = Ok (Fmt rs rp gs gp bs bp).
Proof.
  intros H. assert (Hl : ∀ i x, (rp :: rs :: gp :: gs :: bp :: bs :: l) !! i = Some x → load8 m (a + (32 + Z.of_nat i)) = Ok x).
  { intros i x Hi. unfold load8. by rewrite Z.add_assoc, (H i x Hi). }
  unfold read_format.
  rewrite (Hl 0%nat rp eq_refl : load8 m (a + 32) = _), (Hl 1%nat rs eq_refl : load8 m (a + 33) = _),
    (Hl 2%nat gp eq_refl : load8 m (a + 34) = _), (Hl 3%nat gs eq_refl : load8 m (a + 35) = _),
    (Hl 4%nat bp eq_refl : load8 m (a + 36) = _), (Hl 5%nat bs eq_refl : load8 m (a + 37) = _). done.
Qed.

(** Black and white: the red field is taken to be at bit 2 and empty, the blue one at
    bit 0 with 255 bits. *)
Lemma palette_taken_for_fields :
  color_fields (FbPalette [Color 0 0 0; Color 255 255 255]) = Fmt 0 2 0 0 255 0.
Proof. done. Qed.

Lemma byte1_small z : is_byte z → byte1 z = [z].
Proof. intros Hz. cbn. unfold is_byte in Hz. by rewrite Z.mod_small by lia. Qed.

(** The colour information and the padding of the tag. *)
Lemma encoded_colors m a c colors :
  bytes_at m a (pad8 (encode_tag (TagFramebuffer c colors))) →
  bytes_at m (a + 32) (encode_colors colors ++ replicate (Z.to_nat (- (32 + Z.of_nat (length (encode_colors colors))) mod 8)) 0).
Proof.
  unfold pad8. rewrite length_encode_tag. unfold tag_size. cbn [payload]. unfold encode_tag. cbn [payload].
  rewrite !app_assoc, <- (app_assoc _ (encode_colors colors)). rewrite length_app.
  replace (8 + Z.of_nat (length (encode_framebuffer_common c) + length (encode_colors colors)))
    with (32 + Z.of_nat (length (encode_colors colors))) by (change (length (encode_framebuffer_common c)) with 24%nat; lia).
  intros H. apply bytes_at_app in H as [_ H]. exact H.
Qed.

Lemma encoded_format m a c colors :
  bytes_at m a (pad8 (encode_tag (TagFramebuffer c colors))) → colors_ok (framebuffer_type c) colors →
  framebuffer_type c ≠ MULTIBOOT2_FRAMEBUFFER_TYPE_EGA_TEXT → read_format m a = Ok (color_fields colors).
Proof.
  intros Hm%encoded_colors Hc Hn. destruct colors as [cs|rp rs gp gs bp bs|]; [|clear Hn|done].
  - destruct cs as [|c1 [|c2 cs]].
    + by apply (bytes_at_format m a _ _ _ _ _ _ _ Hm).
    + by apply (bytes_at_format m a _ _ _ _ _ _ _ Hm).
    + apply bytes_at_app in Hm as [Hm _]. by apply (bytes_at_format m a _ _ _ _ _ _ _ Hm).
  - cbn [colors_ok] in Hc. repeat (apply Forall_cons in Hc as [? Hc]). cbn [encode_colors] in Hm.
    rewrite !byte1_small in Hm by done. by apply (bytes_at_format m a _ _ _ _ _ _ _ Hm).
Qed.

Lemma encoded_framebuffer m a c colors :
  bytes_at m a (pad8 (encode_tag (TagFramebuffer c colors))) → common_ok c → colors_ok (framebuffer_type c) colors → 0 < a →
  fb_range m a = Ok (u32 (framebuffer_addr c), u32 (u32 (framebuffer_pitch c * framebuffer_height c) * Z.shiftr (framebuffer_bpp c) 3)) ∧
  ∀ screen, choose_display m a screen = Ok (display_of c (color_fields colors) screen).
Proof.
  intros Hm Hc Hf Ha. pose proof (encoded_format m a c colors Hm Hf) as Hfmt. destruct Hc.
  unfold pad8 in Hm. apply bytes_at_app in Hm as [Hm _].
  unfold encode_tag in Hm. cbn [payload] in Hm. unfold encode_framebuffer_common in Hm.
  rewrite <- !app_assoc in Hm. fields Hm.
  assert (Haddr : load64 m (a + 8) = Ok (framebuffer_addr c)) by (by apply load64_at).
  assert (Hpitch : load32 m (a + 16) = Ok (framebuffer_pitch c)) by (by apply load32_at).
  assert (Hwidth : load32 m (a + 20) = Ok (framebuffer_width c)) by (by apply load32_at).
  assert (Hheight : load32 m (a + 24) = Ok (framebuffer_height c)) by (by apply load32_at).
  assert (Hbpp : load8 m (a + 28) = Ok (framebuffer_bpp c)) by (by apply load8_at).
  assert (Htype : load8 m (a + 29) = Ok (framebuffer_type c)) by (by apply load8_at).
  assert (Htag : load32 m a = Ok 8) by (by apply load32_at).
  split.
  - unfold fb_range. by rewrite Haddr, Hpitch, Hheight, Hbpp.
  - intros screen. unfold choose_display, display_of, MULTIBOOT2_FRAMEBUFFER_TYPE_EGA_TEXT in *.
    rewrite (proj2 (Z.eqb_neq a 0)) by lia. cbn [negb]. rewrite Htype, Hwidth, Hheight. cbn [mbind res_bind].
    destruct (Z.eqb_spec (framebuffer_type c) 2) as [|Hne]; [done|]. rewrite Hpitch, Hbpp, Htag. cbn [mbind res_bind Z.eqb].
    by rewrite (Hfmt Hne).
Qed.

(** ** Lemmas: the information as a whole *)

Section information.
Context (m : mem) (info : Z) (ts : list multiboot2_tag).
Context (Hm : bytes_at m info (encode_info ts)) (Hi : 0 < info) (Hal : info mod 8 = 0).
Context (Hb : info + Z.of_nat (length (encode_info ts)) + 8 < 4294967296).

Lemma information_tags :
  bytes_at m (info + 8) (encode_tags ts) ∧ info + 8 + Z.of_nat (length (encode_tags ts)) + 8 < 4294967296 ∧
  load32 m info = Ok (8 + Z.of_nat (length (encode_tags ts))).
Proof.
  revert Hm Hb. unfold encode_info. rewrite !length_app, !length_le_put. intros Hm' Hb'. fields Hm'.
  change (Z.of_nat 4 + Z.of_nat 4) with 8 in Hm'. split; [done|]. split; [lia|]. apply load32_at; [done|lia].
Qed.

Lemma information_scan fuel :
  (length ts < fuel)%nat → scan_tags fuel m info = Ok (scanned (info + 8) (map header ts) no_tags).
Proof.
  intros Hf. destruct information_tags as (Hts & Hbound & Htotal).
  apply encoded_tags_at in Hts; [|lia|mlia|lia].
  unfold scan_tags. rewrite Htotal. cbn [mbind res_bind]. cbv zeta. rewrite u32_small by lia.
  rewrite Z.add_assoc. apply (scan_loop m _ _ _ no_tags); [done|by rewrite length_map].
Qed.

Lemma padded_tag a t : bytes_at m a (pad8 (encode_tag t)) → bytes_at m a (encode_tag t).
Proof. intros H. unfold pad8 in H. by apply bytes_at_app in H as [H _]. Qed.

(** The last tag of a type: where it is and what is there. *)
Lemma information_last ts1 t ts2 :
  ts = ts1 ++ t :: ts2 → Forall (λ t', tag_type t' ≠ tag_type t) ts2 →
  ∃ a, 0 < a ∧ bytes_at m a (pad8 (encode_tag t)) ∧ a + tag_size t + 8 < 4294967296 ∧
       ∀ d, last_tag (tag_type t) (info + 8) (map header ts) d = a.
Proof.
  intros E Hn. destruct information_tags as (Hts & Hbound & _). exists (info + 8 + Z.of_nat (length (encode_tags ts1))).
  rewrite E, encode_tags_app, encode_tags_cons, !length_app in *.
  apply bytes_at_app in Hts as [_ Hts]. apply bytes_at_app in Hts as [Hts _]. pose proof (length_pad8 (encode_tag t)) as Hp. rewrite length_encode_tag in Hp.
  split; [lia|]. split; [done|]. split; [mlia|]. intros d. apply last_tag_found; (done || lia || mlia).
Qed.

Lemma information_cmdline ts1 str ts2 :
  ts = ts1 ++ TagCmdline str :: ts2 → Forall (λ t, tag_type t ≠ MULTIBOOT2_TAG_TYPE_CMDLINE) ts2 →
  ∃ a, cmdline (scanned (info + 8) (map header ts) no_tags) = Some a ∧ bytes_at m a str.
Proof.
  intros E Hn. destruct (information_last _ _ _ E Hn) as (a & Ha & Hbytes & _ & El). cbn [tag_type] in El.
  exists (a + 8). cbn [cmdline scanned]. rewrite El, (proj2 (Z.eqb_neq a (-1))) by lia. split; [done|].
  apply padded_tag in Hbytes. unfold encode_tag in Hbytes. cbn [payload] in Hbytes. by fields Hbytes.
Qed.

Lemma information_mmap ts1 version es ts2 maps :
  ts = ts1 ++ TagMmap 24 version es :: ts2 → Forall (λ t, tag_type t ≠ MULTIBOOT2_TAG_TYPE_MMAP) ts2 →
  Forall entry_ok es → Z.of_nat (length es) < 100000000 →
  mmap_tag (scanned (info + 8) (map header ts) no_tags) ≠ 0 ∧
  read_mmap m (mmap_tag (scanned (info + 8) (map header ts) no_tags)) maps = add_regions maps (map kept es).
Proof.
  intros E Hn Hes Hlen. destruct (information_last _ _ _ E Hn) as (a & Ha & Hbytes & Hbound & El). cbn [tag_type] in El.
  cbn [mmap_tag scanned]. rewrite El. split; [lia|]. apply read_mmap_ok. eapply encoded_mmap_ok; [by apply padded_tag|done|done|lia|lia].
Qed.

Lemma information_framebuffer ts1 c colors ts2 :
  ts = ts1 ++ TagFramebuffer c colors :: ts2 →
  Forall (λ t, tag_type t ≠ MULTIBOOT2_TAG_TYPE_FRAMEBUFFER) ts2 → common_ok c → colors_ok (framebuffer_type c) colors →
  let fb := framebuffer (scanned (info + 8) (map header ts) no_tags) in
  fb ≠ 0 ∧
  fb_range m fb = Ok (u32 (framebuffer_addr c), u32 (u32 (framebuffer_pitch c * framebuffer_height c) * Z.shiftr (framebuffer_bpp c) 3)) ∧
  ∀ screen, choose_display m fb screen = Ok (display_of c (color_fields colors) screen).
Proof.
  intros E Hn Hc Hbs. destruct (information_last _ _ _ E Hn) as (a & Ha & Hbytes & _ & El). cbn [tag_type] in El.
  cbn [framebuffer scanned]. rewrite El. split; [lia|]. by apply encoded_framebuffer.
Qed.

End information.

(** ** The start from the information *)

(** The last tag of a type, which is the one that main.c uses. *)
Definition last_of (ty : Z) (ts : list multiboot2_tag) : option multiboot2_tag := last (filter (λ t, tag_type t = ty) ts).

Lemma last_of_split ty ts t :
  last_of ty ts = Some t → tag_type t = ty ∧ ∃ ts1 ts2, ts = ts1 ++ t :: ts2 ∧ Forall (λ t', tag_type t' ≠ ty) ts2.
Proof.
  unfold last_of. induction ts as [|x ts IH] using rev_ind; [done|]. rewrite filter_app.
  destruct (decide (tag_type x = ty)) as [E|E].
  - rewrite (filter_cons_True _ x []), filter_nil, last_snoc by done. intros [= ->]. split; [done|]. by exists ts, [].
  - rewrite (filter_cons_False _ x []), filter_nil, app_nil_r by done. intros Hl.
    destruct (IH Hl) as (Ht & ts1 & ts2 & -> & Hn). split; [done|]. exists ts1, (ts2 ++ [x]).
    rewrite <- app_assoc. split; [done|]. apply Forall_app. split; [done|]. by repeat constructor.
Qed.

Lemma last_of_none ty ts : last_of ty ts = None → Forall (λ t, tag_type t ≠ ty) ts.
Proof.
  unfold last_of. intros Hn%last_None. apply Forall_forall. intros t Ht E.
  eapply (filter_nil_not_elem_of (λ t, tag_type t = ty)); [exact Hn|exact E|exact Ht].
Qed.

(** The fields of the framebuffer, if there is one, have their widths. *)
Definition framebuffer_ok (t : option multiboot2_tag) : Prop :=
  match t with
  | Some (TagFramebuffer c colors) => common_ok c ∧ colors_ok (framebuffer_type c) colors
  | _ => True
  end.

(** The display of a framebuffer, once its memory is mapped. *)
Definition shown {K} (map_screen : Z → Z → K → res (list Z * K)) (t : option multiboot2_tag) (k : K) : res (display * K) :=
  match t with
  | Some (TagFramebuffer c colors) =>
      '(screen, k) ← map_screen (u32 (framebuffer_addr c)) (u32 (u32 (framebuffer_pitch c * framebuffer_height c) * Z.shiftr (framebuffer_bpp c) 3)) k;
      Ok (display_of c (color_fields colors) screen, k)
  | _ => Ok (NoDisplay, k)
  end.

Definition cmdline_at (m : mem) (t : option multiboot2_tag) (a : option Z) : Prop :=
  match t with
  | Some (TagCmdline str) => ∃ p, a = Some p ∧ bytes_at m p str
  | _ => a = None
  end.

Section start.
Context (m : mem) (info : Z) (ts : list multiboot2_tag).
Context (Hm : bytes_at m info (encode_info ts)) (Hi : 0 < info) (Hal : info mod 8 = 0).
Context (Hb : info + Z.of_nat (length (encode_info ts)) + 8 < 4294967296).

Let t := scanned (info + 8) (map header ts) no_tags.

Lemma start_cmdline : cmdline_at m (last_of MULTIBOOT2_TAG_TYPE_CMDLINE ts) (cmdline t).
Proof.
  destruct (last_of _ ts) as [x|] eqn:E; cbn [cmdline_at].
  - apply last_of_split in E as (Ex & ts1 & ts2 & E & Hn). destruct x; try (exfalso; cbn in Ex; discriminate Ex).
    by eapply information_cmdline.
  - cbn. by rewrite last_tag_none by (by apply last_of_none).
Qed.

Lemma start_display {K} (map_screen : Z → Z → K → res (list Z * K)) k :
  framebuffer_ok (last_of MULTIBOOT2_TAG_TYPE_FRAMEBUFFER ts) →
  ('(screen, k) ← (if negb (framebuffer t =? 0) then '(phys, size) ← fb_range m (framebuffer t); map_screen phys size k else Ok ([], k));
   d ← choose_display m (framebuffer t) screen; Ok (d, k))
  = shown map_screen (last_of MULTIBOOT2_TAG_TYPE_FRAMEBUFFER ts) k.
Proof.
  intros Hok. destruct (last_of _ ts) as [x|] eqn:E.
  - apply last_of_split in E as (Ex & ts1 & ts2 & E & Hn). destruct x; try (exfalso; cbn in Ex; discriminate Ex).
    destruct Hok as [Hc Hbs].
    destruct (information_framebuffer m info ts Hm Hi Hal Hb _ _ _ _ E Hn Hc Hbs) as (H0 & Hr & Hd). fold t in H0, Hr, Hd.
    rewrite (proj2 (Z.eqb_neq _ _) H0). cbn [negb]. rewrite Hr. cbn [mbind res_bind shown].
    destruct (map_screen _ _ k) as [[screen k']|]; [|done]. cbn [mbind res_bind]. by rewrite Hd.
  - assert (framebuffer t = 0) as -> by (apply last_tag_none; by apply last_of_none). done.
Qed.

Lemma start_meminfo : is_Some (last_of MULTIBOOT2_TAG_TYPE_BASIC_MEMINFO ts) → mem_tag t ≠ 0.
Proof.
  intros [x E]. apply last_of_split in E as (Ex & ts1 & ts2 & E & Hn). rewrite <- Ex in Hn.
  destruct (information_last m info ts Hm Hi Hal Hb _ _ _ E Hn) as (a & Ha & _ & _ & El). rewrite Ex in El.
  cbn. rewrite El. lia.
Qed.

End start.

(** ** The theorem *)

(** main.c reads from the information of the loader, laid out as multiboot2.h
    declares it, what was put into it: the last command line, the entries of the
    last memory map with addresses and lengths cut to 32 bits, the range and the
    display of the last framebuffer, a palette taken for colour fields; tags of
    other types are skipped, and what is missing is NULL. *)
Theorem information_read_back m info ts fuel :
  bytes_at m info (encode_info ts) → 0 < info → info mod 8 = 0 →
  info + Z.of_nat (length (encode_info ts)) + 8 < 4294967296 → (length ts < fuel)%nat →
  ∃ t, scan_tags fuel m info = Ok t ∧
    (∀ ts1 s ts2, ts = ts1 ++ TagCmdline s :: ts2 → Forall (λ t, tag_type t ≠ MULTIBOOT2_TAG_TYPE_CMDLINE) ts2 →
       ∃ a, cmdline t = Some a ∧ bytes_at m a s) ∧
    (∀ ts1 version es ts2, ts = ts1 ++ TagMmap 24 version es :: ts2 → Forall (λ t, tag_type t ≠ MULTIBOOT2_TAG_TYPE_MMAP) ts2 →
       Forall entry_ok es → Z.of_nat (length es) < 100000000 →
       ∀ maps, read_mmap m (mmap_tag t) maps = add_regions maps (map kept es)) ∧
    (∀ ts1 c colors ts2, ts = ts1 ++ TagFramebuffer c colors :: ts2 →
       Forall (λ t, tag_type t ≠ MULTIBOOT2_TAG_TYPE_FRAMEBUFFER) ts2 → common_ok c → colors_ok (framebuffer_type c) colors →
       fb_range m (framebuffer t)
         = Ok (u32 (framebuffer_addr c), u32 (u32 (framebuffer_pitch c * framebuffer_height c) * Z.shiftr (framebuffer_bpp c) 3)) ∧
       ∀ screen, choose_display m (framebuffer t) screen = Ok (display_of c (color_fields colors) screen)) ∧
    (Forall (λ t, tag_type t ≠ MULTIBOOT2_TAG_TYPE_CMDLINE) ts → cmdline t = None) ∧
    (Forall (λ t, tag_type t ≠ MULTIBOOT2_TAG_TYPE_MMAP) ts → mmap_tag t = 0) ∧
    (Forall (λ t, tag_type t ≠ MULTIBOOT2_TAG_TYPE_FRAMEBUFFER) ts → framebuffer t = 0).
Proof.
  intros Hm Hi Hal Hb Hf. exists (scanned (info + 8) (map header ts) no_tags).
  split; [by apply information_scan|]. split_and!.
  - by apply information_cmdline.
  - intros ts1 version es ts2 E Hn Hes Hlen maps. by eapply information_mmap.
  - intros ts1 c colors ts2 E Hn Hc Hbs. by eapply information_framebuffer.
  - intros Hn. cbn [cmdline scanned]. by rewrite last_tag_none.
  - intros Hn. by apply last_tag_none.
  - intros Hn. by apply last_tag_none.
Qed.

(** The start from a loader that follows multiboot2.h.  Given the bytes of its
    information, with the memory sizes, a memory map and, if any, a framebuffer, [_main] takes the last usable region above 1 MB of the first
    32 entries (addresses and lengths cut to 32 bits), puts exactly the pages of the
    kernel in use, runs the initcalls, maps the memory of the framebuffer and chooses
    the display [shown], and passes on the command line; without the magic number it
    does nothing. *)
Theorem boots_from_information {K : Type} (initcalls : MemoryRegion.t → K → res (MemoryRegion.t * K))
    (map_screen : Z → Z → K → res (list Z * K)) m info ts version es region magic kernel_start kernel_end
    (s : boot_t (K := K)) fuel :
  bytes_at m info (encode_info ts) → 0 < info → info mod 8 = 0 →
  info + Z.of_nat (length (encode_info ts)) + 8 < 4294967296 → (length ts < fuel)%nat →
  is_Some (last_of MULTIBOOT2_TAG_TYPE_BASIC_MEMINFO ts) →
  last_of MULTIBOOT2_TAG_TYPE_MMAP ts = Some (TagMmap 24 version es) → Forall entry_ok es → Z.of_nat (length es) < 100000000 →
  framebuffer_ok (last_of MULTIBOOT2_TAG_TYPE_FRAMEBUFFER ts) →
  MemoryMap.inv (maps s) → memory_map_entries (maps s) = [] → 0 < _initial_memory_region (frames s) →
  last (filter (λ e, candidate e = true) (filter available (take 32 (map kept es)))) = Some region →
  0xC0000000 ≤ kernel_start ≤ kernel_end → kernel_end < 4294967296 →
  ∃ maps' frames' cmd, frames_ready frames' (_initial_memory_region (frames s)) region kernel_start kernel_end ∧
    memory_map_entries maps' = take 32 (map kept es) ∧ cmdline_at m (last_of MULTIBOOT2_TAG_TYPE_CMDLINE ts) cmd ∧
    _main initcalls map_screen fuel m info magic kernel_start kernel_end s =
      if magic =? 0x36D76289 then
        '(frames2, k) ← initcalls frames' (kernel s);
        '(d, k) ← shown map_screen (last_of MULTIBOOT2_TAG_TYPE_FRAMEBUFFER ts) k;
        Ok (BootState maps' frames2 k, Some (cmd, d))
      else Ok (s, None).
Proof.
  intros Hm Hi Hal Hb Hf Hmem Hmap Hes Hlen Hfb Hinv H0 Ha Hlast Hks Hke.
  assert (0 ≤ addr region < 4294967296 ∧ 0 ≤ mlength region) as [Hra Hrl].
  { apply last_Some_elem_of, list_elem_of_filter in Hlast as [_ Hin]. apply list_elem_of_filter in Hin as [_ Hin].
    apply elem_of_take in Hin as (n & Hin & _). apply list_elem_of_lookup_2, list_elem_of_fmap in Hin as (e & -> & _).
    cbn. pose proof (u32_range (me_addr e)). pose proof (u32_range (me_len e)). lia. }
  apply last_of_split in Hmap as (_ & ts1 & ts2 & E & Hn).
  destruct (information_mmap m info ts Hm Hi Hal Hb ts1 version es ts2 (maps s) E Hn Hes Hlen) as [Hmm Hread].
  destruct (main_from_tags initcalls map_screen m info _ (map kept es) region kernel_start kernel_end s fuel
    (information_scan m info ts Hm Hi Hal Hb fuel Hf)) as (maps' & frames' & Hready & Hmaps & Hmain);
    try done; [by apply (start_meminfo m info ts)|].
  eexists maps', frames', _. split; [done|]. split; [done|]. split; [by apply (start_cmdline m info ts)|].
  unfold _main. destruct (magic =? 0x36D76289); [|done]. rewrite Hmain.
  destruct (initcalls frames' (kernel s)) as [[frames2 k]|]; [|done]. cbn [mbind res_bind].
  rewrite <- (start_display m info ts Hm Hi Hal Hb map_screen k Hfb).
  destruct (if negb _ then _ else _) as [[screen k']|]; [|done]. cbn [mbind res_bind].
  by destruct (choose_display m _ screen).
Qed.

(** ** An example *)

Definition demo_common : multiboot2_tag_framebuffer_common := FbCommon 0xFD000000 6400 1600 1200 32 1 0.
Definition demo_entries : list multiboot2_mmap_entry := [MmapEntry 0 0x9FC00 1 0; MmapEntry 0x100000000 0x100100000 2 0].
Definition demo_tags : list multiboot2_tag :=
  [TagBootLoaderName [71; 82; 85; 66; 0]; TagCmdline [113; 0]; TagBasicMeminfo 639 129920; TagMmap 24 0 demo_entries;
   TagFramebuffer demo_common (FbFields 16 8 8 8 0 8); TagAcpiOld (replicate 20 1); TagEnd].
Definition demo_info : mem := list_to_map (zip (seqZ 0x1000 (Z.of_nat (length (encode_info demo_tags)))) (encode_info demo_tags)).

Lemma bytes_at_by m a bs : imap (λ i _, m !! (a + Z.of_nat i)) bs = map Some bs → bytes_at m a bs.
Proof.
  intros H i x Hi. apply (f_equal (.!! i)) in H. rewrite list_lookup_imap, list_lookup_fmap, Hi in H. by injection H.
Qed.

Lemma demo_info_at : bytes_at demo_info 0x1000 (encode_info demo_tags).
Proof. apply bytes_at_by. vm_compute. reflexivity. Qed.

(** The second region lies above 4 GB: its address and length lose their upper
    halves. *)
Lemma information_read_back_witness :
  ∃ t, scan_tags 8 demo_info 0x1000 = Ok t ∧ cmdline t ≠ None ∧
    (∀ maps, read_mmap demo_info (mmap_tag t) maps = add_regions maps [Entry 0 0x9FC00 1; Entry 0 0x100000 2]) ∧
    fb_range demo_info (framebuffer t) = Ok (0xFD000000, 6400 * 1200 * 4).
Proof.
  destruct (information_read_back demo_info 0x1000 demo_tags 8 demo_info_at) as (t & Ht & Hc & Hm & Hf & _);
    [lia|reflexivity|vm_compute; reflexivity|cbn; lia|].
  exists t. split; [exact Ht|]. split; [|split].
  - destruct (Hc [TagBootLoaderName [71; 82; 85; 66; 0]] [113; 0] (drop 2 demo_tags) eq_refl) as (a & Ha & _);
      [repeat (constructor; [discriminate|]); constructor|congruence].
  - apply (Hm (take 3 demo_tags) 0 demo_entries (drop 4 demo_tags) eq_refl);
      [repeat (constructor; [discriminate|]); constructor|repeat constructor; cbn; lia|cbn; lia].
  - destruct (Hf (take 4 demo_tags) demo_common (FbFields 16 8 8 8 0 8) (drop 5 demo_tags) eq_refl) as [Hr _];
      [repeat (constructor; [discriminate|]); constructor|split; cbn; lia|repeat constructor; unfold is_byte; lia|exact Hr].
Defined.

(** The same loader with a region that the kernel can use. *)
Definition boot_entries : list multiboot2_mmap_entry := demo_entries ++ [MmapEntry 0x100000 0x7EE0000 1 0].
Definition boot_tags : list multiboot2_tag :=
  [TagCmdline [113; 0]; TagBasicMeminfo 639 129920; TagMmap 24 0 boot_entries;
   TagFramebuffer demo_common (FbFields 16 8 8 8 0 8); TagEnd].
Definition boot_info : mem := list_to_map (zip (seqZ 0x1000 (Z.of_nat (length (encode_info boot_tags)))) (encode_info boot_tags)).

Lemma boots_from_information_witness :
  ∃ maps' frames' cmd, frames_ready frames' 0xC0142000 (Entry 0x100000 0x7EE0000 1) 0xC0100000 0xC0143A00 ∧
    memory_map_entries maps' = map kept boot_entries ∧ cmdline_at boot_info (Some (TagCmdline [113; 0])) cmd ∧
    _main (λ f k, Ok (f, k + 1)) (λ a n k, Ok ([a; n], k + 2)) 6 boot_info 0x1000 0x36D76289 0xC0100000 0xC0143A00
      (BootState (memory_map_initialize boot_state) (Alloc ∅ 0xC0142000 0 0) 0)
    = Ok (BootState maps' frames' 3, Some (cmd, display_of demo_common (Fmt 8 16 8 8 8 0) [0xFD000000; 6400 * 1200 * 4])).
Proof.
  destruct (boots_from_information (λ f k, Ok (f, k + 1)) (λ a n k, Ok ([a; n], k + 2)) boot_info 0x1000 boot_tags 0 boot_entries
    (Entry 0x100000 0x7EE0000 1) 0x36D76289 0xC0100000 0xC0143A00
    (BootState (memory_map_initialize boot_state) (Alloc ∅ 0xC0142000 0 0) 0) 6)
    as (maps' & frames' & cmd & Hready & Hmaps & Hcmd & Hmain);
    [apply bytes_at_by; vm_compute; reflexivity|lia|reflexivity|vm_compute; reflexivity|cbn; lia|by eexists|reflexivity|
     repeat constructor; cbn; lia|cbn; lia|split; [split; cbn; lia|repeat constructor; unfold is_byte; lia]|
     by apply inv_initialize|reflexivity|cbn; lia|reflexivity|lia|lia|].
  exists maps', frames', cmd. split; [exact Hready|]. split; [exact Hmaps|]. split; [exact Hcmd|exact Hmain].
Defined.
