(* ===== verification/Loader.v ===== *)
(** From the bootloader to the kernel: boot.S and main.c together.

    Sources: kernel/arch/i386/kernel/boot/boot.S and boot/main.c.  Bootstrap.v ends
    at the call of _init, Boot.v begins with the arguments of [_main]; here the
    memory that [_main] reads is what the page tables of boot.S show of the memory
    of the processor.  Between the two runs _init, which the tool chain fills; it is
    assumed to leave the information as it is. *)
From S2P Require Import Prelude CString Console Display MemoryMap MemoryRegion I386 Bootstrap Boot Multiboot2.

Section loader.
Variables boot_pagedir boot_pagetab1 stack_top multiboot_info kernel_start kernel_end label_4 : Z.
Variables cb tb ks : Z.
Context (HL : layout_ok boot_pagedir boot_pagetab1 stack_top multiboot_info kernel_start kernel_end cb tb ks).

(** The kernel's addresses after the switch. *)
Lemma booted_mmu c c' size v :
  booted stack_top multiboot_info kernel_start kernel_end cb tb c c' size →
  4096 * ks ≤ low v < low kernel_end → mmu false c' v = Ok (low v).
Proof.
  intros [[Hcr Hd] Ht _ _ _] Hv. pose proof HL as [_ Hks _ _ _ _].
  replace v with (0xC0000000 + low v) by (unfold low; lia).
  replace (low (0xC0000000 + low v)) with (low v) by (unfold low; lia).
  eapply mmu_kernel; [rewrite Hcr; mlia|by rewrite Hcr| |exact Ht|lia|].
  - unfold boot_directory. rewrite list_lookup_insert_ne by done. apply list_lookup_insert_eq. rewrite length_replicate. lia.
  - by eapply boot_table_page.
Qed.

(** The arguments of [_main]. *)
Lemma booted_arguments c c' size :
  booted stack_top multiboot_info kernel_start kernel_end cb tb c c' size →
  vread (esp (regs c')) c' = Ok (multiboot_info + 8) ∧ vread (esp (regs c') + 4) c' = Ok (eax (regs c)).
Proof.
  intros Hb. pose proof (bt_arguments _ _ _ _ _ _ _ _ _ Hb) as [-> [_ Hw]]. pose proof HL as [_ _ _ _ _ [Hs1 Hs2]].
  unfold vread. rewrite !(booted_mmu c c' size) by (done || (unfold low in *; lia)). cbn [mbind res_bind].
  pose proof (Hw 0%nat _ eq_refl) as H0. pose proof (Hw 1%nat _ eq_refl) as H1.
  replace (low stack_top - 8 + 4 * Z.of_nat 0) with (low (stack_top - 8)) in H0 by (unfold low; lia).
  replace (low stack_top - 8 + 4 * Z.of_nat 1) with (low (stack_top - 8 + 4)) in H1 by (unfold low; lia). done.
Qed.

(** [m] shows, from [lo] on, [n] bytes of the memory behind the page tables. *)
Definition sees (c : cpu) (m : mem) (lo n : Z) : Prop :=
  ∀ v, lo ≤ v < lo + n → ∃ pa, mmu false c v = Ok pa ∧ m !! v = memory c !! pa.

Lemma booted_information c c' size m l :
  booted stack_top multiboot_info kernel_start kernel_end cb tb c c' size → size ≤ 32760 →
  Z.of_nat (length l) = size → Mem.bytes_at (memory c) (ebx (regs c)) l →
  sees c' m (multiboot_info + 8) size → Mem.bytes_at m (multiboot_info + 8) l.
Proof.
  intros Hb Hsz Hl Hat Hm i x Hi. pose proof (lookup_lt_Some _ _ _ Hi). pose proof HL as [_ _ _ _ [Hi1 Hi2] _].
  destruct (Hm (multiboot_info + 8 + Z.of_nat i)) as (pa & Hpa & ->); [lia|].
  rewrite (booted_mmu c c' size) in Hpa by (done || (unfold low in *; lia)). injection Hpa as <-.
  rewrite <- (Hat i x Hi), <- (bt_info _ _ _ _ _ _ _ _ _ Hb) by lia. f_equal. unfold low. lia.
Qed.

(** Such a memory: what the processor reads there. *)
Definition view (c : cpu) (lo n : Z) : mem :=
  map_imap (λ v (_ : unit), match mmu false c v with Ok pa => memory c !! pa | Fault _ => None end)
    (gset_to_gmap tt (list_to_set (seqZ lo n))).

Lemma booted_view c c' size :
  booted stack_top multiboot_info kernel_start kernel_end cb tb c c' size → size ≤ 32760 →
  sees c' (view c' (multiboot_info + 8) size) (multiboot_info + 8) size.
Proof.
  intros Hb Hsz v Hv. pose proof HL as [_ _ _ _ [Hi1 Hi2] _]. exists (low v).
  assert (Hmmu : mmu false c' v = Ok (low v)) by (apply (booted_mmu c c' size); [done|unfold low in *; lia]).
  split; [exact Hmmu|]. unfold view. rewrite map_lookup_imap.
  rewrite (proj2 (lookup_gset_to_gmap_Some _ _ v tt)); [cbn; by rewrite Hmmu|].
  split; [|done]. apply elem_of_list_to_set, elem_of_seqZ. lia.
Qed.

End loader.

(** The first word of the information is its size. *)
Lemma information_size m a ts size :
  Mem.bytes_at m a (encode_info ts) → Z.of_nat (length (encode_info ts)) < 4294967296 → load32 m a = Ok size →
  Z.of_nat (length (encode_info ts)) = size.
Proof.
  intros Hm Hl Hs. assert (E : Z.of_nat (length (encode_info ts)) = 8 + Z.of_nat (length (encode_tags ts))).
  { unfold encode_info. rewrite !length_app, !length_le_put. lia. }
  unfold encode_info in Hm. apply bytes_at_app in Hm as [Hm _]. rewrite (load32_at m a _ Hm) in Hs by lia.
  injection Hs as <-. exact E.
Qed.

(** C2: The start as a whole.  The loader enters boot.S with the information in EBX,
    laid out as multiboot2.h says, and a number in EAX.  Unless the processor halts in
    the size check, it comes to the call of _init with a stack on which [_main] finds
    the address of the copied information and that number; and [_main], reading
    through the page tables of boot.S, takes the last usable region above 1 MB of the
    loader's map, puts exactly the pages of the kernel in use, runs the initcalls, maps
    the memory of the framebuffer, passes on the command line and chooses the display:
    none without a framebuffer tag, text for the EGA type, else pixels with colour
    fields, for an indexed framebuffer those that the first bytes of its palette
    make up ([color_fields]), as main.c tells a palette by the wrong type.  With
    another number than that of Multiboot2 it does nothing. *)
Theorem loader_starts_kernel {K : Type} (initcalls : MemoryRegion.t → K → res (MemoryRegion.t * K))
    (map_screen : Z → Z → K → res (list Z * K))
    boot_pagedir boot_pagetab1 stack_top multiboot_info kernel_start kernel_end label_4 cb tb ks c size guard
    ts version es region (s : boot_t (K := K)) fuel :
  layout_ok boot_pagedir boot_pagetab1 stack_top multiboot_info kernel_start kernel_end cb tb ks →
  word stack_top → word multiboot_info → multiboot_info mod 8 = 0 →
  loaded boot_pagedir boot_pagetab1 stack_top multiboot_info c size guard →
  Mem.bytes_at (memory c) (ebx (regs c)) (encode_info ts) → Z.of_nat (length (encode_info ts)) < 4294967296 →
  is_Some (last_of MULTIBOOT2_TAG_TYPE_BASIC_MEMINFO ts) →
  last_of MULTIBOOT2_TAG_TYPE_MMAP ts = Some (TagMmap 24 version es) → Forall entry_ok es → Z.of_nat (length es) < 100000000 →
  framebuffer_ok (last_of MULTIBOOT2_TAG_TYPE_FRAMEBUFFER ts) → (length ts < fuel)%nat →
  MemoryMap.inv (maps s) → memory_map_entries (maps s) = [] → 0 < _initial_memory_region (frames s) →
  last (filter (λ e, candidate e = true) (filter available (take 32 (map kept es)))) = Some region →
  ∃ o, _start boot_pagedir boot_pagetab1 stack_top multiboot_info kernel_start kernel_end label_4 c = Ok o ∧
    match o with
    | Halts _ => s32 guard ≤ size
    | Runs c' =>
        vread (esp (regs c')) c' = Ok (multiboot_info + 8) ∧ vread (esp (regs c') + 4) c' = Ok (eax (regs c)) ∧
        sees c' (view c' (multiboot_info + 8) size) (multiboot_info + 8) size ∧
        ∀ m, sees c' m (multiboot_info + 8) size →
        ∃ maps' frames' cmd, frames_ready frames' (_initial_memory_region (frames s)) region kernel_start kernel_end ∧
          memory_map_entries maps' = take 32 (map kept es) ∧ cmdline_at m (last_of MULTIBOOT2_TAG_TYPE_CMDLINE ts) cmd ∧
          _main initcalls map_screen fuel m (multiboot_info + 8) (eax (regs c)) kernel_start kernel_end s =
            if eax (regs c) =? 0x36D76289 then
              '(frames2, k) ← initcalls frames' (kernel s);
              '(d, k) ← shown map_screen (last_of MULTIBOOT2_TAG_TYPE_FRAMEBUFFER ts) k;
              Ok (BootState maps' frames2 k, Some (cmd, d))
            else Ok (s, None)
    end.
Proof.
  intros HL Hst Hmi Hal Hc Hts Hlts Hmem Hmap Hes Hlen Hfb Hf Hinv H0 Ha Hlast.
  destruct (start_ok _ _ _ _ _ _ label_4 cb tb ks HL c size guard Hst Hmi Hc) as (o & Ho & Hr).
  exists o. split; [exact Ho|]. destruct o as [c'|c']; [destruct Hr as [_ Hb]|exact Hr].
  destruct (booted_arguments _ _ _ _ _ _ _ _ _ HL c c' size Hb) as [Harg1 Harg2].
  destruct (ld_size _ _ _ _ _ _ _ Hc) as (Hsize & Hsz & _).
  split; [exact Harg1|]. split; [exact Harg2|]. split; [eapply booted_view; [exact HL|exact Hb|lia]|]. intros m Hm.
  pose proof (information_size _ _ _ _ Hts Hlts Hsize) as El.
  pose proof (booted_information _ _ _ _ _ _ _ _ _ HL c c' size m (encode_info ts) Hb ltac:(lia) El Hts Hm) as Hat.
  destruct HL as [(_ & _ & Hks) (Hk0 & Hke & _) [Hcb1 Hcb2] _ [Hi1 Hi2] _]. unfold low in *.
  apply (boots_from_information initcalls map_screen m (multiboot_info + 8) ts version es region); try done; try lia; mlia.
Qed.

(** ** An example: the information of the loader at 64 KB, the kernel in the frames 320 to 339 *)

Definition start_info : list Z := encode_info boot_tags.

Definition start_cpu : cpu := example_cpu start_info.

Lemma start_loaded :
  loaded (0xC0000000 + 4096 * 321) (0xC0000000 + 4096 * 322) (0xC0000000 + 4096 * 330) (0xC0000000 + 4096 * 331) start_cpu 176 100000.
Proof. apply (example_loaded start_info); [vm_compute; split; discriminate|vm_compute; reflexivity]. Qed.

Lemma start_info_at : Mem.bytes_at (memory start_cpu) 65536 start_info.
Proof.
  intros i b Hi. pose proof (lookup_lt_Some _ _ _ Hi). cbn [memory start_cpu example_cpu]. unfold example_mem.
  rewrite put_bytes_out by (rewrite length_le_put; lia). by apply put_bytes_in.
Qed.

Lemma loader_starts_kernel_witness :
  ∃ c', _start (0xC0000000 + 4096 * 321) (0xC0000000 + 4096 * 322) (0xC0000000 + 4096 * 330) (0xC0000000 + 4096 * 331)
      (0xC0000000 + 4096 * 320) (0xC0000000 + 4096 * 340) 0xC0140100 start_cpu = Ok (Runs c') ∧
    vread (esp (regs c') + 4) c' = Ok 0x36d76289 ∧
    let m := view c' (0xC0000000 + 4096 * 331 + 8) 176 in
    ∃ maps' frames' cmd, frames_ready frames' 0xC0142000 (Entry 0x100000 0x7EE0000 1) (0xC0000000 + 4096 * 320) (0xC0000000 + 4096 * 340) ∧
      _main (λ f k, Ok (f, k + 1)) (λ a n k, Ok ([a; n], k + 2)) 6 m (0xC0000000 + 4096 * 331 + 8) 0x36D76289
        (0xC0000000 + 4096 * 320) (0xC0000000 + 4096 * 340) (BootState (memory_map_initialize boot_state) (Alloc ∅ 0xC0142000 0 0) 0)
      = Ok (BootState maps' frames' 3, Some (cmd, display_of demo_common (Fmt 8 16 8 8 8 0) [0xFD000000; 6400 * 1200 * 4])).
Proof.
  destruct (loader_starts_kernel (λ f k, Ok (f, k + 1)) (λ a n k, Ok ([a; n], k + 2))
    (0xC0000000 + 4096 * 321) (0xC0000000 + 4096 * 322) (0xC0000000 + 4096 * 330) (0xC0000000 + 4096 * 331)
    (0xC0000000 + 4096 * 320) (0xC0000000 + 4096 * 340) 0xC0140100 321 322 320 start_cpu 176 100000
    boot_tags 0 boot_entries (Entry 0x100000 0x7EE0000 1) (BootState (memory_map_initialize boot_state) (Alloc ∅ 0xC0142000 0 0) 0) 6 demo_layout)
    as ([c'|c'] & Hrun & H);
    [unfold word; lia|unfold word; lia|reflexivity|exact start_loaded|exact start_info_at|vm_compute; reflexivity|
     by eexists|reflexivity|repeat constructor; cbn; lia|cbn; lia|split; [split; cbn; lia|repeat constructor; unfold is_byte; lia]|
     cbn; lia|by apply inv_initialize|reflexivity|cbn; lia|reflexivity| |].
  - destruct H as (_ & Hmagic & Hview & Hmain). exists c'. split; [exact Hrun|]. split; [exact Hmagic|]. intros m.
    destruct (Hmain m Hview) as (maps' & frames' & cmd & Hready & _ & _ & E). exists maps', frames', cmd. split; [exact Hready|exact E].
  - exfalso. revert H. change (s32 100000) with 100000. lia.
Defined.
