(* ===== verification/Kernel.v ===== *)
(** The kernel's main function and the tables of initcalls.

    Source: kernel/kernel/kernel.c, kernel/arch/i386/kernel/initcall.c and
    kernel/include/kernel/initcall.h.

    It joins the parts of the other files: ACPI, scheduler, PCI, console.  The
    tables of the linker are words in the kernel image [image]; what the code at
    an address does is [call].  What is printed is a list of messages.  The tasks
    kernel_idle and kash_main are entry points here; kash_main is modelled in
    Kash.v, kernel_idle is the iteration of [scheduler_yield]. *)
From S2P Require Import Prelude Linked Ports Pci Console Acpi Sched SchedMachine.

(** ** initcall.c *)

Section initcall.
Context {St : Type}.
Variable image : mem.
(** [__initcall<n>_ptrs_start] and [__initcall<n>_ptrs_end]. *)
Variable ptrs_start ptrs_end : Z → Z.
Variable call : Z → St → res St.

Definition invoke_body (initcall_end : Z) (ps : Z * St) : res (ctl (Z * St) St) :=
  let '(initcall_start, st) := ps in
  if negb (initcall_start =? initcall_end) then
    fn ← load32 image initcall_start;
    st ← call fn st;
    Ok (Continue (u32 (initcall_start + 4), st))
  else Ok (Break st).

Definition __invoke_initcall0 (fuel : nat) (st : St) : res St := while fuel (invoke_body (ptrs_end 0)) (ptrs_start 0, st).
Definition __invoke_initcall1 (fuel : nat) (st : St) : res St := while fuel (invoke_body (ptrs_end 1)) (ptrs_start 1, st).
Definition __invoke_initcall2 (fuel : nat) (st : St) : res St := while fuel (invoke_body (ptrs_end 2)) (ptrs_start 2, st).
Definition __invoke_initcall3 (fuel : nat) (st : St) : res St := while fuel (invoke_body (ptrs_end 3)) (ptrs_start 3, st).
Definition __invoke_initcall4 (fuel : nat) (st : St) : res St := while fuel (invoke_body (ptrs_end 4)) (ptrs_start 4, st).

Definition invoke_initcall_early : nat → St → res St := __invoke_initcall0.
Definition invoke_initcall_arch : nat → St → res St := __invoke_initcall1.
Definition invoke_initcall_bus : nat → St → res St := __invoke_initcall2.
Definition invoke_initcall_fs : nat → St → res St := __invoke_initcall3.
Definition invoke_initcall_devices : nat → St → res St := __invoke_initcall4.

(** The functions one after the other. *)
Fixpoint calls (fns : list Z) (st : St) : res St :=
  match fns with [] => Ok st | fn :: fns => st ← call fn st; calls fns st end.

(** The table from [a] to [b] holds [fns]. *)
Fixpoint table_at (a b : Z) (fns : list Z) : Prop :=
  match fns with
  | [] => a = b
  | fn :: fns => a ≠ b ∧ load32 image a = Ok fn ∧ table_at (u32 (a + 4)) b fns
  end.

Lemma invoke_more a b st :
  a ≠ b → invoke_body b (a, st) = (fn ← load32 image a; st ← call fn st; Ok (Continue (u32 (a + 4), st))).
Proof. intros Hab. unfold invoke_body. by rewrite (proj2 (Z.eqb_neq a b)). Qed.

Lemma invoke_calls fuel a b fns st :
  table_at a b fns → (length fns < fuel)%nat → while fuel (invoke_body b) (a, st) = calls fns st.
Proof.
  revert a st fuel. induction fns as [|fn fns IH]; intros a st [|fuel] Ht Hf; cbn [length] in *; try lia; cbn [while calls].
  - cbn in Ht. subst a. unfold invoke_body. by rewrite Z.eqb_refl.
  - destruct Ht as (Hab & Hl & Ht). rewrite (invoke_more a b st Hab), Hl. cbn [mbind res_bind]. destruct (call fn st) as [st'|]; [|done]. cbn [mbind res_bind]. apply IH; [done|lia].
Qed.

Lemma calls_app l k st : calls (l ++ k) st = (st ← calls l st; calls k st).
Proof.
  revert st. induction l as [|x l IH]; intros st; [done|]. cbn [app calls]. destruct (call x st); [apply IH|done].
Qed.

Lemma calls_preserve (R : St → St → Prop) `{!PreOrder R} fns st :
  Forall (λ fn, ∀ st, ∃ st', call fn st = Ok st' ∧ R st st') fns → ∃ st', calls fns st = Ok st' ∧ R st st'.
Proof.
  intros Hf. revert st. induction Hf as [|fn fns Hfn Hf IH]; intros st; cbn [calls]; [by exists st|].
  destruct (Hfn st) as (s1 & -> & R1). cbn [mbind res_bind]. destruct (IH s1) as (s2 & -> & R2). exists s2. split; [done|]. by etrans.
Qed.

(** A table whose ends differ by no multiple of the pointer size has no end. *)
Lemma invoke_misaligned fuel a b st :
  a mod 4 ≠ b mod 4 → ∀ st', while fuel (invoke_body b) (a, st) ≠ Ok st'.
Proof.
  intros Ha st'. revert a st Ha. induction fuel as [|fuel IH]; intros a st Ha; cbn [while]; [done|].
  rewrite (invoke_more a b st) by congruence.
  destruct (load32 image a) as [fn|]; [|done]. cbn [mbind res_bind]. destruct (call fn st) as [s1|]; [|done]. cbn [mbind res_bind].
  apply IH. unfold u32. mlia.
Qed.

End initcall.

(** ** kernel.c *)

Inductive kernel_msg : Type :=
  | Banner
  | CommandLine (cmdline : Z)
  | AcpiMsg (m : acpi_msg)
  | PciLine (l : line).

Section kernel.
Context {P : Type} `{Ports P} {E : Type} `{ConsoleOps E}.

Record kernel : Type := Kernel {
  ksched : Sched.t;
  kpci : Pci.t P;
  kcon : console_t;
  kenv : E;
  out : list kernel_msg;
}.

Definition set_sched (st : kernel) (s : Sched.t) : kernel := Kernel s (kpci st) (kcon st) (kenv st) (out st).
Definition print (st : kernel) (l : list kernel_msg) : kernel := Kernel (ksched st) (kpci st) (kcon st) (kenv st) (out st ++ l).

Variable image : mem.
Variable ptrs_start ptrs_end : Z → Z.
Variable call : Z → kernel → res kernel.
(** What malloc returns: the tasks, their stacks and the content of fresh
    memory; the nodes of the PCI lists. *)
Variable boot_task idle_task kash_task idle_stack kash_stack junk : Z.
Variable alloc : nat → Z.
(** The addresses of the names and the two functions, CR3 and EFLAGS. *)
Variable idle_name kash_name kernel_idle kash_main c3 flags : Z.

Definition kernel_main (fuel : nat) (cmdline : Z) (m : mem) (rsdp_desc : Z) (st : kernel) : res kernel :=
  let st := print st [Banner; CommandLine cmdline] in
  msgs ← acpi_init m rsdp_desc;
  let st := print st (map AcpiMsg msgs) in
  s ← scheduler_initialize (ksched st) boot_task c3 flags;
  s ← scheduler_create_thread s idle_task idle_name kernel_idle idle_stack junk c3 flags;
  e ← console_debug (kcon st) (kenv st);
  '(lines, p) ← pci_init alloc junk 256 (kpci st);
  let st := print (Kernel s p (kcon st) e (out st)) (map PciLine lines) in
  st ← invoke_initcall_bus image ptrs_start ptrs_end call fuel st;
  st ← invoke_initcall_fs image ptrs_start ptrs_end call fuel st;
  st ← invoke_initcall_devices image ptrs_start ptrs_end call fuel st;
  s ← scheduler_create_thread (ksched st) kash_task kash_name kash_main kash_stack junk c3 flags;
  s ← scheduler_exit fuel s;
  Ok (set_sched st s).

(** An initcall that leaves the tasks as they are. *)
Record same_tasks (st st' : kernel) : Prop := {
  same_ring : keeps (ksched st) (ksched st');
  same_running : ∀ p, is_running (task_store (ksched st')) p = is_running (task_store (ksched st)) p;
}.

Global Instance same_tasks_preorder : PreOrder same_tasks.
Proof.
  split; [by split|]. intros x y z [A1 A2] [B1 B2]. split; [by etrans|]. intros p. by rewrite B2, A2.
Qed.

End kernel.
Arguments kernel : clear implicits.

(** ** Properties *)

Section properties.
Context {P : Type} `{Ports P} {E : Type} `{ConsoleOps E}.
Variable image : mem.
Variable ptrs_start ptrs_end : Z → Z.
Variable call : Z → kernel P E → res (kernel P E).
Variable boot_task idle_task kash_task idle_stack kash_stack junk : Z.
Variable alloc : nat → Z.
Variable idle_name kash_name kernel_idle kash_main c3 flags : Z.

(** The scheduler part of [kernel_main] after the initcalls. *)
Lemma start_kash fuel (s0 s2 : Sched.t) :
  NoDup [boot_task; idle_task; kash_task] → kash_task ≠ 0 → (2 < fuel)%nat →
  task_list s0 [boot_task; idle_task] → running_task s0 = boot_task → is_running (task_store s0) idle_task = true →
  keeps s0 s2 → (∀ p, is_running (task_store s2) p = is_running (task_store s0) p) →
  ∃ s3 s4, scheduler_create_thread s2 kash_task kash_name kash_main kash_stack junk c3 flags = Ok s3 ∧
    scheduler_exit fuel s3 = Ok s4 ∧ task_list s4 [idle_task; kash_task] ∧ running_task s4 = idle_task ∧
    Forall (λ p, is_running (task_store s4) p = true) [idle_task; kash_task].
Proof.
  intros Hnd Hk0 Hf Hl Hr Hi Hkeep Hrun. apply NoDup_cons in Hnd as [Hb Hnd]. apply NoDup_cons in Hnd as [Hik _].
  assert (Hl2 : task_list s2 [boot_task; idle_task]).
  { destruct Hkeep as [K1 K2 K3 K4], Hl as ([Hp Hn Hz] & Ht & Htl). split; [|by rewrite K1, K2]. split; [|done..].
    eapply path_frame; [|exact Hp]. intros a _. apply K4. }
  destruct (create_ok s2 _ kash_task kash_name kash_main kash_stack junk c3 flags Hl2) as (s3 & Hs3 & Hl3 & Hr3 & Hk3 & Ho3); [set_solver|done|].
  assert (Er : running_task s3 = boot_task) by (rewrite Hr3, (keeps_running _ _ Hkeep); done).
  assert (Hl3' : task_list s3 ([] ++ running_task s3 :: [idle_task; kash_task])) by by rewrite Er.
  destruct (exit_succeeds fuel s3 [] [idle_task; kash_task] Hl3') as [s4 Hs4]; [done|cbn; lia|].
  destruct (exit_ok fuel s3 [] _ s4 Hl3' Hs4) as [Hl4 _]. exists s3, s4. split; [done|]. split; [done|]. split; [exact Hl4|]. split.
  - unfold scheduler_exit in Hs4. pose proof (task_list_ring _ _ _ Hl3') as [[Hnx _] _ _].
    rewrite (get_next_ok _ _ _ Hnx) in Hs4. cbn [mbind res_bind hd app] in Hs4. destruct (_ || _); [done|]. cbv zeta in Hs4.
    rewrite Er in Hs4. destruct (remove_head_ok fuel (set_running s3 idle_task) boot_task [idle_task; kash_task]) as (s5 & Hs5 & _ & Hr5); [by rewrite Er in Hl3'|done|].
    rewrite Hs5 in Hs4. injection Hs4 as <-. exact Hr5.
  - repeat constructor; rewrite (exit_running _ _ _ _ Hs4); [|done]. rewrite Ho3 by set_solver. by rewrite Hrun.
Qed.

(** The first two tasks. *)
Lemma boot_two (st : kernel P E) :
  NoDup [boot_task; idle_task; kash_task] → 0 ∉ [boot_task; idle_task; kash_task] →
  ∃ s1 s2, scheduler_initialize (ksched st) boot_task c3 flags = Ok s1 ∧
    scheduler_create_thread s1 idle_task idle_name kernel_idle idle_stack junk c3 flags = Ok s2 ∧
    task_list s2 [boot_task; idle_task] ∧ running_task s2 = boot_task ∧ is_running (task_store s2) idle_task = true.
Proof.
  intros Hnd Hz. destruct (initialize_succeeds (ksched st) boot_task c3 flags) as [s1 Hs1].
  destruct (sched_init_ok (ksched st) boot_task c3 flags s1) as [Hl Hr]; [set_solver|done|].
  apply NoDup_cons in Hnd as [Hb _].
  destruct (create_ok s1 _ idle_task idle_name kernel_idle idle_stack junk c3 flags Hl) as (s2 & Hs2 & Hl2 & Hr2 & Hi2 & _); [set_solver|set_solver|].
  exists s1, s2. split_and!; try done. by rewrite Hr2.
Qed.

Lemma two_alternate fuel s n :
  task_list s [idle_task; kash_task] → running_task s = idle_task →
  Forall (λ p, is_running (task_store s) p = true) [idle_task; kash_task] → (1 < fuel)%nat →
  yields fuel n s = Ok (set_running s (if Nat.even n then idle_task else kash_task)).
Proof.
  intros [Hring _] Hr Hi Hf. destruct (yields_ok fuel n s [kash_task]) as (p & -> & Hp); [by rewrite Hr..|cbn; lia|].
  rewrite Hr in Hp. cbn [length] in Hp. do 2 f_equal. destruct (Nat.even n) eqn:En.
  - apply Nat.even_spec in En as [k ->]. rewrite Nat.mul_comm, Nat.Div0.mod_mul in Hp. by injection Hp.
  - assert (Nat.odd n = true) as Ho by by rewrite <- Nat.negb_even, En.
    apply Nat.odd_spec in Ho as [k ->]. rewrite Nat.mul_comm, Nat.add_comm, Nat.Div0.mod_add in Hp. by injection Hp.
Qed.

(** C1: [kernel_main] on a machine with an ACPI table and bridges that lead to
    larger bus numbers, with memory for every node and task, and with initcalls that
    return and leave the tasks as they are: it reports the ACPI table and the PCI
    functions (all but the PCI-to-PCI bridges), calls each entry of the bus, file system and device tables once and in this order, and ends by
    leaving the processor to the task idle, with kash behind it; from then on
    [scheduler_yield] alternates between the two. *)
Theorem kernel_main_starts_tasks (cfg : Z → Z) fuel cmdline m rsdp msgs bus fs devices (st : kernel P E) :
  (∀ a b p, (inl PCI_CONFIG_DATA (outb 128 b (outl PCI_CONFIG_ADDRESS a p))).1 = cfg a) →
  (∀ i j, alloc i = alloc j → i = j) → (∀ i, alloc i ≠ 0) → bridges_increase cfg →
  acpi_init m rsdp = Ok msgs → is_Some (match console_debug (kcon st) (kenv st) with Ok e => Some e | _ => None end) →
  NoDup [boot_task; idle_task; kash_task] → 0 ∉ [boot_task; idle_task; kash_task] →
  table_at image (ptrs_start 2) (ptrs_end 2) bus → table_at image (ptrs_start 3) (ptrs_end 3) fs →
  table_at image (ptrs_start 4) (ptrs_end 4) devices →
  Forall (λ fn, ∀ st, ∃ st', call fn st = Ok st' ∧ same_tasks st st') (bus ++ fs ++ devices) →
  (2 + length (bus ++ fs ++ devices) < fuel)%nat →
  ∃ l st1 st2 st', machine_spec cfg 256 = Some l ∧
    out st1 = out st ++ Banner :: CommandLine cmdline :: map AcpiMsg msgs ++ map PciLine (report_spec l) ∧
    calls call (bus ++ fs ++ devices) st1 = Ok st2 ∧
    kernel_main image ptrs_start ptrs_end call boot_task idle_task kash_task idle_stack kash_stack junk alloc
      idle_name kash_name kernel_idle kash_main c3 flags fuel cmdline m rsdp st = Ok st' ∧
    st' = set_sched st2 (ksched st') ∧
    task_list (ksched st') [idle_task; kash_task] ∧ running_task (ksched st') = idle_task ∧
    ∀ n, yields fuel n (ksched st')
      = Ok (set_running (ksched st') (if Nat.even n then idle_task else kash_task)).
Proof.
  intros Hhost Hinj Hnz Hinc Hacpi [e He] Hnd Hz Tb Tf Td Hcalls Hf.
  destruct (machine_spec_total cfg Hinc) as [l Hl]. exists l.
  unfold kernel_main. rewrite Hacpi. cbn [mbind res_bind print ksched kpci kcon kenv out].
  destruct (boot_two st) as (s1 & s2 & Hs1 & Hs2 & Hl2 & Hr2 & Hi2); [done|done|].
  rewrite Hs1. cbn [mbind res_bind]. rewrite Hs2. cbn [mbind res_bind].
  destruct (console_debug (kcon st) (kenv st)) as [e'|]; [|done]. injection He as ->. cbn [mbind res_bind].
  destruct (Pci.init_ok cfg alloc junk Hhost Hinj Hnz 256 (kpci st) l Hl) as (p & L & -> & _). cbn [mbind res_bind].
  set (st1 := print _ _). exists st1.
  destruct (calls_preserve call same_tasks _ st1 Hcalls) as (st2 & Hst2 & [Hring Hrun]). exists st2.
  assert (Hseq : ∀ k, (st ← calls call bus st1; st ← calls call fs st; st ← calls call devices st; k st) = (k st2 : res (kernel P E))).
  { intros k. rewrite !calls_app in Hst2. destruct (calls call bus st1) as [x|]; [|done]. cbn [mbind res_bind] in *.
    rewrite calls_app in Hst2. destruct (calls call fs x) as [y|]; [|done]. cbn [mbind res_bind] in *. by rewrite Hst2. }
  rewrite !length_app in Hf. unfold invoke_initcall_bus, invoke_initcall_fs, invoke_initcall_devices, __invoke_initcall2, __invoke_initcall3, __invoke_initcall4.
  rewrite (invoke_calls image call fuel _ _ bus st1 Tb) by lia.
  assert (Hinv : ∀ k : kernel P E → res (kernel P E),
    (st ← calls call bus st1; st ← while fuel (invoke_body image call (ptrs_end 3)) (ptrs_start 3, st);
       st ← while fuel (invoke_body image call (ptrs_end 4)) (ptrs_start 4, st); k st) = k st2).
  { intros k. rewrite <- Hseq. destruct (calls call bus st1) as [x|]; [|done]. cbn [mbind res_bind].
    rewrite (invoke_calls image call fuel _ _ fs x Tf) by lia. destruct (calls call fs x) as [y|]; [|done]. cbn [mbind res_bind].
    by rewrite (invoke_calls image call fuel _ _ devices y Td) by lia. }
  rewrite Hinv. destruct (start_kash fuel s2 (ksched st2)) as (s3 & s4 & -> & Hs4 & Hl4 & Hr4 & Hi4); [done|set_solver|lia|done..|].
  cbn [mbind res_bind]. rewrite Hs4. cbn [mbind res_bind]. exists (set_sched st2 s4).
  split; [done|]. split; [by cbn; rewrite <- !(assoc_L (++))|]. split; [done|]. split; [done|]. split; [done|]. split; [done|]. split; [done|].
  intros n. cbn [ksched set_sched]. apply two_alternate; [done..|lia].
Qed.

End properties.

(** The early and the arch initcalls: every entry of a table of the linker
    whose length is a multiple of the pointer size is called once, in order, each
    on the state the one before left, and a fault of an entry is that of the
    whole; with ends that are not a multiple of four apart the loop never
    returns. *)
Theorem initcall_tables {St} image ptrs_start ptrs_end (call : Z → St → res St) fuel (st : St) :
  (∀ fns, table_at image (ptrs_start 0) (ptrs_end 0) fns → (length fns < fuel)%nat →
     invoke_initcall_early image ptrs_start ptrs_end call fuel st = calls call fns st) ∧
  (∀ fns, table_at image (ptrs_start 1) (ptrs_end 1) fns → (length fns < fuel)%nat →
     invoke_initcall_arch image ptrs_start ptrs_end call fuel st = calls call fns st) ∧
  (ptrs_start 0 mod 4 ≠ ptrs_end 0 mod 4 → ∀ st', invoke_initcall_early image ptrs_start ptrs_end call fuel st ≠ Ok st') ∧
  (ptrs_start 1 mod 4 ≠ ptrs_end 1 mod 4 → ∀ st', invoke_initcall_arch image ptrs_start ptrs_end call fuel st ≠ Ok st').
Proof.
  split; [|split; [|split]].
  - intros fns Ht Hf. by apply invoke_calls.
  - intros fns Ht Hf. by apply invoke_calls.
  - intros Ha. by apply invoke_misaligned.
  - intros Ha. by apply invoke_misaligned.
Qed.

(** ** Example: an ACPI 2.0 machine with one device initcall *)

#[local] Instance quiet_ops : ConsoleOps unit := {| op_redraw := λ _ e, Ok e; serial_debug_putch := λ _ e, e |}.

Definition ex_image : mem := list_to_map (zip (seqZ 0x2000 4) (le_put 4 0x5000)).
Definition ex_end (level : Z) : Z := if level =? 4 then 0x2004 else 0x2000.
(** The initcall prints its address. *)
Definition ex_call (fn : Z) (st : kernel Z unit) : res (kernel Z unit) := Ok (print st [CommandLine fn]).
Definition ex_rsdp_mem : mem := {[ 0x10F := 2 ]}.
Definition ex_kernel : kernel Z unit :=
  Kernel (Sched.Sched ∅ ∅ ∅ 0 0 0 0) demo_pci (Console.Console 8 2 0 0 7 3 [] [] 0 []) tt [].

Lemma kernel_main_starts_tasks_witness :
  let _ := host_bridge (demo_cfg 1) in
  ∃ l st1 st2 st', machine_spec (demo_cfg 1) 256 = Some l ∧
    out st1 = [] ++ Banner :: CommandLine 0x3000 :: map AcpiMsg [Acpi2 0x100] ++ map PciLine (report_spec l) ∧
    calls ex_call [0x5000] st1 = Ok st2 ∧
    kernel_main ex_image (λ _, 0x2000) ex_end ex_call 8 16 24 4096 8192 0 demo_alloc 0 0 1 2 0 0 10 0x3000 ex_rsdp_mem 0x100 ex_kernel = Ok st' ∧
    st' = set_sched st2 (ksched st') ∧
    task_list (ksched st') [16; 24] ∧ running_task (ksched st') = 16 ∧
    ∀ n, yields 10 n (ksched st') = Ok (set_running (ksched st') (if Nat.even n then 16 else 24)).
Proof.
  intros hb.
  apply (@kernel_main_starts_tasks Z hb unit quiet_ops ex_image (λ _, 0x2000) ex_end ex_call 8 16 24 4096 8192 0 demo_alloc 0 0 1 2 0 0
    (demo_cfg 1) 10 0x3000 ex_rsdp_mem 0x100 [Acpi2 0x100] [] [] [0x5000] ex_kernel);
    [done|exact demo_alloc_inj|exact demo_alloc_nonzero|exact demo_increases|reflexivity|by exists tt| | |reflexivity|reflexivity| | |cbn; lia].
  - repeat constructor; set_solver.
  - set_solver.
  - split; [done|]. split; [reflexivity|reflexivity].
  - repeat constructor. intros st. eexists. split; [reflexivity|]. by split.
Defined.
